(* ===== verification/_CoqProject ===== *)
-Q . S2P
Prelude.v
RustStr.v
Json.v
Status.v
Cavp.v
Proto.v
Domain.v
Wire.v
Backend.v
BackendFacts.v
Verdict.v
KemOrder.v
Effects.v
Rely.v
World.v
Stream.v
Store.v
Registry.v
Asking.v
Probe.v
Exchange.v
GoAdapter.v
Kem.v
Fixtures.v
ProbeFacts.v
Protocol.v
Concurrency.v
KemFacts.v
KemModes.v
KemMatrix.v
Upsert.v
Api.v
Walk.v
Footprint.v
Worker.v
WorkerFacts.v
KemCompany.v
SubtaskCompany.v
Recovery.v
ApiFacts.v
WorkerStory.v
ApiKem.v
ApiKemFacts.v
ApiCavp.v
ApiCavpFacts.v
ApiSubtasks.v
ApiCatalog.v
ApiSeed.v
Derived.v
Deployed.v
ApiLive.v
ApiHealth.v
ApiRoutes.v
Schema.v
Reachable.v
Startup.v
Settled.v
ApiLiveFacts.v
LiveMatrix.v
UnitTests.v
