(* ===== verification/Prelude.v ===== *)
(** * PQ-CAS: a verified model of the post-quantum lab services

    The repository is a teaching platform. Students ask an API to probe a TLS target with
    every pair of a key-exchange group and a signature algorithm, to run KEM demonstrations
    against a target, and to have their answers to CAVP question packs graded. The API
    stores rows in Postgres and puts jobs on Redis streams; workers take the jobs, ask an
    adapter per TLS stack to do the handshakes, write reports and publish events that the
    browser shows live. This library models the Rust part of it and the Go adapter, and
    proves what the parts promise each other, from the request of a student to the closed
    test, the finished console and the graded session.

    ** Files, and the code they follow (paths under [src/])

    Foundations:
    - [Prelude]: results, options, integer casts, lists, sorting; used by every file.
    - [RustStr]: the [str] functions the sources call (trimming, splitting, searching,
      numbers), on UTF-8 bytes.
    - [Json]: [serde_json] as a class, with the laws some theorems need.
    - [Effects]: an [async fn] as a program of atomic operations; running one, interleaving
      several, and termination of every interleaving. [Rely]: what a program achieves in the
      company of others ([wp], [in_company]) and what it guarantees them ([assures]).

    Libraries of the repository:
    - [Status], [Domain]: [crates/pqcas-domain] (enums and their spellings, rows, jobs,
      events, [classify]).
    - [Proto]: [crates/adapter-proto], the contract between worker and adapters.
    - [Wire]: the JSON that the [serde] attributes give the structs of [adapter-proto] and of
      [jobs.rs], written and read ([Wire], [WireLaws]).
    - [Cavp]: [crates/cavp-validate], the grading of a submission.

    The command-line adapter ([adapters/cli]):
    - [Backend]: command lines, output parsers and the mock stack of [backend.rs], the
      configuration of [main.rs], the two handlers of [server.rs]; [BackendFacts] its
      theorems; [Verdict] what the worker concludes from a probe of the mock. [Exchange]:
      its endpoints as text in and text out, joined to the client of the worker.

    The Go adapter ([adapters/go]):
    - [GoAdapter]: [main.go] with its tests: the same contract in structs of its own,
      [probe] over a peer that may do anything, the endpoints, joined to the client of the
      worker.

    The worker ([services/worker/src]):
    - [World]: the tables of [services/api/migrations/0001_init.sql], the streams, the
      published events, the acknowledged entries, the capability cache, and the environment.
    - [Stream]: [stream.rs]; [Store]: [store.rs]; [Registry]: [adapters.rs] and
      [Config::adapter_map]; [Probe]: [probe.rs]; [KemOrder] and [Kem]: [kem.rs];
      [Worker]: [main.rs].
    - [Asking]: what asking an adapter does, beside others; [Walk], [Footprint]: what the
      statements of a handler respect, the handler respects.
    - [ProbeFacts], [Protocol], [Concurrency], [KemFacts], [KemModes], [KemMatrix],
      [WorkerFacts]: their theorems. [KemCompany], [SubtaskCompany]: one run, one subtask
      among all other tasks of the process. [Recovery]: workers that die.
      [Fixtures]: a small deployment for the witnesses.
    - [WorkerStory]: API, streams and worker together.

    The API ([services/api/src]):
    - [Api]: [error.rs], [queue.rs], [config.rs], [routes/tests.rs]; [ApiFacts] its theorems.
    - [ApiKem]: [routes/kem.rs]; [ApiKemFacts]. [ApiCavp]: [routes/cavp.rs];
      [ApiCavpFacts]. [ApiSubtasks]: [routes/subtasks.rs] with its theorem.
    - [Upsert]: [INSERT ... ON CONFLICT DO UPDATE] as an operation on a table, with the laws
      its instances satisfy; [ApiCatalog]: [routes/catalog.rs]; [ApiSeed]: [seed.rs].
    - [ApiLive]: [routes/sse.rs], the two [events] handlers and what the components
      [test-matrix.tsx] and [kem-runner.tsx] of [apps/web] make of the messages;
      [ApiLiveFacts] and [LiveMatrix] compare it with the database. [ApiHealth]:
      [routes/health.rs]. [ApiRoutes]: [routes/mod.rs].
    - [Derived]: the JSON of the remaining structs (answer keys, reports, seed files), and
      with it the instances of the classes the handlers were modelled over.

    All services:
    - [Schema]: the constraints of [0001_init.sql] and the columns that belong to each
      status, as an invariant of the tables; [Reachable]: every handler keeps it, under any
      interleaving. [Settled]: no test is closed early.
    - [Startup]: the [main]s with their arguments and defaults ([main.rs], [config.rs],
      [state.rs]): migrating, seeding, serving, starting a worker or an adapter, stopping.
    - [Deployed]: worker, queue and adapter image with the JSON between them filled in.
    - [UnitTests]: every unit test of the Rust code, evaluated on the model.

    ** State and operations

    A struct is a [Record] in a [Module] of its name, an enum an [Inductive]; a definition
    has the name of its function, and a part of a long function is a definition of its own
    ([check_body], [expand], [insert_test], ... of [create_test]). A service function is a
    program over [World]: a SQL statement or a transaction, a Redis command, a request to
    an adapter and a reading of the clock are one operation each, and operations of
    different tasks interleave. The environment [Env] decides, per operation, whether a
    statement works, fails, or takes effect and loses its reply, what [gen_random_uuid]
    yields, in which order [RETURNING] lists rows, and what the adapters answer. A theorem
    about a working database assumes [reliable]; the adapters are never assumed to be
    well behaved unless the theorem says how. The process of the worker is a transition
    system ([worker_step]): rounds of deliveries, permits, spawned tasks, back-off and
    shutdown; what Redis answers to a read is open. An [UPDATE ... WHERE id] changes at most the
    row with that key; primary-key, unique, foreign-key and check constraints are checked
    where the statement can meet them. Integers keep their Rust width where a cast can wrap ([as_u16], [as_i32],
    [as_u32], [as_i64], [as_u64]); parsers bound what they read.

    Interfaces: [SerdeJson], [JsonText], [Hex], [RedisValue], [UuidDisplay], [UuidParse],
    [Chrono], [ClientExec], [Base64], [HttpTexts], [SerdeTexts], [GoJson] and [CryptoTls] stand
    for crates, for Go's libraries and for the operating system; the classes with laws or used under hypotheses have concrete
    instances in the witnesses. So do [EventWire] (a message on its way from the worker to
    the browser) and [Axum] with [AxumLaws] (the routes a router has and which one
    answers). [ReportJson], [JobJson], [CavpJson] and [SeedJson] are what the handlers need
    of derived code; the theorems about handlers hold for every instance, and [Derived]
    gives the one of the repository ([report_json], [job_json], [cavp_json], [seed_json]). [Quiet] is what the adapter registry promises to the
    handlers (asking an adapter changes no table, publishes and acknowledges nothing);
    [PgEnum] with [PgEnumLaws] is what the macro [pg_enum!] generates; [Upsert] with
    [UpsertLaws] is what an upsert statement says of its columns.

    ** The theorems

    - From the request to the verdict: [request_to_verdict] (a posted test is closed by the
      workers that get its entries, however many of them die), [deaths_recovered] (a dead
      worker strands nothing), [worker_closes_test] (in any mix of deliveries, each job at
      least once), [handlers_refine_protocol] (the handlers implement the protocol of
      [Protocol]), [worker_settles_subtask] (one subtask, from its job to the drawer),
      [deployed_verdict] (one subtask, with the code of the adapter image and the text of
      the queue entry in place of the environment);
      [never_closed_early] (whatever fails, a closed test has all its verdicts).
    - What crosses a process boundary arrives: [wire_round_trips], [queued_jobs_decode] (API
      to worker), [adapter_exchange] and [go_exchange] (worker to adapter and back),
      [cavp_documents_survive] (handler to database and back).
    - Starting and stopping: [deploy_ready] (migrate, seed, serve, and the same again
      changes nothing), [startup_safe] (nothing is served without its tables, no start loses
      rows), [server_drains].
    - What the browser shows: [live_matrix_is_stored] (the live grid ends as the stored one),
      [kem_run_story] (request, worker, live console and read-back), [late_browser_waits].
    - The worker loop: [worker_acknowledges], [worker_bounded], [worker_comes_to_rest],
      [autoclaim_reads_back].
    - The tables: [reachable_db_wf] (every reachable database is well formed) and
      [references_resolve] (so reads never meet a dangling reference).
    - A request becomes rows and jobs: [create_test_expands], [create_test_refused],
      [created_matrix], [drawer_walks_matrix].
    - The catalog: [seed_idempotent], [seed_establishes], [create_endpoint_spec].
    - A KEM run becomes a console: [worker_completes_runs] (among all other tasks of the
      worker), [group_compat_console], [library_compat_matrix],
      [priority_recovers_order], [priority_loop_total], [kem_redelivery_stuck];
      [evaluate_order_spec] for the judgement of an order.
    - A submission is graded: [cavp_session_story], [answer_key_hidden], [all_correct_iff],
      [validate_accepts], [reference_answers_pass].
    - An adapter answers: [run_response_wf], [openssl_summary_read_back],
      [parse_openssl_certs_chain], [mock_verdict].
    - The edge of the API: [router_serves] (every URL finds its handler, behind the right
      layers), [metrics_scraped] (a scraper reads the counts of the tables).

    Lemmas beside them record smaller facts: [concurrent_handlers_close_test],
    [handle_configured], [handle_unconfigured], [handle_ok_settles],
    [kem_handle_transcript], [list_algorithms_spec], [adapter_map_read_back],
    [validate_report_wf], [metrics_hide_outage], [readyz_spec], [dedupe_spec], [blank_selection_accepted],
    [classify_spec], [check_hex_classification], [validate_reads_three_members],
    [openssl_args_offer], [client_args_ignore_offer], [priority_stops_at_alias],
    [evaluate_order_clean], [capabilities_cached], [from_str_as_str], [created_test_closes].

    Some of them state behaviour that a comment or a document of the repository describes
    otherwise; their own comments say so.

    ** Recursion

    Every definition is structural except the loop of [priority] ([priority_loop]), which
    takes fuel. It is started with the length of the offer; a round shortens the offer or
    leaves the loop, so that is enough ([priority_loop_total]: more fuel changes nothing).
    String functions that skip a variable number of bytes recurse on the string through
    its tails. A program is a finite tree, so [run] needs no fuel, and [step_terminates]
    shows that no interleaving runs for ever.

    ** Not modelled

    Connection pools, timeouts of the HTTP client, tracing, the keep-alive comments of the
    event streams, percent-decoding of URLs and the extractors of [axum] are calls into
    libraries; so are [clap] and [sqlx::migrate!], of which [Startup] has what the code asks
    of them. A pipeline of [XADD] is one operation, so a pipeline cut in the middle is not
    a behaviour of the model, and a console counter of type [i32] is an integer (no run
    writes 2^31 lines). What Redis keeps for the consumer group (pending entries, idle
    times) is not modelled: a round may deliver anything. The theorems that close tests
    assume that each probe job was delivered at least once; those on one KEM run and on the
    live matrix that its job was delivered once (a second delivery is
    [kem_redelivery_stuck]); [deaths_recovered] that one life of a worker is given an entry
    at most once: an entry that is claimed while its first handler still runs is
    acknowledged by whichever handler ends first. Of derived code, [sqlx]'s row decoding is
    left out (a row is its record) and the JSON the API sends to browsers is not spelled
    out; JSON columns keep their [Value]. The decoders of [Wire] read what the programs
    write: that [serde] also accepts a struct as an array of its fields, or a unit variant
    as an object, is not modelled. An event on its way to the browser passes the class
    [EventWire]: its integers are unbounded in the model, [wire_round_trips] covers the
    values of the Rust types. Names of members are compared exactly, also where Go ignores
    case. The rest of the web front end is rendering in TypeScript.

    ** Beyond this library

    Open: statements that fail along the runs that close a test, with the retries of the
    stream loop; deliveries of a probe job that overlap while the live matrix is shown; the
    reconnection of an event stream. *)

From stdpp Require Export base tactics option list sorting gmap strings pretty.
From Stdlib Require Export ZArith Lia.

(** ** Results and the [?] operator *)

(** [Result<T, E>]. *)
Inductive result (E A : Type) : Type :=
| Ok (a : A)
| Err (e : E).
Arguments Ok {E A} a.
Arguments Err {E A} e.

#[export] Instance result_eq_dec {E A} `{EqDecision E, EqDecision A} :
  EqDecision (result E A).
Proof. solve_decision. Defined.

(** [m?] followed by the rest of the function. *)
Definition result_bind {E A B} (m : result E A) (k : A → result E B) : result E B :=
  match m with
  | Ok a => k a
  | Err e => Err e
  end.

(** [m.map_err(f)]. *)
Definition map_err {E F A} (f : E → F) (m : result E A) : result F A :=
  match m with
  | Ok a => Ok a
  | Err e => Err (f e)
  end.

(** [o.ok_or_else(|| e)]. *)
Definition ok_or {E A} (e : E) (o : option A) : result E A :=
  match o with
  | Some a => Ok a
  | None => Err e
  end.

Definition is_ok {E A} (m : result E A) : bool :=
  match m with
  | Ok _ => true
  | Err _ => false
  end.

(** [o.unwrap_or(d)] and [o.or_else(|| o2)]. *)
Definition unwrap_or {A} (d : A) (o : option A) : A :=
  match o with
  | Some a => a
  | None => d
  end.

Definition or_else {A} (o1 o2 : option A) : option A :=
  match o1 with
  | Some a => Some a
  | None => o2
  end.

(** [Some(x).filter(p)]. *)
Definition opt_filter {A} (p : A → bool) (o : option A) : option A :=
  match o with
  | Some a => if p a then Some a else None
  | None => None
  end.

Declare Scope rust_scope.
Delimit Scope rust_scope with rust.
Notation "'let?' x := m 'in' k" := (result_bind m (λ x, k))
  (at level 10, x binder, m at level 100, k at level 200) : rust_scope.

(** ** Casts between machine integers, [z as u16] and the like *)

Definition as_u16 (z : Z) : Z := (z mod 2 ^ 16)%Z.
Definition as_u32 (z : Z) : Z := (z mod 2 ^ 32)%Z.
Definition as_u64 (z : Z) : Z := (z mod 2 ^ 64)%Z.
Definition as_i32 (z : Z) : Z := ((z + 2 ^ 31) mod 2 ^ 32 - 2 ^ 31)%Z.
Definition as_i64 (z : Z) : Z := ((z + 2 ^ 63) mod 2 ^ 64 - 2 ^ 63)%Z.

(** [v.into_iter().find(p)] on a list. *)
Fixpoint find_first {A} (p : A → bool) (l : list A) : option A :=
  match l with
  | [] => None
  | x :: r => if p x then Some x else find_first p r
  end.

(** [v.iter().find_map(f)]. *)
Fixpoint find_map {A B} (f : A → option B) (l : list A) : option B :=
  match l with
  | [] => None
  | x :: r => match f x with Some y => Some y | None => find_map f r end
  end.

(** [v.first()]. *)
Definition first {A} (l : list A) : option A :=
  match l with
  | [] => None
  | x :: _ => Some x
  end.

(** ** Lemmas *)

Create HintDb rust.
Create Rewrite HintDb rust.

Lemma as_u16_range z : (0 ≤ as_u16 z < 65536)%Z.
Proof. apply Z.mod_pos_bound. lia. Qed.

Lemma as_u16_small z : (0 ≤ z < 65536)%Z → as_u16 z = z.
Proof. intros. unfold as_u16. rewrite Z.mod_small; lia. Qed.

Lemma as_u32_small z : (0 ≤ z < 4294967296)%Z → as_u32 z = z.
Proof. intros. unfold as_u32. rewrite Z.mod_small; lia. Qed.

Lemma as_i32_small z : (-2147483648 ≤ z < 2147483648)%Z → as_i32 z = z.
Proof. intros. unfold as_i32. rewrite Z.mod_small; lia. Qed.

Lemma as_i64_small z : (-9223372036854775808 ≤ z < 9223372036854775808)%Z → as_i64 z = z.
Proof. intros. unfold as_i64. rewrite Z.mod_small; lia. Qed.

#[export] Hint Rewrite as_u16_small as_u32_small as_i32_small as_i64_small using lia : rust.

Lemma result_bind_ok {E A B} (m : result E A) (k : A → result E B) b :
  result_bind m k = Ok b ↔ ∃ a, m = Ok a ∧ k a = Ok b.
Proof. destruct m; simpl; naive_solver. Qed.

Lemma result_bind_err {E A B} (m : result E A) (k : A → result E B) e :
  result_bind m k = Err e ↔ m = Err e ∨ ∃ a, m = Ok a ∧ k a = Err e.
Proof. destruct m; simpl; naive_solver. Qed.

Lemma ok_or_ok {E A} (e : E) (o : option A) a : ok_or e o = Ok a ↔ o = Some a.
Proof. destruct o; simpl; naive_solver. Qed.

(** [find_first] is the first element that satisfies the predicate. *)
Lemma find_first_Some {A} (p : A → bool) l x :
  find_first p l = Some x ↔
  ∃ l1 l2, l = l1 ++ x :: l2 ∧ p x = true ∧ Forall (λ y, p y = false) l1.
Proof.
  split.
  - induction l as [|y l IH]; [done|]. simpl. destruct (p y) eqn:Hy.
    + intros [= ->]. exists [], l. auto.
    + intros (l1 & l2 & -> & Hx & Hl)%IH. exists (y :: l1), l2. auto.
  - intros (l1 & l2 & -> & Hx & Hl). induction Hl as [|y l1 Hy Hl IH]; simpl.
    + by rewrite Hx.
    + by rewrite Hy.
Qed.

Lemma find_first_None {A} (p : A → bool) l :
  find_first p l = None ↔ Forall (λ y, p y = false) l.
Proof.
  induction l as [|y l IH]; simpl; [split; auto|].
  rewrite Forall_cons. destruct (p y); naive_solver.
Qed.

Lemma find_first_app {A} (p : A → bool) l1 l2 :
  find_first p (l1 ++ l2) = or_else (find_first p l1) (find_first p l2).
Proof. induction l1 as [|y l IH]; simpl; [by destruct (find_first p l2)|]. by destruct (p y). Qed.

Lemma find_map_Some {A B} (f : A → option B) l y :
  find_map f l = Some y ↔
  ∃ l1 x l2, l = l1 ++ x :: l2 ∧ f x = Some y ∧ Forall (λ z, f z = None) l1.
Proof.
  split.
  - induction l as [|x l IH]; [done|]. simpl. destruct (f x) eqn:Hx.
    + intros [= ->]. exists [], x, l. auto.
    + intros (l1 & z & l2 & -> & Hz & Hl)%IH. exists (x :: l1), z, l2. auto.
  - intros (l1 & x & l2 & -> & Hx & Hl). induction Hl as [|z l1 Hz Hl IH]; simpl.
    + by rewrite Hx.
    + by rewrite Hz.
Qed.

Lemma find_map_None {A B} (f : A → option B) l :
  find_map f l = None ↔ Forall (λ z, f z = None) l.
Proof.
  induction l as [|x l IH]; simpl; [split; auto|].
  rewrite Forall_cons. destruct (f x); naive_solver.
Qed.

Lemma find_map_app {A B} (f : A → option B) l1 l2 :
  find_map f (l1 ++ l2) = or_else (find_map f l1) (find_map f l2).
Proof. induction l1 as [|y l IH]; simpl; [by destruct (find_map f l2)|]. by destruct (f y). Qed.

(** ** Lists *)

Lemma filter_all {A} (P : A → Prop) `{∀ x, Decision (P x)} (l : list A) :
  (∀ x, x ∈ l → P x) → filter P l = l.
Proof.
  induction l as [|x l IH]; intros Hl; [done|]. rewrite filter_cons_True by (apply Hl; by left).
  f_equal. apply IH. intros y Hy. apply Hl. by right.
Qed.

Lemma filter_none {A} (P : A → Prop) `{∀ x, Decision (P x)} (l : list A) :
  (∀ x, x ∈ l → ¬ P x) → filter P l = [].
Proof.
  induction l as [|x l IH]; intros Hl; [done|]. rewrite filter_cons_False by (apply Hl; by left).
  apply IH. intros y Hy. apply Hl. by right.
Qed.

Lemma map_to_list_union {K} `{Countable K} {A} (m1 m2 : gmap K A) :
  m1 ##ₘ m2 → map_to_list (m1 ∪ m2) ≡ₚ map_to_list m1 ++ map_to_list m2.
Proof.
  intros Hd. apply NoDup_Permutation.
  - apply NoDup_map_to_list.
  - apply NoDup_app. split_and!; [apply NoDup_map_to_list| |apply NoDup_map_to_list].
    intros [k a] H1%elem_of_map_to_list H2%elem_of_map_to_list.
    by eapply map_disjoint_spec in H2.
  - intros [k a]. rewrite elem_of_app, !elem_of_map_to_list.
    by apply lookup_union_Some.
Qed.

(** ** Tactics *)

(** Case analysis on the [match]es of the goal, closing the impossible branches. *)
Ltac split_cases := repeat (case_match; simplify_eq/=; try done).

(** Open every existential and conjunction of the context. *)
Ltac destruct_ex_and :=
  repeat match goal with
  | H : ∃ _, _ |- _ => destruct H
  | H : _ ∧ _ |- _ => destruct H
  end.

Lemma alter_some {K A} `{Countable K} (f : A → A) (m : gmap K A) i x :
  m !! i = Some x → alter f i m = <[i := f x]> m.
Proof.
  intros Hx. apply map_eq. intros j. destruct (decide (i = j)) as [<-|Hne].
  - by rewrite lookup_alter_eq, lookup_insert_eq, Hx.
  - by rewrite lookup_alter_ne, lookup_insert_ne.
Qed.

(** ** Sorted lists *)

(** [ORDER BY] of a list that has only one order. *)
Lemma merge_sort_unique {A} (R : relation A) `{!RelDecision R, !Transitive R, !Total R}
    (l l' : list A) :
  (∀ x y, x ∈ l' → y ∈ l' → R x y → R y x → x = y) →
  StronglySorted R l' → l ≡ₚ l' → merge_sort R l = l'.
Proof.
  intros Ha Hs Hp. apply (StronglySorted_unique_strong R).
  - intros x y Hx. rewrite merge_sort_Permutation, Hp in Hx. by apply Ha.
  - by apply StronglySorted_merge_sort.
  - done.
  - by rewrite merge_sort_Permutation.
Qed.

Lemma imap_sorted {A B} (R : relation B) (f : nat → A → B) (l : list A) :
  (∀ i j x y, i < j → R (f i x) (f j y)) → StronglySorted R (imap f l).
Proof.
  revert f. induction l as [|x l IH]; intros f Hf; rewrite ?imap_cons; constructor.
  - apply IH. intros i j a b Hij. apply Hf. lia.
  - apply Forall_forall. intros b (j & y & -> & _)%elem_of_lookup_imap. apply Hf. lia.
Qed.

Lemma imap_NoDup {A B} (f : nat → A → B) (l : list A) :
  (∀ i j x y, f i x = f j y → i = j) → NoDup (imap f l).
Proof.
  intros Hf. apply NoDup_alt. intros i j b. rewrite !list_lookup_imap.
  destruct (l !! i), (l !! j); try done. cbn. intros [= <-] [= He]. by eapply Hf.
Qed.

Lemma StronglySorted_impl {A} (R S : relation A) (l : list A) :
  (∀ x y, R x y → S x y) → StronglySorted R l → StronglySorted S l.
Proof.
  intros HRS. induction 1 as [|x l Hs IH Hx]; constructor; [done|].
  eapply Forall_impl; [exact Hx|]. apply HRS.
Qed.

(** A table whose rows carry their key has no row twice. *)
(** The rows of a table. *)
Lemma elem_of_rows {K A} `{Countable K} (m : gmap K A) x :
  x ∈ map snd (map_to_list m) ↔ ∃ k, m !! k = Some x.
Proof.
  rewrite list_elem_of_fmap. split.
  - intros ([k y] & -> & Hk%elem_of_map_to_list). by exists k.
  - intros [k Hk%elem_of_map_to_list]. by exists (k, x).
Qed.

Lemma NoDup_rows {K A} `{Countable K} (key : A → K) (m : gmap K A) :
  (∀ k a, m !! k = Some a → key a = k) → NoDup (map snd (map_to_list m)).
Proof.
  intros Hk. apply NoDup_fmap_2_strong; [|apply NoDup_map_to_list].
  intros [k1 a1] [k2 a2] H1%elem_of_map_to_list H2%elem_of_map_to_list Heq. cbn [snd] in Heq.
  subst a2. by rewrite <-(Hk _ _ H1), (Hk _ _ H2).
Qed.

Lemma StronglySorted_strict {A} (R S : relation A) (l : list A) :
  (∀ x y, x ∈ l → y ∈ l → x ≠ y → R x y → S x y) → NoDup l → StronglySorted R l →
  StronglySorted S l.
Proof.
  intros HRS Hnd. induction 1 as [|x l Hs IH Hx]; constructor.
  - apply NoDup_cons in Hnd as [_ Hnd]. apply IH; [|done].
    intros y z Hy Hz. apply HRS; by right.
  - apply NoDup_cons in Hnd as [Hn _]. rewrite Forall_forall in *. intros y Hy.
    apply HRS; [by left|by right| |by apply Hx]. by intros ->.
Qed.
