(* ===== verification/RustStr.v ===== *)
(** * [str] and [String]: the part of Rust's string library the sources use

    A Rust [str] is a UTF-8 byte string, modelled as [string], one [ascii] per byte, so
    that a literal of the sources is the same literal here, Chinese text included. The
    [ascii] methods of Rust act on single bytes. [trim], [split_whitespace] and
    [char::is_numeric] follow the Unicode properties White_Space and Numeric (general
    categories Nd, Nl and No of Unicode 16, the version of the pinned toolchain), so they
    look at the two and three byte encodings too.

    Definitions first, then the lemmas the components use. *)

From S2P Require Import Prelude.
From Stdlib Require Import Ascii.

(** A byte. *)
Notation u8 := ascii (only parsing).

(** The code of a byte. *)
Definition byte (c : ascii) : Z := Z.of_N (N_of_ascii c).

(** The ASCII digit that [char::to_digit] would read, [10] for any other byte. *)
Definition digit_of (c : ascii) : option Z :=
  let n := byte c in
  if ((48 <=? n) && (n <=? 57))%Z then Some (n - 48)%Z else None.

(** [u8::to_ascii_lowercase]. *)
Definition ascii_lower (c : ascii) : ascii :=
  let n := byte c in
  if ((65 <=? n) && (n <=? 90))%Z then ascii_of_N (Z.to_N (n + 32)) else c.

(** [str::to_ascii_lowercase]. *)
Fixpoint to_ascii_lowercase (s : string) : string :=
  match s with
  | EmptyString => EmptyString
  | String c r => String (ascii_lower c) (to_ascii_lowercase r)
  end.

(** [str::eq_ignore_ascii_case]. *)
Fixpoint eq_ignore_ascii_case (a b : string) : bool :=
  match a, b with
  | EmptyString, EmptyString => true
  | String x a', String y b' =>
      Ascii.eqb (ascii_lower x) (ascii_lower y) && eq_ignore_ascii_case a' b'
  | _, _ => false
  end.

(** ** White space *)

(** The White_Space characters of one, two and three bytes. *)
Definition is_ws1 (a : ascii) : bool :=
  let n := byte a in (((9 <=? n) && (n <=? 13)) || (n =? 32))%Z.

Definition is_ws2 (a b : ascii) : bool :=
  ((byte a =? 194) && ((byte b =? 133) || (byte b =? 160)))%Z.

Definition is_ws3 (a b c : ascii) : bool :=
  let x := byte a in
  let y := byte b in
  let z := byte c in
  ((x =? 225) && (y =? 154) && (z =? 128)
   || (x =? 226) && (y =? 128)
      && ((128 <=? z) && (z <=? 138) || (z =? 168) || (z =? 169) || (z =? 175))
   || (x =? 226) && (y =? 129) && (z =? 159)
   || (x =? 227) && (y =? 128) && (z =? 128))%Z.

(** [str::trim_start]. *)
Fixpoint trim_start (s : string) : string :=
  match s with
  | EmptyString => EmptyString
  | String a s1 =>
      if is_ws1 a then trim_start s1 else
      match s1 with
      | EmptyString => s
      | String b s2 =>
          if is_ws2 a b then trim_start s2 else
          match s2 with
          | EmptyString => s
          | String c s3 => if is_ws3 a b c then trim_start s3 else s
          end
      end
  end.

(** Nothing but white space. *)
Definition is_blank (s : string) : bool := String.eqb (trim_start s) EmptyString.

(** [str::trim_end]: cut where only white space follows. No White_Space character starts
    with a continuation byte, so the cut never falls inside a character. *)
Fixpoint trim_end (s : string) : string :=
  if is_blank s then EmptyString else
  match s with
  | EmptyString => EmptyString
  | String a r => String a (trim_end r)
  end.

(** [str::trim]. *)
Definition trim (s : string) : string := trim_end (trim_start s).

(** [str::split_whitespace]: the text up to the first white space, then the other
    non-empty pieces. *)
Fixpoint split_ws (s : string) : string * list string :=
  let brk (p : string * list string) :=
    (EmptyString, if String.eqb p.1 EmptyString then p.2 else p.1 :: p.2) in
  let keep (a : ascii) (p : string * list string) := (String a p.1, p.2) in
  match s with
  | EmptyString => (EmptyString, [])
  | String a s1 =>
      if is_ws1 a then brk (split_ws s1) else
      match s1 with
      | EmptyString => keep a (split_ws s1)
      | String b s2 =>
          if is_ws2 a b then brk (split_ws s2) else
          match s2 with
          | EmptyString => keep a (split_ws s1)
          | String c s3 => if is_ws3 a b c then brk (split_ws s3) else keep a (split_ws s1)
          end
      end
  end.

Definition split_whitespace (s : string) : list string :=
  let p := split_ws s in
  if String.eqb p.1 EmptyString then p.2 else p.1 :: p.2.

(** ** Splitting and searching *)

Definition comma : ascii := ascii_of_N 44.
Definition equals : ascii := ascii_of_N 61.
Definition slash : ascii := ascii_of_N 47.

(** [str::split(c)] for an ASCII character. *)
Fixpoint split_char (c : ascii) (s : string) : list string :=
  match s with
  | EmptyString => [EmptyString]
  | String a r =>
      if Ascii.eqb a c then EmptyString :: split_char c r
      else match split_char c r with
           | t :: ts => String a t :: ts
           | [] => []
           end
  end.

(** Drop one carriage return at the end. *)
Fixpoint strip_cr (s : string) : string :=
  match s with
  | EmptyString => EmptyString
  | String a r =>
      if Ascii.eqb a (ascii_of_N 13) && String.eqb r EmptyString then EmptyString
      else String a (strip_cr r)
  end.

(** [str::lines]: a final piece without a line feed keeps its carriage return and is
    dropped when it is empty. *)
Fixpoint lines_of (pieces : list string) : list string :=
  match pieces with
  | [] => []
  | [last] => if String.eqb last EmptyString then [] else [last]
  | p :: r => strip_cr p :: lines_of r
  end.

Definition newline : string := String (ascii_of_N 10) EmptyString.

Definition lines (s : string) : list string := lines_of (split_char (ascii_of_N 10) s).

(** [str::strip_prefix(p)] for a string pattern. *)
Fixpoint strip_prefix (p s : string) : option string :=
  match p, s with
  | EmptyString, _ => Some s
  | String a p', String b s' => if Ascii.eqb a b then strip_prefix p' s' else None
  | String _ _, EmptyString => None
  end.

Definition starts_with (p s : string) : bool :=
  match strip_prefix p s with
  | Some _ => true
  | None => false
  end.

(** [str::split_once(needle)]: around the first occurrence. *)
Fixpoint split_once (needle s : string) : option (string * string) :=
  match strip_prefix needle s with
  | Some rest => Some (EmptyString, rest)
  | None =>
      match s with
      | EmptyString => None
      | String a r =>
          match split_once needle r with
          | Some (h, t) => Some (String a h, t)
          | None => None
          end
      end
  end.

(** [str::contains(needle)]. *)
Definition contains (needle s : string) : bool :=
  match split_once needle s with
  | Some _ => true
  | None => false
  end.

(** [s.trim_end_matches(c)]. *)
Fixpoint trim_end_matches (c : ascii) (s : string) : string :=
  match s with
  | EmptyString => EmptyString
  | String a r =>
      let r' := trim_end_matches c r in
      if Ascii.eqb a c && String.eqb r' EmptyString then EmptyString else String a r'
  end.

(** [v.join(sep)]. *)
Fixpoint join (sep : string) (v : list string) : string :=
  match v with
  | [] => EmptyString
  | [x] => x
  | x :: r => x +:+ sep +:+ join sep r
  end.

(** ** Characters *)

(** A UTF-8 continuation byte. *)
Definition is_cont (c : ascii) : bool := (Z.land (byte c) 192 =? 128)%Z.

(** [s.chars().take(n).collect()]. *)
Fixpoint take_chars (n : nat) (s : string) : string :=
  match s with
  | EmptyString => EmptyString
  | String a r =>
      if is_cont a then String a (take_chars n r)
      else match n with
           | O => EmptyString
           | S n' => String a (take_chars n' r)
           end
  end.

(** [s.chars().count()]. *)
Fixpoint count_chars (s : string) : nat :=
  match s with
  | EmptyString => 0
  | String a r => if is_cont a then count_chars r else S (count_chars r)
  end.

(** The first character of a UTF-8 string, as its code point, and what follows it. *)
Definition first_char (s : string) : option (Z * string) :=
  let low (c : ascii) := Z.land (byte c) 63 in
  match s with
  | EmptyString => None
  | String a r =>
      let n := byte a in
      if (n <? 128)%Z then Some (n, r) else
      match r with
      | String b r2 =>
          if (n <? 224)%Z then Some (Z.shiftl (Z.land n 31) 6 + low b, r2)%Z else
          match r2 with
          | String c r3 =>
              if (n <? 240)%Z
              then Some (Z.shiftl (Z.land n 15) 12 + Z.shiftl (low b) 6 + low c, r3)%Z
              else
              match r3 with
              | String d r4 =>
                  Some (Z.shiftl (Z.land n 7) 18 + Z.shiftl (low b) 12
                        + Z.shiftl (low c) 6 + low d, r4)%Z
              | EmptyString => None
              end
          | EmptyString => None
          end
      | EmptyString => None
      end
  end.

(** The code point ranges of the general categories Nd, Nl and No. *)
Definition numeric_ranges : list (Z * Z) := [
  (48, 57); (178, 179); (185, 185); (188, 190); (1632, 1641); (1776, 1785); (1984, 1993);
  (2406, 2415); (2534, 2543); (2548, 2553); (2662, 2671); (2790, 2799); (2918, 2927);
  (2930, 2935); (3046, 3058); (3174, 3183); (3192, 3198); (3302, 3311); (3416, 3422);
  (3430, 3448); (3558, 3567); (3664, 3673); (3792, 3801); (3872, 3891); (4160, 4169);
  (4240, 4249); (4969, 4988); (5870, 5872); (6112, 6121); (6128, 6137); (6160, 6169);
  (6470, 6479); (6608, 6618); (6784, 6793); (6800, 6809); (6992, 7001); (7088, 7097);
  (7232, 7241); (7248, 7257); (8304, 8304); (8308, 8313); (8320, 8329); (8528, 8578);
  (8581, 8585); (9312, 9371); (9450, 9471); (10102, 10131); (11517, 11517); (12295, 12295);
  (12321, 12329); (12344, 12346); (12690, 12693); (12832, 12841); (12872, 12879);
  (12881, 12895); (12928, 12937); (12977, 12991); (42528, 42537); (42726, 42735);
  (43056, 43061); (43216, 43225); (43264, 43273); (43472, 43481); (43504, 43513);
  (43600, 43609); (44016, 44025); (65296, 65305); (65799, 65843); (65856, 65912);
  (65930, 65931); (66273, 66299); (66336, 66339); (66369, 66369); (66378, 66378);
  (66513, 66517); (66720, 66729); (67672, 67679); (67705, 67711); (67751, 67759);
  (67835, 67839); (67862, 67867); (68028, 68029); (68032, 68047); (68050, 68095);
  (68160, 68168); (68221, 68222); (68253, 68255); (68331, 68335); (68440, 68447);
  (68472, 68479); (68521, 68527); (68858, 68863); (68912, 68921); (68928, 68937);
  (69216, 69246); (69405, 69414); (69457, 69460); (69573, 69579); (69714, 69743);
  (69872, 69881); (69942, 69951); (70096, 70105); (70113, 70132); (70384, 70393);
  (70736, 70745); (70864, 70873); (71248, 71257); (71360, 71369); (71376, 71395);
  (71472, 71483); (71904, 71922); (72016, 72025); (72688, 72697); (72784, 72812);
  (73040, 73049); (73120, 73129); (73552, 73561); (73664, 73684); (74752, 74862);
  (90416, 90425); (92768, 92777); (92864, 92873); (93008, 93017); (93019, 93025);
  (93552, 93561); (93824, 93846); (118000, 118009); (119488, 119507); (119520, 119539);
  (119648, 119672); (120782, 120831); (123200, 123209); (123632, 123641); (124144, 124153);
  (124401, 124410); (125127, 125135); (125264, 125273); (126065, 126123); (126125, 126127);
  (126129, 126132); (126209, 126253); (126255, 126269); (127232, 127244); (130032, 130041)]%Z.

(** [char::is_numeric]. *)
Definition char_is_numeric (c : Z) : bool :=
  existsb (λ r, (r.1 <=? c) && (c <=? r.2))%Z numeric_ranges.

(** [s.strip_prefix(char::is_numeric)]: at most one character goes. *)
Definition strip_numeric (s : string) : option string :=
  match first_char s with
  | Some (c, r) => if char_is_numeric c then Some r else None
  | None => None
  end.

(** ** Numbers *)

(** The digits of [parse], checked against the largest value at every step. *)
Fixpoint parse_digits (max acc : Z) (s : string) : option Z :=
  match s with
  | EmptyString => Some acc
  | String c r =>
      match digit_of c with
      | Some d =>
          let acc' := (acc * 10 + d)%Z in
          if (acc' <=? max)%Z then parse_digits max acc' r else None
      | None => None
      end
  end.

(** [s.parse::<uN>().ok()]: an optional plus sign, then at least one digit. *)
Definition parse_uint (max : Z) (s : string) : option Z :=
  let body :=
    match s with
    | String c r => if (byte c =? 43)%Z then r else s
    | EmptyString => s
    end in
  match body with
  | EmptyString => None
  | String _ _ => parse_digits max 0 body
  end.

Definition parse_u16 : string → option Z := parse_uint 65535.
Definition parse_u64 : string → option Z := parse_uint 18446744073709551615.

(** [n.to_string()] and [format!("{n}")]. *)
Definition show (z : Z) : string := pretty z.

(** ** Lemmas: bytes and case *)

Lemma byte_range c : (0 ≤ byte c < 256)%Z.
Proof. unfold byte. pose proof (N_ascii_bounded c). lia. Qed.

Lemma byte_ascii_of_N n : (n < 256)%N → byte (ascii_of_N n) = Z.of_N n.
Proof. intros. unfold byte. by rewrite N_ascii_embedding. Qed.

Lemma ascii_lower_idemp c : ascii_lower (ascii_lower c) = ascii_lower c.
Proof. destruct c as [[] [] [] [] [] [] [] []]; reflexivity. Qed.

Lemma to_ascii_lowercase_idemp s :
  to_ascii_lowercase (to_ascii_lowercase s) = to_ascii_lowercase s.
Proof. induction s as [|c s IH]; simpl; [done|]. by rewrite ascii_lower_idemp, IH. Qed.

Lemma eq_ignore_ascii_case_spec a b :
  eq_ignore_ascii_case a b = true ↔ to_ascii_lowercase a = to_ascii_lowercase b.
Proof.
  revert b. induction a as [|x a IH]; intros [|y b]; simpl; [done..|].
  rewrite andb_true_iff, IH, Ascii.eqb_eq.
  split; [intros [-> ->]; done | intros [= -> ->]; done].
Qed.

(** Equality of strings up to the case of ASCII letters, the equivalence under which the
    program compares algorithm names. *)
Definition ci_eq (a b : string) : Prop := eq_ignore_ascii_case a b = true.
Infix "≈ci" := ci_eq (at level 70).

#[export] Instance ci_eq_dec : RelDecision ci_eq.
Proof. unfold ci_eq. solve_decision. Defined.

#[export] Instance ci_eq_equivalence : Equivalence ci_eq.
Proof.
  unfold ci_eq. split.
  - intros a. by apply eq_ignore_ascii_case_spec.
  - intros a b. rewrite !eq_ignore_ascii_case_spec. congruence.
  - intros a b c. rewrite !eq_ignore_ascii_case_spec. congruence.
Qed.

#[export] Instance to_ascii_lowercase_proper : Proper (ci_eq ==> eq) to_ascii_lowercase.
Proof. intros a b. apply eq_ignore_ascii_case_spec. Qed.

#[export] Instance eq_ignore_ascii_case_proper :
  Proper (ci_eq ==> ci_eq ==> eq) eq_ignore_ascii_case.
Proof.
  intros a a' Ha b b' Hb. apply eq_true_iff_eq.
  rewrite !eq_ignore_ascii_case_spec. by rewrite Ha, Hb.
Qed.

Lemma ci_eq_lower s : to_ascii_lowercase s ≈ci s.
Proof. apply eq_ignore_ascii_case_spec, to_ascii_lowercase_idemp. Qed.

Lemma eq_ignore_ascii_case_sym a b : eq_ignore_ascii_case a b = eq_ignore_ascii_case b a.
Proof. apply eq_true_iff_eq. change (a ≈ci b ↔ b ≈ci a). split; intros; by symmetry. Qed.

Lemma eq_ignore_ascii_case_length a b : a ≈ci b → String.length a = String.length b.
Proof.
  unfold ci_eq. revert b. induction a as [|x a IH]; intros [|y b]; simpl; [done..|].
  rewrite andb_true_iff. intros [_ ?%IH]. congruence.
Qed.

#[export] Hint Rewrite to_ascii_lowercase_idemp : rust.

(** ** Lemmas: append *)

Lemma app_empty_l s : "" +:+ s = s.
Proof. done. Qed.

Lemma app_cons c s t : String c s +:+ t = String c (s +:+ t).
Proof. done. Qed.

Lemma app_empty_r s : s +:+ "" = s.
Proof. induction s as [|c s IH]; [done|]. by rewrite app_cons, IH. Qed.

Lemma str_app_assoc s t u : (s +:+ t) +:+ u = s +:+ t +:+ u.
Proof. induction s as [|c s IH]; [done|]. by rewrite !app_cons, IH. Qed.

Lemma str_length_app s t : String.length (s +:+ t) = String.length s + String.length t.
Proof. induction s as [|c s IH]; [done|]. rewrite app_cons. simpl. by rewrite IH. Qed.

Lemma str_app_inj_l s t u : s +:+ t = s +:+ u → t = u.
Proof. induction s as [|c s IH]; [done|]. rewrite !app_cons. intros [= ?]. auto. Qed.

#[export] Hint Rewrite app_empty_l app_empty_r str_app_assoc str_length_app : rust.

(** ** Lemmas: prefixes and occurrences *)

Lemma strip_prefix_Some p s t : strip_prefix p s = Some t ↔ s = p +:+ t.
Proof.
  revert s. induction p as [|a p IH]; intros s; simpl.
  { rewrite app_empty_l. split; [by intros [= ->]|by intros ->]. }
  rewrite app_cons. destruct s as [|b s]; [done|].
  destruct (Ascii.eqb_spec a b) as [->|Hab].
  - rewrite IH. split; [by intros ->|by intros [= ->]].
  - split; [done|]. intros [= -> _]. done.
Qed.

Lemma starts_with_spec p s : starts_with p s = true ↔ ∃ t, s = p +:+ t.
Proof.
  unfold starts_with. destruct (strip_prefix p s) as [t|] eqn:Hs.
  - apply strip_prefix_Some in Hs. split; eauto.
  - split; [done|]. intros [t Ht%strip_prefix_Some]. congruence.
Qed.

(** [split_once] splits at an occurrence, and no earlier one. *)
Lemma split_once_Some n s h t :
  split_once n s = Some (h, t) ↔
  s = h +:+ n +:+ t ∧
  ∀ h1 h2, h = h1 +:+ h2 → h2 ≠ "" → starts_with n (h2 +:+ n +:+ t) = false.
Proof.
  revert h. induction s as [|a s IH]; intros h; simpl.
  - destruct (strip_prefix n "") as [r|] eqn:Hn.
    + apply strip_prefix_Some in Hn. destruct n; [|done]. rewrite app_empty_l in Hn. subst r.
      split.
      * intros [= <- <-]. split; [done|]. intros [|? ?] [|? ?] ? ?; done.
      * intros [Hs _]. destruct h; [|done]. rewrite app_empty_l in Hs. by destruct t.
    + split; [done|]. intros [Hs _]. destruct h; [|done]. rewrite app_empty_l in Hs.
      apply strip_prefix_Some in Hs. congruence.
  - destruct (strip_prefix n (String a s)) as [r|] eqn:Hn.
    + apply strip_prefix_Some in Hn. split.
      * intros [= <- <-]. split; [done|]. intros [|? ?] [|? ?] ? ?; done.
      * intros [Hs Hno]. destruct h as [|c h].
        -- rewrite app_empty_l, Hn in Hs. apply str_app_inj_l in Hs. by subst.
        -- exfalso. assert (Hf : starts_with n (String c h +:+ n +:+ t) = false)
             by by apply (Hno "").
           apply not_true_iff_false in Hf. destruct Hf. apply starts_with_spec.
           exists r. congruence.
    + assert (Hne : starts_with n (String a s) = false)
        by (unfold starts_with; by rewrite Hn).
      split.
      * destruct (split_once n s) as [[h' t']|] eqn:Hs; [|done]. intros [= <- <-].
        destruct (proj1 (IH h') eq_refl) as [-> Hno]. split; [done|]. intros [|c h1] h2 Heq Hh2.
        -- rewrite app_empty_l in Heq. subst h2. by rewrite app_cons.
        -- rewrite app_cons in Heq. injection Heq as <- ->. by apply (Hno h1).
      * intros [Hs Hno]. destruct h as [|c h].
        -- rewrite app_empty_l in Hs. rewrite Hs in Hne. apply not_true_iff_false in Hne.
           destruct Hne. apply starts_with_spec. by exists t.
        -- rewrite app_cons in Hs. injection Hs as <- Hs.
           assert (split_once n s = Some (h, t)) as ->; [|done].
           apply IH. split; [done|]. intros h1 h2 -> Hh2.
           by apply (Hno (String a h1)).
Qed.

Lemma split_once_occurs n h t : split_once n (h +:+ n +:+ t) ≠ None.
Proof.
  induction h as [|a h IH].
  - rewrite app_empty_l. assert (Hp : strip_prefix n (n +:+ t) = Some t)
      by by apply strip_prefix_Some.
    destruct (n +:+ t) as [|b r]; simpl; by rewrite Hp.
  - rewrite app_cons. simpl. destruct (strip_prefix n _); [done|].
    by destruct (split_once n (h +:+ n +:+ t)) as [[? ?]|].
Qed.

Lemma contains_spec n s : contains n s = true ↔ ∃ h t, s = h +:+ n +:+ t.
Proof.
  unfold contains. split.
  - destruct (split_once n s) as [[h t]|] eqn:Hs; [|done]. intros _.
    apply split_once_Some in Hs as [-> _]. eauto.
  - intros (h & t & ->). destruct (split_once n (h +:+ n +:+ t)) as [[? ?]|] eqn:Hs; [done|].
    exfalso. revert Hs. apply split_once_occurs.
Qed.

Lemma contains_app_l n s t : contains n s = true → contains n (s +:+ t) = true.
Proof.
  rewrite !contains_spec. intros (h & r & ->). exists h, (r +:+ t). by rewrite !str_app_assoc.
Qed.

Lemma contains_app_r n s t : contains n t = true → contains n (s +:+ t) = true.
Proof.
  rewrite !contains_spec. intros (h & r & ->). exists (s +:+ h), r. by rewrite !str_app_assoc.
Qed.

(** ** Lemmas: trimming *)

Lemma string_len_ind (P : string → Prop) :
  (∀ s, (∀ t, String.length t < String.length s → P t) → P s) → ∀ s, P s.
Proof.
  intros Hs s. remember (String.length s) as n eqn:Hn. revert s Hn.
  induction n as [n IH] using lt_wf_ind. intros s ->. apply Hs. intros t Ht. by apply (IH _ Ht).
Qed.

(** One step of [trim_start]: the white space character at the front, if any, goes. *)
Definition ws_tail (s : string) : option string :=
  match s with
  | String a s1 =>
      if is_ws1 a then Some s1 else
      match s1 with
      | String b s2 =>
          if is_ws2 a b then Some s2 else
          match s2 with
          | String c s3 => if is_ws3 a b c then Some s3 else None
          | EmptyString => None
          end
      | EmptyString => None
      end
  | EmptyString => None
  end.

Lemma trim_start_unfold s :
  trim_start s = match ws_tail s with Some t => trim_start t | None => s end.
Proof.
  destruct s as [|a s1]; [done|]. simpl. destruct (is_ws1 a); [done|].
  destruct s1 as [|b s2]; [done|]. destruct (is_ws2 a b); [done|].
  destruct s2 as [|c s3]; [done|]. by destruct (is_ws3 a b c).
Qed.

Lemma ws_tail_length s t : ws_tail s = Some t → String.length t < String.length s.
Proof. destruct s as [|a [|b [|c s]]]; simpl; intros; repeat case_match; simplify_eq/=; lia. Qed.

(** A white space character at the front of [s] is there whatever follows [s]. *)
Lemma ws_tail_app s t u : ws_tail s = Some t → ws_tail (s +:+ u) = Some (t +:+ u).
Proof.
  destruct s as [|a [|b [|c s]]]; simpl; rewrite ?app_cons, ?app_empty_l; simpl;
    intros; repeat case_match; simplify_eq/=; done.
Qed.

(** The bytes that can start a White_Space character. *)
Definition ws_lead (c : ascii) : bool :=
  let n := byte c in
  (((9 <=? n) && (n <=? 13)) || (n =? 32) || (n =? 194) || (n =? 225) || (n =? 226)
   || (n =? 227))%Z.

Lemma ws_tail_lead c s t : ws_tail (String c s) = Some t → ws_lead c = true.
Proof.
  unfold ws_lead, ws_tail, is_ws1, is_ws2, is_ws3. intros.
  repeat case_match; simplify_eq; lia.
Qed.

Lemma ws_lead_not_second a b : ws_lead b = true → is_ws2 a b = false.
Proof. unfold ws_lead, is_ws2. lia. Qed.

Lemma ws_lead_not_third a b c :
  ws_lead b = true ∨ ws_lead c = true → is_ws3 a b c = false.
Proof. unfold ws_lead, is_ws3. lia. Qed.

(** ... so appending white space cannot make a white space character out of the end of
    [s]. *)
Lemma ws_tail_app_None s w :
  s ≠ "" → ws_tail s = None → (w = "" ∨ is_Some (ws_tail w)) → ws_tail (s +:+ w) = None.
Proof.
  intros Hs Hn [->|[t Ht]]; [by rewrite app_empty_r|].
  destruct w as [|d w]; [done|]. apply ws_tail_lead in Ht.
  pose proof (ws_lead_not_second) as H2. pose proof ws_lead_not_third as H3.
  destruct s as [|a [|b [|c s]]]; [done| | |]; rewrite !app_cons, ?app_empty_l; simpl in *.
  - rewrite (H2 a d Ht). repeat case_match; try done.
    by rewrite (H3 a d _ (or_introl Ht)) in *.
  - rewrite (H3 a b d (or_intror Ht)). by repeat case_match.
  - by repeat case_match.
Qed.

Lemma is_blank_unfold s :
  is_blank s = match ws_tail s with Some t => is_blank t | None => String.eqb s "" end.
Proof. unfold is_blank. rewrite trim_start_unfold. by destruct (ws_tail s). Qed.

Lemma is_blank_tail w : is_blank w = true → w = "" ∨ ∃ t, ws_tail w = Some t ∧ is_blank t = true.
Proof.
  rewrite is_blank_unfold. destruct (ws_tail w) as [t|]; [eauto|].
  intros ->%String.eqb_eq. by left.
Qed.

Lemma trim_start_blank_app w s : is_blank w = true → trim_start (w +:+ s) = trim_start s.
Proof.
  induction w as [w IH] using string_len_ind. intros [->|(t & Ht & Hb)]%is_blank_tail.
  - by rewrite app_empty_l.
  - rewrite trim_start_unfold, (ws_tail_app _ _ s Ht). apply IH; [|done].
    by apply ws_tail_length.
Qed.

Lemma trim_start_app s w :
  is_blank w = true → is_blank s = false → trim_start (s +:+ w) = trim_start s +:+ w.
Proof.
  intros Hw. induction s as [s IH] using string_len_ind. intros Hs.
  rewrite trim_start_unfold, (trim_start_unfold s).
  rewrite is_blank_unfold in Hs. destruct (ws_tail s) as [t|] eqn:Ht.
  - rewrite (ws_tail_app _ _ w Ht). apply IH; [by apply ws_tail_length|done].
  - rewrite ws_tail_app_None; [done| |done|].
    + intros ->. done.
    + apply is_blank_tail in Hw as [->|(t & -> & _)]; eauto.
Qed.

Lemma is_blank_app s w : is_blank w = true → is_blank (s +:+ w) = is_blank s.
Proof.
  intros Hw. destruct (is_blank s) eqn:Hs.
  - unfold is_blank. rewrite trim_start_blank_app by done. exact Hw.
  - unfold is_blank. rewrite trim_start_app by done.
    unfold is_blank in Hs. by destruct (trim_start s).
Qed.

Lemma trim_end_app s w : is_blank w = true → trim_end (s +:+ w) = trim_end s.
Proof.
  intros Hw. induction s as [|a s IH].
  - rewrite app_empty_l. destruct w; simpl; [done|]. by rewrite Hw.
  - rewrite app_cons. simpl. rewrite <-app_cons, is_blank_app by done. by rewrite IH.
Qed.

(** Padding an answer with white space on either side changes nothing once trimmed. *)
Lemma trim_pad w1 s w2 :
  is_blank w1 = true → is_blank w2 = true → trim (w1 +:+ s +:+ w2) = trim s.
Proof.
  intros H1 H2. unfold trim. rewrite trim_start_blank_app by done.
  destruct (is_blank s) eqn:Hs.
  - rewrite trim_start_blank_app by done.
    unfold is_blank in *. apply String.eqb_eq in H2, Hs. by rewrite H2, Hs.
  - rewrite trim_start_app by done. by rewrite trim_end_app.
Qed.

Lemma trim_end_blank s : is_blank s = true → trim_end s = "".
Proof. intros H. destruct s; simpl; [done|]. by rewrite H. Qed.

(** [trim] returns the empty string on blank strings only. *)
Lemma trim_empty s : trim s = "" ↔ is_blank s = true.
Proof.
  unfold trim. split.
  - intros H. assert (Hb : is_blank (trim_start s) = true).
    { destruct (trim_start s); [done|]. simpl in H. by case_match. }
    revert Hb. clear H. induction s as [s IH] using string_len_ind.
    rewrite trim_start_unfold, (is_blank_unfold s). destruct (ws_tail s) as [t|] eqn:Ht.
    + apply IH. by apply ws_tail_length.
    + intros Hb. rewrite is_blank_unfold, Ht in Hb. done.
  - intros H. unfold is_blank in H. apply String.eqb_eq in H. by rewrite H.
Qed.

(** ** Lemmas: words *)

Fixpoint str_forallb (p : ascii → bool) (s : string) : bool :=
  match s with
  | EmptyString => true
  | String c r => p c && str_forallb p r
  end.

(** An ASCII byte that is not white space, and a string of them. *)
Definition is_plain (c : ascii) : bool := ((byte c <? 128)%Z && negb (is_ws1 c)).
Definition plain (s : string) : bool := str_forallb is_plain s.

Lemma str_forallb_app p s t : str_forallb p (s +:+ t) = str_forallb p s && str_forallb p t.
Proof.
  induction s as [|c s IH]; [done|]. rewrite app_cons. simpl. by rewrite IH, andb_assoc.
Qed.

Lemma str_forallb_impl (p q : ascii → bool) s :
  (∀ c, p c = true → q c = true) → str_forallb p s = true → str_forallb q s = true.
Proof.
  intros Hpq. induction s as [|c s IH]; [done|]. simpl. rewrite !andb_true_iff. naive_solver.
Qed.

Lemma is_plain_ws_tail c s : is_plain c = true → ws_tail (String c s) = None.
Proof.
  unfold is_plain. intros [Hc H1%negb_true_iff]%andb_true_iff. simpl. rewrite H1.
  unfold is_ws2, is_ws3. repeat case_match; try done; lia.
Qed.

Lemma split_ws_unfold s :
  split_ws s =
    match ws_tail s with
    | Some t => ("", split_whitespace t)
    | None => match s with
              | String a r => (String a (split_ws r).1, (split_ws r).2)
              | EmptyString => ("", [])
              end
    end.
Proof.
  unfold split_whitespace. destruct s as [|a s1]; [done|]. simpl.
  destruct (is_ws1 a); [done|]. destruct s1 as [|b s2]; [done|]. destruct (is_ws2 a b); [done|].
  destruct s2 as [|c s3]; [done|]. by destruct (is_ws3 a b c).
Qed.

Lemma split_ws_plain_app t r :
  plain t = true → split_ws (t +:+ r) = (t +:+ (split_ws r).1, (split_ws r).2).
Proof.
  induction t as [|c t IH].
  - intros _. rewrite app_empty_l. by destruct (split_ws r).
  - unfold plain. intros Hp. simpl in Hp. apply andb_true_iff in Hp as [Hc Ht].
    rewrite !app_cons, (split_ws_unfold (String c (t +:+ r))).
    rewrite is_plain_ws_tail by done. by rewrite IH.
Qed.

(** A word followed by a space, and a word at the end. *)
Lemma split_whitespace_word t r :
  plain t = true → t ≠ "" → split_whitespace (t +:+ " " +:+ r) = t :: split_whitespace r.
Proof.
  intros Ht Hne. unfold split_whitespace at 1. rewrite split_ws_plain_app by done.
  rewrite (split_ws_unfold (" " +:+ r)). simpl. rewrite app_empty_r.
  destruct (String.eqb_spec t ""); [done|]. done.
Qed.

Lemma split_whitespace_last t : plain t = true → t ≠ "" → split_whitespace t = [t].
Proof.
  intros Ht Hne. unfold split_whitespace. rewrite <-(app_empty_r t), split_ws_plain_app by done.
  simpl. rewrite !app_empty_r. by destruct (String.eqb_spec t "").
Qed.

(** ** Lemmas: printing and parsing numbers *)

Definition is_digit (c : ascii) : bool :=
  match digit_of c with
  | Some _ => true
  | None => false
  end.

Lemma is_digit_plain c : is_digit c = true → is_plain c = true.
Proof.
  unfold is_digit, digit_of, is_plain, is_ws1. intros. repeat case_match; simplify_eq; lia.
Qed.

Lemma digit_of_pretty x : (x < 10)%N → digit_of (pretty_N_char x) = Some (Z.of_N x).
Proof.
  intros Hx. assert (x = 0 ∨ x = 1 ∨ x = 2 ∨ x = 3 ∨ x = 4 ∨ x = 5 ∨ x = 6 ∨ x = 7
    ∨ x = 8 ∨ x = 9)%N as Hc by lia.
  naive_solver.
Qed.

Lemma pretty_go_digits x s :
  str_forallb is_digit s = true → str_forallb is_digit (pretty_N_go x s) = true.
Proof.
  revert s. induction (N.lt_wf_0 x) as [x _ IH]. intros s Hs.
  destruct (decide (0 < x)%N) as [Hx|Hx].
  - rewrite pretty_N_go_step by done. apply IH; [by apply N.div_lt|]. simpl. rewrite Hs.
    unfold is_digit. by rewrite digit_of_pretty by (by apply N.mod_lt).
  - by replace x with 0%N by lia.
Qed.

Lemma pretty_go_length x s :
  String.length s ≤ String.length (pretty_N_go x s).
Proof.
  revert s. induction (N.lt_wf_0 x) as [x _ IH]. intros s.
  destruct (decide (0 < x)%N) as [Hx|Hx].
  - rewrite pretty_N_go_step by done. trans (S (String.length s)); [lia|].
    etrans; [|apply IH; by apply N.div_lt]. done.
  - by replace x with 0%N by lia.
Qed.

Lemma parse_pretty_go max x s :
  (0 < x)%N → (Z.of_N x ≤ max)%Z →
  parse_digits max 0 (pretty_N_go x s) = parse_digits max (Z.of_N x) s.
Proof.
  revert s. induction (N.lt_wf_0 x) as [x _ IH]. intros s Hx Hmax.
  rewrite pretty_N_go_step by done.
  assert (Hm : (x mod 10 < 10)%N) by by apply N.mod_lt.
  assert (Hdiv : Z.of_N x = (Z.of_N (x / 10) * 10 + Z.of_N (x mod 10))%Z).
  { pose proof (N.div_mod x 10 ltac:(done)) as Hd. rewrite Hd at 1. lia. }
  destruct (decide (x / 10 = 0)%N) as [H0|H0].
  - rewrite H0, pretty_N_go_0. simpl. rewrite digit_of_pretty by done.
    rewrite H0 in Hdiv. replace (0 * 10 + Z.of_N (x mod 10))%Z with (Z.of_N x) by lia.
    by rewrite (proj2 (Z.leb_le _ _) Hmax).
  - rewrite IH; [|by apply N.div_lt|by apply N.neq_0_lt_0|]; cycle 1.
    { rewrite Hdiv in Hmax. revert Hmax.
      generalize (N2Z.is_nonneg (x / 10)), (N2Z.is_nonneg (x mod 10)).
      generalize (Z.of_N (x / 10)), (Z.of_N (x mod 10)). lia. }
    simpl. rewrite digit_of_pretty by done.
    rewrite <-Hdiv. by rewrite (proj2 (Z.leb_le _ _) Hmax).
Qed.

Lemma show_N x : show (Z.of_N x) = pretty x.
Proof. by destruct x. Qed.

Lemma show_digits z : (0 ≤ z)%Z → str_forallb is_digit (show z) = true.
Proof.
  intros Hz. rewrite <-(Z2N.id z), show_N by done. unfold pretty, pretty_N.
  case_decide; [done|]. by apply pretty_go_digits.
Qed.

Lemma show_plain z : (0 ≤ z)%Z → plain (show z) = true.
Proof. intros. eapply str_forallb_impl, show_digits; [apply is_digit_plain|done]. Qed.

Lemma show_cons z : (0 ≤ z)%Z → ∃ c r, show z = String c r ∧ is_digit c = true.
Proof.
  intros Hz. pose proof (show_digits z Hz) as Hd.
  assert (Hne : show z ≠ "").
  { rewrite <-(Z2N.id z), show_N by done. unfold pretty, pretty_N. case_decide; [done|].
    rewrite pretty_N_go_step by lia. intros He.
    pose proof (pretty_go_length (Z.to_N z / 10) (String (pretty_N_char (Z.to_N z mod 10)) ""))
      as Hl. rewrite He in Hl. simpl in Hl. lia. }
  destruct (show z) as [|c r]; [done|]. simpl in Hd. apply andb_true_iff in Hd as [? ?]. eauto.
Qed.

Lemma show_ne z : (0 ≤ z)%Z → show z ≠ "".
Proof. intros (c & r & -> & _)%show_cons. done. Qed.

(** Printing and parsing back a number of the type gives the number. *)
Lemma parse_show max z : (0 ≤ z ≤ max)%Z → parse_uint max (show z) = Some z.
Proof.
  intros Hz. destruct (show_cons z) as (c & r & Hs & Hc); [lia|].
  unfold parse_uint. rewrite Hs.
  assert (Hplus : (byte c =? 43)%Z = false).
  { unfold is_digit, digit_of in Hc. repeat case_match; try done; lia. }
  rewrite Hplus, <-Hs. clear Hs Hc Hplus c r.
  rewrite <-(Z2N.id z), show_N by lia. unfold pretty, pretty_N. case_decide as H0.
  - rewrite H0. cbn [parse_digits]. change (digit_of "0") with (Some 0%Z). cbn -[Z.leb].
    by rewrite (proj2 (Z.leb_le (0 * 10 + 0) max)) by lia.
  - rewrite parse_pretty_go by lia. done.
Qed.

(** [parse] only returns numbers of the type. *)
Lemma parse_digits_range max acc s z :
  (0 ≤ acc ≤ max)%Z → parse_digits max acc s = Some z → (0 ≤ z ≤ max)%Z.
Proof.
  revert acc. induction s as [|c s IH]; intros acc Hacc; simpl; [naive_solver|].
  destruct (digit_of c) as [d|] eqn:Hd; [|done]. case_match eqn:Hle; [|done].
  apply IH. unfold digit_of in Hd. case_match; simplify_eq. lia.
Qed.

Lemma parse_uint_range max s z : (0 ≤ max)%Z → parse_uint max s = Some z → (0 ≤ z ≤ max)%Z.
Proof.
  intros Hmax. unfold parse_uint. destruct s as [|c r]; [done|].
  destruct (byte c =? 43)%Z; [destruct r|]; try done; apply parse_digits_range; lia.
Qed.

(** ** Lemmas: trimming and case *)

Lemma byte_ascii_lower c :
  byte (ascii_lower c) = byte c ∨
  (65 ≤ byte c ≤ 90 ∧ byte (ascii_lower c) = byte c + 32)%Z.
Proof.
  unfold ascii_lower. destruct ((65 <=? byte c) && (byte c <=? 90))%Z eqn:Hc; [|by left].
  right. split; [lia|]. rewrite byte_ascii_of_N; [|lia]. lia.
Qed.

(** No byte of a White_Space character is an ASCII letter. *)
Lemma is_ws_letter a b c :
  ((65 ≤ byte a ≤ 122)%Z → is_ws1 a = false ∧ is_ws2 a b = false ∧ is_ws3 a b c = false) ∧
  ((65 ≤ byte b ≤ 122)%Z → is_ws2 a b = false ∧ is_ws3 a b c = false) ∧
  ((65 ≤ byte c ≤ 122)%Z → is_ws3 a b c = false).
Proof. unfold is_ws1, is_ws2, is_ws3. split_and!; intros; split_and?; lia. Qed.

Lemma is_ws_lower a b c :
  is_ws1 (ascii_lower a) = is_ws1 a ∧
  is_ws2 (ascii_lower a) (ascii_lower b) = is_ws2 a b ∧
  is_ws3 (ascii_lower a) (ascii_lower b) (ascii_lower c) = is_ws3 a b c.
Proof.
  destruct (is_ws_letter a b c) as (Ha & Hb & Hc).
  destruct (is_ws_letter (ascii_lower a) (ascii_lower b) (ascii_lower c)) as (Ha' & Hb' & Hc').
  destruct (byte_ascii_lower a) as [Ea|[? Ea]].
  2: { by destruct (Ha ltac:(lia)) as (-> & -> & ->), (Ha' ltac:(lia)) as (-> & -> & ->). }
  destruct (byte_ascii_lower b) as [Eb|[? Eb]].
  2: { destruct (Hb ltac:(lia)) as (-> & ->), (Hb' ltac:(lia)) as (-> & ->). unfold is_ws1. by rewrite Ea. }
  destruct (byte_ascii_lower c) as [Ec|[? Ec]].
  2: { rewrite Hc, Hc' by lia. unfold is_ws1, is_ws2. by rewrite Ea, Eb. }
  unfold is_ws1, is_ws2, is_ws3. by rewrite Ea, Eb, Ec.
Qed.

Lemma ws_tail_lower s : ws_tail (to_ascii_lowercase s) = to_ascii_lowercase <$> ws_tail s.
Proof.
  destruct s as [|a [|b [|c s]]]; simpl; [done|..];
    rewrite ?(proj1 (is_ws_lower a a a)), ?(proj1 (proj2 (is_ws_lower a b b))),
      ?(proj2 (proj2 (is_ws_lower a b c))); repeat case_match; done.
Qed.

Lemma trim_start_lower s :
  trim_start (to_ascii_lowercase s) = to_ascii_lowercase (trim_start s).
Proof.
  induction s as [s IH] using string_len_ind.
  rewrite trim_start_unfold, (trim_start_unfold s), ws_tail_lower.
  destruct (ws_tail s) as [t|] eqn:Ht; simpl; [|done]. apply IH. by apply ws_tail_length.
Qed.

Lemma is_blank_lower s : is_blank (to_ascii_lowercase s) = is_blank s.
Proof. unfold is_blank. rewrite trim_start_lower. by destruct (trim_start s). Qed.

Lemma trim_lower s : trim (to_ascii_lowercase s) = to_ascii_lowercase (trim s).
Proof.
  unfold trim. rewrite trim_start_lower. induction (trim_start s) as [|a r IH]; [done|].
  change (to_ascii_lowercase (String a r)) with (String (ascii_lower a) (to_ascii_lowercase r)).
  simpl. change (String (ascii_lower a) (to_ascii_lowercase r))
    with (to_ascii_lowercase (String a r)). rewrite is_blank_lower.
  destruct (is_blank (String a r)); [done|]. simpl. by rewrite IH.
Qed.

#[export] Instance trim_proper : Proper (ci_eq ==> ci_eq) trim.
Proof.
  intros a b Hab. apply eq_ignore_ascii_case_spec. rewrite <-!trim_lower. by rewrite Hab.
Qed.

#[export] Instance is_blank_proper : Proper (ci_eq ==> eq) is_blank.
Proof. intros a b Hab. rewrite <-is_blank_lower, Hab. apply is_blank_lower. Qed.

(** ** Lemmas: looking for a needle in a text built from literals and tokens *)

Definition is_Some_b {A} (o : option A) : bool :=
  match o with
  | Some _ => true
  | None => false
  end.

(** No suffix of [lit] can be the beginning of an occurrence of [n], whatever follows. *)
Fixpoint sep (n lit : string) : bool :=
  match lit with
  | EmptyString => true
  | String _ r =>
      negb (is_Some_b (strip_prefix n lit)) && negb (is_Some_b (strip_prefix lit n)) && sep n r
  end.

Lemma strip_prefix_app n u r :
  strip_prefix n u = None → strip_prefix u n = None → strip_prefix n (u +:+ r) = None.
Proof.
  revert u. induction n as [|a n IH]; intros [|b u]; [done..|]. rewrite app_cons. simpl.
  rewrite (Ascii.eqb_sym b a). destruct (Ascii.eqb a b); auto.
Qed.

Lemma split_once_sep n lit r :
  sep n lit = true →
  split_once n (lit +:+ r) =
    match split_once n r with Some (h, t) => Some (lit +:+ h, t) | None => None end.
Proof.
  induction lit as [|a lit IH]; intros Hs.
  - rewrite app_empty_l. by destruct (split_once n r) as [[? ?]|].
  - cbn [sep] in Hs. rewrite !andb_true_iff, !negb_true_iff in Hs.
    destruct Hs as [[H1 H2] H3]. rewrite app_cons. cbn [split_once].
    rewrite <-app_cons, strip_prefix_app.
    + rewrite IH by done. by destruct (split_once n r) as [[? ?]|].
    + by destruct (strip_prefix n (String a lit)).
    + by destruct (strip_prefix (String a lit) n).
Qed.

Lemma split_once_hit n r : split_once n (n +:+ r) = Some ("", r).
Proof.
  assert (Hp : strip_prefix n (n +:+ r) = Some r) by by apply strip_prefix_Some.
  destruct (n +:+ r); simpl; by rewrite Hp.
Qed.

(** A needle with a byte that the text cannot have is not in the text. *)
Lemma split_once_forall p n s :
  str_forallb p s = true → str_forallb p n = false → split_once n s = None.
Proof.
  intros Hs Hn. destruct (split_once n s) as [[h t]|] eqn:Ho; [|done].
  apply split_once_Some in Ho as [-> _].
  rewrite !str_forallb_app, Hn in Hs. by rewrite andb_false_l, andb_false_r in Hs.
Qed.

Lemma split_once_skip p n s r :
  str_forallb p s = true →
  match n with String c _ => p c = false | EmptyString => False end →
  split_once n (s +:+ r) =
    match split_once n r with Some (h, t) => Some (s +:+ h, t) | None => None end.
Proof.
  intros Hs Hn. apply split_once_sep. destruct n as [|c n]; [done|].
  induction s as [|a s IH]; [done|]. cbn [str_forallb] in Hs.
  apply andb_true_iff in Hs as [Ha Hs]. cbn [sep]. rewrite IH by done. simpl.
  rewrite (Ascii.eqb_sym a c). destruct (Ascii.eqb_spec c a) as [->|]; [congruence|done].
Qed.

(** ** Lemmas: lines *)

Definition not_eol (c : ascii) : bool := negb ((byte c =? 10) || (byte c =? 13))%Z.
Definition one_line (s : string) : bool := str_forallb not_eol s.

(** The text whose lines are the given ones. *)
Fixpoint unlines (ls : list string) : string :=
  match ls with
  | [] => ""
  | l :: r => l +:+ newline +:+ unlines r
  end.

Lemma split_char_app c s r :
  str_forallb (λ a, negb (Ascii.eqb a c)) s = true →
  split_char c (s +:+ String c r) = s :: split_char c r.
Proof.
  induction s as [|a s IH]; intros Hs.
  - rewrite app_empty_l. simpl. by rewrite Ascii.eqb_refl.
  - cbn [str_forallb] in Hs. apply andb_true_iff in Hs as [Ha%negb_true_iff Hs].
    rewrite app_cons. simpl. by rewrite Ha, IH.
Qed.

Lemma split_char_none c s :
  str_forallb (λ a, negb (Ascii.eqb a c)) s = true → split_char c s = [s].
Proof.
  induction s as [|a s IH]; intros Hs; [done|]. cbn [str_forallb] in Hs.
  apply andb_true_iff in Hs as [Ha%negb_true_iff Hs]. simpl. by rewrite Ha, IH.
Qed.

Lemma split_char_ne c s : split_char c s ≠ [].
Proof.
  induction s as [|a s IH]; simpl; [done|]. destruct (Ascii.eqb a c); [done|].
  by destruct (split_char c s).
Qed.

Lemma not_eol_spec c :
  not_eol c = true →
  Ascii.eqb c (ascii_of_N 10) = false ∧ Ascii.eqb c (ascii_of_N 13) = false.
Proof.
  unfold not_eol. intros Hc.
  split; apply Ascii.eqb_neq; intros ->; vm_compute in Hc; discriminate.
Qed.

Lemma strip_cr_one_line s : one_line s = true → strip_cr s = s.
Proof.
  unfold one_line. induction s as [|a s IH]; intros Hs; [done|]. cbn [str_forallb] in Hs.
  apply andb_true_iff in Hs as [[_ Ha]%not_eol_spec Hs]. cbn [strip_cr]. rewrite Ha. simpl.
  by rewrite IH.
Qed.

Lemma lines_cons l r : one_line l = true → lines (l +:+ newline +:+ r) = l :: lines r.
Proof.
  intros Hl. unfold lines. change (newline +:+ r) with (String (ascii_of_N 10) r).
  rewrite split_char_app.
  - pose proof (split_char_ne (ascii_of_N 10) r).
    destruct (split_char (ascii_of_N 10) r) as [|p ps]; [done|]. cbn [lines_of].
    by rewrite strip_cr_one_line.
  - eapply str_forallb_impl; [|exact Hl]. intros c [Hc _]%not_eol_spec. by rewrite Hc.
Qed.

(** [lines] reads back the lines of a text. *)
Lemma lines_unlines ls : Forall (λ l, one_line l = true) ls → lines (unlines ls) = ls.
Proof.
  induction 1 as [|l ls Hl Hls IH]; [done|]. cbn [unlines]. by rewrite lines_cons, IH.
Qed.

Lemma one_line_app s t : one_line (s +:+ t) = one_line s && one_line t.
Proof. apply str_forallb_app. Qed.

Lemma plain_one_line s : plain s = true → one_line s = true.
Proof.
  apply str_forallb_impl. intros c. unfold is_plain, is_ws1, not_eol. lia.
Qed.

(** A plain token is its own trimming. *)
Lemma trim_plain s : plain s = true → trim s = s.
Proof.
  intros Hs. unfold trim. destruct s as [|a s]; [done|].
  assert (Ha : is_plain a = true) by (by apply andb_true_iff in Hs as [? _]).
  rewrite trim_start_unfold, is_plain_ws_tail by done. revert a Ha Hs.
  induction s as [|b s IH]; intros a Ha Hs; cbn [trim_end].
  - by rewrite is_blank_unfold, is_plain_ws_tail.
  - rewrite is_blank_unfold, is_plain_ws_tail by done. simpl.
    apply andb_true_iff in Hs as [_ Hs]. f_equal.
    apply IH; [by apply andb_true_iff in Hs as [? _]|done].
Qed.

(** The bytes of white space are not plain, so text between plain edges is its own
    trimming. *)
Lemma is_blank_bytes s : is_blank s = true → str_forallb (λ c, negb (is_plain c)) s = true.
Proof.
  induction s as [s IH] using string_len_ind. intros Hb.
  apply is_blank_tail in Hb as [->|(t & Ht & Hb)]; [done|].
  specialize (IH t (ws_tail_length _ _ Ht) Hb). unfold is_plain in *.
  destruct s as [|a [|b [|c s]]]; simpl in Ht; [done|..];
    repeat case_match; simplify_eq; cbn [str_forallb] in *; rewrite ?IH, ?andb_true_r;
    unfold is_ws1, is_ws2, is_ws3 in *; lia.
Qed.

Lemma trim_end_plain_last s t : plain t = true → t ≠ "" → trim_end (s +:+ t) = s +:+ t.
Proof.
  intros Ht Hne. destruct t as [|d t]; [done|]. clear Hne.
  assert (Hb : ∀ r, is_blank (r +:+ String d t) = false).
  { intros r. apply not_true_iff_false. intros Hb%is_blank_bytes.
    rewrite str_forallb_app in Hb. cbn [str_forallb] in Hb.
    apply andb_true_iff in Ht as [Ht _]. rewrite Ht in Hb. simpl in Hb.
    by rewrite andb_false_r in Hb. }
  induction s as [|c s IH].
  - rewrite app_empty_l. rewrite <-(trim_plain (String d t)) at 2 by done.
    unfold trim. apply andb_true_iff in Ht as [Ht _].
    by rewrite trim_start_unfold, is_plain_ws_tail.
  - specialize (Hb (String c s)). rewrite app_cons in *. cbn [trim_end]. by rewrite Hb, IH.
Qed.

Lemma trim_edges c s t :
  is_plain c = true → plain t = true → t ≠ "" → trim (String c s +:+ t) = String c s +:+ t.
Proof.
  intros Hc Ht Hne. unfold trim. rewrite app_cons, trim_start_unfold, is_plain_ws_tail by done.
  rewrite <-app_cons. by apply trim_end_plain_last.
Qed.

(** Splitting what was joined. *)
Definition without (c : ascii) (s : string) : bool := str_forallb (λ a, negb (Ascii.eqb a c)) s.

Lemma split_char_join c l :
  l ≠ [] → Forall (λ s, without c s = true) l → split_char c (join (String c "") l) = l.
Proof.
  intros Hne Hl. induction Hl as [|s [|s' l] Hs Hl IH]; [done| |].
  - by apply split_char_none.
  - cbn [join]. rewrite app_cons, app_empty_l, split_char_app by done. f_equal. by apply IH.
Qed.

Lemma trim_start_plain c s : is_plain c = true → trim_start (String c s) = String c s.
Proof. intros Hc. by rewrite trim_start_unfold, is_plain_ws_tail. Qed.

(** A numeral is one digit below ten, and at least two from there. *)
Lemma show_one n : n < 10 → ∃ c, show (Z.of_nat n) = String c "" ∧ is_digit c = true.
Proof. intros Hn. do 10 (destruct n as [|n]; [by eexists|]). lia. Qed.

Lemma show_two z :
  (10 ≤ z)%Z → ∃ c d r, show z = String c (String d r) ∧ is_digit c = true ∧ is_digit d = true.
Proof.
  intros Hz. assert (Hl : 2 ≤ String.length (show z)).
  { rewrite <-(Z2N.id z), show_N by lia. unfold pretty, pretty_N.
    rewrite decide_False by lia. assert (10 ≤ Z.to_N z)%N by lia.
    rewrite pretty_N_go_step by lia. rewrite pretty_N_go_step.
    - etrans; [|apply pretty_go_length]. simpl. lia.
    - apply N.div_str_pos. lia. }
  pose proof (show_digits z ltac:(lia)) as Hd.
  destruct (show z) as [|c [|d r]]; simpl in Hl; [lia..|].
  cbn [str_forallb] in Hd. rewrite !andb_true_iff in Hd. naive_solver.
Qed.

Lemma strip_numeric_digit c r : is_digit c = true → strip_numeric (String c r) = Some r.
Proof.
  intros Hc. assert (Hb : (48 ≤ byte c ≤ 57)%Z).
  { unfold is_digit, digit_of in Hc. repeat case_match; try done; lia. }
  unfold strip_numeric, first_char. rewrite (proj2 (Z.ltb_lt _ _)) by lia.
  assert (Hn : char_is_numeric (byte c) = true).
  { apply existsb_exists. exists (48, 57)%Z. split; [by left|]. simpl. lia. }
  by rewrite Hn.
Qed.
