(* ===== verification/Json.v ===== *)
(** * The [serde_json] interface

    [serde_json] is a dependency, not code of the repository, so its value type and its
    functions are the fields of a class, and every definition that touches JSON takes an
    instance. [SerdeJsonLaws] states the documented behaviour some theorems rely on: what
    the accessors of [Value] return on the values that the [json!] macro builds. The
    inductive model at the end is one instance, used by the witnesses only. *)

From S2P Require Import Prelude.

Class SerdeJson := {
  (** [serde_json::Value], [serde_json::Map<String, Value>] and [serde_json::Error]. *)
  Value : Type;
  JsonMap : Type;
  JsonError : Type;
  (** [serde_json::from_str::<Value>] and [Error]'s [Display]. *)
  json_from_str : string → result JsonError Value;
  json_error_display : JsonError → string;
  (** [Value::get] with a string index, and [Map::get]. *)
  value_get : string → Value → option Value;
  map_get : string → JsonMap → option Value;
  (** [Value::as_null], [as_str], [as_i64], [as_u64], [as_bool], [as_array], [as_object]. *)
  as_null : Value → option unit;
  as_str : Value → option string;
  as_i64_val : Value → option Z;
  as_u64_val : Value → option Z;
  as_bool : Value → option bool;
  as_array : Value → option (list Value);
  as_object : Value → option JsonMap;
  (** What [json!] and [to_value] build. *)
  json_null : Value;
  json_bool : bool → Value;
  json_string : string → Value;
  json_int : Z → Value;
  json_array : list Value → Value;
  json_object : list (string * Value) → Value;
}.

(** [to_value] of an option. *)
Definition json_opt `{SerdeJson} {A} (f : A → Value) (o : option A) : Value :=
  match o with
  | Some a => f a
  | None => json_null
  end.

(** The last binding of a key wins in [json!] and in a parsed document. *)
Fixpoint assoc_last {A} (k : string) (l : list (string * A)) : option A :=
  match l with
  | [] => None
  | (k', a) :: r =>
      match assoc_last k r with
      | Some b => Some b
      | None => if String.eqb k' k then Some a else None
      end
  end.

Class SerdeJsonLaws `{SerdeJson} : Prop := {
  as_str_string s : as_str (json_string s) = Some s;
  as_bool_bool b : as_bool (json_bool b) = Some b;
  as_i64_int z :
    (-9223372036854775808 ≤ z < 9223372036854775808)%Z → as_i64_val (json_int z) = Some z;
  as_u64_int z : (0 ≤ z < 18446744073709551616)%Z → as_u64_val (json_int z) = Some z;
  as_u64_neg z : (z < 0)%Z → as_u64_val (json_int z) = None;
  as_null_null : as_null json_null = Some tt;
  as_null_bool b : as_null (json_bool b) = None;
  as_null_int z : as_null (json_int z) = None;
  as_null_string s : as_null (json_string s) = None;
  as_null_array l : as_null (json_array l) = None;
  as_null_object l : as_null (json_object l) = None;
  as_array_array l : as_array (json_array l) = Some l;
  value_get_object k l : value_get k (json_object l) = assoc_last k l;
  value_get_map k v : value_get k v = (m ← as_object v; map_get k m);
  as_object_object l :
    ∃ m, as_object (json_object l) = Some m ∧ ∀ k, map_get k m = assoc_last k l;
}.

(** ** A concrete instance for the witnesses *)

Module JsonModel.

Inductive value :=
| VNull
| VBool (b : bool)
| VInt (z : Z)
| VString (s : string)
| VArray (l : list value)
| VObject (l : list (string * value)).

Definition get (k : string) (v : value) : option value :=
  match v with
  | VObject l => assoc_last k l
  | _ => None
  end.

(** The instance whose parser is [parse]. *)
Definition model (parse : string → result string value) : SerdeJson := {|
  Value := value;
  JsonMap := list (string * value);
  JsonError := string;
  json_from_str := parse;
  json_error_display := λ e, e;
  value_get := get;
  map_get := assoc_last;
  as_null := λ v, match v with VNull => Some tt | _ => None end;
  as_str := λ v, match v with VString s => Some s | _ => None end;
  as_i64_val := λ v,
    match v with
    | VInt z =>
        if bool_decide (-9223372036854775808 ≤ z < 9223372036854775808)%Z
        then Some z else None
    | _ => None
    end;
  as_u64_val := λ v,
    match v with
    | VInt z => if bool_decide (0 ≤ z < 18446744073709551616)%Z then Some z else None
    | _ => None
    end;
  as_bool := λ v, match v with VBool b => Some b | _ => None end;
  as_array := λ v, match v with VArray l => Some l | _ => None end;
  as_object := λ v, match v with VObject l => Some l | _ => None end;
  json_null := VNull;
  json_bool := VBool;
  json_string := VString;
  json_int := VInt;
  json_array := VArray;
  json_object := VObject;
|}.

#[export] Instance model_laws parse : @SerdeJsonLaws (model parse).
Proof.
  split; simpl; try done.
  - intros z Hz. by rewrite bool_decide_true.
  - intros z Hz. by rewrite bool_decide_true.
  - intros z Hz. rewrite bool_decide_false; [done|lia].
  - intros k [] ; done.
  - intros l. by exists l.
Qed.

End JsonModel.
