(* ===== verification/Status.v ===== *)
(** * Status vocabularies ([crates/pqcas-domain/src/status.rs])

    The six enums that are Postgres enum types and API values at once. The macro
    [pg_enum!] generates [as_str] and [FromStr] for each of them; here it is the class
    [PgEnum], whose methods are what the macro receives (name, SQL type, variants and wire
    spellings), and [from_str] is what it generates. *)

From S2P Require Import Prelude.

(** What one invocation of the macro declares. *)
Class PgEnum (A : Type) := {
  enum_name : string;
  sql_type_name : string;
  variants : list A;
  enum_as_str : A → string;
}.

(** The generated [FromStr]: one arm per variant, in order, then the catch-all. *)
Definition from_str {A} `{PgEnum A} (s : string) : result string A :=
  match find_first (λ v, String.eqb (enum_as_str v) s) variants with
  | Some v => Ok v
  | None => Err ("unknown " +:+ enum_name +:+ ": " +:+ s)
  end.

Module TaskStatus.
Inductive t := Pending | Running | Finished | Failed | Cancelled.

Definition as_str (x : t) : string :=
  match x with
  | Pending => "pending"
  | Running => "running"
  | Finished => "finished"
  | Failed => "failed"
  | Cancelled => "cancelled"
  end.

#[global] Instance eq_dec : EqDecision t.
Proof. solve_decision. Defined.
#[global] Instance pg_enum : PgEnum t := {|
  enum_name := "TaskStatus";
  sql_type_name := "task_status";
  variants := [Pending; Running; Finished; Failed; Cancelled];
  enum_as_str := as_str;
|}.
End TaskStatus.

Module ExecStatus.
Inductive t := Queued | Running | Finished | Error.

Definition as_str (x : t) : string :=
  match x with
  | Queued => "queued"
  | Running => "running"
  | Finished => "finished"
  | Error => "error"
  end.

#[global] Instance eq_dec : EqDecision t.
Proof. solve_decision. Defined.
#[global] Instance pg_enum : PgEnum t := {|
  enum_name := "ExecStatus";
  sql_type_name := "exec_status";
  variants := [Queued; Running; Finished; Error];
  enum_as_str := as_str;
|}.
End ExecStatus.

Module ResultStatus.
Inductive t := Pending | Passed | Failed | Unsupported | Disabled.

Definition as_str (x : t) : string :=
  match x with
  | Pending => "pending"
  | Passed => "passed"
  | Failed => "failed"
  | Unsupported => "unsupported"
  | Disabled => "disabled"
  end.

#[global] Instance eq_dec : EqDecision t.
Proof. solve_decision. Defined.
#[global] Instance pg_enum : PgEnum t := {|
  enum_name := "ResultStatus";
  sql_type_name := "result_status";
  variants := [Pending; Passed; Failed; Unsupported; Disabled];
  enum_as_str := as_str;
|}.
End ResultStatus.

Module ReportStatus.
Inductive t := Missing | Partial | Complete.

Definition as_str (x : t) : string :=
  match x with
  | Missing => "missing"
  | Partial => "partial"
  | Complete => "complete"
  end.

#[global] Instance eq_dec : EqDecision t.
Proof. solve_decision. Defined.
#[global] Instance pg_enum : PgEnum t := {|
  enum_name := "ReportStatus";
  sql_type_name := "report_status";
  variants := [Missing; Partial; Complete];
  enum_as_str := as_str;
|}.
End ReportStatus.

Module KemRunMode.
Inductive t := LibraryCompat | GroupCompat | Priority.

Definition as_str (x : t) : string :=
  match x with
  | LibraryCompat => "library_compat"
  | GroupCompat => "group_compat"
  | Priority => "priority"
  end.

#[global] Instance eq_dec : EqDecision t.
Proof. solve_decision. Defined.
#[global] Instance pg_enum : PgEnum t := {|
  enum_name := "KemRunMode";
  sql_type_name := "kem_run_mode";
  variants := [LibraryCompat; GroupCompat; Priority];
  enum_as_str := as_str;
|}.
End KemRunMode.

Module Capability.
Inductive t := KeyGen | SigGen | SigVer.

Definition as_str (x : t) : string :=
  match x with
  | KeyGen => "key_gen"
  | SigGen => "sig_gen"
  | SigVer => "sig_ver"
  end.

(** The spelling ACVP uses in [prompt.json]. *)
Definition acvp_mode (x : t) : string :=
  match x with
  | KeyGen => "keyGen"
  | SigGen => "sigGen"
  | SigVer => "sigVer"
  end.

Definition from_acvp_mode (mode : string) : option t :=
  if String.eqb mode "keyGen" then Some KeyGen
  else if String.eqb mode "sigGen" then Some SigGen
  else if String.eqb mode "sigVer" then Some SigVer
  else None.

#[global] Instance eq_dec : EqDecision t.
Proof. solve_decision. Defined.
#[global] Instance pg_enum : PgEnum t := {|
  enum_name := "Capability";
  sql_type_name := "cavp_capability";
  variants := [KeyGen; SigGen; SigVer];
  enum_as_str := as_str;
|}.
End Capability.


(** The enum types of the schema ([services/api/migrations/0001_init.sql]). *)
Definition schema_enums : list (string * list string) := [
  ("task_status", ["pending"; "running"; "finished"; "failed"; "cancelled"]);
  ("exec_status", ["queued"; "running"; "finished"; "error"]);
  ("result_status", ["pending"; "passed"; "failed"; "unsupported"; "disabled"]);
  ("report_status", ["missing"; "partial"; "complete"]);
  ("kem_run_mode", ["library_compat"; "group_compat"; "priority"]);
  ("cavp_capability", ["key_gen"; "sig_gen"; "sig_ver"])
].

(** What the Rust side would declare for one enum. *)
Definition declared (A : Type) `{PgEnum A} : string * list string :=
  (sql_type_name, map enum_as_str (variants (A := A))).

(** ** Lemmas *)

(** The macro's arms cover every variant and their spellings differ. *)
Class PgEnumLaws (A : Type) `{PgEnum A} : Prop := {
  variants_complete (v : A) : v ∈ variants;
  enum_as_str_inj (v w : A) : enum_as_str v = enum_as_str w → v = w;
}.

Ltac solve_enum :=
  split; [intros []; simpl; set_solver | intros [] []; simpl; congruence].

#[export] Instance task_status_laws : PgEnumLaws TaskStatus.t.
Proof. solve_enum. Qed.
#[export] Instance exec_status_laws : PgEnumLaws ExecStatus.t.
Proof. solve_enum. Qed.
#[export] Instance result_status_laws : PgEnumLaws ResultStatus.t.
Proof. solve_enum. Qed.
#[export] Instance report_status_laws : PgEnumLaws ReportStatus.t.
Proof. solve_enum. Qed.
#[export] Instance kem_run_mode_laws : PgEnumLaws KemRunMode.t.
Proof. solve_enum. Qed.
#[export] Instance capability_laws : PgEnumLaws Capability.t.
Proof. solve_enum. Qed.

Lemma from_str_Ok {A} `{PgEnumLaws A} (s : string) (v : A) :
  from_str s = Ok v ↔ enum_as_str v = s.
Proof.
  unfold from_str. destruct (find_first _ _) as [w|] eqn:Hw.
  - apply find_first_Some in Hw as (_ & _ & _ & Heq%String.eqb_eq & _). split.
    + by intros [= ->].
    + intros Hv. f_equal. apply enum_as_str_inj. congruence.
  - split; [done|]. intros Hv. apply find_first_None in Hw.
    rewrite Forall_forall in Hw. specialize (Hw v (variants_complete v)).
    rewrite Hv, String.eqb_refl in Hw. done.
Qed.

(** ** Theorems *)

(** The generated parser and printer are inverse to each other: [from_str] accepts
    exactly the wire spellings, each as its variant, and names the enum and the text in the
    error for anything else. *)
Lemma from_str_as_str {A} `{PgEnumLaws A} (s : string) :
  (∀ v : A, from_str s = Ok v ↔ enum_as_str v = s) ∧
  (from_str (A := A) s = Err ("unknown " +:+ enum_name (A := A) +:+ ": " +:+ s) ↔
   ∀ v : A, enum_as_str v ≠ s).
Proof.
  split; [intros v; apply from_str_Ok|]. split.
  - intros He v Hv%from_str_Ok. congruence.
  - intros Hno. unfold from_str. destruct (find_first _ _) as [w|] eqn:Hw; [|done].
    apply find_first_Some in Hw as (_ & _ & _ & Heq%String.eqb_eq & _). by destruct (Hno w).
Qed.

(** The six enums spell their values the way the database schema declares its types,
    in the same order. *)
Lemma enums_match_schema :
  [declared TaskStatus.t; declared ExecStatus.t; declared ResultStatus.t;
   declared ReportStatus.t; declared KemRunMode.t; declared Capability.t] = schema_enums.
Proof. reflexivity. Qed.

Lemma from_str_as_str_witness :
  (∀ v : ResultStatus.t, from_str "Passed" = Ok v ↔ enum_as_str v = "Passed") ∧
  (from_str (A := ResultStatus.t) "Passed" = Err "unknown ResultStatus: Passed" ↔
   ∀ v : ResultStatus.t, enum_as_str v ≠ "Passed").
Proof. exact (from_str_as_str (A := ResultStatus.t) "Passed"). Defined.
