(* ===== verification/Cavp.v ===== *)
(** * CAVP validation ([crates/cavp-validate])

    The grading of a submitted ACVP [results.json] against the answer key of a question
    pack: the FIPS 204 constants ([Params]), the report and its cases, [collect_cases],
    [check_hex], [compare_case] and [validate]. JSON and hexadecimal decoding are
    dependencies: the classes [SerdeJson] and [Hex]. *)

From S2P Require Import Prelude RustStr Json.

(** ** [params.rs] *)

Module Params.

Record ParameterSet := {
  name : string;
  pk_len : nat;
  sk_len : nat;
  sig_len : nat;
  seed_len : nat;
}.

Definition ML_DSA_44 : ParameterSet := {|
  name := "ML-DSA-44"; pk_len := 1312; sk_len := 2560; sig_len := 2420; seed_len := 32;
|}.

Definition ML_DSA_65 : ParameterSet := {|
  name := "ML-DSA-65"; pk_len := 1952; sk_len := 4032; sig_len := 3309; seed_len := 32;
|}.

Definition ML_DSA_87 : ParameterSet := {|
  name := "ML-DSA-87"; pk_len := 2592; sk_len := 4896; sig_len := 4627; seed_len := 32;
|}.

Definition ALL : list ParameterSet := [ML_DSA_44; ML_DSA_65; ML_DSA_87].

Definition lookup (n : string) : option ParameterSet :=
  find_first (λ p, eq_ignore_ascii_case p.(name) n) ALL.

End Params.

(** ** The [hex] crate *)

Class Hex := {
  FromHexError : Type;
  hex_decode : string → result FromHexError (list u8);
  hex_error_display : FromHexError → string;
}.

(** Its documentation: two digits per byte, in either case. *)
Class HexLaws `{Hex} : Prop := {
  hex_decode_length s b : hex_decode s = Ok b → String.length s = 2 * length b;
  hex_decode_case s t b :
    s ≈ci t → hex_decode s = Ok b → hex_decode t = Ok b;
}.

(** ** Data *)

Inductive CaseStatus := Correct | Incorrect | Malformed | Missing.

#[export] Instance case_status_eq_dec : EqDecision CaseStatus.
Proof. solve_decision. Defined.

Record CaseResult := {
  tc_id : Z;
  status : CaseStatus;
  field : option string;
  reason : option string;
}.

Record ValidationReport := {
  rep_vs_id : Z;
  rep_mode : string;
  rep_parameter_set : string;
  total : nat;
  correct : nat;
  incorrect : nat;
  malformed : nat;
  missing : nat;
  cases : list CaseResult;
}.

(** [ValidationReport::all_correct]. *)
Definition all_correct (r : ValidationReport) : bool :=
  (0 <? r.(total)) && (r.(correct) =? r.(total)).

Record AnswerCase := {
  ans_tc_id : Z;
  pk : option string;
  sk : option string;
  signature : option string;
  test_passed : option bool;
}.

Record AnswerKey := {
  key_vs_id : Z;
  key_mode : string;
  key_parameter_set : string;
  key_cases : list AnswerCase;
}.

Section validate.
Context {J : SerdeJson} {X : Hex}.

Inductive ValidateError :=
| JsonErr (e : JsonError)
| UnknownParameterSet (s : string)
| ModeMismatch (got want : string)
| VsIdMismatch (got want : Z)
| MissingTestGroups.

(** The [thiserror] messages. *)
Definition error_display (e : ValidateError) : string :=
  match e with
  | JsonErr e => "results payload is not valid JSON: " +:+ json_error_display e
  | UnknownParameterSet s => "unknown parameter set " +:+ s
  | ModeMismatch got want => "results are for " +:+ got +:+ ", expected " +:+ want
  | VsIdMismatch got want => "results are for vsId " +:+ show got +:+ ", expected " +:+ show want
  | MissingTestGroups => "results are missing the testGroups array"
  end.

Record SubmittedCase := {
  sub_tc_id : Z;
  values : JsonMap;
}.

(** The entries of one test group; an entry that is not an object, or whose [tcId] is not
    an integer, is skipped. *)
Definition collect_group (group : Value) : list SubmittedCase :=
  match value_get "tests" group ≫= as_array with
  | None => []
  | Some tests =>
      omap (λ test,
        obj ← as_object test;
        id ← map_get "tcId" obj ≫= as_i64_val;
        Some {| sub_tc_id := id; values := obj |}) tests
  end.

Definition collect_cases (value : Value) : option (list SubmittedCase) :=
  groups ← value_get "testGroups" value ≫= as_array;
  Some (groups ≫= collect_group).

(** [Ok] when the field matches; [Err] carries the failure to report. *)
Definition check_hex (id : Z) (actual : SubmittedCase) (fld want : string)
    (expected_len : nat) : result CaseResult unit :=
  let malformed_ (r : string) :=
    Err {| tc_id := id; status := Malformed; field := Some fld; reason := Some r |} in
  match map_get fld actual.(values) ≫= as_str with
  | None => malformed_ ("missing " +:+ fld)
  | Some got =>
      if String.eqb (trim got) "" then malformed_ (fld +:+ " is empty") else
      match hex_decode (trim got) with
      | Err err => malformed_ (fld +:+ " is not hex: " +:+ hex_error_display err)
      | Ok bytes =>
          if negb (length bytes =? expected_len) then
            malformed_ (fld +:+ " is " +:+ show (Z.of_nat (length bytes))
                        +:+ " bytes, expected " +:+ show (Z.of_nat expected_len))
          else if negb (eq_ignore_ascii_case (trim got) want) then
            Err {| tc_id := id; status := Incorrect; field := Some fld;
                   reason := Some (fld +:+ " does not match the reference value") |}
          else Ok tt
      end
  end.

(** The loop over the fields of a [keyGen] answer: fields the key does not set are
    skipped, the first failure is returned. *)
Fixpoint check_fields (id : Z) (actual : SubmittedCase)
    (fields : list (string * option string * nat)) : result CaseResult unit :=
  match fields with
  | [] => Ok tt
  | (fld, None, _) :: rest => check_fields id actual rest
  | (fld, Some want, len) :: rest =>
      match check_hex id actual fld want len with
      | Err r => Err r
      | Ok _ => check_fields id actual rest
      end
  end.

Definition compare_case (expected : AnswerCase) (actual : SubmittedCase) (mode : string)
    (set : Params.ParameterSet) : CaseResult :=
  let id := expected.(ans_tc_id) in
  let ok := {| tc_id := id; status := Correct; field := None; reason := None |} in
  if String.eqb mode "keyGen" then
    match check_fields id actual
            [("pk", expected.(pk), set.(Params.pk_len));
             ("sk", expected.(sk), set.(Params.sk_len))] with
    | Err r => r
    | Ok _ => ok
    end
  else if String.eqb mode "sigGen" then
    match expected.(signature) with
    | None => ok
    | Some want =>
        match check_hex id actual "signature" want set.(Params.sig_len) with
        | Ok _ => ok
        | Err r => r
        end
    end
  else if String.eqb mode "sigVer" then
    match expected.(test_passed) with
    | None => ok
    | Some want =>
        match map_get "testPassed" actual.(values) ≫= as_bool with
        | None =>
            {| tc_id := id; status := Malformed; field := Some "testPassed";
               reason := Some "expected a boolean testPassed" |}
        | Some got =>
            if Bool.eqb got want then ok
            else {| tc_id := id; status := Incorrect; field := Some "testPassed";
                    reason := Some ("expected testPassed = "
                                    +:+ (if want then "true" else "false")) |}
        end
    end
  else
    {| tc_id := id; status := Malformed; field := None;
       reason := Some ("unsupported mode " +:+ mode) |}.

(** The closure that grades one case of the key. *)
Definition grade (submitted : list SubmittedCase) (mode : string) (set : Params.ParameterSet)
    (expected : AnswerCase) : CaseResult :=
  match find_first (λ c, (c.(sub_tc_id) =? expected.(ans_tc_id))%Z) submitted with
  | None => {| tc_id := expected.(ans_tc_id); status := Missing; field := None;
               reason := Some "no entry for this tcId" |}
  | Some actual => compare_case expected actual mode set
  end.

Definition count_status (s : CaseStatus) (l : list CaseResult) : nat :=
  length (filter (λ c, c.(status) = s) l).

Definition report_of (key : AnswerKey) (l : list CaseResult) : ValidationReport := {|
  rep_vs_id := key.(key_vs_id);
  rep_mode := key.(key_mode);
  rep_parameter_set := key.(key_parameter_set);
  total := length l;
  correct := count_status Correct l;
  incorrect := count_status Incorrect l;
  malformed := count_status Malformed l;
  missing := count_status Missing l;
  cases := l;
|}.

(** The two optional header checks. *)
Definition check_mode (value : Value) (key : AnswerKey) : result ValidateError unit :=
  match value_get "mode" value ≫= as_str with
  | Some mode =>
      if String.eqb mode key.(key_mode) then Ok tt else Err (ModeMismatch mode key.(key_mode))
  | None => Ok tt
  end.

Definition check_vs_id (value : Value) (key : AnswerKey) : result ValidateError unit :=
  match value_get "vsId" value ≫= as_i64_val with
  | Some vs_id =>
      if (vs_id =? key.(key_vs_id))%Z then Ok tt else Err (VsIdMismatch vs_id key.(key_vs_id))
  | None => Ok tt
  end.

Local Open Scope rust_scope.

Definition validate (results_json : string) (key : AnswerKey)
    : result ValidateError ValidationReport :=
  let? value := map_err JsonErr (json_from_str results_json) in
  let? set := ok_or (UnknownParameterSet key.(key_parameter_set))
                (Params.lookup key.(key_parameter_set)) in
  let? _ := check_mode value key in
  let? _ := check_vs_id value key in
  let? submitted := ok_or MissingTestGroups (collect_cases value) in
  Ok (report_of key (map (grade submitted key.(key_mode) set) key.(key_cases))).

End validate.

(** ** Specification *)

Section spec.
Context {J : SerdeJson} {X : Hex}.

(** The field holds a string that is, white space around it apart, the reference value in
    either case, and it decodes to exactly [len] bytes. *)
Definition hex_matches (actual : SubmittedCase) (fld want : string) (len : nat) : Prop :=
  ∃ v got bytes,
    map_get fld actual.(values) = Some v ∧ as_str v = Some got ∧ is_blank got = false ∧
    hex_decode (trim got) = Ok bytes ∧ length bytes = len ∧ trim got ≈ci want.

(** The submission [actual] answers [expected] in full. *)
Definition answers (mode : string) (set : Params.ParameterSet) (expected : AnswerCase)
    (actual : SubmittedCase) : Prop :=
  (mode = "keyGen" ∧
     (∀ want, expected.(pk) = Some want → hex_matches actual "pk" want set.(Params.pk_len)) ∧
     (∀ want, expected.(sk) = Some want → hex_matches actual "sk" want set.(Params.sk_len)))
  ∨ (mode = "sigGen" ∧
     ∀ want, expected.(signature) = Some want →
       hex_matches actual "signature" want set.(Params.sig_len))
  ∨ (mode = "sigVer" ∧
     ∀ want, expected.(test_passed) = Some want →
       ∃ v, map_get "testPassed" actual.(values) = Some v ∧ as_bool v = Some want).

(** [actual] is the first submission with the [tcId] of [expected]. *)
Definition first_with_id (submitted : list SubmittedCase) (id : Z) (actual : SubmittedCase)
    : Prop :=
  ∃ l1 l2, submitted = l1 ++ actual :: l2 ∧ actual.(sub_tc_id) = id ∧
    Forall (λ c, c.(sub_tc_id) ≠ id) l1.

(** The [results.json] document that gives the answers of the key, as the browser builds
    it. *)
Definition answer_fields (c : AnswerCase) : list (string * Value) :=
  ("tcId", json_int c.(ans_tc_id))
  :: (match c.(pk) with Some s => [("pk", json_string s)] | None => [] end)
  ++ (match c.(sk) with Some s => [("sk", json_string s)] | None => [] end)
  ++ (match c.(signature) with Some s => [("signature", json_string s)] | None => [] end)
  ++ (match c.(test_passed) with Some b => [("testPassed", json_bool b)] | None => [] end).

Definition answer_document (key : AnswerKey) : Value :=
  json_object
    [("vsId", json_int key.(key_vs_id));
     ("mode", json_string key.(key_mode));
     ("testGroups",
      json_array
        [json_object
           [("tests", json_array (map (λ c, json_object (answer_fields c)) key.(key_cases)))]])].

(** A key whose reference values have the sizes of its parameter set. *)
Definition hex_of_size (len : nat) (o : option string) : Prop :=
  ∀ s, o = Some s → trim s = s ∧ s ≠ "" ∧ ∃ bytes, hex_decode s = Ok bytes ∧ length bytes = len.

Definition i64_range (z : Z) : Prop :=
  (-9223372036854775808 ≤ z < 9223372036854775808)%Z.

Definition key_wf (key : AnswerKey) : Prop :=
  (key.(key_mode) = "keyGen" ∨ key.(key_mode) = "sigGen" ∨ key.(key_mode) = "sigVer") ∧
  i64_range key.(key_vs_id) ∧
  Forall (λ c, i64_range c.(ans_tc_id)) key.(key_cases) ∧
  NoDup (map ans_tc_id key.(key_cases)) ∧
  ∃ set, Params.lookup key.(key_parameter_set) = Some set ∧
    Forall (λ c, hex_of_size set.(Params.pk_len) c.(pk) ∧
                 hex_of_size set.(Params.sk_len) c.(sk) ∧
                 hex_of_size set.(Params.sig_len) c.(signature)) key.(key_cases).

End spec.

(** ** Lemmas *)

Section lemmas.
Context {J : SerdeJson} {X : Hex}.

Lemma check_hex_Ok id actual fld want len :
  check_hex id actual fld want len = Ok tt ↔ hex_matches actual fld want len.
Proof.
  unfold check_hex, hex_matches, ci_eq. split.
  - destruct (map_get fld _) as [v|] eqn:Hv; simpl; [|done].
    destruct (as_str v) as [got|] eqn:Hgot; [|done].
    destruct (String.eqb_spec (trim got) "") as [|Hne]; [done|].
    destruct (hex_decode (trim got)) as [bytes|] eqn:Hb; [|done].
    destruct (Nat.eqb_spec (length bytes) len) as [|]; [|done]. simpl.
    destruct (eq_ignore_ascii_case (trim got) want) eqn:Hc; [|done]. intros _.
    exists v, got, bytes. split_and!; try done.
    apply not_true_iff_false. by rewrite <-trim_empty.
  - intros (v & got & bytes & Hv & Hgot & Hblank & Hb & <- & Hc).
    rewrite Hv. simpl. rewrite Hgot.
    destruct (String.eqb_spec (trim got) "") as [He%trim_empty|]; [congruence|].
    by rewrite Hb, Nat.eqb_refl, Hc.
Qed.

Lemma check_hex_Err id actual fld want len r :
  check_hex id actual fld want len = Err r →
  r.(tc_id) = id ∧ r.(field) = Some fld ∧ is_Some r.(reason) ∧
  (r.(status) = Malformed ∨ r.(status) = Incorrect).
Proof. unfold check_hex. intros. repeat case_match; simplify_eq/=; eauto. Qed.

Lemma check_fields_Ok id actual fields :
  check_fields id actual fields = Ok tt ↔
  Forall (λ f, ∀ want, f.1.2 = Some want → hex_matches actual f.1.1 want f.2) fields.
Proof.
  induction fields as [|[[fld [want|]] len] rest IH]; simpl; [done| |].
  - rewrite Forall_cons, <-IH. simpl.
    destruct (check_hex id actual fld want len) as [[]|e] eqn:Hc.
    + apply check_hex_Ok in Hc. naive_solver.
    + split; [done|]. intros [H _]. specialize (H want eq_refl). apply (check_hex_Ok id) in H. congruence.
  - rewrite Forall_cons, IH. naive_solver.
Qed.

Lemma check_fields_Err id actual fields r :
  check_fields id actual fields = Err r →
  r.(tc_id) = id ∧ is_Some r.(field) ∧ is_Some r.(reason) ∧
  (r.(status) = Malformed ∨ r.(status) = Incorrect).
Proof.
  induction fields as [|[[fld [want|]] len] rest IH]; simpl; [done| |done].
  destruct (check_hex _ _ _ _ _) as [[]|e] eqn:Hc; [done|]. intros [= <-].
  apply check_hex_Err in Hc as (? & ? & ? & ?). eauto.
Qed.

Lemma compare_case_id expected actual mode set :
  (compare_case expected actual mode set).(tc_id) = expected.(ans_tc_id).
Proof.
  unfold compare_case.
  destruct (String.eqb mode "keyGen").
  { destruct (check_fields _ _ _) eqn:H; [done|]. by apply check_fields_Err in H as [? _]. }
  destruct (String.eqb mode "sigGen").
  { destruct expected.(signature); [|done].
    destruct (check_hex _ _ _ _ _) eqn:H; [done|]. by apply check_hex_Err in H as [? _]. }
  repeat case_match; done.
Qed.

Lemma compare_case_Correct expected actual mode set :
  (compare_case expected actual mode set).(status) = Correct ↔
  answers mode set expected actual.
Proof.
  unfold compare_case, answers.
  destruct (String.eqb_spec mode "keyGen") as [->|H1].
  { transitivity (check_fields expected.(ans_tc_id) actual
      [("pk", expected.(pk), set.(Params.pk_len));
       ("sk", expected.(sk), set.(Params.sk_len))] = Ok tt).
    - destruct (check_fields _ _ _) as [[]|e] eqn:H; [done|].
      apply check_fields_Err in H as (_ & _ & _ & [-> | ->]); done.
    - rewrite check_fields_Ok, !Forall_cons, Forall_nil. simpl. naive_solver. }
  destruct (String.eqb_spec mode "sigGen") as [->|H2].
  { destruct expected.(signature) as [want|]; [|naive_solver].
    transitivity (check_hex expected.(ans_tc_id) actual "signature" want
                    set.(Params.sig_len) = Ok tt).
    - destruct (check_hex _ _ _ _ _) as [[]|e] eqn:H; [done|].
      apply check_hex_Err in H as (_ & _ & _ & [-> | ->]); done.
    - rewrite check_hex_Ok. naive_solver. }
  destruct (String.eqb_spec mode "sigVer") as [->|H3]; [|naive_solver].
  destruct expected.(test_passed) as [want|]; [|naive_solver].
  destruct (map_get "testPassed" _) as [v|]; simpl; [|naive_solver].
  destruct (as_bool v) as [got|] eqn:Hb; simpl; [|naive_solver].
  destruct (eqb_spec got want); naive_solver.
Qed.

Lemma grade_id submitted mode set expected :
  (grade submitted mode set expected).(tc_id) = expected.(ans_tc_id).
Proof. unfold grade. case_match; [apply compare_case_id|done]. Qed.

Lemma find_first_with_id submitted id actual :
  find_first (λ c, (c.(sub_tc_id) =? id)%Z) submitted = Some actual ↔
  first_with_id submitted id actual.
Proof.
  rewrite find_first_Some. unfold first_with_id.
  setoid_rewrite Z.eqb_eq. setoid_rewrite Z.eqb_neq. done.
Qed.

Lemma grade_Correct submitted mode set expected :
  (grade submitted mode set expected).(status) = Correct ↔
  ∃ actual, first_with_id submitted expected.(ans_tc_id) actual ∧
    answers mode set expected actual.
Proof.
  unfold grade. setoid_rewrite <-find_first_with_id.
  destruct (find_first _ _) as [actual|].
  - rewrite compare_case_Correct. naive_solver.
  - naive_solver.
Qed.

Lemma count_status_le s l : count_status s l ≤ length l.
Proof. apply length_filter. Qed.

Lemma count_status_all s l : count_status s l = length l ↔ Forall (λ c, c.(status) = s) l.
Proof.
  unfold count_status. induction l as [|c l IH]; [done|]. rewrite Forall_cons, filter_cons.
  pose proof (length_filter (λ c, c.(status) = s) l).
  case_decide; simpl; [|split; [lia|naive_solver]].
  rewrite <-IH. split; [intros; split; [done|lia]|lia].
Qed.

Lemma counts_partition l :
  count_status Correct l + count_status Incorrect l + count_status Malformed l
    + count_status Missing l = length l.
Proof.
  unfold count_status. induction l as [|c l IH]; [done|]. rewrite !filter_cons.
  destruct c.(status) eqn:Hs; repeat case_decide; try congruence; simpl; lia.
Qed.

End lemmas.

(** ** An instance of the [hex] interface for the witnesses *)

Module HexModel.

Definition hex_val (c : u8) : option Z :=
  match digit_of c with
  | Some d => Some d
  | None =>
      let n := byte (ascii_lower c) in
      if ((97 <=? n) && (n <=? 102))%Z then Some (n - 87)%Z else None
  end.

Fixpoint decode (s : string) : result string (list u8) :=
  match s with
  | EmptyString => Ok []
  | String _ EmptyString => Err "Odd number of digits"
  | String a (String b r) =>
      match hex_val a, hex_val b, decode r with
      | Some x, Some y, Ok l => Ok (Ascii.ascii_of_N (Z.to_N (16 * x + y)) :: l)
      | _, _, Err e => Err e
      | _, _, _ => Err "Invalid character"
      end
  end.

#[export] Instance hex : Hex := {|
  FromHexError := string;
  hex_decode := decode;
  hex_error_display := λ e, e;
|}.

Lemma digit_of_lower c : digit_of (ascii_lower c) = digit_of c.
Proof.
  unfold digit_of. destruct (byte_ascii_lower c) as [->|[? ->]]; [done|].
  by repeat (case_match; try lia).
Qed.

Lemma hex_val_lower c : hex_val (ascii_lower c) = hex_val c.
Proof. unfold hex_val. by rewrite digit_of_lower, ascii_lower_idemp. Qed.

Lemma decode_lower s : decode (to_ascii_lowercase s) = decode s.
Proof.
  induction s as [s IH] using string_len_ind.
  destruct s as [|a [|b r]]; [done..|]. simpl. rewrite !hex_val_lower, IH; [done|simpl; lia].
Qed.

Lemma decode_length s l : decode s = Ok l → String.length s = 2 * length l.
Proof.
  revert l. induction s as [s IH] using string_len_ind. intros l.
  destruct s as [|a [|b r]]; simpl; [by intros [= <-]|done|].
  intros. repeat case_match; simplify_eq. simpl.
  erewrite (IH r); [|simpl; lia|done]. lia.
Qed.

#[export] Instance hex_laws : HexLaws.
Proof.
  split; [apply decode_length|]. intros s t b Hst%eq_ignore_ascii_case_spec Hs. simpl in *.
  by rewrite <-decode_lower, <-Hst, decode_lower.
Qed.

End HexModel.

(** ** Theorems *)

Section theorems.
Context {J : SerdeJson} {X : Hex}.

Lemma validate_Ok results_json key r :
  validate results_json key = Ok r ↔
  ∃ v set subs,
    json_from_str results_json = Ok v ∧
    Params.lookup key.(key_parameter_set) = Some set ∧
    check_mode v key = Ok tt ∧ check_vs_id v key = Ok tt ∧
    collect_cases v = Some subs ∧
    r = report_of key (map (grade subs key.(key_mode) set) key.(key_cases)).
Proof.
  unfold validate. split.
  - intros (v & Hv & (set & Hset & ([] & Hm & ([] & Hi & (subs & Hs & Hr)
      %result_bind_ok)%result_bind_ok)%result_bind_ok)%result_bind_ok)%result_bind_ok.
    destruct (json_from_str results_json); simplify_eq/=.
    apply ok_or_ok in Hset, Hs. naive_solver.
  - intros (v & set & subs & -> & -> & Hm & Hi & Hs & ->). simpl.
    by rewrite Hm, Hi, Hs.
Qed.

Lemma report_correct subs mode set l :
  Forall (λ c, c.(status) = Correct) (map (grade subs mode set) l) ↔
  ∀ c, c ∈ l → ∃ actual,
    first_with_id subs c.(ans_tc_id) actual ∧ answers mode set c actual.
Proof. rewrite Forall_map, Forall_forall. by setoid_rewrite grade_Correct. Qed.

Lemma all_correct_report key l :
  all_correct (report_of key l) = true ↔ l ≠ [] ∧ Forall (λ c, c.(status) = Correct) l.
Proof.
  unfold all_correct. simpl. rewrite andb_true_iff, Nat.ltb_lt, Nat.eqb_eq, count_status_all.
  split; intros [H ?]; (split; [|done]).
  - intros ->. simpl in H. lia.
  - destruct l; [done|]. simpl. lia.
Qed.

Lemma check_mode_Ok v key :
  check_mode v key = Ok tt ↔
  ∀ m, value_get "mode" v ≫= as_str = Some m → m = key.(key_mode).
Proof.
  unfold check_mode. destruct (value_get "mode" v ≫= as_str) as [m|]; [|done].
  destruct (String.eqb_spec m key.(key_mode)); naive_solver.
Qed.

Lemma check_vs_id_Ok v key :
  check_vs_id v key = Ok tt ↔
  ∀ n, value_get "vsId" v ≫= as_i64_val = Some n → n = key.(key_vs_id).
Proof.
  unfold check_vs_id. destruct (value_get "vsId" v ≫= as_i64_val) as [n|]; [|done].
  destruct (Z.eqb_spec n key.(key_vs_id)); naive_solver.
Qed.

(** a report has exactly one case per answer of the key, in the key's order and with
    its [tcId]; the four counters count the cases of each status and add up to the total. *)
Theorem validate_report_wf results_json key r :
  validate results_json key = Ok r →
  map tc_id r.(cases) = map ans_tc_id key.(key_cases) ∧
  r.(total) = length key.(key_cases) ∧
  r.(correct) + r.(incorrect) + r.(malformed) + r.(missing) = r.(total) ∧
  r.(correct) = count_status Correct r.(cases) ∧
  r.(incorrect) = count_status Incorrect r.(cases) ∧
  r.(malformed) = count_status Malformed r.(cases) ∧
  r.(missing) = count_status Missing r.(cases) ∧
  (r.(rep_vs_id), r.(rep_mode), r.(rep_parameter_set)) =
    (key.(key_vs_id), key.(key_mode), key.(key_parameter_set)).
Proof.
  intros (v & set & subs & _ & _ & _ & _ & _ & ->)%validate_Ok. simpl.
  rewrite counts_partition, length_map, map_map. split_and!; try done.
  apply map_ext, grade_id.
Qed.

(** C22. the submission is graded all correct exactly when the key is not empty and, for
    every case of the key, the first entry with its [tcId] answers it: the hex fields the
    key sets decode to the FIPS 204 length and equal the reference value, the boolean
    equals the expected one, and the mode is one of the three ACVP modes. *)
Theorem all_correct_iff results_json key v r :
  json_from_str results_json = Ok v →
  validate results_json key = Ok r →
  all_correct r = true ↔
    key.(key_cases) ≠ [] ∧
    ∃ set subs,
      Params.lookup key.(key_parameter_set) = Some set ∧ collect_cases v = Some subs ∧
      ∀ c, c ∈ key.(key_cases) → ∃ actual,
        first_with_id subs c.(ans_tc_id) actual ∧ answers key.(key_mode) set c actual.
Proof.
  intros Hv (v' & set & subs & Hv' & Hset & _ & _ & Hsubs & ->)%validate_Ok.
  rewrite Hv' in Hv. injection Hv as ->.
  rewrite all_correct_report, report_correct.
  assert (Hnil : ∀ f : AnswerCase → CaseResult, map f (key_cases key) ≠ [] ↔ key_cases key ≠ []).
  { intros f. by destruct (key_cases key). }
  rewrite Hnil. split; intros [Hne H]; (split; [done|]).
  - exists set, subs. auto.
  - destruct H as (set' & subs' & Hset' & Hsubs' & H). simplify_eq. done.
Qed.


(** The three outcomes of [check_hex]. *)
Definition hex_sized (got : string) (len : nat) : Prop :=
  is_blank got = false ∧ ∃ bytes, hex_decode (trim got) = Ok bytes ∧ length bytes = len.

Lemma check_hex_cases id actual fld want len :
  let got := map_get fld actual.(values) ≫= as_str in
  (∃ g, got = Some g ∧ hex_sized g len ∧ trim g ≈ci want ∧
     check_hex id actual fld want len = Ok tt) ∨
  (∃ g r, got = Some g ∧ hex_sized g len ∧ ¬ (trim g ≈ci want) ∧
     check_hex id actual fld want len = Err r ∧ r.(status) = Incorrect) ∨
  (∃ r, (∀ g, got = Some g → ¬ hex_sized g len) ∧
     check_hex id actual fld want len = Err r ∧ r.(status) = Malformed).
Proof.
  unfold check_hex, ci_eq, hex_sized.
  destruct (map_get fld _ ≫= as_str) as [g|]; [|right; right; eexists; by split_and!].
  destruct (String.eqb_spec (trim g) "") as [Hb%trim_empty|Hb].
  { right; right. eexists. split_and!; [|done..]. intros ? [= <-] [? _]. congruence. }
  assert (is_blank g = false).
  { apply not_true_iff_false. by rewrite <-trim_empty. }
  destruct (hex_decode (trim g)) as [bytes|e] eqn:Hd.
  2: { right; right. eexists. split_and!; [|done..].
       intros ? [= <-] (_ & bytes & ? & _). congruence. }
  destruct (Nat.eqb_spec (length bytes) len) as [<-|Hl]; simpl.
  2: { right; right. eexists. split_and!; [|done..].
       intros ? [= <-] (_ & ? & ? & ?). congruence. }
  destruct (eq_ignore_ascii_case (trim g) want) eqn:Hc; simpl.
  - left. exists g. split_and!; eauto.
  - right; left. eexists g, _. split_and!; [done|done|eauto| |done|done]. congruence.
Qed.

(** how [check_hex] sorts the answers. With [hex_sized] for "the field is a
    non-blank string that decodes to exactly the expected number of bytes", the field is
    accepted when it is well formed and equals the reference value up to case, reported
    as incorrect when it is well formed and differs, and malformed otherwise. *)
Lemma check_hex_classification id actual fld want len :
  let got := map_get fld actual.(values) ≫= as_str in
  (check_hex id actual fld want len = Ok tt ↔
     ∃ g, got = Some g ∧ hex_sized g len ∧ trim g ≈ci want) ∧
  ((∃ r, check_hex id actual fld want len = Err r ∧ r.(status) = Incorrect) ↔
     ∃ g, got = Some g ∧ hex_sized g len ∧ ¬ (trim g ≈ci want)) ∧
  ((∃ r, check_hex id actual fld want len = Err r ∧ r.(status) = Malformed) ↔
     ∀ g, got = Some g → ¬ hex_sized g len).
Proof.
  destruct (check_hex_cases id actual fld want len)
    as [(g & -> & ? & ? & ->)|[(g & r & -> & ? & ? & -> & ?)|(r & Hno & -> & ?)]];
    (split_and!; split; intros; destruct_ex_and; simplify_eq; try congruence; eauto 6);
    exfalso; naive_solver.
Qed.

(** C35. the grading of a hex field does not depend on the case of its digits nor on white
    space around it. *)
Lemma check_hex_normalised `{!HexLaws} id a1 a2 fld want len v1 v2 g1 g2 w1 w2 :
  map_get fld a1.(values) = Some v1 → as_str v1 = Some g1 →
  map_get fld a2.(values) = Some v2 → as_str v2 = Some (w1 +:+ g2 +:+ w2) →
  is_blank w1 = true → is_blank w2 = true → g1 ≈ci g2 →
  check_hex id a1 fld want len = Ok tt ↔ check_hex id a2 fld want len = Ok tt.
Proof.
  intros Hv1 Hg1 Hv2 Hg2 Hw1 Hw2 Hg. rewrite !check_hex_Ok. unfold hex_matches.
  rewrite Hv1, Hv2. assert (Htrim : trim (w1 +:+ g2 +:+ w2) ≈ci trim g1).
  { rewrite trim_pad by done. by rewrite Hg. }
  assert (Hblank : is_blank (w1 +:+ g2 +:+ w2) = is_blank g1).
  { apply eq_true_iff_eq. rewrite <-!trim_empty, trim_pad by done. rewrite !trim_empty.
    by rewrite Hg. }
  split; intros (v & got & bytes & [= <-] & Hgot & Hbl & Hdec & Hlen & Hci); simplify_eq.
  - exists v2, (w1 +:+ g2 +:+ w2), bytes. split_and!; try done; [congruence| |by rewrite Htrim].
    by apply (hex_decode_case (trim g1)); [symmetry|].
  - exists v1, g1, bytes. split_and!; try done; [congruence| |by rewrite <-Htrim].
    by apply (hex_decode_case (trim (w1 +:+ g2 +:+ w2))).
Qed.


(** The submission built from one case of the key. *)
Definition mirrors (c : AnswerCase) (sub : SubmittedCase) : Prop :=
  sub.(sub_tc_id) = c.(ans_tc_id) ∧
  ∀ k, map_get k sub.(values) = assoc_last k (answer_fields c).

Lemma collect_group_mirrors `{!SerdeJsonLaws} l :
  Forall (λ c, i64_range c.(ans_tc_id)) l →
  ∃ subs,
    collect_group
      (json_object [("tests", json_array (map (λ c, json_object (answer_fields c)) l))]) = subs ∧
    Forall2 mirrors l subs.
Proof.
  intros Hl. unfold collect_group. rewrite value_get_object. simpl. rewrite as_array_array.
  eexists; split; [reflexivity|]. induction Hl as [|c l Hc Hl IH]; simpl; [constructor|].
  destruct (as_object_object (answer_fields c)) as (m & Hm & Hget).
  assert (Hid : map_get "tcId" m = Some (json_int c.(ans_tc_id))).
  { rewrite Hget. unfold answer_fields.
    by destruct c.(pk), c.(sk), c.(signature), c.(test_passed). }
  rewrite Hm. simpl. rewrite Hid. simpl. rewrite as_i64_int by done. simpl.
  by constructor.
Qed.

Lemma mirrors_first l subs c :
  Forall2 mirrors l subs → NoDup (map ans_tc_id l) → c ∈ l →
  ∃ actual, first_with_id subs c.(ans_tc_id) actual ∧ mirrors c actual.
Proof.
  intros Hall Hnd (l1 & l2 & ->)%list_elem_of_split.
  apply Forall2_app_inv_l in Hall as (s1 & s2 & H1 & H2 & ->).
  apply Forall2_cons_inv_l in H2 as (actual & s2' & Hc & H2 & ->).
  exists actual. split; [|done]. exists s1, s2'. split_and!; [done|apply Hc|].
  rewrite map_app, NoDup_app in Hnd. destruct Hnd as (_ & Hdis & _). simpl in Hdis.
  assert (Hids : Forall (λ i, i ≠ c.(ans_tc_id)) (map ans_tc_id l1)).
  { apply Forall_forall. intros i Hi ->. apply (Hdis _ Hi). set_solver. }
  clear -H1 Hids. induction H1 as [|x y l1 s1 [Hxy _] H1 IH]; [constructor|].
  apply Forall_cons in Hids as [Hx Hids]. constructor; [congruence|auto].
Qed.

Lemma mirrors_answers `{!SerdeJsonLaws} key set c actual :
  (key.(key_mode) = "keyGen" ∨ key.(key_mode) = "sigGen" ∨ key.(key_mode) = "sigVer") →
  hex_of_size set.(Params.pk_len) c.(pk) → hex_of_size set.(Params.sk_len) c.(sk) →
  hex_of_size set.(Params.sig_len) c.(signature) →
  mirrors c actual → answers key.(key_mode) set c actual.
Proof.
  intros Hmode Hpk Hsk Hsig [_ Hget].
  assert (Hhex : ∀ fld len o want, hex_of_size len o → o = Some want →
    assoc_last fld (answer_fields c) = Some (json_string want) →
    hex_matches actual fld want len).
  { intros fld len o want Ho -> Hfld. destruct (Ho want) as (Htrim & Hne & bytes & Hb & Hlen); [done|].
    exists (json_string want), want, bytes. rewrite Hget, Htrim.
    split_and!; [done|apply as_str_string| |done|done|reflexivity].
    apply not_true_iff_false. by rewrite <-trim_empty, Htrim. }
  unfold answers.
  destruct Hmode as [Hm|[Hm|Hm]]; [left|right; left|right; right]; split_and?; try done.
  - intros want Hw. eapply Hhex; [done|done|]. unfold answer_fields. rewrite Hw.
    by destruct c.(sk), c.(signature), c.(test_passed).
  - intros want Hw. eapply Hhex; [done|done|]. unfold answer_fields. rewrite Hw.
    by destruct c.(pk), c.(signature), c.(test_passed).
  - intros want Hw. eapply Hhex; [done|done|]. unfold answer_fields. rewrite Hw.
    by destruct c.(pk), c.(sk), c.(test_passed).
  - intros want Hw. exists (json_bool want). split; [|apply as_bool_bool].
    rewrite Hget. unfold answer_fields. rewrite Hw.
    by destruct c.(pk), c.(sk), c.(signature).
Qed.

(** C37. a student who submits the reference answers passes. For a key whose mode is one of
    the three, whose [tcId]s are distinct and whose reference values have the sizes of its
    parameter set, the document that carries the key's answers is accepted, and the report
    is all correct as soon as the key has a case. *)
Theorem reference_answers_pass `{!SerdeJsonLaws} text key :
  key_wf key →
  json_from_str text = Ok (answer_document key) →
  ∃ r, validate text key = Ok r ∧ (all_correct r = true ↔ key.(key_cases) ≠ []).
Proof.
  intros (Hmode & Hvs & Hids & Hnd & set & Hset & Hsizes) Htext.
  destruct (collect_group_mirrors key.(key_cases) Hids) as (subs & Hsubs & Hall).
  assert (Hcollect : collect_cases (answer_document key) = Some subs).
  { unfold collect_cases, answer_document. rewrite value_get_object. simpl.
    rewrite as_array_array. simpl. by rewrite Hsubs, app_nil_r. }
  exists (report_of key (map (grade subs key.(key_mode) set) key.(key_cases))). split.
  - apply validate_Ok. exists (answer_document key), set, subs. split_and!; try done.
    + apply check_mode_Ok. unfold answer_document. rewrite value_get_object. simpl.
      rewrite as_str_string. congruence.
    + apply check_vs_id_Ok. unfold answer_document. rewrite value_get_object. simpl.
      rewrite as_i64_int by done. congruence.
  - rewrite all_correct_report, report_correct. split.
    + intros [Hm _] Hn. by rewrite Hn in Hm.
    + intros Hne. split; [by destruct key.(key_cases)|]. intros c Hc.
      destruct (mirrors_first _ _ _ Hall Hnd Hc) as (actual & Hfirst & Hmir).
      exists actual. split; [done|]. rewrite Forall_forall in Hsizes.
      destruct (Hsizes c Hc) as (? & ? & ?). by eapply mirrors_answers.
Qed.

(** the verdict depends on the [mode], [vsId] and [testGroups] members of the document
    only. In particular [validate] never looks at [algorithm]. *)
Lemma validate_reads_three_members t1 t2 v1 v2 key :
  json_from_str t1 = Ok v1 → json_from_str t2 = Ok v2 →
  (∀ k, k ∈ ["mode"; "vsId"; "testGroups"] → value_get k v1 = value_get k v2) →
  validate t1 key = validate t2 key.
Proof.
  intros H1 H2 Hk. unfold validate. rewrite H1, H2. simpl.
  unfold check_mode, check_vs_id, collect_cases.
  by rewrite (Hk "mode"), (Hk "vsId"), (Hk "testGroups") by set_solver.
Qed.

End theorems.

(** ** Witnesses: a [sigVer] pack of two cases and a [keyGen] pack of one *)

Module CavpWitness.
Import JsonModel HexModel.

Fixpoint str_repeat (n : nat) (s : string) : string :=
  match n with
  | O => ""
  | S n' => s +:+ str_repeat n' s
  end.

Definition ver_key : AnswerKey := {|
  key_vs_id := 91023; key_mode := "sigVer"; key_parameter_set := "ML-DSA-65";
  key_cases :=
    [{| ans_tc_id := 1; pk := None; sk := None; signature := None; test_passed := Some true |};
     {| ans_tc_id := 2; pk := None; sk := None; signature := None; test_passed := Some false |}];
|}.

(** Two entries for [tcId] 1: the first counts. *)
Definition ver_doc (algorithm : string) : value :=
  VObject [("vsId", VInt 91023); ("algorithm", VString algorithm); ("mode", VString "sigVer");
           ("testGroups", VArray [VObject [("tests", VArray
             [VObject [("tcId", VInt 1); ("testPassed", VBool true)];
              VObject [("tcId", VInt 1); ("testPassed", VBool false)];
              VNull;
              VObject [("tcId", VInt 2); ("testPassed", VBool false)]])]])].

Definition gen_key : AnswerKey := {|
  key_vs_id := 91021; key_mode := "keyGen"; key_parameter_set := "ml-dsa-65";
  key_cases :=
    [{| ans_tc_id := 7; pk := Some (str_repeat 1952 "aB"); sk := Some (str_repeat 4032 "0c");
        signature := None; test_passed := None |}];
|}.

(** The documents by name. *)
Definition parse (text : string) : result string value :=
  if String.eqb text "ver" then Ok (ver_doc "ML-DSA")
  else if String.eqb text "other" then Ok (ver_doc "RSA")
  else if String.eqb text "gen" then Ok (@answer_document (model (λ _, Err "")) gen_key)
  else Err "EOF while parsing a value".

#[local] Instance json : SerdeJson := model parse.

Definition ver_report : ValidationReport :=
  match validate "ver" ver_key with
  | Ok r => r
  | Err _ => report_of ver_key []
  end.

Definition submitted (answer : string) : SubmittedCase := {|
  sub_tc_id := 1;
  values := ([("pk", VString answer)] : @JsonMap json);
|}.

Lemma ver_report_ok : validate "ver" ver_key = Ok ver_report.
Proof. reflexivity. Qed.

Lemma validate_report_wf_witness :
  validate "ver" ver_key = Ok ver_report ∧ map tc_id ver_report.(cases) = [1; 2]%Z.
Proof.
  split; [exact ver_report_ok|].
  exact (proj1 (validate_report_wf "ver" ver_key ver_report ver_report_ok)).
Defined.

Lemma all_correct_iff_witness :
  all_correct ver_report = true ∧
  ∃ set subs,
    Params.lookup ver_key.(key_parameter_set) = Some set ∧
    collect_cases (ver_doc "ML-DSA" : Value) = Some subs ∧
    ∀ c, c ∈ ver_key.(key_cases) → ∃ actual,
      first_with_id subs c.(ans_tc_id) actual ∧ answers "sigVer" set c actual.
Proof.
  assert (Hall : all_correct ver_report = true) by (vm_compute; reflexivity).
  split; [exact Hall|].
  exact (proj2 (proj1
    (all_correct_iff "ver" ver_key (ver_doc "ML-DSA") ver_report eq_refl ver_report_ok) Hall)).
Defined.

Lemma check_hex_normalised_witness :
  check_hex 1 (submitted "aB01") "pk" "Ab01" 2 = Ok tt ↔
  check_hex 1 (submitted " AB01 ") "pk" "Ab01" 2 = Ok tt.
Proof.
  apply (check_hex_normalised 1 (submitted "aB01") (submitted " AB01 ") "pk" "Ab01" 2
           (VString "aB01") (VString " AB01 ") "aB01" "AB01" " " " ");
    reflexivity.
Defined.

Lemma gen_key_wf : key_wf gen_key.
Proof.
  unfold key_wf, i64_range. split_and!; [by left|done|done|..].
  - by apply Forall_singleton.
  - simpl. apply NoDup_singleton.
  - exists Params.ML_DSA_65. split; [reflexivity|]. apply Forall_singleton.
    split_and!; [| |done]; intros s [= <-]; split_and!;
      try (vm_compute; congruence); try (eexists; split; vm_compute; reflexivity).
Qed.

Lemma gen_parsed : json_from_str "gen" = Ok (answer_document gen_key).
Proof. reflexivity. Qed.

Lemma reference_answers_pass_witness :
  ∃ r, validate "gen" gen_key = Ok r ∧ all_correct r = true.
Proof.
  destruct (reference_answers_pass "gen" gen_key gen_key_wf gen_parsed) as (r & Hr & Hall).
  exists r. split; [exact Hr|]. by apply (proj2 Hall).
Defined.

Lemma validate_reads_three_members_witness :
  validate "ver" ver_key = validate "other" ver_key.
Proof.
  apply (@validate_reads_three_members json hex "ver" "other" (ver_doc "ML-DSA") (ver_doc "RSA"));
    [reflexivity|reflexivity|].
  intros k [->|[->|[->|[]%elem_of_nil]%elem_of_cons]%elem_of_cons]%elem_of_cons; reflexivity.
Defined.

End CavpWitness.
