(* ===== verification/Proto.v ===== *)
(** * The adapter contract ([crates/adapter-proto])

    The structs that cross the wire between the worker and the TLS prober adapters, one
    Module per struct so that the fields keep their names, with the constructors and the
    serde default functions the crate defines. A [u16], [u32] or [u64] field is a [Z]. *)

From S2P Require Import Prelude Json.

Definition HEADER_REQUEST_ID : string := "x-pqcas-request-id".

Module Target.
Record t := {
  host : string;
  port : Z;
  sni : option string;
  http_path : option string;
}.
End Target.

Module CaptureOptions.
Record t := {
  raw_records : bool;
  keylog : bool;
}.

Definition default : t := {| raw_records := false; keylog := false |}.
End CaptureOptions.

Module ProbeRequest.
Record t := {
  target : Target.t;
  kem_groups : list string;
  sig_algs : list string;
  tls_versions : list string;
  cipher_suites : list string;
  timeout_ms : Z;
  capture : CaptureOptions.t;
}.

Definition default_tls_versions : list string := ["TLSv1.3"; "TLSv1.2"].

Definition default_timeout_ms : Z := 15000.

(** [ProbeRequest::new]. *)
Definition new (target : Target.t) : t := {|
  target := target;
  kem_groups := [];
  sig_algs := [];
  tls_versions := default_tls_versions;
  cipher_suites := [];
  timeout_ms := default_timeout_ms;
  capture := CaptureOptions.default;
|}.
End ProbeRequest.

Module Stage.
Inductive t := Dns | Tcp | TlsHandshake | HttpRequest | Complete.

#[global] Instance eq_dec : EqDecision t.
Proof. solve_decision. Defined.

Definition as_str (s : t) : string :=
  match s with
  | Dns => "dns"
  | Tcp => "tcp"
  | TlsHandshake => "tls_handshake"
  | HttpRequest => "http_request"
  | Complete => "complete"
  end.
End Stage.

Module Direction.
Inductive t := Outbound | Inbound.
End Direction.

Module MessageField.
Record t := {
  label : string;
  values : list string;
}.

Definition new (label : string) (values : list string) : t :=
  {| label := label; values := values |}.

Definition single (label value : string) : t :=
  {| label := label; values := [value] |}.
End MessageField.

Module HandshakeMessage.
Record t := {
  index : Z;
  direction : Direction.t;
  kind : string;
  fields : list MessageField.t;
}.
End HandshakeMessage.

Module Alert.
Record t := {
  level : string;
  description : string;
}.
End Alert.

Module Negotiated.
Record t := {
  tls_version : option string;
  cipher_suite : option string;
  group : option string;
  cert_verify_sig_alg : option string;
}.

Definition default : t := {|
  tls_version := None; cipher_suite := None; group := None; cert_verify_sig_alg := None;
|}.
End Negotiated.

Module Certificate.
Record t := {
  subject : string;
  issuer : string;
  not_before : option string;
  not_after : option string;
  signature_algorithm : option string;
  public_key_algorithm : option string;
  sha256_fingerprint : option string;
}.
End Certificate.

Module HttpOutcome.
Record t := {
  status : Z;
  headers : list MessageField.t;
  body_excerpt : option string;
}.
End HttpOutcome.

Module Evidence.
Record t := {
  bytes_sent : Z;
  bytes_received : Z;
  uds_dump_b64 : option string;
  keylog : option string;
}.

Definition default : t := {|
  bytes_sent := 0; bytes_received := 0; uds_dump_b64 := None; keylog := None;
|}.
End Evidence.

Module ProbeResponse.
Record t `{SerdeJson} := {
  adapter : string;
  handshake_success : bool;
  negotiated : Negotiated.t;
  messages : list HandshakeMessage.t;
  alert : option Alert.t;
  cert_chain : list Certificate.t;
  http : option HttpOutcome.t;
  failed_stage : Stage.t;
  error_summary : option string;
  diagnostics : Value;
  evidence : Evidence.t;
  duration_ms : Z;
}.

(** [ProbeResponse::failure]: what never reached the wire. *)
Definition failure `{SerdeJson} (adapter : string) (stage : Stage.t) (error : string) : t := {|
  adapter := adapter;
  handshake_success := false;
  negotiated := Negotiated.default;
  messages := [];
  alert := None;
  cert_chain := [];
  http := None;
  failed_stage := stage;
  error_summary := Some error;
  diagnostics := json_null;
  evidence := Evidence.default;
  duration_ms := 0;
|}.
End ProbeResponse.

Module Capabilities.
Record t := {
  adapter : string;
  version : string;
  kem_groups : list string;
  sig_algs : list string;
  tls_versions : list string;
}.
End Capabilities.
