(* ===== verification/Domain.v ===== *)
(** * Domain types ([crates/pqcas-domain])

    The records that cross the API boundary and back the tables, the jobs placed on the
    Redis streams, the events published for the browser, and [classify]. A [Uuid] is its
    128-bit value; how it is printed belongs to the [uuid] crate and is a parameter. A
    [DateTime<Utc>] is an instant, a number of microseconds. *)

From S2P Require Import Prelude RustStr Json Proto Status.

Notation Uuid := N (only parsing).
Notation DateTime := Z (only parsing).

(** The [uuid] crate: [Display], documented to be the hyphenated form, one per value. *)
Class UuidDisplay := uuid_display : Uuid → string.

Class UuidDisplayLaws `{UuidDisplay} : Prop := {
  uuid_display_inj (a b : Uuid) : uuid_display a = uuid_display b → a = b;
}.

(** ** [models.rs] *)

Module Endpoint.
Record t := {
  id : Uuid;
  slug : string;
  label : string;
  label_zh : string;
  host : string;
  port : Z;
  notes : option string;
  enabled : bool;
}.
End Endpoint.

Module Algorithm.
Record t := {
  id : Z;
  kind : string;
  name : string;
  display_name : string;
  family : option string;
  enabled : bool;
  sort_order : Z;
}.
End Algorithm.

Module Test.
Record t := {
  id : Uuid;
  host : string;
  port : Z;
  http_path : string;
  method : string;
  tool : string;
  plugin : string;
  status : TaskStatus.t;
  group_count : Z;
  sig_alg_count : Z;
  subtask_count : Z;
  created_at : DateTime;
  started_at : option DateTime;
  finished_at : option DateTime;
}.

(** [Test::display_target]. *)
Definition display_target (x : t) : string := x.(host) +:+ ":" +:+ show x.(port).
End Test.

Module Subtask.
Record t := {
  id : Uuid;
  test_id : Uuid;
  ordinal : Z;
  group_name : string;
  sig_alg : string;
  exec_status : ExecStatus.t;
  result_status : ResultStatus.t;
  report_status : ReportStatus.t;
  failed_stage : option string;
  error_summary : option string;
  started_at : option DateTime;
  finished_at : option DateTime;
}.
End Subtask.

Module SubtaskReport.
Record t `{SerdeJson} := {
  subtask_id : Uuid;
  adapter : string;
  tls_summary : Value;
  messages : Value;
  cert_chain : Value;
  http : option Value;
  diagnostics : Value;
  raw : Value;
  evidence : option string;
  duration_ms : Z;
}.
End SubtaskReport.

Module MatrixCell.
Record t := {
  subtask_id : Uuid;
  group_name : string;
  sig_alg : string;
  result_status : ResultStatus.t;
  exec_status : ExecStatus.t;
}.
End MatrixCell.

Module Matrix.
Record t := {
  groups : list string;
  sig_algs : list string;
  cells : list MatrixCell.t;
}.
End Matrix.

Module KemRun.
Record t := {
  id : Uuid;
  mode : KemRunMode.t;
  endpoint_id : Uuid;
  status : TaskStatus.t;
  kem_groups : list string;
  created_at : DateTime;
  finished_at : option DateTime;
}.
End KemRun.

Module KemRunLog.
Record t := {
  run_id : Uuid;
  seq : Z;
  at_ : DateTime;
  level : string;
  message : string;
}.
End KemRunLog.

Module KemMatrixCell.
Record t := {
  run_id : Uuid;
  kem : string;
  adapter : string;
  verdict : ResultStatus.t;
  detail : option string;
}.
End KemMatrixCell.

Module CavpSession.
Record t `{SerdeJson} := {
  id : Uuid;
  capability : Capability.t;
  parameter_set : string;
  vs_id : Z;
  prompt : Value;
  submitted : option Value;
  validation : option Value;
  created_at : DateTime;
}.
End CavpSession.

(** ** [jobs.rs] *)

Definition STREAM_PROBE : string := "jobs:probe".
Definition STREAM_KEM : string := "jobs:kem".
Definition CONSUMER_GROUP : string := "workers".

Definition test_channel `{UuidDisplay} (test_id : Uuid) : string :=
  "events:test:" +:+ uuid_display test_id.

Definition kem_channel `{UuidDisplay} (run_id : Uuid) : string :=
  "events:kem:" +:+ uuid_display run_id.

Module ProbeJob.
Record t := {
  test_id : Uuid;
  subtask_id : Uuid;
  host : string;
  port : Z;
  http_path : string;
  adapter : string;
  group_name : string;
  sig_alg : string;
  timeout_ms : Z;
}.
End ProbeJob.

Module KemJob.
Record t := {
  run_id : Uuid;
  mode : KemRunMode.t;
  host : string;
  port : Z;
  kem_groups : list string;
}.
End KemJob.

Module TestEvent.
Inductive t :=
| SubtaskUpdated (subtask_id : Uuid) (exec_status : ExecStatus.t)
    (result_status : ResultStatus.t) (group_name sig_alg : string)
| TestFinished (test_id : Uuid) (passed failed : Z).
End TestEvent.

Module KemEvent.
Inductive t :=
| Log (seq : Z) (at_ : string) (level message : string)
| Cell (kem adapter : string) (verdict : ResultStatus.t) (detail : option string)
| Finished (run_id : Uuid).
End KemEvent.

(** ** [classify] *)

(** The closure [known]: the algorithm is advertised, in any case. *)
Definition known (capabilities : Capabilities.t) (alg : string) : bool :=
  existsb (λ k, eq_ignore_ascii_case k alg)
    (capabilities.(Capabilities.kem_groups) ++ capabilities.(Capabilities.sig_algs)).

Definition classify `{SerdeJson} (response : ProbeResponse.t) (offered : list string)
    (capabilities : Capabilities.t) : ResultStatus.t :=
  let unsupported := negb (existsb (known capabilities) offered) in
  if unsupported then ResultStatus.Unsupported
  else if response.(ProbeResponse.handshake_success) then ResultStatus.Passed
  else ResultStatus.Failed.

(** ** Lemmas *)

Lemma known_spec capabilities alg :
  known capabilities alg = true ↔
  ∃ k, (k ∈ capabilities.(Capabilities.kem_groups) ∨ k ∈ capabilities.(Capabilities.sig_algs))
       ∧ k ≈ci alg.
Proof.
  unfold known. rewrite existsb_exists. setoid_rewrite <-list_elem_of_In.
  setoid_rewrite elem_of_app. done.
Qed.

#[export] Instance known_proper capabilities : Proper (ci_eq ==> eq) (known capabilities).
Proof.
  intros a b Hab. apply eq_true_iff_eq. rewrite !known_spec. by setoid_rewrite Hab.
Qed.

Lemma test_channel_inj `{UuidDisplayLaws} a b : test_channel a = test_channel b → a = b.
Proof. intros Heq%str_app_inj_l. by apply uuid_display_inj. Qed.

Lemma kem_channel_inj `{UuidDisplayLaws} a b : kem_channel a = kem_channel b → a = b.
Proof. intros Heq%str_app_inj_l. by apply uuid_display_inj. Qed.

Lemma channels_disjoint `{UuidDisplay} a b : test_channel a ≠ kem_channel b.
Proof. done. Qed.

(** ** Theorems *)

(** [classify] reports [unsupported] exactly when the adapter advertised none of the
    offered algorithms, in any case; otherwise the handshake decides. *)
Lemma classify_spec `{SerdeJson} response offered capabilities :
  (classify response offered capabilities = ResultStatus.Unsupported ↔
     ∀ alg, alg ∈ offered → known capabilities alg = false) ∧
  (classify response offered capabilities = ResultStatus.Passed ↔
     response.(ProbeResponse.handshake_success) = true ∧
     ∃ alg, alg ∈ offered ∧ known capabilities alg = true) ∧
  (classify response offered capabilities = ResultStatus.Failed ↔
     response.(ProbeResponse.handshake_success) = false ∧
     ∃ alg, alg ∈ offered ∧ known capabilities alg = true).
Proof.
  unfold classify. destruct (existsb (known capabilities) offered) eqn:Hk; simpl.
  - apply existsb_exists in Hk as (alg & Hin%list_elem_of_In & Hk).
    assert (¬ ∀ a, a ∈ offered → known capabilities a = false).
    { intros Hno. rewrite (Hno alg Hin) in Hk. done. }
    destruct (ProbeResponse.handshake_success response); naive_solver.
  - assert (Hno : ∀ alg, alg ∈ offered → known capabilities alg = false).
    { intros alg Hin. apply not_true_iff_false. intros Ht.
      apply not_true_iff_false in Hk. destruct Hk. apply existsb_exists.
      exists alg. by rewrite <-list_elem_of_In. }
    split; [done|]. split; (split; [done|]); intros (_ & alg & Hin & Ht);
      by rewrite Hno in Ht.
Qed.
