(* ===== verification/Wire.v ===== *)
(** * What goes over the wire

    The JSON of the structs that leave a process: the attributes [#[serde(...)]] of
    [crates/adapter-proto] and of [jobs.rs] say how each is written and read. A type has an
    encoder, a decoder and the values its Rust type has ([typed]: the integers are in
    range); the law of the interface is that what is written is read back. The decoders read
    objects and spellings; two shapes that derived code also accepts and nothing here writes
    (a struct as an array of its fields, a unit variant as an object) are not modelled. *)

From S2P Require Import Prelude RustStr Json Proto Status Domain.

(** ** The interface *)

Class Wire `{SerdeJson} (A : Type) := {
  to_value : A → Value;
  from_value : Value → option A;
  typed : A → Prop;
}.

Class WireLaws `{SerdeJson} (A : Type) `{!Wire A} : Prop := {
  wire_round_trip (a : A) : typed a → from_value (to_value a) = Some a;
}.

(** What is not written as [null] can be told from a missing option. *)
Class NotNull `{SerdeJson} (A : Type) `{!Wire A} : Prop := {
  not_null (a : A) : as_null (to_value a) = None;
}.

Arguments to_value {_ _ _} a.
Arguments from_value {_ _ _} v.
Arguments typed {_ _ _} a.

(** The [uuid] crate reads what it prints. *)
Class UuidParse := uuid_parse : string → option Uuid.

Class UuidParseLaws `{UuidDisplay, UuidParse} : Prop := {
  uuid_reads_back (u : Uuid) : (u < 2 ^ 128)%N → uuid_parse (uuid_display u) = Some u;
}.

(** [serde_json::to_string]: the text of a document is read back as the document. *)
Class JsonText `{SerdeJson} := json_to_string : Value → string.

Class JsonTextLaws `{JsonText} : Prop := {
  text_reads_back v : json_from_str (json_to_string v) = Ok v;
}.

Section basic.
Context {J : SerdeJson}.

(** ** Numbers *)

(** An unsigned integer of a type whose greatest value is [max], and an [i32], an [i64]. *)
Definition uint (max : Z) (v : Value) : option Z :=
  z ← as_u64_val v; if bool_decide (z ≤ max)%Z then Some z else None.

Definition int (min max : Z) (v : Value) : option Z :=
  z ← as_i64_val v; if bool_decide (min ≤ z ≤ max)%Z then Some z else None.

Definition is_uint (max z : Z) : Prop := (0 ≤ z ≤ max)%Z.
Definition is_i32 (z : Z) : Prop := (-2147483648 ≤ z ≤ 2147483647)%Z.
Definition is_i64 (z : Z) : Prop := (-9223372036854775808 ≤ z ≤ 9223372036854775807)%Z.

Definition i32 : Value → option Z := int (-2147483648) 2147483647.
Definition i64 : Value → option Z := int (-9223372036854775808) 9223372036854775807.

(** ** Types of the language *)

#[export] Instance wire_string : Wire string := {|
  to_value := json_string; from_value := as_str; typed _ := True |}.

#[export] Instance wire_bool : Wire bool := {|
  to_value := json_bool; from_value := as_bool; typed _ := True |}.

(** A [serde_json::Value] stays what it is. *)
Definition wire_json : Wire Value := {|
  to_value v := v; from_value := Some; typed _ := True |}.

#[export] Instance wire_list `{!Wire A} : Wire (list A) := {|
  to_value l := json_array (map to_value l);
  from_value v := l ← as_array v; mapM from_value l;
  typed := Forall typed |}.

(** [null] is [None]. *)
Definition nullable {A} (d : Value → option A) (v : Value) : option (option A) :=
  match as_null v with
  | Some _ => Some None
  | None => Some <$> d v
  end.

(** ** Fields *)

(** A field that has to be there, an [Option] field, and one with [#[serde(default)]]. *)
Definition field {A} (d : Value → option A) (k : string) (m : JsonMap) : option A :=
  map_get k m ≫= d.

Definition opt_field {A} (d : Value → option A) (k : string) (m : JsonMap) : option (option A) :=
  match map_get k m with
  | Some v => nullable d v
  | None => Some None
  end.

Definition default_field {A} (d : Value → option A) (a : A) (k : string) (m : JsonMap)
    : option A :=
  match map_get k m with
  | Some v => d v
  | None => Some a
  end.

(** [skip_serializing_if = "Option::is_none"]. *)
Definition skip_none {A} (e : A → Value) (k : string) (o : option A) : list (string * Value) :=
  match o with
  | Some a => [(k, e a)]
  | None => []
  end.

Definition struct {A} (fields : JsonMap → option A) (v : Value) : option A :=
  as_object v ≫= fields.

(** ** Spellings *)

(** A unit variant is written as its spelling. *)
Definition spelled {A} (vs : list A) (spell : A → string) (v : Value) : option A :=
  s ← as_str v; find_first (λ a, String.eqb (spell a) s) vs.

(** [rename_all = "snake_case"] on the name of a variant: an underscore before each upper-case
    letter but the first, everything in lower case. *)
Definition is_upper (c : Ascii.ascii) : bool := negb (Ascii.eqb (ascii_lower c) c).

Fixpoint snake_rest (s : string) : string :=
  match s with
  | "" => ""
  | String c r =>
      if is_upper c then String (Ascii.ascii_of_N 95) (String (ascii_lower c) (snake_rest r))
      else String c (snake_rest r)
  end.

Definition snake_case (name : string) : string :=
  match name with
  | "" => ""
  | String c r => String (ascii_lower c) (snake_rest r)
  end.

End basic.

Notation u16_max := 65535%Z (only parsing).
Notation u32_max := 4294967295%Z (only parsing).
Notation u64_max := 18446744073709551615%Z (only parsing).

(** The names of the variants. *)
Definition exec_name (x : ExecStatus.t) : string :=
  match x with
  | ExecStatus.Queued => "Queued"
  | ExecStatus.Running => "Running"
  | ExecStatus.Finished => "Finished"
  | ExecStatus.Error => "Error"
  end.

Definition result_name (x : ResultStatus.t) : string :=
  match x with
  | ResultStatus.Pending => "Pending"
  | ResultStatus.Passed => "Passed"
  | ResultStatus.Failed => "Failed"
  | ResultStatus.Unsupported => "Unsupported"
  | ResultStatus.Disabled => "Disabled"
  end.

Definition mode_name (x : KemRunMode.t) : string :=
  match x with
  | KemRunMode.LibraryCompat => "LibraryCompat"
  | KemRunMode.GroupCompat => "GroupCompat"
  | KemRunMode.Priority => "Priority"
  end.

Definition stage_name (x : Stage.t) : string :=
  match x with
  | Stage.Dns => "Dns"
  | Stage.Tcp => "Tcp"
  | Stage.TlsHandshake => "TlsHandshake"
  | Stage.HttpRequest => "HttpRequest"
  | Stage.Complete => "Complete"
  end.

Definition direction_name (x : Direction.t) : string :=
  match x with
  | Direction.Outbound => "Outbound"
  | Direction.Inbound => "Inbound"
  end.

(** What serde writes is what [as_str] says, so the database, the log and the wire agree. *)
Lemma snake_case_exec x : snake_case (exec_name x) = ExecStatus.as_str x.
Proof. by destruct x. Qed.

Lemma snake_case_result x : snake_case (result_name x) = ResultStatus.as_str x.
Proof. by destruct x. Qed.

Lemma snake_case_mode x : snake_case (mode_name x) = KemRunMode.as_str x.
Proof. by destruct x. Qed.

Lemma snake_case_stage x : snake_case (stage_name x) = Stage.as_str x.
Proof. by destruct x. Qed.

Section enums.
Context {J : SerdeJson}.

#[export] Instance wire_exec : Wire ExecStatus.t := {|
  to_value x := json_string (snake_case (exec_name x));
  from_value := spelled (variants : list ExecStatus.t) (λ x, snake_case (exec_name x));
  typed _ := True |}.

#[export] Instance wire_result : Wire ResultStatus.t := {|
  to_value x := json_string (snake_case (result_name x));
  from_value := spelled (variants : list ResultStatus.t) (λ x, snake_case (result_name x));
  typed _ := True |}.

#[export] Instance wire_mode : Wire KemRunMode.t := {|
  to_value x := json_string (snake_case (mode_name x));
  from_value := spelled (variants : list KemRunMode.t) (λ x, snake_case (mode_name x));
  typed _ := True |}.

#[export] Instance wire_stage : Wire Stage.t := {|
  to_value x := json_string (snake_case (stage_name x));
  from_value := spelled [Stage.Dns; Stage.Tcp; Stage.TlsHandshake; Stage.HttpRequest; Stage.Complete]
    (λ x, snake_case (stage_name x));
  typed _ := True |}.

#[export] Instance wire_direction : Wire Direction.t := {|
  to_value x := json_string (snake_case (direction_name x));
  from_value := spelled [Direction.Outbound; Direction.Inbound]
    (λ x, snake_case (direction_name x));
  typed _ := True |}.

End enums.

(** ** [crates/adapter-proto] *)

Section proto.
Context {J : SerdeJson}.

Local Open Scope list_scope.

#[export] Instance wire_target : Wire Target.t := {|
  to_value x := json_object (
    [("host", to_value x.(Target.host)); ("port", json_int x.(Target.port))]
    ++ skip_none to_value "sni" x.(Target.sni)
    ++ skip_none to_value "http_path" x.(Target.http_path));
  from_value := struct (λ m,
    host ← field from_value "host" m;
    port ← field (uint u16_max) "port" m;
    sni ← opt_field from_value "sni" m;
    http_path ← opt_field from_value "http_path" m;
    Some {| Target.host := host; Target.port := port; Target.sni := sni;
            Target.http_path := http_path |});
  typed x := is_uint u16_max x.(Target.port) |}.

#[export] Instance wire_capture : Wire CaptureOptions.t := {|
  to_value x := json_object
    [("raw_records", to_value x.(CaptureOptions.raw_records));
     ("keylog", to_value x.(CaptureOptions.keylog))];
  from_value := struct (λ m,
    raw_records ← default_field from_value false "raw_records" m;
    keylog ← default_field from_value false "keylog" m;
    Some {| CaptureOptions.raw_records := raw_records; CaptureOptions.keylog := keylog |});
  typed _ := True |}.

#[export] Instance wire_request : Wire ProbeRequest.t := {|
  to_value x := json_object
    [("target", to_value x.(ProbeRequest.target));
     ("kem_groups", to_value x.(ProbeRequest.kem_groups));
     ("sig_algs", to_value x.(ProbeRequest.sig_algs));
     ("tls_versions", to_value x.(ProbeRequest.tls_versions));
     ("cipher_suites", to_value x.(ProbeRequest.cipher_suites));
     ("timeout_ms", json_int x.(ProbeRequest.timeout_ms));
     ("capture", to_value x.(ProbeRequest.capture))];
  from_value := struct (λ m,
    target ← field from_value "target" m;
    kem_groups ← default_field from_value [] "kem_groups" m;
    sig_algs ← default_field from_value [] "sig_algs" m;
    tls_versions ← default_field from_value ProbeRequest.default_tls_versions "tls_versions" m;
    cipher_suites ← default_field from_value [] "cipher_suites" m;
    timeout_ms ← default_field (uint u64_max) ProbeRequest.default_timeout_ms "timeout_ms" m;
    capture ← default_field from_value CaptureOptions.default "capture" m;
    Some {| ProbeRequest.target := target; ProbeRequest.kem_groups := kem_groups;
            ProbeRequest.sig_algs := sig_algs; ProbeRequest.tls_versions := tls_versions;
            ProbeRequest.cipher_suites := cipher_suites; ProbeRequest.timeout_ms := timeout_ms;
            ProbeRequest.capture := capture |});
  typed x := typed x.(ProbeRequest.target) ∧ is_uint u64_max x.(ProbeRequest.timeout_ms) |}.

#[export] Instance wire_field : Wire MessageField.t := {|
  to_value x := json_object
    [("label", to_value x.(MessageField.label)); ("values", to_value x.(MessageField.values))];
  from_value := struct (λ m,
    label ← field from_value "label" m;
    values ← field from_value "values" m;
    Some {| MessageField.label := label; MessageField.values := values |});
  typed _ := True |}.

#[export] Instance wire_message : Wire HandshakeMessage.t := {|
  to_value x := json_object
    [("index", json_int x.(HandshakeMessage.index));
     ("direction", to_value x.(HandshakeMessage.direction));
     ("kind", to_value x.(HandshakeMessage.kind));
     ("fields", to_value x.(HandshakeMessage.fields))];
  from_value := struct (λ m,
    index ← field (uint u32_max) "index" m;
    direction ← field from_value "direction" m;
    kind ← field from_value "kind" m;
    fields ← default_field from_value [] "fields" m;
    Some {| HandshakeMessage.index := index; HandshakeMessage.direction := direction;
            HandshakeMessage.kind := kind; HandshakeMessage.fields := fields |});
  typed x := is_uint u32_max x.(HandshakeMessage.index) |}.

#[export] Instance wire_alert : Wire Alert.t := {|
  to_value x := json_object
    [("level", to_value x.(Alert.level)); ("description", to_value x.(Alert.description))];
  from_value := struct (λ m,
    level ← field from_value "level" m;
    description ← field from_value "description" m;
    Some {| Alert.level := level; Alert.description := description |});
  typed _ := True |}.

#[export] Instance wire_negotiated : Wire Negotiated.t := {|
  to_value x := json_object (
    skip_none to_value "tls_version" x.(Negotiated.tls_version)
    ++ skip_none to_value "cipher_suite" x.(Negotiated.cipher_suite)
    ++ skip_none to_value "group" x.(Negotiated.group)
    ++ skip_none to_value "cert_verify_sig_alg" x.(Negotiated.cert_verify_sig_alg));
  from_value := struct (λ m,
    tls_version ← opt_field from_value "tls_version" m;
    cipher_suite ← opt_field from_value "cipher_suite" m;
    group ← opt_field from_value "group" m;
    cert_verify_sig_alg ← opt_field from_value "cert_verify_sig_alg" m;
    Some {| Negotiated.tls_version := tls_version; Negotiated.cipher_suite := cipher_suite;
            Negotiated.group := group; Negotiated.cert_verify_sig_alg := cert_verify_sig_alg |});
  typed _ := True |}.

#[export] Instance wire_certificate : Wire Certificate.t := {|
  to_value x := json_object (
    [("subject", to_value x.(Certificate.subject)); ("issuer", to_value x.(Certificate.issuer))]
    ++ skip_none to_value "not_before" x.(Certificate.not_before)
    ++ skip_none to_value "not_after" x.(Certificate.not_after)
    ++ skip_none to_value "signature_algorithm" x.(Certificate.signature_algorithm)
    ++ skip_none to_value "public_key_algorithm" x.(Certificate.public_key_algorithm)
    ++ skip_none to_value "sha256_fingerprint" x.(Certificate.sha256_fingerprint));
  from_value := struct (λ m,
    subject ← field from_value "subject" m;
    issuer ← field from_value "issuer" m;
    not_before ← opt_field from_value "not_before" m;
    not_after ← opt_field from_value "not_after" m;
    signature_algorithm ← opt_field from_value "signature_algorithm" m;
    public_key_algorithm ← opt_field from_value "public_key_algorithm" m;
    sha256_fingerprint ← opt_field from_value "sha256_fingerprint" m;
    Some {| Certificate.subject := subject; Certificate.issuer := issuer;
            Certificate.not_before := not_before; Certificate.not_after := not_after;
            Certificate.signature_algorithm := signature_algorithm;
            Certificate.public_key_algorithm := public_key_algorithm;
            Certificate.sha256_fingerprint := sha256_fingerprint |});
  typed _ := True |}.

#[export] Instance wire_http : Wire HttpOutcome.t := {|
  to_value x := json_object (
    [("status", json_int x.(HttpOutcome.status)); ("headers", to_value x.(HttpOutcome.headers))]
    ++ skip_none to_value "body_excerpt" x.(HttpOutcome.body_excerpt));
  from_value := struct (λ m,
    status ← field (uint u16_max) "status" m;
    headers ← default_field from_value [] "headers" m;
    body_excerpt ← opt_field from_value "body_excerpt" m;
    Some {| HttpOutcome.status := status; HttpOutcome.headers := headers;
            HttpOutcome.body_excerpt := body_excerpt |});
  typed x := is_uint u16_max x.(HttpOutcome.status) |}.

#[export] Instance wire_evidence : Wire Evidence.t := {|
  to_value x := json_object (
    [("bytes_sent", json_int x.(Evidence.bytes_sent));
     ("bytes_received", json_int x.(Evidence.bytes_received))]
    ++ skip_none to_value "uds_dump_b64" x.(Evidence.uds_dump_b64)
    ++ skip_none to_value "keylog" x.(Evidence.keylog));
  from_value := struct (λ m,
    bytes_sent ← default_field (uint u64_max) 0%Z "bytes_sent" m;
    bytes_received ← default_field (uint u64_max) 0%Z "bytes_received" m;
    uds_dump_b64 ← opt_field from_value "uds_dump_b64" m;
    keylog ← opt_field from_value "keylog" m;
    Some {| Evidence.bytes_sent := bytes_sent; Evidence.bytes_received := bytes_received;
            Evidence.uds_dump_b64 := uds_dump_b64; Evidence.keylog := keylog |});
  typed x := is_uint u64_max x.(Evidence.bytes_sent) ∧ is_uint u64_max x.(Evidence.bytes_received) |}.

#[export] Instance wire_response : Wire ProbeResponse.t := {|
  to_value x := json_object (
    [("adapter", to_value x.(ProbeResponse.adapter));
     ("handshake_success", to_value x.(ProbeResponse.handshake_success));
     ("negotiated", to_value x.(ProbeResponse.negotiated));
     ("messages", to_value x.(ProbeResponse.messages))]
    ++ skip_none to_value "alert" x.(ProbeResponse.alert)
    ++ [("cert_chain", to_value x.(ProbeResponse.cert_chain))]
    ++ skip_none to_value "http" x.(ProbeResponse.http)
    ++ [("failed_stage", to_value x.(ProbeResponse.failed_stage))]
    ++ skip_none to_value "error_summary" x.(ProbeResponse.error_summary)
    ++ [("diagnostics", x.(ProbeResponse.diagnostics));
        ("evidence", to_value x.(ProbeResponse.evidence));
        ("duration_ms", json_int x.(ProbeResponse.duration_ms))]);
  from_value := struct (λ m,
    adapter ← field from_value "adapter" m;
    handshake_success ← field from_value "handshake_success" m;
    negotiated ← default_field from_value Negotiated.default "negotiated" m;
    messages ← default_field from_value [] "messages" m;
    alert ← opt_field from_value "alert" m;
    cert_chain ← default_field from_value [] "cert_chain" m;
    http ← opt_field from_value "http" m;
    failed_stage ← field from_value "failed_stage" m;
    error_summary ← opt_field from_value "error_summary" m;
    diagnostics ← default_field Some json_null "diagnostics" m;
    evidence ← default_field from_value Evidence.default "evidence" m;
    duration_ms ← field (uint u64_max) "duration_ms" m;
    Some {| ProbeResponse.adapter := adapter; ProbeResponse.handshake_success := handshake_success;
            ProbeResponse.negotiated := negotiated; ProbeResponse.messages := messages;
            ProbeResponse.alert := alert; ProbeResponse.cert_chain := cert_chain;
            ProbeResponse.http := http; ProbeResponse.failed_stage := failed_stage;
            ProbeResponse.error_summary := error_summary;
            ProbeResponse.diagnostics := diagnostics; ProbeResponse.evidence := evidence;
            ProbeResponse.duration_ms := duration_ms |});
  typed x := typed x.(ProbeResponse.messages) ∧
    from_option typed True x.(ProbeResponse.http) ∧ typed x.(ProbeResponse.evidence) ∧
    is_uint u64_max x.(ProbeResponse.duration_ms) |}.

#[export] Instance wire_capabilities : Wire Capabilities.t := {|
  to_value x := json_object
    [("adapter", to_value x.(Capabilities.adapter)); ("version", to_value x.(Capabilities.version));
     ("kem_groups", to_value x.(Capabilities.kem_groups));
     ("sig_algs", to_value x.(Capabilities.sig_algs));
     ("tls_versions", to_value x.(Capabilities.tls_versions))];
  from_value := struct (λ m,
    adapter ← field from_value "adapter" m;
    version ← field from_value "version" m;
    kem_groups ← default_field from_value [] "kem_groups" m;
    sig_algs ← default_field from_value [] "sig_algs" m;
    tls_versions ← default_field from_value [] "tls_versions" m;
    Some {| Capabilities.adapter := adapter; Capabilities.version := version;
            Capabilities.kem_groups := kem_groups; Capabilities.sig_algs := sig_algs;
            Capabilities.tls_versions := tls_versions |});
  typed _ := True |}.

End proto.

(** ** [jobs.rs]: jobs and events *)

Section jobs.
Context {J : SerdeJson} {U : UuidDisplay} {P : UuidParse}.

Definition uuid_value (u : Uuid) : Value := json_string (uuid_display u).
Definition uuid (v : Value) : option Uuid := s ← as_str v; uuid_parse s.
Definition is_uuid (u : Uuid) : Prop := (u < 2 ^ 128)%N.

#[export] Instance wire_probe_job : Wire ProbeJob.t := {|
  to_value x := json_object
    [("test_id", uuid_value x.(ProbeJob.test_id));
     ("subtask_id", uuid_value x.(ProbeJob.subtask_id));
     ("host", to_value x.(ProbeJob.host)); ("port", json_int x.(ProbeJob.port));
     ("http_path", to_value x.(ProbeJob.http_path)); ("adapter", to_value x.(ProbeJob.adapter));
     ("group_name", to_value x.(ProbeJob.group_name)); ("sig_alg", to_value x.(ProbeJob.sig_alg));
     ("timeout_ms", json_int x.(ProbeJob.timeout_ms))];
  from_value := struct (λ m,
    test_id ← field uuid "test_id" m;
    subtask_id ← field uuid "subtask_id" m;
    host ← field from_value "host" m;
    port ← field (uint u16_max) "port" m;
    http_path ← field from_value "http_path" m;
    adapter ← field from_value "adapter" m;
    group_name ← field from_value "group_name" m;
    sig_alg ← field from_value "sig_alg" m;
    timeout_ms ← field (uint u64_max) "timeout_ms" m;
    Some {| ProbeJob.test_id := test_id; ProbeJob.subtask_id := subtask_id;
            ProbeJob.host := host; ProbeJob.port := port; ProbeJob.http_path := http_path;
            ProbeJob.adapter := adapter; ProbeJob.group_name := group_name;
            ProbeJob.sig_alg := sig_alg; ProbeJob.timeout_ms := timeout_ms |});
  typed x := is_uuid x.(ProbeJob.test_id) ∧ is_uuid x.(ProbeJob.subtask_id) ∧
    is_uint u16_max x.(ProbeJob.port) ∧ is_uint u64_max x.(ProbeJob.timeout_ms) |}.

#[export] Instance wire_kem_job : Wire KemJob.t := {|
  to_value x := json_object
    [("run_id", uuid_value x.(KemJob.run_id)); ("mode", to_value x.(KemJob.mode));
     ("host", to_value x.(KemJob.host)); ("port", json_int x.(KemJob.port));
     ("kem_groups", to_value x.(KemJob.kem_groups))];
  from_value := struct (λ m,
    run_id ← field uuid "run_id" m;
    mode ← field from_value "mode" m;
    host ← field from_value "host" m;
    port ← field (uint u16_max) "port" m;
    kem_groups ← field from_value "kem_groups" m;
    Some {| KemJob.run_id := run_id; KemJob.mode := mode; KemJob.host := host;
            KemJob.port := port; KemJob.kem_groups := kem_groups |});
  typed x := is_uuid x.(KemJob.run_id) ∧ is_uint u16_max x.(KemJob.port) |}.

(** An internally tagged enum: the member [type] says which variant the others belong to. *)
#[export] Instance wire_test_event : Wire TestEvent.t := {|
  to_value x :=
    match x with
    | TestEvent.SubtaskUpdated subtask_id exec_status result_status group_name sig_alg =>
        json_object
          [("type", to_value "subtaskUpdated"); ("subtaskId", uuid_value subtask_id);
           ("execStatus", to_value exec_status); ("resultStatus", to_value result_status);
           ("groupName", to_value group_name); ("sigAlg", to_value sig_alg)]
    | TestEvent.TestFinished test_id passed failed =>
        json_object
          [("type", to_value "testFinished"); ("testId", uuid_value test_id);
           ("passed", json_int passed); ("failed", json_int failed)]
    end;
  from_value := struct (λ m,
    tag ← field from_value "type" m;
    if String.eqb tag "subtaskUpdated" then
      subtask_id ← field uuid "subtaskId" m;
      exec_status ← field from_value "execStatus" m;
      result_status ← field from_value "resultStatus" m;
      group_name ← field from_value "groupName" m;
      sig_alg ← field from_value "sigAlg" m;
      Some (TestEvent.SubtaskUpdated subtask_id exec_status result_status group_name sig_alg)
    else if String.eqb tag "testFinished" then
      test_id ← field uuid "testId" m;
      passed ← field (uint u32_max) "passed" m;
      failed ← field (uint u32_max) "failed" m;
      Some (TestEvent.TestFinished test_id passed failed)
    else None);
  typed x :=
    match x with
    | TestEvent.SubtaskUpdated subtask_id _ _ _ _ => is_uuid subtask_id
    | TestEvent.TestFinished test_id passed failed =>
        is_uuid test_id ∧ is_uint u32_max passed ∧ is_uint u32_max failed
    end |}.

(** The option of [Cell] has no attribute: [None] is written as [null]. *)
#[export] Instance wire_kem_event : Wire KemEvent.t := {|
  to_value x :=
    match x with
    | KemEvent.Log seq at_ level message =>
        json_object
          [("type", to_value "log"); ("seq", json_int seq); ("at", to_value at_);
           ("level", to_value level); ("message", to_value message)]
    | KemEvent.Cell kem adapter verdict detail =>
        json_object
          [("type", to_value "cell"); ("kem", to_value kem); ("adapter", to_value adapter);
           ("verdict", to_value verdict); ("detail", json_opt to_value detail)]
    | KemEvent.Finished run_id =>
        json_object [("type", to_value "finished"); ("runId", uuid_value run_id)]
    end;
  from_value := struct (λ m,
    tag ← field from_value "type" m;
    if String.eqb tag "log" then
      seq ← field i32 "seq" m;
      at_ ← field from_value "at" m;
      level ← field from_value "level" m;
      message ← field from_value "message" m;
      Some (KemEvent.Log seq at_ level message)
    else if String.eqb tag "cell" then
      kem ← field from_value "kem" m;
      adapter ← field from_value "adapter" m;
      verdict ← field from_value "verdict" m;
      detail ← opt_field from_value "detail" m;
      Some (KemEvent.Cell kem adapter verdict detail)
    else if String.eqb tag "finished" then
      run_id ← field uuid "runId" m;
      Some (KemEvent.Finished run_id)
    else None);
  typed x :=
    match x with
    | KemEvent.Log seq _ _ _ => is_i32 seq
    | KemEvent.Cell _ _ _ _ => True
    | KemEvent.Finished run_id => is_uuid run_id
    end |}.

End jobs.

(** ** What is written is read back *)

Create HintDb wire.

Section laws.
Context {J : SerdeJson} {JL : SerdeJsonLaws}.

Lemma uint_int max z : (max ≤ u64_max)%Z → is_uint max z → uint max (json_int z) = Some z.
Proof.
  intros Hm [H1 H2]. unfold uint. rewrite as_u64_int by lia. cbn. by rewrite bool_decide_true.
Qed.

Lemma i32_int z : is_i32 z → i32 (json_int z) = Some z.
Proof.
  intros [H1 H2]. unfold i32, int. rewrite as_i64_int by lia. cbn. by rewrite bool_decide_true.
Qed.

Lemma i64_int z : is_i64 z → i64 (json_int z) = Some z.
Proof.
  intros [H1 H2]. unfold i64, int. rewrite as_i64_int by lia. cbn. by rewrite bool_decide_true.
Qed.

Lemma struct_object {A} (f : JsonMap → option A) l a :
  (∀ m, (∀ k, map_get k m = assoc_last k l) → f m = Some a) →
  struct f (json_object l) = Some a.
Proof.
  intros Hf. unfold struct. destruct (as_object_object l) as (m & -> & Hm). by apply Hf.
Qed.

Lemma nullable_some {A} `{!Wire A, !WireLaws A, !NotNull A} (a : A) :
  typed a → nullable from_value (to_value a) = Some (Some a).
Proof. intros Ha. unfold nullable. by rewrite not_null, wire_round_trip. Qed.

Lemma nullable_null {A} (d : Value → option A) : nullable d json_null = Some None.
Proof. unfold nullable. by rewrite as_null_null. Qed.

Lemma spelled_string {A} (vs : list A) (spell : A → string) a :
  a ∈ vs → (∀ b, b ∈ vs → spell b = spell a → b = a) →
  spelled vs spell (json_string (spell a)) = Some a.
Proof.
  intros Hin Hinj. unfold spelled. rewrite as_str_string. cbn.
  destruct (find_first _ vs) as [b|] eqn:Hf.
  - apply find_first_Some in Hf as (l1 & l2 & -> & Hb & _). apply String.eqb_eq in Hb.
    f_equal. apply Hinj; [set_solver|done].
  - apply find_first_None in Hf. rewrite Forall_forall in Hf. specialize (Hf a Hin).
    by rewrite String.eqb_refl in Hf.
Qed.

Lemma uuid_round_trip `{UuidParseLaws} u : is_uuid u → uuid (uuid_value u) = Some u.
Proof. intros Hu. unfold uuid, uuid_value. rewrite as_str_string. by apply uuid_reads_back. Qed.

End laws.

#[export] Hint Resolve uint_int i32_int i64_int : wire.

#[global] Arguments to_value : simpl never.
#[global] Arguments from_value : simpl never.
#[global] Arguments uint : simpl never.
#[global] Arguments i32 : simpl never.
#[global] Arguments i64 : simpl never.
#[global] Arguments uuid : simpl never.
#[global] Arguments nullable : simpl never.

(** A record from its fields, with each of its options there or not: every member the decoder
    looks up is in the object, and its own round trip gives the field. *)
Ltac wire_typed := cbn; solve [tauto | lia | by apply Forall_true].

Ltac wire_step :=
  match goal with
  | |- context [from_value (to_value _)] => rewrite wire_round_trip by wire_typed
  | |- context [nullable from_value (to_value _)] => rewrite nullable_some by wire_typed
  | |- context [nullable _ json_null] => rewrite nullable_null
  | |- context [uint _ (json_int _)] => rewrite uint_int by wire_typed
  | |- context [i32 (json_int _)] => rewrite i32_int by wire_typed
  | |- context [i64 (json_int _)] => rewrite i64_int by wire_typed
  | |- context [uuid (uuid_value _)] => rewrite uuid_round_trip by wire_typed
  end; cbn.

Ltac wire_record :=
  apply struct_object; let m := fresh "m" in let Hm := fresh "Hm" in intros m Hm;
  unfold field, opt_field, default_field;
  repeat match goal with o : option _ |- _ => destruct o end;
  rewrite !Hm; cbn; repeat wire_step; try reflexivity.

(** An enum: the spellings differ. *)
Ltac wire_enum name :=
  let x := fresh "x" in split; intros x _; apply (spelled_string _ (λ x, snake_case (name x)));
  [destruct x; cbn; set_solver | let y := fresh "y" in intros y _; by destruct x, y].

Section instances.
Context {J : SerdeJson} {JL : SerdeJsonLaws}.

#[export] Instance string_laws : WireLaws string.
Proof. split. intros s _. apply as_str_string. Qed.

#[export] Instance string_not_null : NotNull string.
Proof. split. apply as_null_string. Qed.

#[export] Instance bool_laws : WireLaws bool.
Proof. split. intros b _. apply as_bool_bool. Qed.

#[export] Instance list_laws `{!Wire A, !WireLaws A} : WireLaws (list A).
Proof.
  split. intros l Hl. unfold from_value, to_value. cbn. rewrite as_array_array. cbn.
  induction Hl as [|a l Ha Hl IH]; [done|]. cbn. rewrite wire_round_trip by done. cbn. by rewrite IH.
Qed.

#[export] Instance exec_laws : WireLaws ExecStatus.t.
Proof. wire_enum exec_name. Qed.

#[export] Instance result_laws : WireLaws ResultStatus.t.
Proof. wire_enum result_name. Qed.

#[export] Instance mode_laws : WireLaws KemRunMode.t.
Proof. wire_enum mode_name. Qed.

#[export] Instance stage_laws : WireLaws Stage.t.
Proof. wire_enum stage_name. Qed.

#[export] Instance direction_laws : WireLaws Direction.t.
Proof. wire_enum direction_name. Qed.

#[export] Instance target_laws : WireLaws Target.t.
Proof. split. intros [host port sni path] Ht. cbn in Ht. wire_record. Qed.

#[export] Instance target_not_null : NotNull Target.t.
Proof. split. intros a. apply as_null_object. Qed.

#[export] Instance capture_laws : WireLaws CaptureOptions.t.
Proof. split. intros [] _. wire_record. Qed.

#[export] Instance request_laws : WireLaws ProbeRequest.t.
Proof. split. intros [] [Ht Hu]. cbn in *. wire_record. Qed.

#[export] Instance field_laws : WireLaws MessageField.t.
Proof. split. intros [] _. wire_record. Qed.

#[export] Instance message_laws : WireLaws HandshakeMessage.t.
Proof. split. intros [] Ht. cbn in Ht. wire_record. Qed.

#[export] Instance alert_laws : WireLaws Alert.t.
Proof. split. intros [] _. wire_record. Qed.

#[export] Instance alert_not_null : NotNull Alert.t.
Proof. split. intros a. apply as_null_object. Qed.

#[export] Instance negotiated_laws : WireLaws Negotiated.t.
Proof. split. intros [] _. wire_record. Qed.

#[export] Instance certificate_laws : WireLaws Certificate.t.
Proof. split. intros [] _. wire_record. Qed.

#[export] Instance http_laws : WireLaws HttpOutcome.t.
Proof. split. intros [] Ht. cbn in Ht. wire_record. Qed.

#[export] Instance http_not_null : NotNull HttpOutcome.t.
Proof. split. intros a. apply as_null_object. Qed.

#[export] Instance evidence_laws : WireLaws Evidence.t.
Proof. split. intros [] [H1 H2]. cbn in *. wire_record. Qed.

#[export] Instance response_laws : WireLaws ProbeResponse.t.
Proof. split. intros [] (H1 & H2 & H3 & H4). cbn in *. wire_record. Qed.

#[export] Instance capabilities_laws : WireLaws Capabilities.t.
Proof. split. intros [] _. wire_record. Qed.

Context {U : UuidDisplay} {P : UuidParse} {PL : UuidParseLaws}.

#[export] Instance probe_job_laws : WireLaws ProbeJob.t.
Proof. split. intros [] (H1 & H2 & H3 & H4). cbn in *. wire_record. Qed.

#[export] Instance kem_job_laws : WireLaws KemJob.t.
Proof. split. intros [] (H1 & H2). cbn in *. wire_record. Qed.

#[export] Instance test_event_laws : WireLaws TestEvent.t.
Proof. split. intros [] Ht; cbn in Ht; [|destruct Ht as (H1 & H2 & H3)]; wire_record. Qed.

#[export] Instance kem_event_laws : WireLaws KemEvent.t.
Proof. split. intros [] Ht; cbn in Ht; wire_record. Qed.

End instances.

(** ** As text *)

Section text.
Context {J : SerdeJson} {T : JsonText}.

(** [serde_json::to_string] and [serde_json::from_str] at a type: the text of a value, and
    the value in a text. *)
Definition to_text `{!Wire A} (a : A) : string := json_to_string (to_value a).

Definition from_text `{!Wire A} (text : string) : option A :=
  match json_from_str text with
  | Ok v => from_value v
  | Err _ => None
  end.

Context {JL : SerdeJsonLaws} {TL : JsonTextLaws}.

Lemma text_round_trip `{!Wire A, !WireLaws A} (a : A) : typed a → from_text (to_text a) = Some a.
Proof. intros Ha. unfold from_text, to_text. rewrite text_reads_back. by apply wire_round_trip. Qed.

Context {U : UuidDisplay} {P : UuidParse} {PL : UuidParseLaws}.


End text.

(** ** A concrete instance for the witnesses

    The text of a document is a number that encodes it, and the text of an id its number. *)

Module WireModel.

Import JsonModel.

Fixpoint to_tree (v : value) : gen_tree (bool + Z + string) :=
  match v with
  | VNull => GenNode 0 []
  | VBool b => GenLeaf (inl (inl b))
  | VInt z => GenLeaf (inl (inr z))
  | VString s => GenLeaf (inr s)
  | VArray l => GenNode 1 (map to_tree l)
  | VObject l => GenNode 2 (map (λ kv, GenNode 0 [GenLeaf (inr kv.1); to_tree kv.2]) l)
  end.

Fixpoint of_tree (t : gen_tree (bool + Z + string)) : value :=
  match t with
  | GenLeaf (inl (inl b)) => VBool b
  | GenLeaf (inl (inr z)) => VInt z
  | GenLeaf (inr s) => VString s
  | GenNode 0 _ => VNull
  | GenNode 1 l => VArray (map of_tree l)
  | GenNode _ l =>
      VObject (map (λ t,
        match t with
        | GenNode _ [GenLeaf (inr k); v] => (k, of_tree v)
        | _ => ("", VNull)
        end) l)
  end.

Fixpoint of_to_tree (v : value) : of_tree (to_tree v) = v.
Proof.
  destruct v as [|b|z|s|l|l]; simpl; try done; f_equal; rewrite map_map.
  - induction l as [|v l IH]; [done|]. simpl. by rewrite of_to_tree, IH.
  - induction l as [|[k v] l IH]; [done|]. simpl. by rewrite of_to_tree, IH.
Qed.

(** A positive number, from its least bit on. *)
Fixpoint bits (p : positive) : string :=
  match p with
  | xH => ""
  | xO p => String (Ascii.ascii_of_N 48) (bits p)
  | xI p => String (Ascii.ascii_of_N 49) (bits p)
  end.

Fixpoint of_bits (s : string) : positive :=
  match s with
  | "" => 1%positive
  | String c r => if Ascii.eqb c (Ascii.ascii_of_N 48) then xO (of_bits r) else xI (of_bits r)
  end.

Lemma of_bits_bits p : of_bits (bits p) = p.
Proof. induction p as [p IH|p IH|]; simpl; by rewrite ?IH. Qed.

Definition print (v : value) : string := bits (encode (to_tree v)).

Definition parse (s : string) : result string value :=
  match decode (of_bits s) with
  | Some t => Ok (of_tree t)
  | None => Err "not a document"
  end.

#[export] Instance json : SerdeJson := JsonModel.model parse.
#[export] Instance json_laws : SerdeJsonLaws := JsonModel.model_laws parse.
#[export] Instance text : JsonText := print.
#[export] Instance text_laws : JsonTextLaws.
Proof.
  split. intros v. unfold json_to_string, text, json, JsonModel.model. cbn. unfold parse, print.
  by rewrite of_bits_bits, decode_encode, of_to_tree.
Qed.

#[export] Instance display : UuidDisplay := λ u, pretty u.
#[export] Instance uuid_from : UuidParse := λ s, Z.to_N <$> parse_uint (2 ^ 128 - 1) s.
#[export] Instance uuid_from_laws : UuidParseLaws.
Proof.
  split. intros u Hu. unfold uuid_parse, uuid_from, uuid_display, display.
  rewrite <-show_N, parse_show by lia. cbn. by rewrite N2Z.id.
Qed.

(** A job and an answer with every kind of member. *)
Definition job : ProbeJob.t := {|
  ProbeJob.test_id := 7; ProbeJob.subtask_id := 8; ProbeJob.host := "pq.example";
  ProbeJob.port := 443; ProbeJob.http_path := "/"; ProbeJob.adapter := "openssl";
  ProbeJob.group_name := "X25519MLKEM768"; ProbeJob.sig_alg := "ed25519";
  ProbeJob.timeout_ms := 15000 |}.


End WireModel.

(** ** Examples: the defaults and the other shapes *)

Module WireTests.

Import JsonModel WireModel.

Notation reads A v := (@from_value _ A _ v) (only parsing).

(** A request needs its target only. *)
Example request_defaults :
  reads ProbeRequest.t (VObject [("target", VObject [("host", VString "a"); ("port", VInt 443)])])
  = Some {|
      ProbeRequest.target := {| Target.host := "a"; Target.port := 443; Target.sni := None;
                                Target.http_path := None |};
      ProbeRequest.kem_groups := []; ProbeRequest.sig_algs := [];
      ProbeRequest.tls_versions := ["TLSv1.3"; "TLSv1.2"]; ProbeRequest.cipher_suites := [];
      ProbeRequest.timeout_ms := 15000; ProbeRequest.capture := CaptureOptions.default |}.
Proof. reflexivity. Qed.

(** A missing field and a port out of range are errors, a member of another name is ignored. *)
Example bad_targets :
  reads Target.t (VObject [("host", VString "a")]) = None ∧
  reads Target.t (VObject [("host", VString "a"); ("port", VInt 65536)]) = None ∧
  reads Target.t (VObject [("host", VString "a"); ("port", VInt 1); ("colour", VNull)])
  = Some {| Target.host := "a"; Target.port := 1; Target.sni := None; Target.http_path := None |}.
Proof. by vm_compute. Qed.

(** A missing list is empty, a null one is an error. *)
Example null_list :
  reads MessageField.t (VObject [("label", VString "l"); ("values", VNull)]) = None ∧
  reads Capabilities.t (VObject [("adapter", VString "a"); ("version", VString "v")])
  = Some {| Capabilities.adapter := "a"; Capabilities.version := "v"; Capabilities.kem_groups := [];
            Capabilities.sig_algs := []; Capabilities.tls_versions := [] |}.
Proof. by vm_compute. Qed.

End WireTests.
