(* ===== verification/Backend.v ===== *)
(** * The command-line adapter, [adapters/cli/src/backend.rs] and [main.rs]

    Command construction and output parsing for the OpenSSL, BoringSSL and wolfSSL
    clients, and the mock stack. The definitions follow the file function by function;
    what the adapter takes from the operating system (running the client) and from the
    [base64] crate are parameters of [run]. *)

From S2P Require Import Prelude RustStr Json Proto.

(** ** [main.rs] *)

Module Config.
Record t := {
  backend : string;
  name : option string;
  bind : string;
  client_bin : string;
  kem_groups : string;
  sig_algs : string;
  version : string;
  workdir : option string;
}.
End Config.

(** [split_list]. *)
Definition split_list (raw : string) : list string :=
  filter (λ s, s ≠ "") (map trim (split_char comma raw)).

Definition adapter_name (c : Config.t) : string :=
  unwrap_or c.(Config.backend) c.(Config.name).

Definition kem_group_list (c : Config.t) : list string := split_list c.(Config.kem_groups).
Definition sig_alg_list (c : Config.t) : list string := split_list c.(Config.sig_algs).

(** ** Backends and names *)

Inductive Backend := OpenSsl | BoringSsl | WolfSsl | Mock.

#[export] Instance backend_eq_dec : EqDecision Backend.
Proof. solve_decision. Defined.

(** [Backend::parse]. *)
Definition parse_backend (name : string) : result string Backend :=
  if String.eqb name "openssl" then Ok OpenSsl
  else if String.eqb name "boringssl" then Ok BoringSsl
  else if String.eqb name "wolfssl" then Ok WolfSsl
  else if String.eqb name "mock" then Ok Mock
  else Err ("unknown backend " +:+ name).

Definition crlf : string := String (Ascii.ascii_of_N 13) newline.
Definition dquote : string := String (Ascii.ascii_of_N 34) EmptyString.

Definition sni (request : ProbeRequest.t) : string :=
  unwrap_or request.(ProbeRequest.target).(Target.host)
            request.(ProbeRequest.target).(Target.sni).

Definition http_request_line (request : ProbeRequest.t) : string :=
  let path := unwrap_or "/" request.(ProbeRequest.target).(Target.http_path) in
  let host := sni request in
  "GET " +:+ path +:+ " HTTP/1.1" +:+ crlf +:+ "Host: " +:+ host +:+ crlf
  +:+ "User-Agent: pqcas-probe" +:+ crlf +:+ "Connection: close" +:+ crlf
  +:+ "Accept: */*" +:+ crlf +:+ crlf.

Definition connect_arg (request : ProbeRequest.t) : string :=
  request.(ProbeRequest.target).(Target.host) +:+ ":"
  +:+ show request.(ProbeRequest.target).(Target.port).

Definition one_of (s : string) (l : list string) : bool := existsb (String.eqb s) l.

(** [is_classical_group]. *)
Definition is_classical_group (name : string) : bool :=
  one_of (to_ascii_lowercase name)
    ["x25519"; "x448"; "p-256"; "p-384"; "p-521"; "secp256r1"; "secp384r1"; "secp521r1";
     "prime256v1"].

(** A [match] on a string with string patterns. *)
Fixpoint match_str (s : string) (arms : list (list string * string)) (default : string) : string :=
  match arms with
  | [] => default
  | (pats, r) :: rest => if one_of s pats then r else match_str s rest default
  end.

Definition openssl_groups : list (list string * string) :=
  [(["mlkem512"], "MLKEM512");
   (["mlkem768"], "MLKEM768");
   (["mlkem1024"], "MLKEM1024");
   (["x25519mlkem768"], "X25519MLKEM768");
   (["secp256r1mlkem768"], "SecP256r1MLKEM768");
   (["secp384r1mlkem1024"], "SecP384r1MLKEM1024");
   (["p-256"; "secp256r1"], "P-256");
   (["p-384"; "secp384r1"], "P-384");
   (["p-521"; "secp521r1"], "P-521");
   (["x25519"], "x25519");
   (["x448"], "x448")].

Definition wolfssl_groups : list (list string * string) :=
  [(["mlkem512"], "ML_KEM_512");
   (["mlkem768"], "ML_KEM_768");
   (["mlkem1024"], "ML_KEM_1024")].

Definition stack_group (backend : Backend) (name : string) : string :=
  let lower := to_ascii_lowercase name in
  match backend with
  | OpenSsl | BoringSsl => match_str lower openssl_groups name
  | WolfSsl => match_str lower wolfssl_groups name
  | Mock => name
  end.

Definition stack_groups (backend : Backend) (request : ProbeRequest.t) : list string :=
  map (stack_group backend) request.(ProbeRequest.kem_groups).

(** ** Command lines *)

Definition openssl_args (request : ProbeRequest.t) : list string :=
  ["s_client"; "-connect"; connect_arg request; "-servername"; sni request;
   "-showcerts"; "-ign_eof"]
  ++ (if existsb (String.eqb "TLSv1.3") request.(ProbeRequest.tls_versions)
         && (length request.(ProbeRequest.tls_versions) =? 1)
      then ["-tls1_3"] else [])
  ++ (match request.(ProbeRequest.kem_groups) with
      | [] => []
      | _ => ["-groups"; join ":" (stack_groups OpenSsl request)]
      end)
  ++ (match request.(ProbeRequest.sig_algs) with
      | [] => []
      | _ => ["-sigalgs"; join ":" request.(ProbeRequest.sig_algs)]
      end).

Definition boringssl_args (request : ProbeRequest.t) : list string :=
  ["client"; "-connect"; connect_arg request; "-server-name"; sni request]
  ++ (match request.(ProbeRequest.kem_groups) with
      | [] => []
      | _ => ["-curves"; join ":" (stack_groups BoringSsl request)]
      end).

Definition wolfssl_args (request : ProbeRequest.t) : list string :=
  ["-h"; request.(ProbeRequest.target).(Target.host);
   "-p"; show request.(ProbeRequest.target).(Target.port);
   "-v"; "4"; "-S"; sni request; "-d"]
  ++ (match opt_filter (λ g, negb (is_classical_group g))
              (first request.(ProbeRequest.kem_groups)) with
      | Some group => ["--pqc"; stack_group WolfSsl group]
      | None => []
      end)
  ++ ["-g"].

(** ** Messages *)

Definition default_cipher_suites : list string :=
  ["TLS_AES_128_GCM_SHA256";
   "TLS_AES_256_GCM_SHA384";
   "TLS_CHACHA20_POLY1305_SHA256";
   "ECDHE-ECDSA-AES128-GCM-SHA256";
   "ECDHE-RSA-AES128-GCM-SHA256";
   "ECDHE-ECDSA-AES256-GCM-SHA384";
   "ECDHE-RSA-AES256-GCM-SHA384"].

Definition client_hello (request : ProbeRequest.t) : HandshakeMessage.t := {|
  HandshakeMessage.index := 0;
  HandshakeMessage.direction := Direction.Outbound;
  HandshakeMessage.kind := "ClientHello";
  HandshakeMessage.fields :=
    [MessageField.new "Offered Groups" request.(ProbeRequest.kem_groups);
     MessageField.new "Signature Algorithms" request.(ProbeRequest.sig_algs);
     MessageField.new "Supported Versions" request.(ProbeRequest.tls_versions);
     MessageField.new "Cipher Suites Offered"
       (match request.(ProbeRequest.cipher_suites) with
        | [] => default_cipher_suites
        | _ => request.(ProbeRequest.cipher_suites)
        end)];
|}.

(** ** Reading the client's output *)

(** [value_after]: the rest of the first line that has the needle with a non-blank rest. *)
Definition value_in_line (needle line : string) : option string :=
  match split_once needle line with
  | None => None
  | Some (_, rest) =>
      let value := trim rest in
      if String.eqb value "" then None else Some value
  end.

Definition value_after (haystack needle : string) : option string :=
  find_map (value_in_line needle) (lines haystack).

Definition alert_description (number : Z) : string :=
  match number with
  | 0 => "close_notify"
  | 10 => "unexpected_message"
  | 20 => "bad_record_mac"
  | 40 => "handshake_failure"
  | 42 => "bad_certificate"
  | 47 => "illegal_parameter"
  | 48 => "unknown_ca"
  | 50 => "decode_error"
  | 51 => "decrypt_error"
  | 70 => "protocol_version"
  | 71 => "insufficient_security"
  | 80 => "internal_error"
  | 109 => "missing_extension"
  | 112 => "unrecognized_name"
  | 116 => "certificate_required"
  | 120 => "no_application_protocol"
  | _ => "unknown"
  end%Z.

Definition fatal (description : string) : Alert.t :=
  {| Alert.level := "fatal"; Alert.description := description |}.

Definition alert_names : list string :=
  ["handshake_failure"; "bad_record_mac"; "illegal_parameter"; "protocol_version"].

Definition parse_alert (text : string) : option Alert.t :=
  match value_after text "SSL alert number " with
  | Some rest =>
      token ← first (split_whitespace rest);
      number ← parse_u16 token;
      Some (fatal (alert_description number))
  | None =>
      match find_first (λ name, contains name text) alert_names with
      | Some name => Some (fatal name)
      | None => None
      end
  end.

(** The header lines up to the first blank one, and the lines that follow it. *)
Fixpoint parse_headers (ls : list string) : list MessageField.t * list string :=
  match ls with
  | [] => ([], [])
  | line :: rest =>
      if is_blank line then ([], rest)
      else
        let r := parse_headers rest in
        match split_once ":" line with
        | Some (name, value) => (MessageField.single (trim name) (trim value) :: r.1, r.2)
        | None => r
        end
  end.

Definition parse_http (text : string) : option HttpOutcome.t :=
  match split_once "HTTP/1." text with
  | None => None
  | Some (_, after) =>
      match lines ("HTTP/1." +:+ after) with
      | [] => None
      | status_line :: rest =>
          token ← split_whitespace status_line !! 1;
          status ← parse_u16 token;
          let r := parse_headers rest in
          let body := join newline r.2 in
          Some {|
            HttpOutcome.status := status;
            HttpOutcome.headers := r.1;
            HttpOutcome.body_excerpt :=
              if is_blank body then None else Some (take_chars 512 body);
          |}
      end
  end.

Definition subject_issuer (subject issuer : string) : Certificate.t := {|
  Certificate.subject := subject;
  Certificate.issuer := issuer;
  Certificate.not_before := None;
  Certificate.not_after := None;
  Certificate.signature_algorithm := None;
  Certificate.public_key_algorithm := None;
  Certificate.sha256_fingerprint := None;
|}.

(** The closure of [parse_openssl_certs]: one line of the chain. *)
Definition cert_of_line (line : string) : option Certificate.t :=
  rest ← strip_numeric (trim line);
  subject ← strip_prefix "s:" (trim_start rest);
  let si :=
    match split_once " i:" subject with
    | Some (s, i) => (trim s, trim i)
    | None => (trim subject, "")
    end in
  Some (subject_issuer si.1 si.2).

Definition parse_openssl_certs (stdout : string) : list Certificate.t :=
  omap cert_of_line (lines stdout).

Definition byte_counts (text : string) : Z * Z :=
  match find_first (contains "SSL handshake has read") (lines text) with
  | None => (0, 0)%Z
  | Some line =>
      match omap parse_u64 (split_whitespace line) with
      | read :: written :: _ => (written, read)
      | _ => (0, 0)%Z
      end
  end.

Definition strip_key_size (value : string) : string :=
  match map trim (split_char comma value) with
  | mechanism :: group :: _ =>
      if eq_ignore_ascii_case mechanism "ECDH" || eq_ignore_ascii_case mechanism "ECDHE"
      then group else mechanism
  | [first] => first
  | [] => value
  end.

Definition first_error_line (text : string) : option string :=
  take_chars 300 <$>
    find_first (λ line,
      let lower := to_ascii_lowercase line in
      contains "error" lower || contains "alert" lower || contains "failed" lower)
      (map trim (lines text)).

(** ** Responses *)

Section backend.
Context {J : SerdeJson}.

Definition server_hello (negotiated : Negotiated.t) : HandshakeMessage.t := {|
  HandshakeMessage.index := 1;
  HandshakeMessage.direction := Direction.Inbound;
  HandshakeMessage.kind := "ServerHello";
  HandshakeMessage.fields :=
    [MessageField.single "Version" (unwrap_or "unknown" negotiated.(Negotiated.tls_version));
     MessageField.single "Cipher Suite" (unwrap_or "unknown" negotiated.(Negotiated.cipher_suite));
     MessageField.single "Key Exchange Group" (unwrap_or "unknown" negotiated.(Negotiated.group))];
|}.

Definition alert_message (alert : Alert.t) : HandshakeMessage.t := {|
  HandshakeMessage.index := 1;
  HandshakeMessage.direction := Direction.Inbound;
  HandshakeMessage.kind := "Alert";
  HandshakeMessage.fields :=
    [MessageField.single "Level" alert.(Alert.level);
     MessageField.single "Description" alert.(Alert.description)];
|}.

Definition string_array (l : list string) : Value := json_array (map json_string l).

Definition build_response (adapter : string) (request : ProbeRequest.t)
    (handshake_success : bool) (negotiated : Negotiated.t) (alert : option Alert.t)
    (cert_chain : list Certificate.t) (http : option HttpOutcome.t)
    (evidence : Evidence.t) (error_summary : option string) : ProbeResponse.t := {|
  ProbeResponse.adapter := adapter;
  ProbeResponse.handshake_success := handshake_success;
  ProbeResponse.negotiated := negotiated;
  ProbeResponse.messages :=
    client_hello request ::
    (if handshake_success then [server_hello negotiated]
     else match alert with
          | Some a => [alert_message a]
          | None => []
          end);
  ProbeResponse.alert := alert;
  ProbeResponse.cert_chain := cert_chain;
  ProbeResponse.http := http;
  ProbeResponse.failed_stage :=
    if handshake_success then
      match http with
      | Some _ => Stage.Complete
      | None => Stage.HttpRequest
      end
    else Stage.TlsHandshake;
  ProbeResponse.error_summary := if handshake_success then None else error_summary;
  ProbeResponse.diagnostics :=
    json_object
      [("offeredGroups", string_array request.(ProbeRequest.kem_groups));
       ("offeredSigAlgs", string_array request.(ProbeRequest.sig_algs))];
  ProbeResponse.evidence := evidence;
  ProbeResponse.duration_ms := 0;
|}.

Definition is_some {A} (o : option A) : bool :=
  match o with
  | Some _ => true
  | None => false
  end.

Definition combine (stdout stderr : string) : string := stdout +:+ newline +:+ stderr.

Definition openssl_cipher (stdout : string) : option string :=
  opt_filter (λ c, negb (one_of c ["0000"; "(NONE)"; "NONE"]))
    (or_else (value_after stdout "Cipher    : ") (value_after stdout "Cipher is ")).

Definition openssl_group (stdout : string) : option string :=
  opt_filter (λ g, negb (one_of g ["<NULL>"; "(NONE)"]))
    (or_else (value_after stdout "Negotiated TLS1.3 group: ")
       (or_else (strip_key_size <$> value_after stdout "Peer Temp Key: ")
                (strip_key_size <$> value_after stdout "Server Temp Key: "))).

Definition openssl_version (stdout : string) : option string :=
  or_else (value_after stdout "Protocol  : ")
    (or_else (value_after stdout "Protocol: ")
       (rest ← value_after stdout "New, "; trim <$> first (split_char comma rest))).

Definition parse_openssl (adapter : string) (request : ProbeRequest.t)
    (stdout stderr : string) : ProbeResponse.t :=
  let combined := combine stdout stderr in
  let cipher_suite := openssl_cipher stdout in
  let http := parse_http stdout in
  let counts := byte_counts stdout in
  build_response adapter request (is_some cipher_suite || is_some http)
    {| Negotiated.tls_version := openssl_version stdout;
       Negotiated.cipher_suite := cipher_suite;
       Negotiated.group := openssl_group stdout;
       Negotiated.cert_verify_sig_alg := value_after stdout "Peer signature type: " |}
    (parse_alert combined) (parse_openssl_certs stdout) http
    {| Evidence.bytes_sent := counts.1; Evidence.bytes_received := counts.2;
       Evidence.uds_dump_b64 := None; Evidence.keylog := None |}
    (first_error_line combined).

Definition parse_boringssl (adapter : string) (request : ProbeRequest.t)
    (stdout stderr : string) : ProbeResponse.t :=
  let combined := combine stdout stderr in
  let cipher_suite := value_after stderr "Cipher: " in
  let http := parse_http stdout in
  let cert_chain :=
    match value_after stderr "Cert subject: ", value_after stderr "Cert issuer: " with
    | Some subject, issuer => [subject_issuer subject (unwrap_or "" issuer)]
    | _, _ => []
    end in
  build_response adapter request (is_some cipher_suite || is_some http)
    {| Negotiated.tls_version := value_after stderr "Version: ";
       Negotiated.cipher_suite := cipher_suite;
       Negotiated.group :=
         or_else (value_after stderr "ECDHE group: ")
           (or_else (value_after stderr "ECDHE curve: ") (value_after stderr "Group: "));
       Negotiated.cert_verify_sig_alg := value_after stderr "Signature algorithm: " |}
    (parse_alert combined) cert_chain http Evidence.default (first_error_line combined).

Definition parse_wolfssl (adapter : string) (request : ProbeRequest.t)
    (stdout stderr : string) : ProbeResponse.t :=
  let combined := combine stdout stderr in
  let cipher_suite := value_after combined "SSL cipher suite is " in
  let http := parse_http stdout in
  build_response adapter request (is_some cipher_suite || is_some http)
    {| Negotiated.tls_version := value_after combined "SSL version is ";
       Negotiated.cipher_suite := cipher_suite;
       Negotiated.group :=
         or_else (value_after combined "Using Post-Quantum KEM: ")
           (value_after combined "SSL curve name is ");
       Negotiated.cert_verify_sig_alg := None |}
    (parse_alert combined) [] http Evidence.default (first_error_line combined).

(** ** The mock stack *)

Definition mock_http : HttpOutcome.t := {|
  HttpOutcome.status := 200;
  HttpOutcome.headers :=
    [MessageField.single "Server" "pqcas-mock/1.0";
     MessageField.single "Content-Type" "application/json";
     MessageField.single "Connection" "close"];
  HttpOutcome.body_excerpt := Some ("{" +:+ dquote +:+ "mock" +:+ dquote +:+ ":true}");
|}.

Definition mock (config : Config.t) (request : ProbeRequest.t) : ProbeResponse.t :=
  let adapter := adapter_name config in
  let known := kem_group_list config in
  let known_sigs := sig_alg_list config in
  let offered_group := unwrap_or "" (first request.(ProbeRequest.kem_groups)) in
  let offered_sig := unwrap_or "" (first request.(ProbeRequest.sig_algs)) in
  let vulnerable :=
    contains "vuln" request.(ProbeRequest.target).(Target.host)
    || (request.(ProbeRequest.target).(Target.port) =? 8888)%Z in
  let group_ok :=
    match known with
    | [] => true
    | _ => existsb (λ g, eq_ignore_ascii_case g offered_group) known
    end in
  let sig_ok :=
    String.eqb offered_sig ""
    || match known_sigs with
       | [] => true
       | _ => existsb (λ s, eq_ignore_ascii_case s offered_sig) known_sigs
       end in
  if vulnerable then
    build_response adapter request false Negotiated.default (Some (fatal "bad_record_mac"))
      [] None Evidence.default (Some "InvalidTag:")
  else if negb group_ok || negb sig_ok then
    build_response adapter request false Negotiated.default (Some (fatal "handshake_failure"))
      [] None Evidence.default
      (Some ("no shared " +:+ (if group_ok then "signature algorithm" else "group")))
  else
    build_response adapter request true
      {| Negotiated.tls_version := Some "TLSv1.3";
         Negotiated.cipher_suite := Some "TLS_AES_256_GCM_SHA384";
         Negotiated.group := Some offered_group;
         Negotiated.cert_verify_sig_alg :=
           Some (if String.eqb offered_sig "" then "ecdsa_secp256r1_sha256" else offered_sig) |}
      None
      [{| Certificate.subject := "CN=" +:+ request.(ProbeRequest.target).(Target.host);
          Certificate.issuer := "CN=pqcas-lab-ca";
          Certificate.not_before := None;
          Certificate.not_after := None;
          Certificate.signature_algorithm := Some "mldsa65";
          Certificate.public_key_algorithm := Some "ML-DSA-65";
          Certificate.sha256_fingerprint := None |}]
      (Some mock_http)
      {| Evidence.bytes_sent := 9240; Evidence.bytes_received := 1658;
         Evidence.uds_dump_b64 := None; Evidence.keylog := None |}
      None.

(** ** Running the client *)

(** What the operating system reports for one launch of the client binary, the output as
    [from_utf8_lossy] decodes it. *)
Inductive ClientOutcome :=
| SpawnFailed (err : string)
| WaitFailed (err : string)
| TimedOut
| Exited (stdout stderr : string).

(** [Command::new(bin).current_dir(dir).args(args)] with the request on its standard input,
    under [tokio::time::timeout]. *)
Definition ClientExec : Type :=
  string → option string → list string → string → Z → ClientOutcome.

(** [base64::STANDARD.encode]. *)
Definition Base64 : Type := string → string.

Definition with_duration (r : ProbeResponse.t) (ms : Z) : ProbeResponse.t := {|
  ProbeResponse.adapter := r.(ProbeResponse.adapter);
  ProbeResponse.handshake_success := r.(ProbeResponse.handshake_success);
  ProbeResponse.negotiated := r.(ProbeResponse.negotiated);
  ProbeResponse.messages := r.(ProbeResponse.messages);
  ProbeResponse.alert := r.(ProbeResponse.alert);
  ProbeResponse.cert_chain := r.(ProbeResponse.cert_chain);
  ProbeResponse.http := r.(ProbeResponse.http);
  ProbeResponse.failed_stage := r.(ProbeResponse.failed_stage);
  ProbeResponse.error_summary := r.(ProbeResponse.error_summary);
  ProbeResponse.diagnostics := r.(ProbeResponse.diagnostics);
  ProbeResponse.evidence := r.(ProbeResponse.evidence);
  ProbeResponse.duration_ms := ms;
|}.

Definition with_dump (r : ProbeResponse.t) (dump : string) : ProbeResponse.t := {|
  ProbeResponse.adapter := r.(ProbeResponse.adapter);
  ProbeResponse.handshake_success := r.(ProbeResponse.handshake_success);
  ProbeResponse.negotiated := r.(ProbeResponse.negotiated);
  ProbeResponse.messages := r.(ProbeResponse.messages);
  ProbeResponse.alert := r.(ProbeResponse.alert);
  ProbeResponse.cert_chain := r.(ProbeResponse.cert_chain);
  ProbeResponse.http := r.(ProbeResponse.http);
  ProbeResponse.failed_stage := r.(ProbeResponse.failed_stage);
  ProbeResponse.error_summary := r.(ProbeResponse.error_summary);
  ProbeResponse.diagnostics := r.(ProbeResponse.diagnostics);
  ProbeResponse.evidence := {|
    Evidence.bytes_sent := r.(ProbeResponse.evidence).(Evidence.bytes_sent);
    Evidence.bytes_received := r.(ProbeResponse.evidence).(Evidence.bytes_received);
    Evidence.uds_dump_b64 := Some dump;
    Evidence.keylog := r.(ProbeResponse.evidence).(Evidence.keylog);
  |};
  ProbeResponse.duration_ms := r.(ProbeResponse.duration_ms);
|}.

(** The arguments and the parser of a stack; [Mock] never gets here. *)
Definition client_args (backend : Backend) (request : ProbeRequest.t) : list string :=
  match backend with
  | OpenSsl => openssl_args request
  | BoringSsl => boringssl_args request
  | WolfSsl => wolfssl_args request
  | Mock => []
  end.

Definition transcript (client_bin : string) (args : list string) (stdout stderr : string)
    : string :=
  "$ " +:+ client_bin +:+ " " +:+ join " " args +:+ newline +:+ "--- stdout ---" +:+ newline
  +:+ stdout +:+ newline +:+ "--- stderr ---" +:+ newline +:+ stderr.

(** [backend::run]; [elapsed] is what [started.elapsed().as_millis()] reads at the end. *)
Definition run (exec : ClientExec) (base64 : Base64) (elapsed : Z) (config : Config.t)
    (backend : Backend) (request : ProbeRequest.t) : ProbeResponse.t :=
  let adapter := adapter_name config in
  let args := client_args backend request in
  let bin := config.(Config.client_bin) in
  let finish (parse : string → ProbeRequest.t → string → string → ProbeResponse.t) :=
    match exec bin config.(Config.workdir) args (http_request_line request)
            request.(ProbeRequest.timeout_ms) with
    | SpawnFailed err =>
        ProbeResponse.failure adapter Stage.Tcp ("cannot launch " +:+ bin +:+ ": " +:+ err)
    | TimedOut =>
        ProbeResponse.failure adapter Stage.TlsHandshake
          ("timed out after " +:+ show request.(ProbeRequest.timeout_ms) +:+ " ms")
    | WaitFailed err =>
        ProbeResponse.failure adapter Stage.Tcp ("client failed: " +:+ err)
    | Exited stdout stderr =>
        let response := parse adapter request stdout stderr in
        let response :=
          if request.(ProbeRequest.capture).(CaptureOptions.raw_records)
          then with_dump response (base64 (transcript bin args stdout stderr))
          else response in
        with_duration response (as_u64 elapsed)
    end in
  match backend with
  | Mock => with_duration (mock config request) (as_u64 elapsed)
  | OpenSsl => finish parse_openssl
  | BoringSsl => finish parse_boringssl
  | WolfSsl => finish parse_wolfssl
  end.

(** ** [server.rs] *)

(** [GET /capabilities]. *)
Definition capabilities (config : Config.t) : Capabilities.t := {|
  Capabilities.adapter := adapter_name config;
  Capabilities.version := config.(Config.version);
  Capabilities.kem_groups := kem_group_list config;
  Capabilities.sig_algs := sig_alg_list config;
  Capabilities.tls_versions := ["TLSv1.3"; "TLSv1.2"];
|}.

(** [POST /probe]: [Err] is the status code and the error text of the JSON body. *)
Definition probe (exec : ClientExec) (base64 : Base64) (elapsed : Z) (config : Config.t)
    (backend : Backend) (request : ProbeRequest.t) : result (Z * string) ProbeResponse.t :=
  if String.eqb (trim request.(ProbeRequest.target).(Target.host)) ""
  then Err (400%Z, "target host is required")
  else Ok (run exec base64 elapsed config backend request).

End backend.

(** ** The inputs of the source's unit tests *)

Module BackendTests.
Import JsonModel.
#[local] Instance json : SerdeJson := model (λ _, Err "").

Definition request (groups sigs : list string) : ProbeRequest.t := {|
  ProbeRequest.target :=
    {| Target.host := "tls-good"; Target.port := 11000; Target.sni := None;
       Target.http_path := Some "/" |};
  ProbeRequest.kem_groups := groups;
  ProbeRequest.sig_algs := sigs;
  ProbeRequest.tls_versions := ProbeRequest.default_tls_versions;
  ProbeRequest.cipher_suites := [];
  ProbeRequest.timeout_ms := ProbeRequest.default_timeout_ms;
  ProbeRequest.capture := CaptureOptions.default;
|}.

Definition config (groups : string) : Config.t := {|
  Config.backend := "mock"; Config.name := Some "openssl"; Config.bind := "0";
  Config.client_bin := "openssl"; Config.kem_groups := groups; Config.sig_algs := "mldsa65";
  Config.version := "test"; Config.workdir := None;
|}.

Definition text (l : list string) : string := join newline l.

Definition success_output : string := text
  ["CONNECTED(00000003)";
   "Certificate chain";
   " 0 s:CN=lab.example i:CN=pqcas-lab-ca";
   "---";
   "SSL handshake has read 4567 bytes and written 1234 bytes";
   "New, TLSv1.3, Cipher is TLS_AES_256_GCM_SHA384";
   "Negotiated TLS1.3 group: X25519MLKEM768";
   "Peer signature type: mldsa65";
   "SSL-Session:";
   "    Protocol  : TLSv1.3";
   "    Cipher    : TLS_AES_256_GCM_SHA384";
   "HTTP/1.1 200 OK";
   "Server: nginx/1.28.1";
   "Content-Type: application/json";
   "";
   "{}";
   ""].

End BackendTests.
