(* ===== verification/BackendFacts.v ===== *)
(** * What the command-line adapter guarantees

    Theorems about [Backend]: the shape of every response the adapter sends, reading back
    a client transcript, the certificate list, name translation, command lines, the mock
    stack and the capability lists. *)

From S2P Require Import Prelude RustStr Json Proto Backend.

Definition u64_range (z : Z) : Prop := (0 ≤ z ≤ 18446744073709551615)%Z.

(** ** The shape of a response *)

Section response.
Context {J : SerdeJson}.

(** The promise the worker relies on: the stage, the summary and the rows of the trace
    agree with [handshake_success], and the numbers fit their types. *)
Record response_wf (r : ProbeResponse.t) : Prop := {
  wf_success :
    r.(ProbeResponse.handshake_success) = true →
    r.(ProbeResponse.error_summary) = None ∧
    r.(ProbeResponse.failed_stage) ∈ [Stage.HttpRequest; Stage.Complete] ∧
    map HandshakeMessage.kind r.(ProbeResponse.messages) = ["ClientHello"; "ServerHello"];
  wf_failure :
    r.(ProbeResponse.handshake_success) = false →
    r.(ProbeResponse.failed_stage) ∈ [Stage.Tcp; Stage.TlsHandshake] ∧
    r.(ProbeResponse.http) = None ∧
    map HandshakeMessage.kind r.(ProbeResponse.messages)
      ∈ [[]; ["ClientHello"]; ["ClientHello"; "Alert"]];
  wf_complete :
    r.(ProbeResponse.failed_stage) = Stage.Complete ↔ is_Some r.(ProbeResponse.http);
  wf_indices :
    map HandshakeMessage.index r.(ProbeResponse.messages)
      = map Z.of_nat (seq 0 (length r.(ProbeResponse.messages)));
  wf_status :
    ∀ h, r.(ProbeResponse.http) = Some h → (0 ≤ h.(HttpOutcome.status) ≤ 65535)%Z;
  wf_sent : u64_range r.(ProbeResponse.evidence).(Evidence.bytes_sent);
  wf_received : u64_range r.(ProbeResponse.evidence).(Evidence.bytes_received);
  wf_duration : u64_range r.(ProbeResponse.duration_ms);
}.

Lemma failure_wf adapter stage error :
  stage ∈ [Stage.Tcp; Stage.TlsHandshake] →
  response_wf (ProbeResponse.failure adapter stage error).
Proof.
  intros Hs. split; simpl; try done.
  - intros _. split_and!; [done|done|set_solver].
  - split; [intros ->; set_solver|by intros []].
Qed.

Lemma build_response_wf adapter request success negotiated alert certs http evidence err :
  (success = false → http = None) →
  (∀ h, http = Some h → (0 ≤ h.(HttpOutcome.status) ≤ 65535)%Z) →
  u64_range evidence.(Evidence.bytes_sent) → u64_range evidence.(Evidence.bytes_received) →
  response_wf
    (build_response adapter request success negotiated alert certs http evidence err).
Proof.
  intros Hhttp Hstatus Hs Hr. split; simpl; try done.
  - intros ->. split_and!; [done| |done]. destruct http; set_solver.
  - intros ->. split_and!; [set_solver|auto|]. destruct alert; set_solver.
  - destruct success; [|rewrite Hhttp by done; split; [done|by intros []]].
    destruct http; [split; eauto|split; [done|by intros []]].
  - destruct success; [done|]. by destruct alert.
Qed.

Lemma with_duration_wf r ms : response_wf r → u64_range ms → response_wf (with_duration r ms).
Proof. intros [] ?. by split. Qed.

Lemma with_dump_wf r dump : response_wf r → response_wf (with_dump r dump).
Proof. intros []. by split. Qed.

Lemma as_u64_range z : u64_range (as_u64 z).
Proof. unfold u64_range, as_u64. pose proof (Z.mod_pos_bound z (2 ^ 64)). lia. Qed.

Lemma parse_http_range text h :
  parse_http text = Some h → (0 ≤ h.(HttpOutcome.status) ≤ 65535)%Z.
Proof.
  unfold parse_http. intros Hp. destruct (split_once _ _) as [[? ?]|]; [|done].
  destruct (lines _); [done|]. destruct (_ !! 1) as [token|]; [|done]. simpl in Hp.
  destruct (parse_u16 token) as [z|] eqn:Hz; [|done]. simpl in Hp.
  injection Hp as <-. simpl. by eapply parse_uint_range.
Qed.

Lemma byte_counts_range text :
  u64_range (byte_counts text).1 ∧ u64_range (byte_counts text).2.
Proof.
  unfold byte_counts. destruct (find_first _ _) as [line|]; [|done].
  assert (Hall : Forall u64_range (omap parse_u64 (split_whitespace line))).
  { apply Forall_forall. intros z (token & _ & Hz)%list_elem_of_omap.
    eapply parse_uint_range; [|done]. done. }
  destruct (omap _ _) as [|a [|b l]]; [done..|].
  rewrite !Forall_cons in Hall. simpl. naive_solver.
Qed.

(** Every parser derives success from the same two facts. *)
Lemma parsed_http_None {A} (c : option A) (h : option HttpOutcome.t) :
  is_some c || is_some h = false → h = None.
Proof. by destruct c, h. Qed.

Lemma parse_wf parse adapter request stdout stderr :
  parse ∈ [parse_openssl; parse_boringssl; parse_wolfssl] →
  response_wf (parse adapter request stdout stderr).
Proof.
  intros Hp. pose proof (byte_counts_range stdout).
  rewrite !elem_of_cons, elem_of_nil in Hp. destruct Hp as [->|[->|[->|[]]]];
    apply build_response_wf; simpl; try done; try apply parsed_http_None;
    try apply parse_http_range; naive_solver.
Qed.

Lemma mock_wf config request : response_wf (mock config request).
Proof.
  unfold mock. repeat case_match; apply build_response_wf; simpl; try done;
    intros ? [= <-]; done.
Qed.

End response.

(** ** Reading back an OpenSSL transcript *)

Lemma value_in_line_hit lit n tok :
  sep n lit = true → plain tok = true → tok ≠ "" →
  value_in_line n (lit +:+ n +:+ tok) = Some tok.
Proof.
  intros Hs Ht Hne. unfold value_in_line. rewrite split_once_sep, split_once_hit by done.
  rewrite trim_plain by done. by destruct (String.eqb_spec tok "").
Qed.

Lemma value_in_line_miss n line : split_once n line = None → value_in_line n line = None.
Proof. intros Hn. unfold value_in_line. by rewrite Hn. Qed.

(** What [openssl s_client] prints about a completed TLS handshake: protocol, cipher, key
    exchange group, signature algorithm and byte counts. *)
Definition handshake_line (read written : Z) : string :=
  "SSL handshake has read " +:+ show read +:+ " bytes and written " +:+ show written
  +:+ " bytes".

Definition openssl_summary (version cipher group sig : string) (read written : Z)
    : list string :=
  ["CONNECTED(00000003)";
   handshake_line read written;
   ("New, " +:+ version +:+ ", Cipher is ") +:+ cipher;
   "Negotiated TLS1.3 group: " +:+ group;
   "Peer signature type: " +:+ sig;
   "Protocol: " +:+ version].

(** A word of the output: not empty, ASCII, no white space. *)
Definition token (s : string) : Prop := plain s = true ∧ s ≠ "".

Lemma token_line lit s : one_line lit = true → plain s = true → one_line (lit +:+ s) = true.
Proof. intros H1 H2. by rewrite one_line_app, H1, plain_one_line. Qed.

(** A needle with a blank in it is not in [lit +:+ tok] unless it starts inside [lit]. *)
Lemma miss_token n lit tok :
  sep n lit = true → plain n = false → plain tok = true → split_once n (lit +:+ tok) = None.
Proof.
  intros Hs Hn Ht. rewrite split_once_sep by done. by rewrite (split_once_forall is_plain).
Qed.

Lemma miss_handshake_line n read written :
  (0 ≤ read)%Z → (0 ≤ written)%Z →
  match n with String c _ => is_digit c = false | EmptyString => False end →
  sep n "SSL handshake has read " = true → sep n " bytes and written " = true →
  split_once n " bytes" = None →
  split_once n (handshake_line read written) = None.
Proof.
  intros Hr Hw Hn H1 H2 H3. unfold handshake_line.
  rewrite split_once_sep by done. rewrite (split_once_skip is_digit) by auto using show_digits.
  rewrite split_once_sep by done. rewrite (split_once_skip is_digit) by auto using show_digits.
  by rewrite H3.
Qed.

Lemma omap_step {A B} (f : A → option B) x l :
  omap f (x :: l) = match f x with Some y => y :: omap f l | None => omap f l end.
Proof. done. Qed.

Lemma parse_words words rest :
  Forall (λ w, plain w = true ∧ w ≠ "" ∧ parse_u64 w = None) words →
  omap parse_u64 (split_whitespace (foldr (λ w acc, w +:+ " " +:+ acc) rest words))
  = omap parse_u64 (split_whitespace rest).
Proof.
  induction 1 as [|w words (Hp & Hne & Hn) Hws IH]; [done|]. cbn [foldr].
  rewrite split_whitespace_word by done. by rewrite omap_step, Hn.
Qed.

Lemma handshake_line_numbers read written :
  u64_range read → u64_range written →
  omap parse_u64 (split_whitespace (handshake_line read written)) = [read; written].
Proof.
  intros Hr Hw. unfold u64_range in *. unfold handshake_line.
  change ("SSL handshake has read " +:+ show read +:+ " bytes and written " +:+ show written
    +:+ " bytes") with
    (foldr (λ w acc, w +:+ " " +:+ acc)
      (show read +:+ " " +:+ foldr (λ w acc, w +:+ " " +:+ acc)
        (show written +:+ " " +:+ "bytes") ["bytes"; "and"; "written"])
      ["SSL"; "handshake"; "has"; "read"]).
  rewrite parse_words by (repeat constructor; done).
  rewrite split_whitespace_word by (apply show_plain || apply show_ne; lia).
  rewrite omap_step. unfold parse_u64 at 1. rewrite parse_show by done. f_equal.
  rewrite parse_words by (repeat constructor; done).
  rewrite split_whitespace_word by (apply show_plain || apply show_ne; lia).
  rewrite omap_step. unfold parse_u64 at 1. by rewrite parse_show.
Qed.

Lemma find_map_skip {A B} (f : A → option B) x l :
  f x = None → find_map f (x :: l) = find_map f l.
Proof. intros Hx. simpl. by rewrite Hx. Qed.

Lemma find_map_hit {A B} (f : A → option B) x l y :
  f x = Some y → find_map f (x :: l) = Some y.
Proof. intros Hx. simpl. by rewrite Hx. Qed.

Lemma or_else_None {A} (o1 o2 : option A) : o1 = None → or_else o1 o2 = o2.
Proof. by intros ->. Qed.

Lemma opt_filter_one_of s l :
  opt_filter (λ c, negb (one_of c l)) (Some s) = if one_of s l then None else Some s.
Proof. simpl. by destruct (one_of s l). Qed.

(** Look a needle up in the lines of the summary, one line after the other: [miss] shows
    that a line does not have it, [hit lit] that it has it after [lit]. *)
Ltac miss :=
  apply value_in_line_miss;
  first [ reflexivity
        | apply miss_handshake_line; [lia|lia|reflexivity..]
        | apply miss_token; [reflexivity|reflexivity|assumption] ].

Ltac hit lit :=
  apply find_map_hit;
  lazymatch goal with
  | |- value_in_line ?n _ = Some ?tok =>
      exact (value_in_line_hit lit n tok eq_refl ltac:(assumption) ltac:(assumption))
  end.

(** The search of the goal finds [tok]. *)
Ltac found tok :=
  lazymatch goal with
  | |- context [find_map ?f ?l] => enough (find_map f l = Some tok) as ->
  end.

Ltac skip_lines := repeat (rewrite find_map_skip by miss).
Ltac find_nothing := skip_lines; reflexivity.

Section transcript.
Context (version cipher group sig : string) (read written : Z).
Context (Hversion : version = "TLSv1.3" ∨ version = "TLSv1.2")
  (Hcipher : token cipher) (Hgroup : token group) (Hsig : token sig)
  (Hread : u64_range read) (Hwritten : u64_range written).

Let stdout := unlines (openssl_summary version cipher group sig read written).

Lemma summary_lines : lines stdout = openssl_summary version cipher group sig read written.
Proof.
  destruct Hcipher, Hgroup, Hsig. unfold u64_range in *.
  apply lines_unlines. unfold openssl_summary. rewrite !Forall_cons.
  split_and!; [done|..|by apply Forall_nil]; try (apply token_line; [|done]).
  1: unfold handshake_line; rewrite !one_line_app.
  1: rewrite (plain_one_line (show read)), (plain_one_line (show written))
       by (apply show_plain; lia).
  all: destruct Hversion as [->| ->]; done.
Qed.

Lemma summary_values :
  openssl_cipher stdout =
    (if one_of cipher ["0000"; "(NONE)"; "NONE"] then None else Some cipher) ∧
  openssl_group stdout = (if one_of group ["<NULL>"; "(NONE)"] then None else Some group) ∧
  openssl_version stdout = Some version ∧
  value_after stdout "Peer signature type: " = Some sig.
Proof.
  assert (Hv : token version) by (destruct Hversion as [->| ->]; done).
  destruct Hcipher, Hgroup, Hsig, Hv. unfold u64_range in *.
  unfold openssl_cipher, openssl_group, openssl_version, value_after. rewrite summary_lines.
  unfold openssl_summary.
  split_and!.
  - rewrite (or_else_None (find_map _ _)) by (destruct Hversion as [->| ->]; find_nothing).
    found cipher; [apply opt_filter_one_of|].
    destruct Hversion as [->| ->]; skip_lines;
      [hit "New, TLSv1.3, " | hit "New, TLSv1.2, "].
  - found group;
      [apply opt_filter_one_of|].
    destruct Hversion as [->| ->]; skip_lines; hit "".
  - rewrite (or_else_None (find_map _ _)) by (destruct Hversion as [->| ->]; find_nothing).
    found version; [done|].
    destruct Hversion as [->| ->]; skip_lines; hit "".
  - destruct Hversion as [->| ->]; skip_lines; hit "".
Qed.

Lemma summary_counts : byte_counts stdout = (written, read).
Proof.
  unfold byte_counts. rewrite summary_lines. unfold openssl_summary.
  cbn [find_first]. change (contains "SSL handshake has read" "CONNECTED(00000003)") with false.
  assert (Hc : contains "SSL handshake has read" (handshake_line read written) = true).
  { apply contains_spec. unfold handshake_line.
    exists "", (" " +:+ show read +:+ " bytes and written " +:+ show written +:+ " bytes").
    done. }
  by rewrite Hc, handshake_line_numbers.
Qed.

End transcript.

(** ** Certificates and command lines *)

Definition colon : Ascii.ascii := Ascii.ascii_of_N 58.

(** The chain as the client prints it: depth, subject and issuer of each certificate. *)
Definition chain_line (depth : nat) (c : string * string) : string :=
  (" " +:+ show (Z.of_nat depth) +:+ " s:" +:+ c.1 +:+ " i:") +:+ c.2.

Definition chain_text (chain : list (string * string)) : string :=
  unlines (imap chain_line chain).

Lemma chain_lines chain n :
  Forall (λ c, token c.1 ∧ token c.2) chain →
  Forall (λ l, one_line l = true) (imap (λ i, chain_line (n + i)) chain).
Proof.
  intros Hc. revert n. induction Hc as [|[s i] chain [[Hs _] [Hi _]] Hc IH]; intros n; [constructor|].
  rewrite imap_cons. constructor.
  - unfold chain_line. cbn [fst snd] in *. rewrite !one_line_app.
    rewrite (plain_one_line s), (plain_one_line i) by done.
    by rewrite (plain_one_line (show _)) by (apply show_plain; lia).
  - specialize (IH (S n)). erewrite imap_ext; [exact IH|]. intros k x Hk. simpl.
    by rewrite Nat.add_succ_r.
Qed.

Lemma chain_line_trim n c d r :
  show (Z.of_nat n) = String d r → is_digit d = true → token c.2 →
  trim (chain_line n c) = String d (r +:+ " s:" +:+ c.1 +:+ " i:" +:+ c.2).
Proof.
  intros Hs Hd [Hi Hne]. set (mid := String d r +:+ " s:" +:+ c.1 +:+ " i:").
  assert (Hl : chain_line n c = " " +:+ (mid +:+ c.2) +:+ "").
  { unfold chain_line, mid. by rewrite Hs, app_empty_r, !str_app_assoc. }
  rewrite Hl, trim_pad by done. unfold mid. rewrite app_cons, trim_edges by auto using is_digit_plain.
  by rewrite app_cons, !str_app_assoc.
Qed.

Lemma cert_of_chain_line n c :
  token c.1 → token c.2 →
  cert_of_line (chain_line n c)
  = if n <? 10 then Some (subject_issuer c.1 c.2) else None.
Proof.
  intros [H1 H1'] H2. unfold cert_of_line.
  destruct (Nat.ltb_spec n 10) as [Hn|Hn].
  - destruct (show_one n Hn) as (d & Hs & Hd). rewrite (chain_line_trim _ _ _ _ Hs Hd H2).
    rewrite strip_numeric_digit by done. cbn [mbind option_bind]. rewrite app_empty_l.
    set (rest := c.1 +:+ " i:" +:+ c.2).
    assert (Ht : trim_start (" s:" +:+ rest) = "s:" +:+ rest).
    { change (trim_start (" s:" +:+ rest)) with (trim_start (String (Ascii.ascii_of_N 115) (":" +:+ rest))).
      by rewrite trim_start_plain. }
    rewrite Ht, (proj2 (strip_prefix_Some "s:" _ rest)) by done. cbn [mbind option_bind].
    unfold rest. rewrite (split_once_skip is_plain), (split_once_hit " i:") by done.
    cbn [fst snd]. rewrite app_empty_r, !trim_plain by (done || apply H2). done.
  - destruct (show_two (Z.of_nat n) ltac:(lia)) as (d & e & r & Hs & Hd & He).
    rewrite (chain_line_trim _ _ _ _ Hs Hd H2), strip_numeric_digit by done.
    cbn [mbind option_bind]. rewrite app_cons, trim_start_plain by auto using is_digit_plain.
    cbn [strip_prefix]. destruct (Ascii.eqb _ e) eqn:Heq; [|done].
    apply Ascii.eqb_eq in Heq as <-. by vm_compute in He.
Qed.

Lemma chain_parse chain n :
  Forall (λ c, token c.1 ∧ token c.2) chain →
  omap cert_of_line (imap (λ i, chain_line (n + i)) chain)
  = map (λ c, subject_issuer c.1 c.2) (take (10 - n) chain).
Proof.
  intros Hc. revert n. induction Hc as [|c chain [H1 H2] Hc IH]; intros n; [by destruct (10 - n)|].
  rewrite imap_cons, omap_step, Nat.add_0_r, cert_of_chain_line by done.
  assert (Hi : imap ((λ i, chain_line (n + i)) ∘ S) chain
               = imap (λ i, chain_line (S n + i)) chain).
  { apply imap_ext. intros k x Hk. simpl. by rewrite Nat.add_succ_r. }
  rewrite Hi, IH. destruct (Nat.ltb_spec n 10).
  - by replace (10 - n) with (S (10 - S n)) by lia.
  - by replace (10 - n) with 0 by lia; replace (10 - S n) with 0 by lia.
Qed.

(** The names of the table have no colon, so a group keeps to its place in the list. *)
Lemma match_str_without c s arms default :
  Forall (λ arm, without c arm.2 = true) arms → without c default = true →
  without c (match_str s arms default) = true.
Proof.
  intros Ha Hd. induction Ha as [|[pats r] arms Hr Ha IH]; simpl; [done|]. by destruct (one_of s pats).
Qed.

Lemma stack_group_without backend name :
  without colon name = true → without colon (stack_group backend name) = true.
Proof.
  intros Hn. unfold stack_group.
  destruct backend; try done; apply match_str_without; try done; repeat constructor.
Qed.

Lemma run_wf `{SerdeJson} exec base64 elapsed config backend request :
  response_wf (run exec base64 elapsed config backend request).
Proof.
  unfold run. pose proof (as_u64_range elapsed).
  destruct backend; [..|apply with_duration_wf; [apply mock_wf|done]].
  all: case_match; try (apply failure_wf; set_solver); apply with_duration_wf; [|done].
  all: case_match; [apply with_dump_wf|]; apply parse_wf; set_solver.
Qed.

(** ** Theorems *)

(** C29. Whatever the client binary does (it cannot be launched, times out, or prints
    anything at all), the response is well formed: the stage, the summary and the kinds of
    the trace rows agree with [handshake_success], an HTTP outcome is present exactly at
    stage [complete], rows are numbered from 0 and every number fits its type. *)
Theorem run_response_wf `{SerdeJson} exec base64 elapsed config backend request :
  response_wf (run exec base64 elapsed config backend request).
Proof. apply run_wf. Qed.


(** Of the certificate chain the client prints, the parser keeps the certificates at
    depth 0 to 9, subject and issuer exact and in order, and loses every deeper one: it
    strips a single numeric character before looking for [s:]. *)
Theorem parse_openssl_certs_chain (chain : list (string * string)) :
  Forall (λ c, token c.1 ∧ token c.2) chain →
  parse_openssl_certs (chain_text chain)
  = map (λ c, subject_issuer c.1 c.2) (take 10 chain).
Proof.
  intros Hc. unfold parse_openssl_certs, chain_text.
  rewrite lines_unlines by by apply (chain_lines chain 0).
  by apply (chain_parse chain 0).
Qed.

(** The offer reaches the OpenSSL command line unchanged: split at the colons, the
    values after [-groups] and [-sigalgs] are the requested groups, in the client's own
    spelling, and the requested signature algorithms, in order. *)
Lemma openssl_args_offer (request : ProbeRequest.t) :
  request.(ProbeRequest.kem_groups) ≠ [] → request.(ProbeRequest.sig_algs) ≠ [] →
  Forall (λ s, without colon s = true)
    (request.(ProbeRequest.kem_groups) ++ request.(ProbeRequest.sig_algs)) →
  ∃ flags groups sigs,
    openssl_args request = flags ++ ["-groups"; groups; "-sigalgs"; sigs] ∧
    split_char colon groups
      = map (stack_group OpenSsl) request.(ProbeRequest.kem_groups) ∧
    split_char colon sigs = request.(ProbeRequest.sig_algs).
Proof.
  intros Hg Hs [Hgc Hsc]%Forall_app. unfold openssl_args.
  destruct request.(ProbeRequest.kem_groups) as [|g gs] eqn:Eg; [done|].
  destruct request.(ProbeRequest.sig_algs) as [|a sigs] eqn:Es; [done|].
  eexists _, (join ":" (stack_groups OpenSsl request)), (join ":" (a :: sigs)).
  split; [by rewrite app_assoc|]. unfold stack_groups. rewrite Eg.
  split; apply split_char_join; [done| |done|done].
  apply Forall_map. eapply Forall_impl; [exact Hgc|]. apply stack_group_without.
Qed.

(** The other two clients never see part of the offer that the trace shows: BoringSSL's
    command line does not depend on the signature algorithms, wolfSSL's neither on them nor
    on any group but the first. *)
Lemma client_args_ignore_offer (r1 r2 : ProbeRequest.t) :
  r1.(ProbeRequest.target) = r2.(ProbeRequest.target) →
  (r1.(ProbeRequest.kem_groups) = r2.(ProbeRequest.kem_groups) →
     boringssl_args r1 = boringssl_args r2) ∧
  (first r1.(ProbeRequest.kem_groups) = first r2.(ProbeRequest.kem_groups) →
     wolfssl_args r1 = wolfssl_args r2).
Proof.
  intros Ht. split; intros Hk; unfold boringssl_args, wolfssl_args, connect_arg, stack_groups, sni;
    by rewrite Ht, Hk.
Qed.

Module BackendWitness.
Import BackendTests.
#[local] Existing Instance json.


Lemma parse_openssl_certs_chain_witness :
  parse_openssl_certs (chain_text (repeat ("CN=leaf", "CN=ca") 12))
  = repeat (subject_issuer "CN=leaf" "CN=ca") 10.
Proof.
  rewrite (parse_openssl_certs_chain (repeat ("CN=leaf", "CN=ca") 12));
    [reflexivity|repeat constructor; done].
Defined.

Lemma openssl_args_offer_witness :
  ∃ flags groups sigs,
    openssl_args (request ["mlkem768"; "secp256r1"] ["mldsa65"])
    = flags ++ ["-groups"; groups; "-sigalgs"; sigs] ∧
    split_char colon groups = ["MLKEM768"; "P-256"] ∧ split_char colon sigs = ["mldsa65"].
Proof.
  apply (openssl_args_offer (request ["mlkem768"; "secp256r1"] ["mldsa65"]));
    [done|done|repeat constructor; done].
Defined.

Lemma client_args_ignore_offer_witness :
  boringssl_args (request ["X25519"] ["mldsa65"]) = boringssl_args (request ["X25519"] []) ∧
  wolfssl_args (request ["MLKEM768"; "X25519"] ["mldsa65"]) = wolfssl_args (request ["MLKEM768"] []).
Proof.
  split.
  - apply (client_args_ignore_offer (request ["X25519"] ["mldsa65"]) (request ["X25519"] []));
      reflexivity.
  - apply (client_args_ignore_offer (request ["MLKEM768"; "X25519"] ["mldsa65"])
             (request ["MLKEM768"] [])); reflexivity.
Defined.

End BackendWitness.
