(* ===== verification/Verdict.v ===== *)
(** * The verdict of a probe, from the adapter's lists to [classify]

    What the worker concludes about a (group, signature algorithm) pair when it probes an
    adapter and classifies the response against the capabilities the same adapter reports.
    The mock stack makes the whole chain computable. *)

From S2P Require Import Prelude RustStr Json Proto Status Domain Backend.

(** The algorithm is on the list, in any case. *)
Definition advertised (l : list string) (alg : string) : bool :=
  existsb (λ k, eq_ignore_ascii_case k alg) l.

Lemma known_advertised caps alg :
  known caps alg
  = advertised caps.(Capabilities.kem_groups) alg || advertised caps.(Capabilities.sig_algs) alg.
Proof. apply existsb_app. Qed.

(** The lists of a deployment, read back from the comma-separated option. *)
Lemma split_list_join l :
  l ≠ [] → Forall (λ s, without comma s = true ∧ trim s = s ∧ s ≠ "") l →
  split_list (join (String comma "") l) = l.
Proof.
  intros Hne Hl. unfold split_list. rewrite split_char_join by
    (done || by (eapply Forall_impl; [exact Hl|]; naive_solver)).
  clear Hne. induction Hl as [|s l (_ & Hs & Hne) Hl IH]; [done|].
  cbn [map]. rewrite Hs, filter_cons_True by done. by rewrite IH.
Qed.

(** The request [probe::handle] builds has one group and one signature algorithm. *)
Definition single_offer (group sig : string) (request : ProbeRequest.t) : Prop :=
  request.(ProbeRequest.kem_groups) = [group] ∧ request.(ProbeRequest.sig_algs) = [sig] ∧
  sig ≠ "".

(** The target [mock] takes for a vulnerable server. *)
Definition vulnerable (request : ProbeRequest.t) : bool :=
  contains "vuln" request.(ProbeRequest.target).(Target.host)
  || (request.(ProbeRequest.target).(Target.port) =? 8888)%Z.

Section mock.
Context {J : SerdeJson}.

Lemma mock_success config request group sig :
  single_offer group sig request →
  kem_group_list config ≠ [] → sig_alg_list config ≠ [] →
  (mock config request).(ProbeResponse.handshake_success)
  = negb (vulnerable request) && advertised (kem_group_list config) group
    && advertised (sig_alg_list config) sig.
Proof.
  intros (Hg & Hs & Hne) HG HS. unfold mock. rewrite Hg, Hs. cbn [first unwrap_or].
  apply String.eqb_neq in Hne. rewrite Hne. cbn [orb].
  change (contains "vuln" _ || _) with (vulnerable request).
  destruct (vulnerable request); [done|].
  destruct (kem_group_list config) as [|g gs]; [done|].
  destruct (sig_alg_list config) as [|a sigs]; [done|].
  unfold advertised. cbn [negb andb].
  destruct (existsb _ (g :: gs)), (existsb _ (a :: sigs)); done.
Qed.

(** Probing the mock stack and classifying against its own capabilities: the pair
    passes exactly when the group and the signature algorithm are both advertised and the
    target is not the vulnerable one; it is unsupported only when neither is; a pair of
    which one half is advertised is reported as a failure of the target. *)
Theorem mock_verdict config request group sig :
  single_offer group sig request →
  kem_group_list config ≠ [] → sig_alg_list config ≠ [] →
  classify (mock config request) [group; sig] (capabilities config)
  = if negb (known (capabilities config) group || known (capabilities config) sig)
    then ResultStatus.Unsupported
    else if negb (vulnerable request) && advertised (kem_group_list config) group
            && advertised (sig_alg_list config) sig
    then ResultStatus.Passed else ResultStatus.Failed.
Proof.
  intros Ho HG HS. unfold classify. rewrite (mock_success _ _ _ _ Ho HG HS).
  cbn [existsb]. by rewrite orb_false_r.
Qed.

(** The pair passes on an image of the mock stack. *)
Lemma mock_passes exec base64 elapsed config request group sig :
  single_offer group sig request →
  kem_group_list config ≠ [] → sig_alg_list config ≠ [] →
  classify (run exec base64 elapsed config Mock request) [group; sig] (capabilities config)
    = ResultStatus.Passed ↔
  vulnerable request = false ∧ advertised (kem_group_list config) group = true ∧
  advertised (sig_alg_list config) sig = true.
Proof.
  intros Ho HG HS. unfold classify, run.
  change (with_duration _ _).(ProbeResponse.handshake_success)
    with (mock config request).(ProbeResponse.handshake_success).
  rewrite (mock_success _ _ _ _ Ho HG HS). cbn [existsb].
  rewrite orb_false_r, !known_advertised. cbn [capabilities Capabilities.kem_groups Capabilities.sig_algs].
  destruct (vulnerable request), (advertised (kem_group_list config) group),
    (advertised (sig_alg_list config) sig); cbn [negb andb orb];
    rewrite ?orb_true_r; cbn [negb]; repeat case_match; naive_solver.
Qed.

End mock.

Module VerdictWitness.
Import BackendTests.
#[local] Existing Instance json.

Lemma mock_verdict_witness :
  classify (mock (config "MLKEM768,X25519") (request ["mlkem768"] ["mldsa44"]))
    ["mlkem768"; "mldsa44"] (capabilities (config "MLKEM768,X25519"))
  = ResultStatus.Failed.
Proof.
  rewrite (mock_verdict (config "MLKEM768,X25519") (request ["mlkem768"] ["mldsa44"])
             "mlkem768" "mldsa44"); [reflexivity|done..].
Defined.

End VerdictWitness.
