(* ===== verification/KemOrder.v ===== *)
(** * The judgement of a server's preference order ([services/worker/src/kem.rs])

    The pure part of the KEM DEMO: which groups are classical, the level of a post-quantum
    group, [evaluate_order], and the texts of the console. *)

From S2P Require Import Prelude RustStr Json Proto.

(** [MATRIX_ADAPTERS], [MATRIX_KEMS], [CLASSICAL]. *)
Definition MATRIX_ADAPTERS : list string :=
  ["openssl"; "boringssl"; "wolfssl"; "go"; "bouncycastle"; "aws-lc"; "nss"; "circl"].

Definition MATRIX_KEMS : list string :=
  ["MLKEM1024"; "MLKEM768"; "SecP256r1MLKEM768"; "SecP384r1MLKEM1024";
   "X25519Kyber768Draft00"; "X25519MLKEM768"].

Definition CLASSICAL : list string :=
  ["x25519"; "x448"; "secp256r1"; "secp384r1"; "secp521r1"; "prime256v1"; "prime384v1";
   "prime521v1"; "p-256"; "p-384"; "p-521"].

Definition is_classical (group : string) : bool :=
  let g := to_ascii_lowercase group in
  existsb (String.eqb g) CLASSICAL.

Definition pq_level (group : string) : option Z :=
  let g := to_ascii_lowercase group in
  if is_classical g then None
  else Some (if contains "1024" g || contains "mceliece460896" g then 5
             else if contains "768" g || contains "976" g then 3
             else if contains "512" g || contains "640" g then 1
             else 3)%Z.

(** The loop of [evaluate_order]: [seen_classical] and [best_pq_so_far] are its locals. *)
Fixpoint evaluate_from (seen_classical : bool) (best_pq_so_far : option Z)
    (order : list string) : list string :=
  match order with
  | [] => []
  | group :: rest =>
      match pq_level group with
      | None => evaluate_from true best_pq_so_far rest
      | Some level =>
          let behind_classical := seen_classical in
          let behind_weaker_pq :=
            match best_pq_so_far with
            | Some best => (best <? level)%Z
            | None => false
            end in
          let best :=
            match best_pq_so_far with
            | Some best => Z.min best level
            | None => level
            end in
          if behind_classical || behind_weaker_pq
          then group :: evaluate_from seen_classical (Some best) rest
          else evaluate_from seen_classical (Some best) rest
      end
  end.

Definition evaluate_order (order : list string) : list string :=
  evaluate_from false None order.

Definition status_text (status : Z) : string :=
  match status with
  | 200 => "OK"
  | 204 => "No Content"
  | 301 => "Moved Permanently"
  | 302 => "Found"
  | 400 => "Bad Request"
  | 403 => "Forbidden"
  | 404 => "Not Found"
  | 500 => "Internal Server Error"
  | _ => ""
  end%Z.

Definition result_line `{SerdeJson} (response : ProbeResponse.t) : string :=
  let n := response.(ProbeResponse.negotiated) in
  "Result: ApplicationData - " +:+ unwrap_or "unknown" n.(Negotiated.tls_version)
  +:+ " " +:+ unwrap_or "unknown" n.(Negotiated.cipher_suite)
  +:+ "; group=" +:+ unwrap_or "unknown" n.(Negotiated.group)
  +:+ "; sent=" +:+ show response.(ProbeResponse.evidence).(Evidence.bytes_sent)
  +:+ " bytes; received=" +:+ show response.(ProbeResponse.evidence).(Evidence.bytes_received)
  +:+ " bytes".

(** ** Specification *)

(** The security of a group: none if it is classical, its level otherwise. *)
Definition strength (group : string) : Z := unwrap_or 0%Z (pq_level group).

(** The groups that have a strictly weaker one somewhere in front of them, in order. *)
Definition misplaced (order : list string) : list string :=
  concat (imap (λ i group,
    if existsb (λ h, strength h <? strength group)%Z (take i order) then [group] else [])
    order).

(** ** Lemmas *)

Lemma pq_level_range g l : pq_level g = Some l → (1 ≤ l ≤ 5)%Z.
Proof. unfold pq_level. intros. repeat case_match; simplify_eq; lia. Qed.

Lemma strength_classical g : pq_level g = None ↔ strength g = 0%Z.
Proof.
  unfold strength. destruct (pq_level g) eqn:Hl; simpl; [|done].
  apply pq_level_range in Hl. split; [done|lia].
Qed.

#[export] Instance is_classical_proper : Proper (ci_eq ==> eq) is_classical.
Proof. intros a b Hab. unfold is_classical. by rewrite Hab. Qed.

#[export] Instance pq_level_proper : Proper (ci_eq ==> eq) pq_level.
Proof. intros a b Hab. unfold pq_level. by rewrite (to_ascii_lowercase_proper _ _ Hab). Qed.

#[export] Instance strength_proper : Proper (ci_eq ==> eq) strength.
Proof. intros a b Hab. unfold strength. by rewrite (pq_level_proper _ _ Hab). Qed.

(** What the two locals of the loop remember of the groups already walked. *)
Definition remembers (seen : list string) (seen_classical : bool) (best : option Z) : Prop :=
  ∀ l, (0 < l)%Z →
    existsb (λ h, strength h <? l)%Z seen
    = seen_classical || match best with Some b => (b <? l)%Z | None => false end.

Lemma remembers_step seen sc best g :
  remembers seen sc best →
  remembers (seen ++ [g])
    (match pq_level g with None => true | Some _ => sc end)
    (match pq_level g with
     | None => best
     | Some l => Some (match best with Some b => Z.min b l | None => l end)
     end).
Proof.
  intros Hr l Hl. rewrite existsb_app, (Hr l Hl). cbn [existsb]. rewrite orb_false_r.
  unfold strength. destruct (pq_level g) as [n|]; cbn [unwrap_or].
  - destruct best, sc; cbn [orb]; lia.
  - rewrite (proj2 (Z.ltb_lt 0 l)) by done. by rewrite orb_true_r.
Qed.

Lemma evaluate_from_spec seen sc best order :
  remembers seen sc best →
  evaluate_from sc best order
  = concat (imap (λ i group,
      if existsb (λ h, strength h <? strength group)%Z (seen ++ take i order)
      then [group] else []) order).
Proof.
  revert seen sc best. induction order as [|g order IH]; intros seen sc best Hr; [done|].
  pose proof (IH _ _ _ (remembers_step _ _ _ g Hr)) as IH'. clear IH.
  rewrite imap_cons. cbn [concat take]. rewrite app_nil_r.
  rewrite (imap_ext _ (λ i group,
    if existsb (λ h, strength h <? strength group)%Z ((seen ++ [g]) ++ take i order)
    then [group] else [])) by (intros; simpl; by rewrite <-app_assoc).
  rewrite <-IH'. clear IH'. cbn [evaluate_from]. destruct (pq_level g) as [l|] eqn:Hg.
  - pose proof (pq_level_range _ _ Hg) as Hl.
    assert (Hs : strength g = l) by (unfold strength; by rewrite Hg).
    rewrite Hs, (Hr l) by lia. by destruct (_ || _).
  - apply strength_classical in Hg as Hs. rewrite Hs.
    assert (Hno : existsb (λ h, strength h <? 0)%Z seen = false); [|by rewrite Hno].
    apply not_true_iff_false. intros (h & _ & Hh%Z.ltb_lt)%existsb_exists. unfold strength in Hh.
    destruct (pq_level h) as [n|] eqn:Hn; simpl in Hh; [|lia].
    apply pq_level_range in Hn. lia.
Qed.

Lemma misplaced_nil_sorted seen order :
  concat (imap (λ i group,
      if existsb (λ h, strength h <? strength group)%Z (seen ++ take i order)
      then [group] else []) order) = [] ↔
  StronglySorted (λ a b, (strength b ≤ strength a)%Z) order ∧
  Forall (λ b, Forall (λ a, (strength b ≤ strength a)%Z) seen) order.
Proof.
  revert seen. induction order as [|g order IH]; intros seen.
  { split; [intros _; split; constructor|done]. }
  rewrite imap_cons. cbn [concat take]. rewrite app_nil_r.
  rewrite (imap_ext _ (λ i group,
    if existsb (λ h, strength h <? strength group)%Z ((seen ++ [g]) ++ take i order)
    then [group] else [])) by (intros; simpl; by rewrite <-app_assoc).
  assert (Hg : existsb (λ h, strength h <? strength g)%Z seen = false ↔
               Forall (λ a, (strength g ≤ strength a)%Z) seen).
  { rewrite <-not_true_iff_false, existsb_exists, Forall_forall.
    setoid_rewrite <-list_elem_of_In. setoid_rewrite Z.ltb_lt. split.
    - intros Hn a Ha. destruct (decide (strength g ≤ strength a)%Z); [done|].
      destruct Hn. exists a. split; [done|lia].
    - intros Hf (a & Ha & Hlt). specialize (Hf a Ha). lia. }
  rewrite Forall_cons. rewrite <-Hg. destruct (existsb _ seen) eqn:He.
  - split; [done|]. intros (_ & ? & _). done.
  - simpl. rewrite IH, StronglySorted_cons. setoid_rewrite Forall_app.
    setoid_rewrite Forall_singleton. rewrite Forall_and. naive_solver.
Qed.

Lemma evaluate_order_misplaced order : evaluate_order order = misplaced order.
Proof. apply (evaluate_from_spec [] false None). intros l Hl. done. Qed.

(** ** Theorems *)

(** C34. [evaluate_order] reports exactly the groups that have a strictly weaker group in
    front of them, each as often as it occurs so and in the order of the list; a classical
    group is the weakest there is and is never reported. *)
Theorem evaluate_order_spec (order : list string) :
  evaluate_order order = misplaced order ∧
  ∀ group, group ∈ evaluate_order order → is_classical group = false.
Proof.
  split; [apply evaluate_order_misplaced|]. intros g.
  rewrite evaluate_order_misplaced. unfold misplaced.
  rewrite list_elem_of_In, in_concat. intros (l & Hl & Hg).
  apply list_elem_of_In in Hl, Hg. apply elem_of_lookup_imap in Hl as (i & h & -> & Hi).
  destruct (existsb _ _) eqn:Hx; [|set_solver]. apply list_elem_of_singleton in Hg as ->.
  apply existsb_exists in Hx as (w & _ & Hw%Z.ltb_lt).
  apply not_true_iff_false. intros Hc.
  assert (Hn : pq_level h = None).
  { unfold pq_level. by rewrite (is_classical_proper _ _ (ci_eq_lower h)), Hc. }
  apply strength_classical in Hn. unfold strength in Hw, Hn. rewrite Hn in Hw.
  destruct (pq_level w) eqn:Hl; simpl in Hw; [apply pq_level_range in Hl|]; lia.
Qed.

(** The order is reported as best practice exactly when security never increases along
    it: post-quantum groups first, in descending level, then the classical ones in any
    order. *)
Lemma evaluate_order_clean (order : list string) :
  evaluate_order order = [] ↔
  StronglySorted (λ a b, (strength b ≤ strength a)%Z) order.
Proof.
  rewrite evaluate_order_misplaced. unfold misplaced.
  pose proof (misplaced_nil_sorted [] order) as H. cbn [app] in H. rewrite H.
  split; [tauto|]. intros Hs. split; [done|]. apply Forall_true. by intros.
Qed.
