(* ===== verification/Effects.v ===== *)
(** * Effectful code

    An [async fn] of the services is a program over a world [W]: it returns, fails with an
    [anyhow] error, or performs one atomic operation (a SQL statement or transaction, a
    Redis command, an HTTP request) and continues with its result. [run] executes a program
    on its own; [step] interleaves several, the way the worker's tasks are, at the grain of
    the operations. *)

From S2P Require Import Prelude.

Section prog.
Context {W : Type}.

(** One atomic operation: its result and the world it leaves. *)
Definition op (X : Type) : Type := W → result string X * W.

Inductive prog (A : Type) : Type :=
| Ret (a : A)
| Throw (e : string)
| Do {X : Type} (o : op X) (k : result string X → prog A).
Arguments Ret {A} a.
Arguments Throw {A} e.
Arguments Do {A X} o k.

(** [m.await?] followed by the rest. *)
Fixpoint bind {A B} (p : prog A) (f : A → prog B) : prog B :=
  match p with
  | Ret a => f a
  | Throw e => Throw e
  | Do o k => Do o (λ r, bind (k r) f)
  end.

(** [m.await] whose error the code looks at. *)
Fixpoint attempt {A} (p : prog A) : prog (result string A) :=
  match p with
  | Ret a => Ret (Ok a)
  | Throw e => Ret (Err e)
  | Do o k => Do o (λ r, attempt (k r))
  end.

Definition of_result {A} (r : result string A) : prog A :=
  match r with
  | Ok a => Ret a
  | Err e => Throw e
  end.

Definition call {X} (o : op X) : prog X := Do o of_result.

(** [for x in l { body }]. *)
Fixpoint for_each {B} (l : list B) (body : B → prog unit) : prog unit :=
  match l with
  | [] => Ret tt
  | x :: r => bind (body x) (λ _, for_each r body)
  end.

Fixpoint run {A} (p : prog A) (w : W) : result string A * W :=
  match p with
  | Ret a => (Ok a, w)
  | Throw e => (Err e, w)
  | Do o k => let r := o w in run (k r.1) r.2
  end.

(** ** Interleaving *)

(** Some task of the pool performs its next operation. *)
Inductive step {A} : W * list (prog A) → W * list (prog A) → Prop :=
| step_at w l1 X (o : op X) k l2 :
    step (w, l1 ++ Do o k :: l2) ((o w).2, l1 ++ k (o w).1 :: l2).

Definition halted {A} (p : prog A) : Prop :=
  match p with
  | Do _ _ => False
  | _ => True
  end.

End prog.

Arguments prog W A : clear implicits.
Arguments op W X : clear implicits.
Arguments Ret {W A} a.
Arguments Throw {W A} e.
Arguments Do {W A X} o k.

Declare Scope prog_scope.
Delimit Scope prog_scope with prog.
Notation "'let!' x := p 'in' q" := (bind p (λ x, q))
  (at level 10, x binder, p at level 100, q at level 200) : prog_scope.
Notation "p ;;; q" := (bind p (λ _, q))
  (at level 100, q at level 200, right associativity) : prog_scope.

(** ** Lemmas *)

Section lemmas.
Context {W : Type}.

Lemma run_bind {A B} (p : prog W A) (f : A → prog W B) w :
  run (bind p f) w
  = match run p w with
    | (Ok a, w') => run (f a) w'
    | (Err e, w') => (Err e, w')
    end.
Proof. revert w. induction p as [a|e|X o k IH]; intros w; simpl; [done..|]. apply IH. Qed.

Lemma run_attempt {A} (p : prog W A) w : run (attempt p) w = (Ok (run p w).1, (run p w).2).
Proof. revert w. induction p as [a|e|X o k IH]; intros w; simpl; [done..|]. apply IH. Qed.

Lemma run_pair {A} (p : prog W A) w r : (run p w).1 = r → run p w = (r, (run p w).2).
Proof. intros <-. apply surjective_pairing. Qed.

Lemma run_call {X} (o : op W X) w : run (call o) w = o w.
Proof. simpl. by destruct (o w) as [[x|e] w']. Qed.

Lemma run_for_each_app {B} (l1 l2 : list B) (body : B → prog W unit) w :
  run (for_each (l1 ++ l2) body) w
  = match run (for_each l1 body) w with
    | (Ok _, w') => run (for_each l2 body) w'
    | (Err e, w') => (Err e, w')
    end.
Proof.
  revert w. induction l1 as [|x l1 IH]; intros w; [done|]. cbn [app for_each].
  rewrite !run_bind. destruct (run (body x) w) as [[a|e] w']; [apply IH|done].
Qed.

Lemma bind_assoc_run {A B C} (p : prog W A) (f : A → prog W B) (g : B → prog W C) w :
  run (bind (bind p f) g) w = run (bind p (λ a, bind (f a) g)) w.
Proof. rewrite !run_bind. destruct (run p w) as [[a|e] w']; [by rewrite run_bind|done]. Qed.

(** A program of the pool can be run to its end on its own. *)
Lemma run_steps {A} (p : prog W A) l1 l2 w :
  ∃ q, halted q ∧ rtc step (w, l1 ++ p :: l2) ((run p w).2, l1 ++ q :: l2) ∧
       match q with Ret a => run p w = (Ok a, (run p w).2)
                  | Throw e => run p w = (Err e, (run p w).2)
                  | Do _ _ => False end.
Proof.
  revert w. induction p as [a|e|X o k IH]; intros w.
  - exists (Ret a). by split_and!.
  - exists (Throw e). by split_and!.
  - destruct (IH (o w).1 (o w).2) as (q & Hq & Hs & Hr). exists q. split_and!; [done| |done].
    eapply rtc_l; [|exact Hs]. apply step_at.
Qed.

(** ** What every operation of a program preserves *)

Section preserves.
Context (R : W → W → Prop).

Fixpoint preserves {A} (p : prog W A) : Prop :=
  match p with
  | Do o k => ∀ w, R w (o w).2 ∧ preserves (k (o w).1)
  | _ => True
  end.

Lemma preserves_of_result {A} (r : result string A) : preserves (of_result r).
Proof. by destruct r. Qed.

Lemma preserves_bind {A B} (p : prog W A) (f : A → prog W B) :
  preserves p → (∀ a, preserves (f a)) → preserves (bind p f).
Proof.
  intros Hp Hf. induction p as [a|e|X o k IH]; [apply Hf|done|].
  intros w. destruct (Hp w) as [Hw Hk]. split; [done|]. by apply IH.
Qed.

Lemma preserves_attempt {A} (p : prog W A) : preserves p → preserves (attempt p).
Proof.
  induction p as [a|e|X o k IH]; intros Hp; [done..|].
  intros w. destruct (Hp w) as [Hw Hk]. split; [done|]. by apply IH.
Qed.

Lemma preserves_call {X} (o : op W X) : (∀ w, R w (o w).2) → preserves (call o).
Proof. intros Ho w. split; [apply Ho|]. apply preserves_of_result. Qed.

Lemma preserves_run {A} `{!PreOrder R} (p : prog W A) w : preserves p → R w (run p w).2.
Proof.
  revert w. induction p as [a|e|X o k IH]; intros w Hp; [done..|].
  destruct (Hp w) as [Hw Hk]. cbn [run]. etrans; [exact Hw|]. by apply IH.
Qed.

End preserves.

Lemma preserves_impl (R S : W → W → Prop) {A} (p : prog W A) :
  (∀ w w', R w w' → S w w') → preserves R p → preserves S p.
Proof.
  intros HRS. induction p as [a|e|X o k IH]; intros Hp; [done..|]. intros w.
  destruct (Hp w) as [Hw Hk]. split; [by apply HRS|by apply IH].
Qed.

Lemma preserves_and (R S : W → W → Prop) {A} (p : prog W A) :
  preserves R p → preserves S p → preserves (λ w w', R w w' ∧ S w w') p.
Proof.
  induction p as [a|e|X o k IH]; intros HR HS; [done..|]. intros w.
  destruct (HR w), (HS w). split; [done|by apply IH].
Qed.

(** What all tasks of a pool respect, the pool respects. *)
Lemma steps_preserve {A} (R : W → W → Prop) `{!PreOrder R} w (pool : list (prog W A)) w' pool' :
  Forall (preserves R) pool → rtc step (w, pool) (w', pool') → R w w'.
Proof.
  intros Hp Hs. remember (w, pool) as c eqn:Hc. remember (w', pool') as c' eqn:Hc'.
  revert w pool Hc Hp. induction Hs as [c|c c1 c2 H12 _ IH]; intros w pool -> Hp.
  - by injection Hc' as -> _.
  - remember (w, pool) as c eqn:Hc. destruct H12 as [w0 l1 X o k l2]. simplify_eq.
    apply Forall_app in Hp as [H1 [Ho H2]%Forall_cons]. destruct (Ho w) as [Hw Hk].
    etrans; [exact Hw|]. eapply IH; [done..|]. apply Forall_app. auto.
Qed.

(** ** Every execution ends *)

Definition shrinks {A} (q p : prog W A) : Prop :=
  match p with
  | Do o k => ∃ r, q = k r
  | _ => False
  end.

Lemma shrinks_wf {A} : well_founded (@shrinks A).
Proof.
  intros p. induction p as [a|e|X o k IH]; constructor; intros q Hq; [done..|].
  destruct Hq as [r ->]. apply IH.
Qed.

(** One task of the pool got smaller. *)
Inductive pool_shrinks {A} : list (prog W A) → list (prog W A) → Prop :=
| pool_shrinks_at l1 p q l2 :
    shrinks q p → pool_shrinks (l1 ++ q :: l2) (l1 ++ p :: l2).

Lemma pool_shrinks_cons {A} (pool : list (prog W A)) p ps :
  pool_shrinks pool (p :: ps) →
  (∃ q, shrinks q p ∧ pool = q :: ps) ∨ (∃ qs, pool_shrinks qs ps ∧ pool = p :: qs).
Proof.
  intros Hs. remember (p :: ps) as pool' eqn:Hp. destruct Hs as [l1 p' q l2 Hs].
  destruct l1 as [|p0 l1]; simplify_eq/=; [left; eauto|].
  right. eexists. split; [by apply pool_shrinks_at|done].
Qed.

Lemma pool_shrinks_wf {A} : well_founded (@pool_shrinks A).
Proof.
  intros pool. induction pool as [|p pool IH].
  - constructor. intros pool' Hs. exfalso. remember [] as e eqn:He. destruct Hs.
    by destruct l1.
  - revert pool IH. induction (shrinks_wf p) as [p _ IHp]. intros pool IH.
    induction IH as [pool Hacc IHpool]. constructor. intros pool' Hs.
    apply pool_shrinks_cons in Hs as [(q & Hq & ->)|(qs & Hqs & ->)].
    + apply IHp; [done|]. by constructor.
    + by apply IHpool.
Qed.

(** Whatever the interleaving, the pool runs to its end: [step] has no infinite run. *)
Lemma step_terminates {A} (c : W * list (prog W A)) : Acc (flip step) c.
Proof.
  destruct c as [w pool]. revert w. induction (pool_shrinks_wf pool) as [pool _ IH].
  intros w. constructor. intros [w' pool'] Hs. unfold flip in Hs.
  remember (w, pool) as c eqn:Hc. remember (w', pool') as c' eqn:Hc'.
  destruct Hs as [w0 l1 X o k l2]. simplify_eq. apply IH. apply pool_shrinks_at. simpl. eauto.
Qed.

(** A pool in which every task has halted, or a step is possible. *)
Lemma step_progress {A} (w : W) (pool : list (prog W A)) :
  Forall halted pool ∨ ∃ c, step (w, pool) c.
Proof.
  induction pool as [|p pool [IH|[c IH]]]; [by left; constructor|..].
  - destruct p as [a|e|X o k]; [left; by constructor..|].
    right. eexists. apply (step_at w [] X o k).
  - right. remember (w, pool) as c0 eqn:Hc. destruct IH as [w0 l1 X o k l2]. simplify_eq.
    eexists. apply (step_at w (p :: l1) X o k).
Qed.

End lemmas.
