(* ===== verification/Rely.v ===== *)
(** * Programs in company

    What a program of [Effects] achieves while others run: between any two of its
    operations the world may change as the relation [R] allows (the rely), and [wp] says in
    which results and worlds the program can end. The tasks it shares a pool with respect
    [R] when all their operations do ([preserves R]); [wp_steps] is the soundness of the
    logic for the interleavings of [step]. *)

From S2P Require Import Prelude Effects.

Section rely.
Context {W : Type} (R : W → W → Prop).

(** Every execution from [w] ends, wherever it ends, in [Q]. *)
Fixpoint wp {A} (p : prog W A) (Q : result string A → W → Prop) (w : W) : Prop :=
  match p with
  | Ret a => Q (Ok a) w
  | Throw e => Q (Err e) w
  | Do o k => ∀ w1, R w w1 → wp (k (o w1).1) Q (o w1).2
  end.

(** What the others do does not matter to [Q]. *)
Definition stable (Q : W → Prop) : Prop := ∀ w w', R w w' → Q w → Q w'.

Lemma wp_mono {A} (p : prog W A) (Q Q' : result string A → W → Prop) w :
  (∀ r w', Q r w' → Q' r w') → wp p Q w → wp p Q' w.
Proof.
  intros HQ. revert w. induction p as [a|e|X o k IH]; intros w Hp; [by apply HQ..|].
  intros w1 Hw1. apply IH. by apply Hp.
Qed.

Lemma wp_bind {A B} (p : prog W A) (f : A → prog W B) Q w :
  wp p (λ r w', match r with Ok a => wp (f a) Q w' | Err e => Q (Err e) w' end) w →
  wp (bind p f) Q w.
Proof.
  revert w. induction p as [a|e|X o k IH]; intros w Hp; [done..|].
  intros w1 Hw1. apply IH. by apply Hp.
Qed.

Lemma wp_attempt {A} (p : prog W A) Q w :
  wp p (λ r w', Q (Ok r) w') w → wp (attempt p) Q w.
Proof.
  revert w. induction p as [a|e|X o k IH]; intros w Hp; [done..|].
  intros w1 Hw1. apply IH. by apply Hp.
Qed.

Lemma wp_of_result {A} (r : result string A) (Q : result string A → W → Prop) w :
  Q r w → wp (of_result r) Q w.
Proof. by destruct r. Qed.

Lemma wp_call {X} (o : op W X) (Q : result string X → W → Prop) w :
  (∀ w1, R w w1 → Q (o w1).1 (o w1).2) → wp (call o) Q w.
Proof. intros HQ w1 Hw1. by apply wp_of_result, HQ. Qed.

(** A program keeps what neither the others nor its own operations can break. *)
Lemma wp_invariant {A} (S : W → W → Prop) (p : prog W A) (I : W → Prop) w :
  stable I → (∀ w w', S w w' → I w → I w') → preserves S p → I w → wp p (λ _, I) w.
Proof.
  intros HR HS. revert w. induction p as [a|e|X o k IH]; intros w Hp HI; [done..|].
  intros w1 Hw1. destruct (Hp w1) as [Ho Hk]. apply IH; [done|]. eapply HS; [done|]. by eapply HR.
Qed.

(** ... and both facts hold at the end. *)
Lemma wp_and_invariant {A} (S : W → W → Prop) (p : prog W A) Q (I : W → Prop) w :
  stable I → (∀ w w', S w w' → I w → I w') → preserves S p → I w → wp p Q w →
  wp p (λ r w', Q r w' ∧ I w') w.
Proof.
  intros HR HS. revert w. induction p as [a|e|X o k IH]; intros w Hp HI HQ; [done..|].
  intros w1 Hw1. destruct (Hp w1) as [Ho Hk]. apply IH; [done| |by apply HQ].
  eapply HS; [done|]. by eapply HR.
Qed.

Section pool.
Context `{!PreOrder R}.

(** What the others did so far does not matter to the program. *)
Lemma wp_rely {A} (p : prog W A) Q w w' :
  (∀ r, stable (Q r)) → R w w' → wp p Q w → wp p Q w'.
Proof.
  intros HQ Hw. destruct p as [a|e|X o k]; cbn [wp]; [by apply HQ..|].
  intros Hp w1 Hw1. apply Hp. by etrans.
Qed.

(** On its own. *)
Lemma wp_run {A} (p : prog W A) Q w : wp p Q w → Q (run p w).1 (run p w).2.
Proof.
  revert w. induction p as [a|e|X o k IH]; intros w Hp; [done..|].
  cbn [run]. apply IH. by apply Hp.
Qed.

(** One step of a pool. *)
Lemma wp_step {A} l1 (p : prog W A) l2 Q w w' pool' :
  (∀ r, stable (Q r)) → Forall (preserves R) l1 → Forall (preserves R) l2 → wp p Q w →
  step (w, l1 ++ p :: l2) (w', pool') →
  ∃ l1' p' l2', pool' = l1' ++ p' :: l2' ∧ length l1' = length l1 ∧
    Forall (preserves R) l1' ∧ Forall (preserves R) l2' ∧ wp p' Q w'.
Proof.
  intros HQ H1 H2 Hp Hs. remember (w, l1 ++ p :: l2) as c eqn:Hc.
  remember (w', pool') as c' eqn:Hc'. destruct Hs as [w0 k1 X o k k2].
  injection Hc as -> Heq. injection Hc' as <- <-.
  apply app_eq_inv in Heq as [(l & -> & H4)|(l & -> & H4)]; destruct l as [|q l]; cbn in H4.
  - rewrite app_nil_r. injection H4 as -> ->.
    exists l1, (k (o w).1), k2. split_and!; try done. by apply Hp.
  - injection H4 as -> ->. apply Forall_app in H2 as [Hl [Ho Hk2]%Forall_cons].
    destruct (Ho w) as [Hw Hk]. exists l1, q, (l ++ k (o w).1 :: k2).
    rewrite <-app_assoc. split_and!; try done; [apply Forall_app; auto|by eapply wp_rely].
  - rewrite app_nil_r in H1. injection H4 as <- <-.
    exists k1, (k (o w).1), k2. rewrite app_nil_r. split_and!; try done. by apply Hp.
  - injection H4 as <- ->. apply Forall_app in H1 as [Hk1 [Ho Hl]%Forall_cons].
    destruct (Ho w) as [Hw Hk]. exists (k1 ++ k (o w).1 :: l), p, l2.
    rewrite <-app_assoc. split_and!; try done.
    + by rewrite !length_app.
    + apply Forall_app. auto.
    + by eapply wp_rely.
Qed.

Lemma wp_steps {A} l1 (p : prog W A) l2 Q w w' pool' :
  (∀ r, stable (Q r)) → Forall (preserves R) l1 → Forall (preserves R) l2 → wp p Q w →
  rtc step (w, l1 ++ p :: l2) (w', pool') →
  ∃ l1' p' l2', pool' = l1' ++ p' :: l2' ∧ length l1' = length l1 ∧ wp p' Q w'.
Proof.
  intros HQ H1 H2 Hp Hs. remember (w, l1 ++ p :: l2) as c eqn:Hc.
  remember (w', pool') as c' eqn:Hc'. revert w l1 p l2 Hc H1 H2 Hp.
  induction Hs as [c|c [w1 pool1] c2 H12 _ IH]; intros w l1 p l2 -> H1 H2 Hp.
  - injection Hc' as <- <-. by exists l1, p, l2.
  - destruct (wp_step _ _ _ _ _ _ _ HQ H1 H2 Hp H12) as (k1 & q & k2 & -> & Hl & Hk1 & Hk2 & Hq).
    destruct (IH Hc' w1 k1 q k2) as (l1' & p' & l2' & -> & Hl' & Hp'); [done..|].
    exists l1', p', l2'. split_and!; [done|congruence|done].
Qed.

(** Whatever tasks that respect [R] the program shares a pool with, and however they
    interleave: when nothing is left to do, the program has ended in [Q]. (The pool does
    run to its end, by [step_terminates].) *)
Definition in_company {A} (p : prog W A) (w : W) (Q : result string A → W → Prop) : Prop :=
  ∀ l1 l2 w' pool', Forall (preserves R) l1 → Forall (preserves R) l2 →
    rtc step (w, l1 ++ p :: l2) (w', pool') → Forall halted pool' →
    ∃ r, pool' !! length l1 = Some match r with Ok a => Ret a | Err e => Throw e end ∧ Q r w'.

Lemma wp_in_company {A} (p : prog W A) w Q :
  (∀ r, stable (Q r)) → wp p Q w → in_company p w Q.
Proof.
  intros HQ Hp l1 l2 w' pool' H1 H2 Hs Hh.
  destruct (wp_steps _ _ _ _ _ _ _ HQ H1 H2 Hp Hs) as (k1 & q & k2 & -> & <- & Hq).
  apply Forall_app in Hh as [_ [Hh _]%Forall_cons].
  rewrite list_lookup_middle by done. destruct q as [a|e|X o k]; [| |done].
  - by exists (Ok a).
  - by exists (Err e).
Qed.

(** In particular on its own. *)
Lemma in_company_run {A} (p : prog W A) w Q : in_company p w Q → Q (run p w).1 (run p w).2.
Proof.
  intros Hc. destruct (run_steps p [] [] w) as (q & Hq & Hs & Hr). cbn [app] in Hs.
  destruct (Hc [] [] (run p w).2 [q]) as (r & Hl & HQ); [done..|by constructor|].
  cbn in Hl. injection Hl as ->. destruct r as [a|e]; by rewrite Hr.
Qed.

Lemma in_company_mono {A} (p : prog W A) w (Q Q' : result string A → W → Prop) :
  (∀ r w', Q r w' → Q' r w') → in_company p w Q → in_company p w Q'.
Proof.
  intros HQ Hc l1 l2 w' pool' H1 H2 Hs Hh.
  destruct (Hc l1 l2 w' pool' H1 H2 Hs Hh) as (r & Hr & Hq). exists r. auto.
Qed.

End pool.

(** ** What a program guarantees in return

    A task may be allowed an operation only after what it has seen: [assures] says that each
    operation of the program respects [R], in the company of tasks that do, and that it ends
    in [Q]. *)
Fixpoint assures {A} (p : prog W A) (Q : result string A → W → Prop) (w : W) : Prop :=
  match p with
  | Ret a => Q (Ok a) w
  | Throw e => Q (Err e) w
  | Do o k => ∀ w1, R w w1 → R w1 (o w1).2 ∧ assures (k (o w1).1) Q (o w1).2
  end.

Lemma assures_mono {A} (p : prog W A) (Q Q' : result string A → W → Prop) w :
  (∀ r w', Q r w' → Q' r w') → assures p Q w → assures p Q' w.
Proof.
  intros HQ. revert w. induction p as [a|e|X o k IH]; intros w Hp; [by apply HQ..|].
  intros w1 Hw1. destruct (Hp w1 Hw1) as [Ho Hk]. split; [done|by apply IH].
Qed.

Lemma assures_bind {A B} (p : prog W A) (f : A → prog W B) Q w :
  assures p (λ r w', match r with Ok a => assures (f a) Q w' | Err e => Q (Err e) w' end) w →
  assures (bind p f) Q w.
Proof.
  revert w. induction p as [a|e|X o k IH]; intros w Hp; [done..|].
  intros w1 Hw1. destruct (Hp w1 Hw1) as [Ho Hk]. split; [done|by apply IH].
Qed.

Lemma assures_attempt {A} (p : prog W A) Q w :
  assures p (λ r w', Q (Ok r) w') w → assures (attempt p) Q w.
Proof.
  revert w. induction p as [a|e|X o k IH]; intros w Hp; [done..|].
  intros w1 Hw1. destruct (Hp w1 Hw1) as [Ho Hk]. split; [done|by apply IH].
Qed.

Lemma assures_call {X} (o : op W X) (Q : result string X → W → Prop) w :
  (∀ w1, R w w1 → R w1 (o w1).2 ∧ Q (o w1).1 (o w1).2) → assures (call o) Q w.
Proof. intros HQ w1 Hw1. destruct (HQ w1 Hw1) as [Ho Hq]. split; [done|]. by destruct (o w1).1. Qed.

(** A program whose operations all respect [R] wherever they happen. *)
Lemma preserves_assures {A} (p : prog W A) (I : W → Prop) w :
  stable I → preserves R p → I w → assures p (λ _, I) w.
Proof.
  intros HI. revert w. induction p as [a|e|X o k IH]; intros w Hp Hw; [done..|].
  intros w1 Hw1. destruct (Hp w1) as [Ho Hk]. split; [done|]. apply IH; [done|].
  eapply HI; [exact Ho|]. by eapply HI.
Qed.

Lemma assures_rely {A} `{!PreOrder R} (p : prog W A) w w' :
  R w w' → assures p (λ _ _, True) w → assures p (λ _ _, True) w'.
Proof.
  intros Hw. destruct p as [a|e|X o k]; [done..|]. intros Hp w1 Hw1. apply Hp. by etrans.
Qed.

(** A pool of such programs respects [R] step by step, and stays one. *)
Lemma assures_step {A} `{!PreOrder R} w (pool : list (prog W A)) w' pool' :
  Forall (λ p, assures p (λ _ _, True) w) pool → step (w, pool) (w', pool') →
  R w w' ∧ Forall (λ p, assures p (λ _ _, True) w') pool'.
Proof.
  intros Hp Hs. remember (w, pool) as c eqn:Hc. remember (w', pool') as c' eqn:Hc'.
  destruct Hs as [w0 l1 X o k l2]. injection Hc as -> <-. injection Hc' as <- <-.
  apply Forall_app in Hp as [H1 [Ho H2]%Forall_cons]. destruct (Ho w) as [HR Hk]; [done|].
  split; [exact HR|]. apply Forall_app. split; [|apply Forall_cons; split; [exact Hk|]];
    (eapply Forall_impl; [done|]); intros p; by apply assures_rely.
Qed.

End rely.
