(* ===== verification/World.v ===== *)
(** * The world of the services

    The Postgres tables (a map from primary key to row), what was published on Redis and
    which stream entries were acknowledged, the capability cache of the worker process, the
    jobs on the streams, and the environment: clocks, failures of a statement, what the
    database generates and what the adapters answer. An operation reads the environment at
    the number of operations performed so far, so two of them may meet different
    conditions. *)

From S2P Require Import Prelude Json Proto Status Domain Effects.

(** ** State *)

Inductive Event :=
| Test_event (e : TestEvent.t)
| Kem_event (e : KemEvent.t).

(** The payload of a stream entry. *)
Inductive Job :=
| Probe_job (job : ProbeJob.t)
| Kem_job (job : KemJob.t).

(** Rows that the Rust code has no struct for. *)
Module CavpPackRow.
Record t `{SerdeJson} := {
  id : Uuid;
  slug : string;
  capability : Capability.t;
  parameter_set : string;
  vs_id : Z;
  prompt : Value;
  answer_key : Value;
  registration : Value;
}.
End CavpPackRow.

Module CavpSessionRow.
Record t `{SerdeJson} := {
  id : Uuid;
  pack_id : Uuid;
  capability : Capability.t;
  parameter_set : string;
  vs_id : Z;
  prompt : Value;
  submitted : option Value;
  validation : option Value;
  created_at : DateTime;
}.
End CavpSessionRow.

Section world.
Context {J : SerdeJson}.

(** The tables of [migrations/0001_init.sql] that the services touch. *)
Record Db := {
  endpoints : gmap Uuid Endpoint.t;
  algorithms : gmap Z Algorithm.t;
  tests : gmap Uuid Test.t;
  subtasks : gmap Uuid Subtask.t;
  subtask_reports : gmap Uuid SubtaskReport.t;
  kem_runs : gmap Uuid KemRun.t;
  kem_run_logs : gmap (Uuid * Z) KemRunLog.t;
  kem_matrix_cells : gmap (Uuid * string * string) KemMatrixCell.t;
  cavp_packs : gmap Uuid CavpPackRow.t;
  cavp_sessions : gmap Uuid CavpSessionRow.t;
}.

Record World := {
  db : Db;
  streams : list (string * Job);
  published : list (string * Event);
  acked : list (string * string);
  cache : gmap string Capabilities.t;
  steps : nat;
}.

Definition with_endpoints (f : gmap Uuid Endpoint.t → gmap Uuid Endpoint.t) (d : Db) : Db := {|
  endpoints := f d.(endpoints); algorithms := d.(algorithms);
  tests := d.(tests); subtasks := d.(subtasks); subtask_reports := d.(subtask_reports);
  kem_runs := d.(kem_runs); kem_run_logs := d.(kem_run_logs);
  kem_matrix_cells := d.(kem_matrix_cells);
  cavp_packs := d.(cavp_packs); cavp_sessions := d.(cavp_sessions) |}.

Definition with_algorithms (f : gmap Z Algorithm.t → gmap Z Algorithm.t) (d : Db) : Db := {|
  endpoints := d.(endpoints); algorithms := f d.(algorithms);
  tests := d.(tests); subtasks := d.(subtasks); subtask_reports := d.(subtask_reports);
  kem_runs := d.(kem_runs); kem_run_logs := d.(kem_run_logs);
  kem_matrix_cells := d.(kem_matrix_cells);
  cavp_packs := d.(cavp_packs); cavp_sessions := d.(cavp_sessions) |}.

Definition with_tests (f : gmap Uuid Test.t → gmap Uuid Test.t) (d : Db) : Db := {|
  endpoints := d.(endpoints); algorithms := d.(algorithms);
  tests := f d.(tests); subtasks := d.(subtasks); subtask_reports := d.(subtask_reports);
  kem_runs := d.(kem_runs); kem_run_logs := d.(kem_run_logs);
  kem_matrix_cells := d.(kem_matrix_cells);
  cavp_packs := d.(cavp_packs); cavp_sessions := d.(cavp_sessions) |}.

Definition with_subtasks (f : gmap Uuid Subtask.t → gmap Uuid Subtask.t) (d : Db) : Db := {|
  endpoints := d.(endpoints); algorithms := d.(algorithms);
  tests := d.(tests); subtasks := f d.(subtasks); subtask_reports := d.(subtask_reports);
  kem_runs := d.(kem_runs); kem_run_logs := d.(kem_run_logs);
  kem_matrix_cells := d.(kem_matrix_cells);
  cavp_packs := d.(cavp_packs); cavp_sessions := d.(cavp_sessions) |}.

Definition with_reports (f : gmap Uuid SubtaskReport.t → gmap Uuid SubtaskReport.t) (d : Db)
    : Db := {|
  endpoints := d.(endpoints); algorithms := d.(algorithms);
  tests := d.(tests); subtasks := d.(subtasks); subtask_reports := f d.(subtask_reports);
  kem_runs := d.(kem_runs); kem_run_logs := d.(kem_run_logs);
  kem_matrix_cells := d.(kem_matrix_cells);
  cavp_packs := d.(cavp_packs); cavp_sessions := d.(cavp_sessions) |}.

Definition with_kem_runs (f : gmap Uuid KemRun.t → gmap Uuid KemRun.t) (d : Db) : Db := {|
  endpoints := d.(endpoints); algorithms := d.(algorithms);
  tests := d.(tests); subtasks := d.(subtasks); subtask_reports := d.(subtask_reports);
  kem_runs := f d.(kem_runs); kem_run_logs := d.(kem_run_logs);
  kem_matrix_cells := d.(kem_matrix_cells);
  cavp_packs := d.(cavp_packs); cavp_sessions := d.(cavp_sessions) |}.

Definition with_kem_run_logs
    (f : gmap (Uuid * Z) KemRunLog.t → gmap (Uuid * Z) KemRunLog.t) (d : Db) : Db := {|
  endpoints := d.(endpoints); algorithms := d.(algorithms);
  tests := d.(tests); subtasks := d.(subtasks); subtask_reports := d.(subtask_reports);
  kem_runs := d.(kem_runs); kem_run_logs := f d.(kem_run_logs);
  kem_matrix_cells := d.(kem_matrix_cells);
  cavp_packs := d.(cavp_packs); cavp_sessions := d.(cavp_sessions) |}.

Definition with_kem_matrix_cells
    (f : gmap (Uuid * string * string) KemMatrixCell.t →
         gmap (Uuid * string * string) KemMatrixCell.t) (d : Db) : Db := {|
  endpoints := d.(endpoints); algorithms := d.(algorithms);
  tests := d.(tests); subtasks := d.(subtasks); subtask_reports := d.(subtask_reports);
  kem_runs := d.(kem_runs); kem_run_logs := d.(kem_run_logs);
  kem_matrix_cells := f d.(kem_matrix_cells);
  cavp_packs := d.(cavp_packs); cavp_sessions := d.(cavp_sessions) |}.

Definition with_cavp_packs (f : gmap Uuid CavpPackRow.t → gmap Uuid CavpPackRow.t) (d : Db) : Db := {|
  endpoints := d.(endpoints); algorithms := d.(algorithms);
  tests := d.(tests); subtasks := d.(subtasks); subtask_reports := d.(subtask_reports);
  kem_runs := d.(kem_runs); kem_run_logs := d.(kem_run_logs);
  kem_matrix_cells := d.(kem_matrix_cells);
  cavp_packs := f d.(cavp_packs); cavp_sessions := d.(cavp_sessions) |}.

Definition with_cavp_sessions
    (f : gmap Uuid CavpSessionRow.t → gmap Uuid CavpSessionRow.t) (d : Db) : Db := {|
  endpoints := d.(endpoints); algorithms := d.(algorithms);
  tests := d.(tests); subtasks := d.(subtasks); subtask_reports := d.(subtask_reports);
  kem_runs := d.(kem_runs); kem_run_logs := d.(kem_run_logs);
  kem_matrix_cells := d.(kem_matrix_cells);
  cavp_packs := d.(cavp_packs); cavp_sessions := f d.(cavp_sessions) |}.

Definition set_db (d : Db) (w : World) : World := {|
  db := d; streams := w.(streams); published := w.(published); acked := w.(acked); cache := w.(cache); steps := S w.(steps) |}.

Definition set_published (p : list (string * Event)) (w : World) : World := {|
  db := w.(db); streams := w.(streams); published := p; acked := w.(acked); cache := w.(cache); steps := S w.(steps) |}.

Definition set_streams (s : list (string * Job)) (w : World) : World := {|
  db := w.(db); streams := s; published := w.(published); acked := w.(acked); cache := w.(cache);
  steps := S w.(steps) |}.

Definition set_acked (a : list (string * string)) (w : World) : World := {|
  db := w.(db); streams := w.(streams); published := w.(published); acked := a; cache := w.(cache);
  steps := S w.(steps) |}.

Definition set_cache (c : gmap string Capabilities.t) (w : World) : World := {|
  db := w.(db); streams := w.(streams); published := w.(published); acked := w.(acked); cache := c; steps := S w.(steps) |}.

Definition tick (w : World) : World := {|
  db := w.(db); streams := w.(streams); published := w.(published); acked := w.(acked); cache := w.(cache); steps := S w.(steps) |}.

(** ** Environment *)

(** A statement or command may work, fail, or take effect and lose its reply. *)
Inductive Fault :=
| Works
| FailsBefore (err : string)
| FailsAfter (err : string).

(** What comes back from [POST {base}/probe]. *)
Inductive PostReply :=
| Unreachable (err : string)
| BadStatus (status body : string)
| Unreadable (err : string)
| Report (response : ProbeResponse.t).

(** [fresh_uuid n k] is the [k]th [gen_random_uuid()] of the [n]th operation, and
    [next_serial n] the value a [serial] column gets in it,
    and [row_order n] the order in which its [RETURNING] lists the rows. *)
Record Env := {
  clock : nat → DateTime;
  fault : nat → Fault;
  fresh_uuid : nat → nat → Uuid;
  next_serial : nat → Z;
  row_order : nat → list (Uuid * string * string) → list (Uuid * string * string);
  get_capabilities : nat → string → result string Capabilities.t;
  post_probe : nat → string → ProbeRequest.t → PostReply;
}.

(** No statement fails. The adapters may still answer anything. *)
Definition reliable (env : Env) : Prop := ∀ n, env.(fault) n = Works.

(** ** Operations *)

Context (env : Env).

(** One statement, or one transaction, at the current time. *)
Definition sql {X} (q : DateTime → Db → result string (X * Db)) : op World X := λ w,
  let n := w.(steps) in
  match env.(fault) n with
  | FailsBefore e => (Err e, tick w)
  | Works =>
      match q (env.(clock) n) w.(db) with
      | Ok (x, d) => (Ok x, set_db d w)
      | Err e => (Err e, tick w)
      end
  | FailsAfter e =>
      match q (env.(clock) n) w.(db) with
      | Ok (x, d) => (Err e, set_db d w)
      | Err e' => (Err e', tick w)
      end
  end.

(** [redis.publish(channel, payload)]. *)
Definition redis_publish (channel : string) (event : Event) : op World unit := λ w,
  let w' := set_published (w.(published) ++ [(channel, event)]) w in
  match env.(fault) w.(steps) with
  | FailsBefore e => (Err e, tick w)
  | Works => (Ok tt, w')
  | FailsAfter e => (Err e, w')
  end.

(** A pipeline of [XADD stream * job payload]. *)
Definition xadd (stream : string) (jobs : list Job) : op World unit := λ w,
  let w' := set_streams (w.(streams) ++ map (pair stream) jobs) w in
  match env.(fault) w.(steps) with
  | FailsBefore e => (Err e, tick w)
  | Works => (Ok tt, w')
  | FailsAfter e => (Err e, w')
  end.

(** [XACK stream group id]: how many entries were acknowledged. *)
Definition xack (stream id : string) : op World Z := λ w,
  let w' := set_acked (w.(acked) ++ [(stream, id)]) w in
  match env.(fault) w.(steps) with
  | FailsBefore e => (Err e, tick w)
  | Works => (Ok 1%Z, w')
  | FailsAfter e => (Err e, w')
  end.

(** [Utc::now()]. *)
Definition now : op World DateTime := λ w, (Ok (env.(clock) w.(steps)), tick w).

Definition http_get (url : string) : op World Capabilities.t := λ w,
  (env.(get_capabilities) w.(steps) url, tick w).

Definition http_post (url : string) (request : ProbeRequest.t) : op World PostReply := λ w,
  (Ok (env.(post_probe) w.(steps) url request), tick w).

Definition cache_get (adapter : string) : op World (option Capabilities.t) := λ w,
  (Ok (w.(cache) !! adapter), tick w).

Definition cache_insert (adapter : string) (caps : Capabilities.t) : op World unit := λ w,
  (Ok tt, set_cache (<[adapter := caps]> w.(cache)) w).

(** ** Lemmas *)

Lemma sql_works {X} (q : DateTime → Db → result string (X * Db)) w :
  reliable env →
  sql q w = match q (env.(clock) w.(steps)) w.(db) with
            | Ok (x, d) => (Ok x, set_db d w)
            | Err e => (Err e, tick w)
            end.
Proof. intros Hr. unfold sql. by rewrite Hr. Qed.

Lemma redis_publish_works channel event w :
  reliable env →
  redis_publish channel event w
  = (Ok tt, set_published (w.(published) ++ [(channel, event)]) w).
Proof. intros Hr. unfold redis_publish. by rewrite Hr. Qed.

Lemma xadd_works stream jobs w :
  reliable env →
  xadd stream jobs w = (Ok tt, set_streams (w.(streams) ++ map (pair stream) jobs) w).
Proof. intros Hr. unfold xadd. by rewrite Hr. Qed.

End world.

(** ** Programs that leave the tables, the events and the acknowledgements alone *)

Section quiet.
Context {J : SerdeJson}.

Definition same_tables (w w' : World) : Prop :=
  w'.(db) = w.(db) ∧ w'.(published) = w.(published) ∧ w'.(acked) = w.(acked).

#[export] Instance same_tables_preorder : PreOrder same_tables.
Proof. split; [done|]. intros w1 w2 w3 (? & ? & ?) (? & ? & ?). split_and!; congruence. Qed.

(** What the clients of the adapter registry rely on. *)
Class Quiet {A} (p : prog World A) : Prop := quiet : preserves same_tables p.

#[export] Instance quiet_ret {A} (a : A) : Quiet (Ret a).
Proof. done. Qed.

#[export] Instance quiet_throw {A} e : Quiet (Throw e : prog World A).
Proof. done. Qed.

#[export] Instance quiet_of_result {A} (r : result string A) : Quiet (of_result r).
Proof. apply preserves_of_result. Qed.

#[export] Instance quiet_attempt {A} (p : prog World A) : Quiet p → Quiet (attempt p).
Proof. apply preserves_attempt. Qed.

#[export] Instance quiet_bind {A B} (p : prog World A) (f : A → prog World B) :
  Quiet p → (∀ a, Quiet (f a)) → Quiet (bind p f).
Proof. apply preserves_bind. Qed.

#[export] Instance quiet_match {A B C} (r : result A B) (f : B → prog World C) (g : A → prog World C) :
  (∀ b, Quiet (f b)) → (∀ a, Quiet (g a)) →
  Quiet (match r with Ok b => f b | Err a => g a end).
Proof. by destruct r. Qed.

#[export] Instance quiet_option {A B} (o : option A) (f : A → prog World B) (p : prog World B) :
  (∀ a, Quiet (f a)) → Quiet p → Quiet (match o with Some a => f a | None => p end).
Proof. by destruct o. Qed.

#[export] Instance quiet_now env : Quiet (call (now env)).
Proof. by apply preserves_call. Qed.

#[export] Instance quiet_http_get env url : Quiet (call (http_get env url)).
Proof. by apply preserves_call. Qed.

#[export] Instance quiet_http_post env url request : Quiet (call (http_post env url request)).
Proof. by apply preserves_call. Qed.

#[export] Instance quiet_cache_get adapter : Quiet (call (cache_get adapter)).
Proof. by apply preserves_call. Qed.

#[export] Instance quiet_cache_insert adapter caps : Quiet (call (cache_insert adapter caps)).
Proof. by apply preserves_call. Qed.

Lemma run_quiet {A} (p : prog World A) `{!Quiet p} w : same_tables w (run p w).2.
Proof. apply preserves_run; [apply _|]. apply quiet. Qed.

End quiet.
