(* ===== verification/Stream.v ===== *)
(** * The streams of jobs ([services/worker/src/stream.rs])

    The worker reads its jobs from Redis streams through a consumer group. The replies of
    Redis are arguments here; the file turns them into deliveries. *)

From S2P Require Import Prelude RustStr Json Proto Status Domain Effects World.

(** The crate [redis]: its values and the conversions [from_redis_value] the code uses. *)
Class RedisValue := {
  RValue : Type;
  as_array_value : RValue → option (list RValue);
  from_redis_string : RValue → result string string;
  from_redis_strings : RValue → result string (list string);
}.

Module Delivery.
Record t := {
  stream : string;
  id : string;
  payload : string;
}.

#[global] Instance t_eq_dec : EqDecision t.
Proof. solve_decision. Defined.
End Delivery.

(** The reply types of the crate for [XREADGROUP]. *)
Module StreamId.
Record t `{RedisValue} := { id : string; map : gmap string RValue }.
End StreamId.

Module StreamKey.
Record t `{RedisValue} := { key : string; ids : list StreamId.t }.
End StreamKey.

Module StreamReadReply.
Record t `{RedisValue} := { keys : list StreamKey.t }.
End StreamReadReply.

Section stream.
Context {V : RedisValue}.

(** [XGROUP CREATE stream group $ MKSTREAM], given what Redis answers: that the group is
    already there is not an error. *)
Definition ensure_group (reply : result string string) : result string unit :=
  match reply with
  | Ok _ => Ok tt
  | Err err => if contains "BUSYGROUP" err then Ok tt else Err err
  end.

(** [map.get("job").and_then(|v| from_redis_value(v).ok())]. *)
Definition job_of (entry : StreamId.t) : option string :=
  v ← entry.(StreamId.map) !! "job";
  match from_redis_string v with
  | Ok payload => Some payload
  | Err _ => None
  end.

Definition collect_key (key : StreamKey.t) : list Delivery.t :=
  omap (λ entry, payload ← job_of entry;
    Some {| Delivery.stream := key.(StreamKey.key); Delivery.id := entry.(StreamId.id);
            Delivery.payload := payload |}) key.(StreamKey.ids).

Definition collect (reply : option StreamReadReply.t) : list Delivery.t :=
  match reply with
  | None => []
  | Some reply => flat_map collect_key reply.(StreamReadReply.keys)
  end.

Definition read (reply : result string (option StreamReadReply.t))
    : result string (list Delivery.t) :=
  match reply with
  | Ok reply => Ok (collect reply)
  | Err err => Err err
  end.

(** [fields.chunks(2)]. *)
Fixpoint chunks2 {A} (l : list A) : list (list A) :=
  match l with
  | [] => []
  | [x] => [[x]]
  | x :: y :: r => [x; y] :: chunks2 r
  end.

Definition field_value (fields : list string) (name : string) : option string :=
  pair ← find_first (λ pair, bool_decide (first pair = Some name)) (chunks2 fields);
  pair !! 1%nat.

(** The body of the loop over the entries of [XAUTOCLAIM]: [continue] is [None]. *)
Definition claimed (stream : string) (entry : RValue) : option Delivery.t :=
  pair ← as_array_value entry;
  id_value ← pair !! 0%nat;
  let id := match from_redis_string id_value with Ok s => s | Err _ => "" end in
  fields_value ← pair !! 1%nat;
  let fields := match from_redis_strings fields_value with Ok l => l | Err _ => [] end in
  payload ← field_value fields "job";
  Some {| Delivery.stream := stream; Delivery.id := id; Delivery.payload := payload |}.

Definition claimed_entries (stream : string) (reply : RValue) : list Delivery.t :=
  match (parts ← as_array_value reply; entries ← parts !! 1%nat; as_array_value entries) with
  | Some entries => omap (claimed stream) entries
  | None => []
  end.

Definition autoclaim (stream : string) (reply : result string RValue)
    : result string (list Delivery.t) :=
  match reply with
  | Ok reply => Ok (claimed_entries stream reply)
  | Err err => Err err
  end.

Local Open Scope prog_scope.

Definition ack `{SerdeJson} (env : Env) (stream id : string) : prog World unit :=
  let! _ := call (xack env stream id) in Ret tt.

End stream.

(** ** Theorems *)

(** What the crate documents about its conversions. *)
Class RedisValueLaws `{RedisValue} := {
  v_array : list RValue → RValue;
  v_string : string → RValue;
  as_array_v_array l : as_array_value (v_array l) = Some l;
  from_string_v_string s : from_redis_string (v_string s) = Ok s;
  from_strings_v_array l : from_redis_strings (v_array (map v_string l)) = Ok l;
}.

(** Flat field lists, as Redis sends them. *)
Definition flat (fields : list (string * string)) : list string :=
  flat_map (λ kv, [kv.1; kv.2]) fields.

Lemma chunks2_flat fields : chunks2 (flat fields) = map (λ kv, [kv.1; kv.2]) fields.
Proof.
  induction fields as [|[k v] fields IH]; [done|].
  change (flat ((k, v) :: fields)) with (k :: v :: flat fields). cbn [chunks2 map fst snd].
  by rewrite IH.
Qed.

(** The value of the first field of that name; a value that looks like a name does not
    count. *)
Lemma field_value_flat fields name :
  field_value (flat fields) name
  = snd <$> find_first (λ kv, String.eqb kv.1 name) fields.
Proof.
  unfold field_value. rewrite chunks2_flat. induction fields as [|[k v] fields IH]; [done|].
  cbn. destruct (String.eqb_spec k name) as [->|Hne].
  - by rewrite bool_decide_true.
  - rewrite bool_decide_false by congruence. apply IH.
Qed.

Section roundtrip.
Context {V : RedisValue} {VL : RedisValueLaws}.

(** One entry of a stream as [XAUTOCLAIM] sends it: its id and its fields. *)
Definition entry_value (entry : string * list (string * string)) : RValue :=
  v_array [v_string entry.1; v_array (map v_string (flat entry.2))].

(** [[next_cursor, entries, deleted]]. *)
Definition autoclaim_reply (cursor : string) (entries : list (string * list (string * string)))
    (deleted : list string) : RValue :=
  v_array [v_string cursor; v_array (map entry_value entries); v_array (map v_string deleted)].

Definition delivery_of (stream : string) (entry : string * list (string * string))
    : option Delivery.t :=
  kv ← find_first (λ kv, String.eqb kv.1 "job") entry.2;
  Some {| Delivery.stream := stream; Delivery.id := entry.1; Delivery.payload := kv.2 |}.

Lemma claimed_entry stream entry : claimed stream (entry_value entry) = delivery_of stream entry.
Proof.
  unfold claimed, entry_value. rewrite as_array_v_array. cbn.
  rewrite from_string_v_string, from_strings_v_array, field_value_flat. unfold delivery_of.
  by destruct (find_first _ _) as [[k v]|].
Qed.

(** C27. Taking over the entries of a dead worker: the reply of [XAUTOCLAIM] is read back
    exactly. Every pending entry that carries a job becomes one delivery with its id and
    payload, in order; an entry without a [job] field is passed over, so it stays pending;
    and an entry as the API queues it always is delivered. *)
Theorem autoclaim_reads_back stream cursor entries deleted :
  autoclaim stream (Ok (autoclaim_reply cursor entries deleted))
    = Ok (omap (delivery_of stream) entries) ∧
  (∀ entry, delivery_of stream entry = None ↔ "job" ∉ map fst entry.2) ∧
  ∀ id payload, delivery_of stream (id, [("job", payload)])
    = Some {| Delivery.stream := stream; Delivery.id := id; Delivery.payload := payload |}.
Proof.
  split_and!.
  - unfold autoclaim, claimed_entries, autoclaim_reply. rewrite as_array_v_array. cbn.
    rewrite as_array_v_array. f_equal. induction entries as [|entry entries IH]; [done|].
    cbn [map omap list_omap]. by rewrite claimed_entry, IH.
  - intros [id fields]. unfold delivery_of. cbn [fst snd].
    destruct (find_first _ fields) as [kv|] eqn:Hf; cbn; split; try done.
    + intros Hn. destruct Hn. apply find_first_Some in Hf as (l1 & l2 & -> & Hk & _).
      apply String.eqb_eq in Hk. rewrite map_app. cbn. rewrite <-Hk. set_solver.
    + intros _ (kv & Hk & Hin)%list_elem_of_fmap.
      pose proof (proj1 (find_first_None _ _) Hf) as Hno. rewrite Forall_forall in Hno.
      apply Hno in Hin. by rewrite <-Hk in Hin.
  - done.
Qed.

End roundtrip.
