(* ===== verification/Store.v ===== *)
(** * The worker's database writes ([services/worker/src/store.rs])

    Each SQL statement as a function on the tables, and each function of the file as a
    program. An [UPDATE ... WHERE id = $1] changes at most the row with that key. *)

From S2P Require Import Prelude Json Proto Status Domain Effects World.

(** [serde_json::to_value] of the types that derive [Serialize]; it cannot fail on them. *)
Class ReportJson `{SerdeJson} := {
  alert_value : option Alert.t → Value;
  messages_value : list HandshakeMessage.t → Value;
  cert_chain_value : list Certificate.t → Value;
  http_value : option HttpOutcome.t → Value;
  response_value : ProbeResponse.t → Value;
}.

Section store.
Context {J : SerdeJson} {RJ : ReportJson} (env : Env).

(** ** Rows *)

Definition subtask_running (at_ : DateTime) (s : Subtask.t) : Subtask.t := {|
  Subtask.id := s.(Subtask.id); Subtask.test_id := s.(Subtask.test_id);
  Subtask.ordinal := s.(Subtask.ordinal); Subtask.group_name := s.(Subtask.group_name);
  Subtask.sig_alg := s.(Subtask.sig_alg);
  Subtask.exec_status := ExecStatus.Running;
  Subtask.result_status := s.(Subtask.result_status);
  Subtask.report_status := s.(Subtask.report_status);
  Subtask.failed_stage := s.(Subtask.failed_stage);
  Subtask.error_summary := s.(Subtask.error_summary);
  Subtask.started_at := Some at_;
  Subtask.finished_at := s.(Subtask.finished_at);
|}.

Definition subtask_reported (result : ResultStatus.t) (report : ReportStatus.t)
    (stage : string) (error : option string) (at_ : DateTime) (s : Subtask.t) : Subtask.t := {|
  Subtask.id := s.(Subtask.id); Subtask.test_id := s.(Subtask.test_id);
  Subtask.ordinal := s.(Subtask.ordinal); Subtask.group_name := s.(Subtask.group_name);
  Subtask.sig_alg := s.(Subtask.sig_alg);
  Subtask.exec_status := ExecStatus.Finished;
  Subtask.result_status := result;
  Subtask.report_status := report;
  Subtask.failed_stage := Some stage;
  Subtask.error_summary := error;
  Subtask.started_at := s.(Subtask.started_at);
  Subtask.finished_at := Some at_;
|}.

Definition subtask_errored (reason : string) (at_ : DateTime) (s : Subtask.t) : Subtask.t := {|
  Subtask.id := s.(Subtask.id); Subtask.test_id := s.(Subtask.test_id);
  Subtask.ordinal := s.(Subtask.ordinal); Subtask.group_name := s.(Subtask.group_name);
  Subtask.sig_alg := s.(Subtask.sig_alg);
  Subtask.exec_status := ExecStatus.Error;
  Subtask.result_status := ResultStatus.Failed;
  Subtask.report_status := ReportStatus.Missing;
  Subtask.failed_stage := s.(Subtask.failed_stage);
  Subtask.error_summary := Some reason;
  Subtask.started_at := s.(Subtask.started_at);
  Subtask.finished_at := Some at_;
|}.

(** [UPDATE tests SET status = 'running' ... AND status = 'pending']. *)
Definition test_running (at_ : DateTime) (x : Test.t) : Test.t :=
  if decide (x.(Test.status) = TaskStatus.Pending) then {|
    Test.id := x.(Test.id); Test.host := x.(Test.host); Test.port := x.(Test.port);
    Test.http_path := x.(Test.http_path); Test.method := x.(Test.method);
    Test.tool := x.(Test.tool); Test.plugin := x.(Test.plugin);
    Test.status := TaskStatus.Running;
    Test.group_count := x.(Test.group_count); Test.sig_alg_count := x.(Test.sig_alg_count);
    Test.subtask_count := x.(Test.subtask_count); Test.created_at := x.(Test.created_at);
    Test.started_at := Some (unwrap_or at_ x.(Test.started_at));
    Test.finished_at := x.(Test.finished_at);
  |} else x.

Definition test_closed (status : TaskStatus.t) (at_ : DateTime) (x : Test.t) : Test.t := {|
  Test.id := x.(Test.id); Test.host := x.(Test.host); Test.port := x.(Test.port);
  Test.http_path := x.(Test.http_path); Test.method := x.(Test.method);
  Test.tool := x.(Test.tool); Test.plugin := x.(Test.plugin);
  Test.status := status;
  Test.group_count := x.(Test.group_count); Test.sig_alg_count := x.(Test.sig_alg_count);
  Test.subtask_count := x.(Test.subtask_count); Test.created_at := x.(Test.created_at);
  Test.started_at := x.(Test.started_at);
  Test.finished_at := Some at_;
|}.

(** ** Operations *)

Definition mark_subtask_running (subtask_id : Uuid) : prog World unit :=
  call (sql env (λ at_ d,
    Ok (tt, with_subtasks (alter (subtask_running at_) subtask_id) d))).

Definition mark_test_running (test_id : Uuid) : prog World unit :=
  call (sql env (λ at_ d, Ok (tt, with_tests (alter (test_running at_) test_id) d))).

Definition tls_summary (response : ProbeResponse.t) : Value :=
  let opt (o : option string) :=
    match o with
    | Some s => json_string s
    | None => json_null
    end in
  let n := response.(ProbeResponse.negotiated) in
  json_object
    [("handshakeSuccess", json_bool response.(ProbeResponse.handshake_success));
     ("tlsVersion", opt n.(Negotiated.tls_version));
     ("cipherSuite", opt n.(Negotiated.cipher_suite));
     ("keyExchangeGroup", opt n.(Negotiated.group));
     ("certVerifySigAlg", opt n.(Negotiated.cert_verify_sig_alg));
     ("alert", alert_value response.(ProbeResponse.alert))].

Definition report_status_of (response : ProbeResponse.t) : ReportStatus.t :=
  if response.(ProbeResponse.handshake_success) then ReportStatus.Complete
  else match response.(ProbeResponse.messages) with
       | [] => ReportStatus.Partial
       | _ => ReportStatus.Complete
       end.

(** The row bound to the [INSERT INTO subtask_reports]. A [Value::Null] bound to the
    nullable [jsonb] column is the JSON null, not the SQL one. *)
Definition report_row (subtask_id : Uuid) (response : ProbeResponse.t) : SubtaskReport.t := {|
  SubtaskReport.subtask_id := subtask_id;
  SubtaskReport.adapter := response.(ProbeResponse.adapter);
  SubtaskReport.tls_summary := tls_summary response;
  SubtaskReport.messages := messages_value response.(ProbeResponse.messages);
  SubtaskReport.cert_chain := cert_chain_value response.(ProbeResponse.cert_chain);
  SubtaskReport.http := Some (http_value response.(ProbeResponse.http));
  SubtaskReport.diagnostics := response.(ProbeResponse.diagnostics);
  SubtaskReport.raw := response_value response;
  SubtaskReport.evidence := response.(ProbeResponse.evidence).(Evidence.uds_dump_b64);
  SubtaskReport.duration_ms := as_i64 response.(ProbeResponse.duration_ms);
|}.

(** One transaction: the upsert of the report, which needs its subtask (the foreign key),
    and the update of the subtask. *)
Definition save_report (subtask_id : Uuid) (result : ResultStatus.t)
    (response : ProbeResponse.t) : prog World unit :=
  call (sql env (λ at_ d,
    match d.(subtasks) !! subtask_id with
    | None => Err "violates foreign key constraint"
    | Some _ =>
        Ok (tt,
          with_subtasks
            (alter (subtask_reported result (report_status_of response)
                      (Stage.as_str response.(ProbeResponse.failed_stage))
                      response.(ProbeResponse.error_summary) at_) subtask_id)
            (with_reports <[subtask_id := report_row subtask_id response]> d))
    end)).

Definition mark_subtask_error (subtask_id : Uuid) (reason : string) : prog World unit :=
  call (sql env (λ at_ d,
    Ok (tt, with_subtasks (alter (subtask_errored reason at_) subtask_id) d))).

Record TestProgress := { passed : Z; failed : Z }.

(** [FROM subtasks WHERE test_id = $1], and [count( * ) FILTER (WHERE ...)]. *)
Definition subtasks_of (test_id : Uuid) (d : Db) : gmap Uuid Subtask.t :=
  filter (λ kv, kv.2.(Subtask.test_id) = test_id) d.(subtasks).

Definition rows_of (test_id : Uuid) (d : Db) : list Subtask.t :=
  map snd (map_to_list (subtasks_of test_id d)).

Definition count (p : Subtask.t → bool) (rows : list Subtask.t) : Z :=
  Z.of_nat (length (filter (λ s, p s = true) rows)).

Definition outstanding (s : Subtask.t) : bool :=
  match s.(Subtask.exec_status) with
  | ExecStatus.Queued | ExecStatus.Running => true
  | _ => false
  end.

Definition is_passed (s : Subtask.t) : bool :=
  bool_decide (s.(Subtask.result_status) = ResultStatus.Passed).

Definition is_failed (s : Subtask.t) : bool :=
  match s.(Subtask.result_status) with
  | ResultStatus.Failed | ResultStatus.Unsupported => true
  | _ => false
  end.

Definition is_errored (s : Subtask.t) : bool :=
  bool_decide (s.(Subtask.exec_status) = ExecStatus.Error).

Definition progress (test_id : Uuid) (d : Db) : Z * Z * Z * Z * Z :=
  let rows := rows_of test_id d in
  (count outstanding rows, count is_passed rows, count is_failed rows,
   count is_errored rows, Z.of_nat (length rows)).

(** Only a test whose subtasks all errored on our side is a failed test. *)
Definition closing_status (errored total : Z) : TaskStatus.t :=
  if (errored =? total)%Z && (0 <? total)%Z then TaskStatus.Failed else TaskStatus.Finished.

Local Open Scope prog_scope.

Definition finish_test_if_done (test_id : Uuid) : prog World (option TestProgress) :=
  let! counts := call (sql env (λ _ d, Ok (progress test_id d, d))) in
  let '(outstanding, passed, failed, errored, total) := counts in
  if (0 <? outstanding)%Z then Ret None
  else
    let status := closing_status errored total in
    call (sql env (λ at_ d, Ok (tt, with_tests (alter (test_closed status at_) test_id) d)));;;
    Ret (Some {| passed := passed; failed := failed |}).

End store.

(** ** Lemmas *)

Section lemmas.
Context {J : SerdeJson} {RJ : ReportJson} (env : Env).

Lemma count_zero p rows : (0 <? count p rows)%Z = false ↔ Forall (λ s, p s = false) rows.
Proof.
  unfold count. rewrite Z.ltb_ge. induction rows as [|s rows IH]; [split; [constructor|simpl; lia]|].
  rewrite Forall_cons. cbn [filter list_filter]. case_decide as Hs; cbn [length]; rewrite <-?IH.
  - rewrite Hs. split; [lia|by intros []].
  - apply not_true_iff_false in Hs. split; [by split|by intros [_ ?]].
Qed.

Lemma elem_of_rows_of test_id d s :
  s ∈ rows_of test_id d ↔
  ∃ id, d.(subtasks) !! id = Some s ∧ s.(Subtask.test_id) = test_id.
Proof.
  unfold rows_of, subtasks_of. rewrite list_elem_of_fmap. split.
  - intros ([id s'] & -> & [H1 H2]%elem_of_map_to_list%map_lookup_filter_Some). by exists id.
  - intros (id & Hs & Ht). exists (id, s). split; [done|].
    by apply elem_of_map_to_list, map_lookup_filter_Some.
Qed.

(** A subtask row belongs to one test, so what happens to it is invisible to the others. *)
Lemma subtasks_of_alter (f : Subtask.t → Subtask.t) id test_id d s :
  d.(subtasks) !! id = Some s → s.(Subtask.test_id) ≠ test_id →
  (f s).(Subtask.test_id) = s.(Subtask.test_id) →
  filter (λ kv, kv.2.(Subtask.test_id) = test_id) (alter f id d.(subtasks))
  = subtasks_of test_id d.
Proof.
  intros Hs Hne Hf. apply map_eq. intros k. unfold subtasks_of.
  apply option_eq. intros r. rewrite !map_lookup_filter_Some. cbn [snd].
  destruct (decide (k = id)) as [->|Hk].
  - rewrite lookup_alter_eq, Hs. simpl. split; intros [[= <-] ?]; congruence.
  - by rewrite lookup_alter_ne.
Qed.

(** ** What each function does when the database works *)

Context (Hr : reliable env).

Lemma run_mark_test_running id w :
  run (mark_test_running env id) w
  = (Ok tt, set_db (with_tests (alter (test_running (env.(clock) w.(steps))) id) w.(db)) w).
Proof. unfold mark_test_running. by rewrite run_call, sql_works. Qed.

Lemma run_mark_subtask_running id w :
  run (mark_subtask_running env id) w
  = (Ok tt, set_db (with_subtasks (alter (subtask_running (env.(clock) w.(steps))) id) w.(db)) w).
Proof. unfold mark_subtask_running. by rewrite run_call, sql_works. Qed.

Lemma run_mark_subtask_error id reason w :
  run (mark_subtask_error env id reason) w
  = (Ok tt, set_db (with_subtasks
       (alter (subtask_errored reason (env.(clock) w.(steps))) id) w.(db)) w).
Proof. unfold mark_subtask_error. by rewrite run_call, sql_works. Qed.

Definition reported (result : ResultStatus.t) (response : ProbeResponse.t) (at_ : DateTime)
    : Subtask.t → Subtask.t :=
  subtask_reported result (report_status_of response)
    (Stage.as_str response.(ProbeResponse.failed_stage))
    response.(ProbeResponse.error_summary) at_.

Lemma run_save_report id result response w :
  is_Some (w.(db).(subtasks) !! id) →
  run (save_report env id result response) w
  = (Ok tt, set_db
       (with_subtasks (alter (reported result response (env.(clock) w.(steps))) id)
         (with_reports <[id := report_row id response]> w.(db))) w).
Proof. intros [s Hs]. unfold save_report. by rewrite run_call, sql_works, Hs. Qed.

Definition all_done (test_id : Uuid) (d : Db) : bool :=
  negb (0 <? count outstanding (rows_of test_id d))%Z.

Lemma all_done_spec test_id d :
  all_done test_id d = true ↔
  ∀ id s, d.(subtasks) !! id = Some s → s.(Subtask.test_id) = test_id → outstanding s = false.
Proof.
  unfold all_done. rewrite negb_true_iff, count_zero, Forall_forall.
  setoid_rewrite elem_of_rows_of. naive_solver.
Qed.

(** What is to be said of a test once it is done: it failed if it has rows and all of them
    errored on our side, and the counts of the rows that passed and failed. *)
Definition conclusion (test_id : Uuid) (d : Db) : TaskStatus.t * Z * Z :=
  let rows := rows_of test_id d in
  (if decide (rows ≠ [] ∧ Forall (λ s, s.(Subtask.exec_status) = ExecStatus.Error) rows)
   then TaskStatus.Failed else TaskStatus.Finished,
   count is_passed rows, count is_failed rows).

Lemma count_all p rows :
  count p rows = Z.of_nat (length rows) ↔ Forall (λ s, p s = true) rows.
Proof.
  unfold count. rewrite Nat2Z.inj_iff. induction rows as [|s rows IH]; [done|].
  rewrite Forall_cons, <-IH. pose proof (length_filter (λ s, p s = true) rows).
  rewrite filter_cons. case_decide; simpl; split; try lia; try by intros [].
  intros; split; [done|lia].
Qed.

(** The counts of the query lead to that status. *)
Lemma closing_status_conclusion test_id d :
  closing_status (count is_errored (rows_of test_id d)) (Z.of_nat (length (rows_of test_id d)))
  = (conclusion test_id d).1.1.
Proof.
  unfold closing_status, conclusion. cbn [fst]. generalize (rows_of test_id d) as rows.
  intros rows. case_decide as Hd; destruct (_ && _) eqn:Hb; try done; exfalso.
  - apply andb_false_iff in Hb as [Hb%Z.eqb_neq|Hb%Z.ltb_ge].
    + apply Hb, count_all. eapply Forall_impl; [apply Hd|]. intros s. apply bool_decide_eq_true.
    + destruct rows; [by destruct Hd|simpl in Hb; lia].
  - apply andb_true_iff in Hb as [Hb%Z.eqb_eq Hl%Z.ltb_lt]. apply count_all in Hb.
    apply Hd. split; [by intros ->|]. eapply Forall_impl; [apply Hb|].
    intros s. apply bool_decide_eq_true.
Qed.

Lemma run_finish_test_if_done test_id w :
  run (finish_test_if_done env test_id) w
  = if all_done test_id w.(db) then
      let c := conclusion test_id w.(db) in
      (Ok (Some {| passed := c.1.2; failed := c.2 |}),
       set_db (with_tests (alter (test_closed c.1.1 (env.(clock) (S w.(steps)))) test_id) w.(db))
         (tick w))
    else (Ok None, tick w).
Proof.
  unfold finish_test_if_done, all_done. rewrite run_bind, run_call, sql_works by done.
  cbn [progress]. destruct (0 <? _)%Z; [done|]. cbn [negb].
  by rewrite run_bind, run_call, sql_works, closing_status_conclusion.
Qed.

End lemmas.
