(* ===== verification/Registry.v ===== *)
(** * Client side of the adapter contract ([services/worker/src/adapters.rs], [config.rs])

    The table of configured adapters, the capability cache and the two HTTP requests. What
    a handler that uses the registry relies on is that both are [Quiet] ([World]). *)

From S2P Require Import Prelude RustStr Json Proto Status Domain Effects World.

(** ** Configuration *)

(** The closure of [Config::adapter_map]: a [name=url] entry, trimmed. *)
Definition adapter_entry (entry : string) : option (string * string) :=
  '(name, url) ← split_once (String equals "") entry;
  let name := trim name in
  let url := trim_end_matches slash (trim url) in
  if negb (String.eqb name "") && negb (String.eqb url "") then Some (name, url) else None.

(** [Config::adapter_map]: collecting into the map, the last entry of a name wins. *)
Definition adapter_map (adapters : string) : gmap string string :=
  foldl (λ m '(name, url), <[name := url]> m) ∅ (omap adapter_entry (split_char comma adapters)).

(** ** The registry *)

Section registry.
Context {J : SerdeJson} (env : Env) (bases : gmap string string).

(** [bases.keys()]: a [BTreeMap] lists its keys in order. *)
Definition names : list string := merge_sort String.le (map fst (map_to_list bases)).

Definition is_configured (adapter : string) : bool :=
  match bases !! adapter with
  | Some _ => true
  | None => false
  end.

Definition not_configured (adapter : string) : string :=
  "adapter " +:+ adapter +:+ " is not configured".

Local Open Scope prog_scope.

Definition capabilities (adapter : string) : prog World Capabilities.t :=
  let! cached := call (cache_get adapter) in
  match cached with
  | Some caps => Ret caps
  | None =>
      match bases !! adapter with
      | None => Throw (not_configured adapter)
      | Some base =>
          let! caps := call (http_get env (base +:+ "/capabilities")) in
          call (cache_insert adapter caps);;;
          Ret caps
      end
  end.

(** The [match] of [probe] on what came back. *)
Definition response_of (adapter : string) (reply : PostReply) : ProbeResponse.t :=
  match reply with
  | Unreachable err =>
      ProbeResponse.failure adapter Stage.Tcp ("adapter unreachable: " +:+ err)
  | BadStatus status body =>
      ProbeResponse.failure adapter Stage.Tcp
        ("adapter returned " +:+ status +:+ ": " +:+ trim body)
  | Unreadable err =>
      ProbeResponse.failure adapter Stage.Tcp
        ("adapter sent an unreadable report: " +:+ err)
  | Report parsed => parsed
  end.

Definition probe (adapter : string) (request : ProbeRequest.t) : prog World ProbeResponse.t :=
  match bases !! adapter with
  | None => Ret (ProbeResponse.failure adapter Stage.Tcp (not_configured adapter))
  | Some base =>
      let! reply := call (http_post env (base +:+ "/probe") request) in
      Ret (response_of adapter reply)
  end.

End registry.

(** ** Lemmas *)

Section lemmas.
Context {J : SerdeJson} (env : Env) (bases : gmap string string).

Lemma adapter_entry_spec entry name url :
  adapter_entry entry = Some (name, url) ↔
  ∃ n u, split_once (String equals "") entry = Some (n, u) ∧
    name = trim n ∧ url = trim_end_matches slash (trim u) ∧ name ≠ "" ∧ url ≠ "".
Proof.
  unfold adapter_entry. destruct (split_once _ entry) as [[n u]|]; simpl; [|naive_solver].
  destruct (String.eqb_spec (trim n) ""), (String.eqb_spec (trim_end_matches slash (trim u)) "");
    simpl; split; try done; intros; destruct_ex_and; simplify_eq; try done.
  by eexists _, _.
Qed.

Lemma is_configured_spec adapter :
  is_configured bases adapter = true ↔ is_Some (bases !! adapter).
Proof. unfold is_configured. destruct (bases !! adapter); [by split; eauto|]. by split; [|intros []]. Qed.

Lemma elem_of_names adapter : adapter ∈ names bases ↔ is_Some (bases !! adapter).
Proof.
  unfold names. rewrite (merge_sort_Permutation String.le).
  rewrite list_elem_of_fmap. split.
  - intros ([a b] & -> & Hin%elem_of_map_to_list). simpl. eauto.
  - intros [b Hb]. exists (adapter, b). by rewrite elem_of_map_to_list.
Qed.

(** What the handlers may rely on: asking an adapter changes no table and publishes nothing. *)
#[export] Instance capabilities_quiet adapter : Quiet (capabilities env bases adapter).
Proof. unfold capabilities. apply _. Qed.

#[export] Instance probe_quiet adapter request : Quiet (probe env bases adapter request).
Proof. unfold probe. apply _. Qed.

Lemma run_probe adapter request w :
  run (probe env bases adapter request) w
  = match bases !! adapter with
    | None => (Ok (ProbeResponse.failure adapter Stage.Tcp (not_configured adapter)), w)
    | Some base =>
        (Ok (response_of adapter (env.(post_probe) w.(steps) (base +:+ "/probe") request)), tick w)
    end.
Proof. unfold probe. by destruct (bases !! adapter). Qed.

(** The last entry of the list with a given name. *)
Definition last_entry (entries : list (string * string)) (name : string) : option string :=
  snd <$> last (filter (λ e, e.1 = name) entries).

Lemma adapter_map_snoc entries name url (m : gmap string string) :
  foldl (λ m '(name, url), <[name := url]> m) m (entries ++ [(name, url)])
  = <[name := url]> (foldl (λ m '(name, url), <[name := url]> m) m entries).
Proof. by rewrite foldl_snoc. Qed.

Lemma collect_lookup entries name :
  foldl (λ m '(name, url), <[name := url]> m) (∅ : gmap string string) entries !! name
  = last_entry entries name.
Proof.
  unfold last_entry. induction entries as [|[n u] entries IH] using rev_ind; [done|].
  rewrite adapter_map_snoc, filter_app. destruct (decide (n = name)) as [->|Hne].
  - rewrite lookup_insert_eq, filter_cons_True, filter_nil by done. by rewrite last_snoc.
  - rewrite lookup_insert_ne, filter_cons_False, filter_nil, app_nil_r by done. done.
Qed.

Lemma trim_end_matches_slash s t :
  trim_end_matches slash s = s → s ≠ "" → str_forallb (Ascii.eqb slash) t = true →
  trim_end_matches slash (s +:+ t) = s.
Proof.
  intros Hs Hne Ht.
  assert (H0 : trim_end_matches slash t = "").
  { clear Hs. induction t as [|c t IH]; [done|]. cbn [str_forallb] in Ht.
    apply andb_true_iff in Ht as [Hc Ht]. cbn [trim_end_matches].
    by rewrite IH, Ascii.eqb_sym, Hc. }
  induction s as [|c s IH]; [done|]. rewrite app_cons. cbn [trim_end_matches] in *.
  destruct (String.eqb_spec s "") as [->|Hs'].
  - rewrite app_empty_l, H0. exact Hs.
  - assert (Htl : trim_end_matches slash s = s).
    { destruct (_ && _); [done|]. by injection Hs. }
    rewrite IH by done. apply String.eqb_neq in Hs'. rewrite Hs', andb_false_r. done.
Qed.

Lemma adapter_entries_read_back (entries : list (string * string)) :
  Forall (λ e, plain e.1 = true ∧ without comma e.1 = true ∧ without equals e.1 = true ∧
               e.1 ≠ "" ∧
               plain e.2 = true ∧ without comma e.2 = true ∧ trim_end_matches slash e.2 = e.2 ∧
               e.2 ≠ "") entries →
  omap adapter_entry
    (map (λ e, " " +:+ e.1 +:+ " " +:+ String equals (" " +:+ e.2 +:+ "/ ")) entries) = entries.
Proof.
  induction 1 as [|[n u] entries (Hn & _ & He & Hne & Hu & _ & Hs & Hue) _ IH]; [done|].
  cbn [map omap list_omap fst snd] in *. unfold without in He. rewrite IH.
  rewrite (proj2 (adapter_entry_spec _ n u)); [done|].
  exists (" " +:+ n +:+ " "), (" " +:+ (u +:+ "/") +:+ " "). split_and!; [| | |done|done].
  - set (r := " " +:+ u +:+ "/ ").
    assert (Hr : " " +:+ n +:+ " " +:+ String equals r
                 = (" " +:+ n +:+ " ") +:+ String equals "" +:+ r)
      by by rewrite !str_app_assoc.
    rewrite Hr, (split_once_skip (λ a, negb (Ascii.eqb a equals)));
      [|by rewrite !str_forallb_app, He|done].
    rewrite split_once_hit, app_empty_r. unfold r. by rewrite !str_app_assoc.
  - by rewrite trim_pad, trim_plain.
  - rewrite trim_pad by done. rewrite trim_plain.
    + by rewrite trim_end_matches_slash.
    + unfold plain in *. by rewrite str_forallb_app, Hu.
Qed.

(** ** Theorems *)

(** What [ADAPTERS] configures, written with any white space around the names and any
    white space and slashes after the URLs: each name maps to the URL of its last entry,
    and no other adapter is configured. *)
Theorem adapter_map_read_back (entries : list (string * string)) (name : string) :
  entries ≠ [] →
  Forall (λ e, plain e.1 = true ∧ without comma e.1 = true ∧ without equals e.1 = true ∧
               e.1 ≠ "" ∧
               plain e.2 = true ∧ without comma e.2 = true ∧ trim_end_matches slash e.2 = e.2 ∧
               e.2 ≠ "") entries →
  adapter_map (join (String comma "")
    (map (λ e, " " +:+ e.1 +:+ " " +:+ String equals (" " +:+ e.2 +:+ "/ ")) entries)) !! name
  = last_entry entries name.
Proof.
  intros Hne Hall. unfold adapter_map. rewrite split_char_join.
  - rewrite (adapter_entries_read_back entries) by done. apply collect_lookup.
  - by destruct entries.
  - apply Forall_map. eapply Forall_impl; [exact Hall|].
    intros [n u] (_ & Hn & _ & _ & _ & Hu & _). cbn [fst snd compose] in *. unfold without in *.
    rewrite !str_forallb_app, Hn. cbn [str_forallb]. by rewrite !str_forallb_app, Hu.
Qed.

(** A successful [capabilities] is remembered: asking the same adapter again gives the
    same answer without another request, whatever the environment has become. *)
Lemma capabilities_cached adapter w caps w' :
  run (capabilities env bases adapter) w = (Ok caps, w') →
  ∀ env', run (capabilities env' bases adapter) w' = (Ok caps, tick w').
Proof.
  unfold capabilities. intros Hrun env'. rewrite run_bind, run_call in *. cbn [cache_get] in *.
  destruct (cache w !! adapter) as [c|] eqn:Hc.
  - simplify_eq/=. by rewrite Hc.
  - destruct (bases !! adapter) as [base|]; [|done]. rewrite run_bind, run_call in Hrun.
    unfold http_get in Hrun. destruct (get_capabilities _ _ _) as [c|]; [|done].
    rewrite run_bind, run_call in Hrun. simplify_eq/=. by rewrite lookup_insert_eq.
Qed.

End lemmas.

Module RegistryWitness.
Import JsonModel.
#[local] Instance json : SerdeJson := model (λ _, Err "").

Lemma adapter_map_read_back_witness :
  adapter_map " openssl = http://a:9100/ , go = http://b:9100/ " !! "go" = Some "http://b:9100".
Proof.
  exact (adapter_map_read_back [("openssl", "http://a:9100"); ("go", "http://b:9100")] "go"
    ltac:(done) ltac:(repeat constructor; done)).
Defined.

Definition caps : Capabilities.t := {|
  Capabilities.adapter := "go"; Capabilities.version := "1";
  Capabilities.kem_groups := ["X25519"]; Capabilities.sig_algs := [];
  Capabilities.tls_versions := [] |}.

Definition env : Env := {|
  clock := λ n, Z.of_nat n; fresh_uuid := λ n k, N.of_nat (100 * n + k);
  next_serial := λ n, Z.of_nat n; row_order := λ _ l, l;
  fault := λ _, Works;
  get_capabilities := λ n _, if n =? 1 then Ok caps else Err "down";
  post_probe := λ _ _ _, Unreachable "down" |}.

Definition empty_world : World := {|
  db := {| endpoints := ∅; algorithms := ∅; tests := ∅; subtasks := ∅; subtask_reports := ∅; kem_runs := ∅; kem_run_logs := ∅;
           kem_matrix_cells := ∅;
    cavp_packs := ∅; cavp_sessions := ∅ |};
  streams := []; published := []; acked := []; cache := ∅; steps := 0 |}.

Lemma capabilities_cached_witness :
  let bases := {[ "go" := "http://b" ]} in
  let w := (run (capabilities env bases "go") empty_world).2 in
  run (capabilities env bases "go") w = (Ok caps, tick w).
Proof.
  cbv zeta.
  apply (capabilities_cached env {[ "go" := "http://b" ]} "go" empty_world caps).
  reflexivity.
Defined.

End RegistryWitness.
