(* ===== verification/Asking.v ===== *)
(** * Asking the adapters

    What a client of the registry can rely on beside others: neither request touches a table
    or a channel, and the cache the tasks of a worker share only ever learns what an adapter
    said of itself. *)

From S2P Require Import Prelude Json Proto Effects Rely World Registry.

Section asking.
Context {J : SerdeJson} (env : Env) (bases : gmap string string).

(** An adapter has described itself. *)
Definition described (adapter : string) (caps : Capabilities.t) : Prop :=
  ∃ n base, bases !! adapter = Some base ∧
    env.(get_capabilities) n (base +:+ "/capabilities") = Ok caps.

(** Asking an adapter: no table changes, the cache may learn something true. *)
Definition asks (w w' : World) : Prop :=
  same_tables w w' ∧ ∀ adapter caps, w'.(cache) !! adapter = Some caps →
    w.(cache) !! adapter = Some caps ∨ described adapter caps.

Lemma asks_tick w : asks w (tick w).
Proof. split; [done|]. by left. Qed.

Lemma wp_probe R adapter base request (Q : result string ProbeResponse.t → World → Prop) w :
  bases !! adapter = Some base →
  (∀ w1, R w w1 → Q (Ok (response_of adapter
     (env.(post_probe) w1.(steps) (base +:+ "/probe") request))) (tick w1)) →
  wp R (probe env bases adapter request) Q w.
Proof. intros Hb HQ. unfold probe. rewrite Hb. intros w1 Hw1. by apply HQ. Qed.

Lemma wp_capabilities R adapter base (I : World → Prop) w :
  bases !! adapter = Some base → stable R I → (∀ w w', asks w w' → I w → I w') → I w →
  wp R (capabilities env bases adapter) (λ r w', I w' ∧
    match r with
    | Ok caps => (∃ w0, I w0 ∧ w0.(cache) !! adapter = Some caps) ∨ described adapter caps
    | Err err => ∃ n, env.(get_capabilities) n (base +:+ "/capabilities") = Err err
    end) w.
Proof.
  intros Hb HR HI Hw. unfold capabilities. apply wp_bind, wp_call. intros w1 Hw1.
  apply (HR _ _ Hw1) in Hw. cbn [cache_get fst snd].
  assert (Hw1' : I (tick w1)) by (eapply HI; [apply asks_tick|done]).
  destruct (w1.(cache) !! adapter) as [caps|] eqn:Hc; [split; [done|]; left; by exists w1|].
  rewrite Hb. apply wp_bind, wp_call. intros w2 Hw2. apply (HR _ _ Hw2) in Hw1'.
  cbn [http_get fst snd]. destruct (env.(get_capabilities) _ _) as [caps|err] eqn:Hget.
  2:{ split; [|by eexists]. eapply HI; [apply asks_tick|done]. }
  assert (Hd : described adapter caps) by (exists (steps w2), base; done).
  apply wp_bind, wp_call. intros w3 Hw3. cbn [cache_insert fst snd].
  assert (Hw3' : I w3) by (apply (HR _ _ Hw3); eapply HI; [apply asks_tick|done]).
  split; [|by right]. eapply HI; [|exact Hw3']. split; [done|]. intros a c. cbn.
  destruct (decide (a = adapter)) as [->|Hne].
  - rewrite lookup_insert_eq. intros [= <-]. by right.
  - rewrite lookup_insert_ne by done. by left.
Qed.

Lemma capabilities_asks adapter : preserves asks (capabilities env bases adapter).
Proof.
  intros w. split; [apply asks_tick|]. cbn [cache_get fst of_result bind].
  destruct (w.(cache) !! adapter) as [caps|]; [done|].
  destruct (bases !! adapter) as [base|] eqn:Hb; [|done]. intros w1. cbn [http_get fst snd].
  split; [apply asks_tick|].
  destruct (env.(get_capabilities) _ _) as [caps|err] eqn:Hget; [|done].
  intros w2. split; [|done]. split; [done|]. intros a c. cbn.
  destruct (decide (a = adapter)) as [->|Hne].
  - rewrite lookup_insert_eq. intros [= <-]. right. by exists (steps w1), base.
  - rewrite lookup_insert_ne by done. by left.
Qed.

Lemma probe_asks adapter request : preserves asks (probe env bases adapter request).
Proof.
  unfold probe. destruct (bases !! adapter); [|done]. intros w. split; [apply asks_tick|done].
Qed.

End asking.
