(* ===== verification/Probe.v ===== *)
(** * One PQ-CAS subtask ([services/worker/src/probe.rs])

    Probe, classify, persist, publish. *)

From S2P Require Import Prelude RustStr Json Proto Status Domain Effects World Store Registry.

Section probe.
Context {J : SerdeJson} {RJ : ReportJson} {U : UuidDisplay}.
Context (env : Env) (bases : gmap string string).

Local Open Scope prog_scope.

Definition publish (job : ProbeJob.t) (exec_status : ExecStatus.t)
    (result_status : ResultStatus.t) : prog World unit :=
  call (redis_publish env (test_channel job.(ProbeJob.test_id))
    (Test_event (TestEvent.SubtaskUpdated job.(ProbeJob.subtask_id) exec_status result_status
                   job.(ProbeJob.group_name) job.(ProbeJob.sig_alg)))).

Definition finish (job : ProbeJob.t) : prog World unit :=
  let! done := finish_test_if_done env job.(ProbeJob.test_id) in
  match done with
  | Some p =>
      call (redis_publish env (test_channel job.(ProbeJob.test_id))
        (Test_event (TestEvent.TestFinished job.(ProbeJob.test_id)
                       (as_u32 p.(passed)) (as_u32 p.(failed)))))
  | None => Ret tt
  end.

(** The request of a subtask: its one pair, with raw capture. *)
Definition request_of (job : ProbeJob.t) : ProbeRequest.t := {|
  ProbeRequest.target := {|
    Target.host := job.(ProbeJob.host);
    Target.port := job.(ProbeJob.port);
    Target.sni := Some job.(ProbeJob.host);
    Target.http_path := Some job.(ProbeJob.http_path);
  |};
  ProbeRequest.kem_groups := [job.(ProbeJob.group_name)];
  ProbeRequest.sig_algs := [job.(ProbeJob.sig_alg)];
  ProbeRequest.tls_versions := ProbeRequest.default_tls_versions;
  ProbeRequest.cipher_suites := [];
  ProbeRequest.timeout_ms := job.(ProbeJob.timeout_ms);
  ProbeRequest.capture :=
    {| CaptureOptions.raw_records := true; CaptureOptions.keylog := false |};
|}.

Definition offered_of (job : ProbeJob.t) : list string :=
  [job.(ProbeJob.group_name); job.(ProbeJob.sig_alg)].

Definition raw_outcome (response : ProbeResponse.t) : ResultStatus.t :=
  if response.(ProbeResponse.handshake_success) then ResultStatus.Passed
  else ResultStatus.Failed.

Definition result_of (job : ProbeJob.t) (response : ProbeResponse.t)
    (caps : result string Capabilities.t) : ResultStatus.t :=
  match caps with
  | Ok caps => classify response (offered_of job) caps
  | Err _ => raw_outcome response
  end.

Definition not_enabled (job : ProbeJob.t) : string :=
  "adapter " +:+ job.(ProbeJob.adapter) +:+ " is not enabled in this deployment".

Definition handle (job : ProbeJob.t) : prog World unit :=
  mark_test_running env job.(ProbeJob.test_id);;;
  mark_subtask_running env job.(ProbeJob.subtask_id);;;
  if negb (is_configured bases job.(ProbeJob.adapter)) then
    mark_subtask_error env job.(ProbeJob.subtask_id) (not_enabled job);;;
    publish job ExecStatus.Error ResultStatus.Disabled;;;
    finish job
  else
    let! response := probe env bases job.(ProbeJob.adapter) (request_of job) in
    let! caps := attempt (capabilities env bases job.(ProbeJob.adapter)) in
    let result := result_of job response caps in
    save_report env job.(ProbeJob.subtask_id) result response;;;
    publish job ExecStatus.Finished result;;;
    finish job.

End probe.
