(* ===== verification/Exchange.v ===== *)
(** * A worker and an adapter over HTTP

    The two halves of the contract joined: the endpoints of an adapter image
    ([adapters/cli/src/server.rs]) read and write the JSON of [Wire], the client of the
    worker ([Registry]) writes and reads it, and what the worker gets is what the adapter
    made of the very request that was sent. What the [Json] extractor of [axum] answers to a
    body it cannot read, and the texts of the errors of [reqwest], are parameters. *)

From S2P Require Import Prelude RustStr Json Proto Status Domain Wire Backend BackendFacts Effects.
From S2P Require Import World Registry Probe.

(** The texts of the libraries' errors. *)
Class HttpTexts := {
  (** Status and body for a request whose body is not a [ProbeRequest]. *)
  extractor_rejection : string → Z * string;
  (** [StatusCode]'s [Display]; [reqwest::Error]'s for a body that cannot be decoded, and for
      a status that is an error. *)
  status_display : Z → string;
  undecodable : string → string;
  status_error : Z → string;
}.

Section exchange.
Context {J : SerdeJson} {T : JsonText} {HT : HttpTexts}.

(** ** [server.rs] *)

Section server.
Context (exec : ClientExec) (base64 : Base64) (elapsed : Z) (config : Config.t) (backend : Backend).

Definition healthz : Value := json_object [("status", json_string "ok")].

(** [POST /probe]: the extractor, the handler and what becomes of its two results. *)
Definition serve_probe (body : string) : Z * string :=
  match from_text body with
  | None => extractor_rejection body
  | Some request =>
      match Backend.probe exec base64 elapsed config backend request with
      | Ok response => (200%Z, to_text response)
      | Err (status, err) => (status, json_to_string (json_object [("error", json_string err)]))
      end
  end.

(** [GET /capabilities]. *)
Definition serve_capabilities : Z * string := (200%Z, to_text (Backend.capabilities config)).

End server.

(** ** [adapters.rs]: what came back *)

(** [StatusCode::is_success]. *)
Definition is_success (status : Z) : bool := bool_decide (200 ≤ status < 300)%Z.

Definition post_reply (reply : result string (Z * string)) : PostReply :=
  match reply with
  | Err err => Unreachable err
  | Ok (status, body) =>
      if negb (is_success status) then BadStatus (status_display status) body
      else
        match from_text body with
        | Some parsed => Report parsed
        | None => Unreadable (undecodable body)
        end
  end.

(** [send()], [error_for_status()] — 400 and above — and [json()]. *)
Definition get_reply (reply : result string (Z * string)) : result string Capabilities.t :=
  match reply with
  | Err err => Err err
  | Ok (status, body) =>
      if bool_decide (400 ≤ status < 600)%Z then Err (status_error status)
      else
        match from_text body with
        | Some caps => Ok caps
        | None => Err (undecodable body)
        end
  end.

End exchange.

(** ** What the adapter sends is in range *)

Section typed.
Context {J : SerdeJson}.

Lemma indices_typed l :
  (Z.of_nat (length l) ≤ u32_max)%Z →
  map HandshakeMessage.index l = map Z.of_nat (seq 0 (length l)) → typed l.
Proof.
  intros Hl Hi. cbn. apply Forall_forall. intros m Hm. cbn. unfold is_uint.
  assert (Hin : m.(HandshakeMessage.index) ∈ map Z.of_nat (seq 0 (length l))).
  { rewrite <-Hi. apply list_elem_of_fmap. by exists m. }
  apply list_elem_of_fmap in Hin as (k & -> & Hk%elem_of_seq). lia.
Qed.

(** A trace has at most two rows. *)
Lemma trace_short r : response_wf r → length r.(ProbeResponse.messages) ≤ 2.
Proof.
  intros [Hs Hf _ _ _ _ _ _].
  rewrite <-(length_map HandshakeMessage.kind).
  destruct (r.(ProbeResponse.handshake_success)).
  - destruct Hs as (_ & _ & ->); [done|]. cbn. lia.
  - destruct Hf as (_ & _ & Hk); [done|].
    rewrite !elem_of_cons, elem_of_nil in Hk. destruct Hk as [->|[->|[->|[]]]]; cbn; lia.
Qed.

Lemma wf_typed r : response_wf r → typed r.
Proof.
  intros Hr. pose proof (trace_short r Hr) as Hl. destruct Hr as [_ _ _ Hi Hh Hs Hre Hd].
  cbn -[u64_range] in *. unfold u64_range, is_uint in *. split_and!; try lia.
  - apply indices_typed; [lia|done].
  - destruct (r.(ProbeResponse.http)) as [h|]; [|done]. cbn. unfold is_uint. specialize (Hh h eq_refl). lia.
Qed.

Lemma run_typed exec base64 elapsed config backend request :
  typed (Backend.run exec base64 elapsed config backend request).
Proof. apply wf_typed, run_wf. Qed.

Lemma request_of_typed (job : ProbeJob.t) : is_uint u16_max job.(ProbeJob.port) →
  is_uint u64_max job.(ProbeJob.timeout_ms) → typed (request_of job).
Proof. by split. Qed.

End typed.

(** ** The two halves joined *)

Section joined.
Context {J : SerdeJson} {JL : SerdeJsonLaws} {T : JsonText} {TL : JsonTextLaws} {HT : HttpTexts}.

(** What a request with a target gets, and one without. *)
Lemma post_served exec base64 elapsed config backend (request : ProbeRequest.t) :
  typed request →
  post_reply (Ok (serve_probe exec base64 elapsed config backend (to_text request)))
  = if String.eqb (trim request.(ProbeRequest.target).(Target.host)) ""
    then BadStatus (status_display 400)
           (json_to_string (json_object [("error", json_string "target host is required")]))
    else Report (Backend.run exec base64 elapsed config backend request).
Proof.
  intros Ht. unfold serve_probe. rewrite text_round_trip by done. unfold Backend.probe.
  destruct (String.eqb _ ""); [done|]. unfold post_reply.
  change (is_success 200) with true. cbn [negb].
  by rewrite text_round_trip by apply run_typed.
Qed.

Lemma get_served config :
  get_reply (Ok (serve_capabilities config)) = Ok (Backend.capabilities config).
Proof. unfold get_reply, serve_capabilities. cbn. by rewrite text_round_trip. Qed.

(** The adapter of a base URL is the image of [config] and [backend]; what its client binary
    does and how long it takes may be anything, every time. *)
Record served (env : Env) (base : string) (exec : nat → ClientExec) (base64 : Base64)
    (elapsed : nat → Z) (config : Config.t) (backend : Backend) : Prop := {
  served_probe n request :
    env.(post_probe) n (base +:+ "/probe") request
    = post_reply (Ok (serve_probe (exec n) base64 (elapsed n) config backend (to_text request)));
  served_capabilities n :
    env.(get_capabilities) n (base +:+ "/capabilities") = get_reply (Ok (serve_capabilities config));
}.

Context (env : Env) (bases : gmap string string).

(** C19. A worker that probes an adapter image gets, through JSON both ways, exactly the
    response the image's [backend::run] makes of the request that was built, whatever the
    client binary did; a request without a host comes back as a failed probe that quotes the
    adapter's complaint; and the capabilities it caches are the ones the image was
    configured with. *)
Theorem adapter_exchange adapter base exec base64 elapsed config backend
    (request : ProbeRequest.t) w :
  bases !! adapter = Some base → served env base exec base64 elapsed config backend →
  typed request →
  run (Registry.probe env bases adapter request) w
  = (Ok (if String.eqb (trim request.(ProbeRequest.target).(Target.host)) ""
         then response_of adapter (BadStatus (status_display 400)
                (json_to_string (json_object [("error", json_string "target host is required")])))
         else Backend.run (exec w.(steps)) base64 (elapsed w.(steps)) config backend request),
     tick w) ∧
  (w.(cache) !! adapter = None →
   run (Registry.capabilities env bases adapter) w
   = (Ok (Backend.capabilities config),
      set_cache (<[adapter := Backend.capabilities config]> w.(cache)) (tick (tick w)))).
Proof.
  intros Hb [Hp Hc] Ht. split.
  - rewrite run_probe, Hb, Hp, (post_served _ _ _ _ _ _ Ht). by destruct (String.eqb _ "").
  - intros Hnone. unfold Registry.capabilities. rewrite run_bind, run_call. cbn [cache_get fst snd].
    rewrite Hnone, Hb, run_bind, run_call. unfold http_get. cbn [fst snd].
    rewrite Hc, get_served, run_bind, run_call. done.
Qed.

End joined.

Module ExchangeWitness.
Import JsonModel WireModel.

#[export] Instance texts : HttpTexts := {|
  extractor_rejection _ := (422%Z, "Failed to deserialize the JSON body");
  status_display := show; undecodable _ := "error decoding response body";
  status_error s := "HTTP status error (" +:+ show s +:+ ")" |}.

(** A mock image that supports two groups, and a world in which it is the one adapter. *)
Definition config : Config.t := {|
  Config.bind := "0.0.0.0:9100"; Config.backend := "mock"; Config.client_bin := "";
  Config.name := Some "mock"; Config.version := "1"; Config.kem_groups := "MLKEM768, X25519";
  Config.sig_algs := "ed25519"; Config.workdir := None |}.

Definition exec : ClientExec := λ _ _ _ _ _, SpawnFailed "no such file".
Definition elapsed (n : nat) : Z := Z.of_nat n.
Definition base64 : Base64 := λ s, s.

Definition env : Env := {|
  clock := λ n, Z.of_nat n; fresh_uuid := λ n k, N.of_nat (100 * n + k);
  next_serial := λ n, Z.of_nat n; row_order := λ _ l, l; fault := λ _, Works;
  get_capabilities := λ _ _, get_reply (Ok (serve_capabilities config));
  post_probe := λ n _ request,
    post_reply (Ok (serve_probe exec base64 (elapsed n) config Mock (to_text request))) |}.

Definition world : World := {|
  db := {| endpoints := ∅; algorithms := ∅; tests := ∅; subtasks := ∅; subtask_reports := ∅;
           kem_runs := ∅; kem_run_logs := ∅; kem_matrix_cells := ∅; cavp_packs := ∅;
           cavp_sessions := ∅ |};
  streams := []; published := []; acked := []; cache := ∅; steps := 3 |}.

Lemma mock_served base : served env base (λ _, exec) base64 elapsed config Mock.
Proof. by split. Qed.

Lemma adapter_exchange_witness :
  run (Registry.probe env {[ "mock" := "http://mock:9100" ]} "mock" (request_of job)) world
  = (Ok (Backend.run exec base64 3 config Mock (request_of job)), tick world).
Proof.
  destruct (adapter_exchange env {[ "mock" := "http://mock:9100" ]} "mock" "http://mock:9100"
    (λ _, exec) base64 elapsed config Mock (request_of job) world) as [H _].
  - reflexivity.
  - apply mock_served.
  - apply request_of_typed; unfold is_uint; cbn; lia.
  - exact H.
Defined.

End ExchangeWitness.
