(* ===== verification/GoAdapter.v ===== *)
(** * The Go adapter ([adapters/go/main.go])

    A second implementation of the adapter contract, which mirrors the structs of
    [adapter-proto] by hand. A slice that may be nil is an [option]; a range over a map visits
    its entries in an order that is an argument. The network, [crypto/tls] and the clock are
    what the peer does; [encoding/json] is a class. *)

From S2P Require Import Prelude RustStr Json Proto Status Domain Wire Backend BackendFacts Effects.
From S2P Require Import World Registry Probe Exchange.

(** [encoding/json] on text, and what it makes of bytes that are not UTF-8. *)
Class GoJson `{SerdeJson} := {
  go_utf8 : string → string;
  go_encode : Value → string;
  go_decode : string → result string Value;
  (** The text of the error for a value of the wrong type. *)
  go_type_error : Value → string;
}.

Class GoJsonLaws `{J : SerdeJson, !GoJson, !JsonText} : Prop := {
  go_reads_rust v : go_decode (json_to_string v) = Ok v;
  rust_reads_go v : json_from_str (go_encode v) = Ok v;
}.

(** Names [crypto/tls] gives to numbers. *)
Class CryptoTls := {
  CipherSuiteName : Z → string;
  CurveID_String : Z → string;
}.

(** ** The structs *)

Notation slice A := (option (list A)) (only parsing).

Module GoTarget.
Record t := { Host : string; Port : Z; SNI : string; HTTPPath : string }.
End GoTarget.

Module GoRequest.
Record t := {
  Target : GoTarget.t;
  KEMGroups : slice string;
  SigAlgs : slice string;
  TLSVersions : slice string;
  CipherSuites : slice string;
  TimeoutMS : Z;
  RawRecords : bool;
  Keylog : bool;
}.
End GoRequest.

Module GoField.
Record t := { Label : string; Values : slice string }.
End GoField.

Module GoMessage.
Record t := { Index : Z; Direction : string; Kind : string; Fields : list GoField.t }.
End GoMessage.

Module GoCertificate.
Record t := {
  Subject : string; Issuer : string; NotBefore : option string; NotAfter : option string;
  SignatureAlgorithm : option string; PublicKeyAlgorithm : option string;
}.
End GoCertificate.

Module GoHttp.
Record t := { Status : Z; Headers : list GoField.t; BodyExcerpt : option string }.
End GoHttp.

Module GoResponse.
Record t `{SerdeJson} := {
  Adapter : string;
  HandshakeSuccess : bool;
  TLSVersion : option string;
  CipherSuite : option string;
  Group : option string;
  Messages : list GoMessage.t;
  Alert : option (string * string);
  CertChain : list GoCertificate.t;
  HTTP : option GoHttp.t;
  FailedStage : string;
  ErrorSummary : option string;
  Diagnostics : Value;
  BytesSent : Z;
  BytesReceived : Z;
  UDSDumpB64 : option string;
  DurationMS : Z;
}.
End GoResponse.

Definition elems {A} (s : slice A) : list A := unwrap_or [] s.

(** ** Groups *)

Definition X25519 : Z := 29.
Definition CurveP256 : Z := 23.
Definition CurveP384 : Z := 24.
Definition CurveP521 : Z := 25.
Definition X25519MLKEM768 : Z := 4588.

Definition groupByName : list (string * Z) := [
  ("x25519", X25519); ("X25519", X25519); ("P-256", CurveP256); ("secp256r1", CurveP256);
  ("P-384", CurveP384); ("secp384r1", CurveP384); ("P-521", CurveP521);
  ("secp521r1", CurveP521); ("X25519MLKEM768", X25519MLKEM768);
  ("x25519MLKEM768", X25519MLKEM768)].

Definition lookup_group (name : string) : option Z := assoc_last name groupByName.

(** The first name the range meets of each curve. *)
Fixpoint first_names (seen : list Z) (order : list (string * Z)) : list string :=
  match order with
  | [] => []
  | (name, id) :: order =>
      if bool_decide (id ∈ seen) then first_names seen order
      else name :: first_names (id :: seen) order
  end.

Definition supportedGroups (order : list (string * Z)) : list string :=
  merge_sort String.le (first_names [] order).

Definition supportedSigAlgs : list string := [
  "ecdsa_secp256r1_sha256"; "ecdsa_secp384r1_sha384"; "ecdsa_secp521r1_sha512"; "ed25519";
  "rsa_pss_rsae_sha256"; "rsa_pss_rsae_sha384"; "rsa_pss_rsae_sha512"; "rsa_pkcs1_sha256";
  "rsa_pkcs1_sha384"; "rsa_pkcs1_sha512"].

(** [name == strings.ToUpper(name[:1])+name[1:]]; the names are ASCII. *)
Definition starts_upper (name : string) : bool :=
  match name with
  | "" => true
  | String c _ => negb ((97 <=? byte c) && (byte c <=? 122))%Z
  end.

(** Each call ranges over the map at most twice. *)
Definition groupName `{CryptoTls} (first_range second_range : list (string * Z)) (id : Z) : string :=
  match find_first (λ e, (e.2 =? id)%Z && starts_upper e.1) first_range with
  | Some e => e.1
  | None =>
      match find_first (λ e, (e.2 =? id)%Z) second_range with
      | Some e => e.1
      | None => CurveID_String id
      end
  end.

(** ** Versions and alerts *)

Definition hex_digit (z : Z) : string :=
  String (Ascii.ascii_of_N (Z.to_N (if (z <? 10)%Z then 48 + z else 87 + z)%Z)) "".

(** [%04x] of a [uint16]. *)
Definition hex4 (v : Z) : string :=
  hex_digit (Z.shiftr v 12) +:+ hex_digit (Z.land (Z.shiftr v 8) 15)
  +:+ hex_digit (Z.land (Z.shiftr v 4) 15) +:+ hex_digit (Z.land v 15).

Definition versionName (v : Z) : string :=
  if (v =? 772)%Z then "TLSv1.3"
  else if (v =? 771)%Z then "TLSv1.2"
  else if (v =? 770)%Z then "TLSv1.1"
  else if (v =? 769)%Z then "TLSv1.0"
  else "0x" +:+ hex4 v.

(** [strings.ToLower] on the message of an error, as far as ASCII goes. *)
Definition alertFromError (err : string) : option (string * string) :=
  let msg := to_ascii_lowercase err in
  if contains "handshake failure" msg then Some ("fatal", "handshake_failure")
  else if contains "bad record mac" msg || contains "decryption failed" msg
  then Some ("fatal", "bad_record_mac")
  else if contains "protocol version" msg then Some ("fatal", "protocol_version")
  else if contains "illegal parameter" msg then Some ("fatal", "illegal_parameter")
  else if contains "unknown certificate authority" msg || contains "unknown ca" msg
  then Some ("fatal", "unknown_ca")
  else None.

Definition go_field (label : string) (values : list string) : GoField.t :=
  {| GoField.Label := label; GoField.Values := Some values |}.

Definition clientHello (req : GoRequest.t) : GoMessage.t :=
  let versions :=
    match elems req.(GoRequest.TLSVersions) with
    | [] => Some ["TLSv1.3"; "TLSv1.2"]
    | _ => req.(GoRequest.TLSVersions)
    end in
  {| GoMessage.Index := 0; GoMessage.Direction := "outbound"; GoMessage.Kind := "ClientHello";
     GoMessage.Fields := [
       {| GoField.Label := "Offered Groups"; GoField.Values := req.(GoRequest.KEMGroups) |};
       {| GoField.Label := "Signature Algorithms"; GoField.Values := req.(GoRequest.SigAlgs) |};
       {| GoField.Label := "Supported Versions"; GoField.Values := versions |};
       go_field "Cipher Suites Offered"
         ["TLS_AES_128_GCM_SHA256"; "TLS_AES_256_GCM_SHA384"; "TLS_CHACHA20_POLY1305_SHA256"]] |}.

(** ** The HTTP exchange *)

(** [strings.Split(head, crlf)]. *)
Fixpoint split_crlf (s : string) : list string :=
  match s with
  | "" => [""]
  | String c r =>
      let next :=
        match split_crlf r with
        | piece :: pieces => String c piece :: pieces
        | [] => [String c ""]
        end in
      match r with
      | String d r' => if ((byte c =? 13) && (byte d =? 10))%Z then "" :: split_crlf r' else next
      | "" => next
      end
  end.

(** The digits at the front of a string, as a number. *)
Fixpoint leading_digits (acc : option Z) (s : string) : option Z :=
  match s with
  | "" => acc
  | String c r =>
      match digit_of c with
      | Some d => leading_digits (Some (unwrap_or 0 acc * 10 + d)%Z) r
      | None => acc
      end
  end.

(** [fmt.Sscanf(s, "%d", &status)] on a token: what is stored, 0 if it is not a number of an
    [int]. *)
Definition sscanf_d (s : string) : Z :=
  let signed sign digits :=
    match leading_digits None digits with
    | Some n => if bool_decide (is_i64 (sign * n)%Z) then (sign * n)%Z else 0%Z
    | None => 0%Z
    end in
  match s with
  | String c r =>
      if (byte c =? 45)%Z then signed (-1)%Z r
      else if (byte c =? 43)%Z then signed 1%Z r
      else signed 1%Z s
  | "" => 0%Z
  end.

Definition header_field (line : string) : option GoField.t :=
  '(name, value) ← split_once ":" line;
  Some (go_field (trim name) [trim value]).

(** What the peer of a probe does. *)
Record ConnectionState := {
  Version : Z;
  Suite : Z;
  CurveID : Z;
  PeerCertificates : list GoCertificate.t;
}.

Record Peer := {
  (** [net.Dialer.Dial] on the address, with a time limit in nanoseconds. *)
  dial : string → Z → result string unit;
  (** [tls.Conn.Handshake] for a server name and a list of curves, within the limit. *)
  handshake : string → list Z → Z → result string ConnectionState;
  (** The bytes written and read when the handshake failed, and at the end. *)
  counted_early : Z * Z;
  counted : Z * Z;
  conn_write : string → result string unit;
  (** [io.ReadAll] of at most 64 KiB: the bytes, and the error if there was one. *)
  read_all : string * option string;
  (** [time.Since(started).Milliseconds()]. *)
  since : Z;
}.

Section probe.
Context {J : SerdeJson} {G : GoJson} {CT : CryptoTls}.
Context (b64 : string → string) (first_range second_range : list (string * Z)).

Definition crlf2 : string := crlf +:+ crlf.

Definition doHTTP (peer : Peer) (req : GoRequest.t) (sni : string)
    : result string (GoHttp.t * string) :=
  let path := req.(GoRequest.Target).(GoTarget.HTTPPath) in
  let path := if String.eqb path "" then "/" else path in
  match peer.(conn_write) ("GET " +:+ path +:+ " HTTP/1.1" +:+ crlf +:+ "Host: " +:+ sni +:+ crlf
                           +:+ "User-Agent: pqcas-probe" +:+ crlf +:+ "Connection: close" +:+ crlf
                           +:+ "Accept: */*" +:+ crlf +:+ crlf) with
  | Err err => Err err
  | Ok _ =>
      let raw := peer.(read_all).1 in
      match peer.(read_all).2, raw with
      | Some err, "" => Err err
      | _, _ =>
          let '(head, body) := unwrap_or (raw, "") (split_once crlf2 raw) in
          match split_crlf head with
          | [] => Err "no HTTP response"
          | first_line :: rest =>
              if negb (starts_with "HTTP/" first_line) then Err "no HTTP response"
              else
                let status := from_option sscanf_d 0%Z (split_whitespace first_line !! 1) in
                let trimmed := trim body in
                Ok ({| GoHttp.Status := status; GoHttp.Headers := omap header_field rest;
                       GoHttp.BodyExcerpt :=
                         if String.eqb trimmed "" then None
                         else Some (String.substring 0 512 trimmed) |}, raw)
          end
      end
  end.

(** ** [probe] *)

Definition known_curves (names : list string) : list Z := omap lookup_group names.

Definition unknown_groups (names : list string) : list string :=
  filter (λ name, lookup_group name = None) names.

(** [net.JoinHostPort]. *)
Definition join_host_port (host port : string) : string :=
  if contains ":" host then "[" +:+ host +:+ "]:" +:+ port else host +:+ ":" +:+ port.

(** [time.Duration(ms) * time.Millisecond], which wraps; 15 seconds unless it is positive. *)
Definition probe_limit (ms : Z) : Z :=
  let timeout := as_i64 (ms * 1000000) in
  if (timeout <=? 0)%Z then 15000000000%Z else timeout.

Definition values_value (s : slice string) : Value :=
  match s with
  | Some l => json_array (map (λ v, json_string (go_utf8 v)) l)
  | None => json_null
  end.

(** The members of a Go map are written in the order of their names. *)
Definition go_diagnostics (req : GoRequest.t) : Value :=
  json_object
    [("note", json_string ("crypto/tls does not expose signature_algorithms selection; groups are pinned, "
        +:+ "signature algorithms are advisory"));
     ("offeredGroups", values_value req.(GoRequest.KEMGroups));
     ("offeredSigAlgs", values_value req.(GoRequest.SigAlgs))].

(** The response [resp] as it is first made. *)
Definition resp_init (req : GoRequest.t) (adapterName : string) (since : Z) : GoResponse.t := {|
  GoResponse.Adapter := adapterName; GoResponse.HandshakeSuccess := false;
  GoResponse.TLSVersion := None; GoResponse.CipherSuite := None; GoResponse.Group := None;
  GoResponse.Messages := [clientHello req]; GoResponse.Alert := None; GoResponse.CertChain := [];
  GoResponse.HTTP := None; GoResponse.FailedStage := "tls_handshake";
  GoResponse.ErrorSummary := None; GoResponse.Diagnostics := go_diagnostics req;
  GoResponse.BytesSent := 0; GoResponse.BytesReceived := 0; GoResponse.UDSDumpB64 := None;
  GoResponse.DurationMS := as_u64 since |}.

(** The early returns. *)
Definition resp_failed (r : GoResponse.t) (stage err : string) (alert : option (string * string))
    (counts : Z * Z) : GoResponse.t := {|
  GoResponse.Adapter := r.(GoResponse.Adapter);
  GoResponse.HandshakeSuccess := r.(GoResponse.HandshakeSuccess);
  GoResponse.TLSVersion := r.(GoResponse.TLSVersion);
  GoResponse.CipherSuite := r.(GoResponse.CipherSuite); GoResponse.Group := r.(GoResponse.Group);
  GoResponse.Messages := r.(GoResponse.Messages) ++
    match alert with
    | Some (level, description) =>
        [{| GoMessage.Index := 1; GoMessage.Direction := "inbound"; GoMessage.Kind := "Alert";
            GoMessage.Fields := [go_field "Level" [level]; go_field "Description" [description]] |}]
    | None => []
    end;
  GoResponse.Alert := alert; GoResponse.CertChain := r.(GoResponse.CertChain);
  GoResponse.HTTP := r.(GoResponse.HTTP); GoResponse.FailedStage := stage;
  GoResponse.ErrorSummary := Some err; GoResponse.Diagnostics := r.(GoResponse.Diagnostics);
  GoResponse.BytesSent := counts.1; GoResponse.BytesReceived := counts.2;
  GoResponse.UDSDumpB64 := r.(GoResponse.UDSDumpB64);
  GoResponse.DurationMS := r.(GoResponse.DurationMS) |}.

(** After the handshake. *)
Definition resp_connected (r : GoResponse.t) (peer : Peer) (req : GoRequest.t) (sni : string)
    (state : ConnectionState) : GoResponse.t :=
  let version := versionName state.(Version) in
  let suite := CipherSuiteName state.(Suite) in
  let group := groupName first_range second_range state.(CurveID) in
  let outcome := doHTTP peer req sni in
  {| GoResponse.Adapter := r.(GoResponse.Adapter); GoResponse.HandshakeSuccess := true;
     GoResponse.TLSVersion := Some version; GoResponse.CipherSuite := Some suite;
     GoResponse.Group := Some group;
     GoResponse.Messages := r.(GoResponse.Messages) ++
       [{| GoMessage.Index := 1; GoMessage.Direction := "inbound"; GoMessage.Kind := "ServerHello";
           GoMessage.Fields := [go_field "Version" [version]; go_field "Cipher Suite" [suite];
                                go_field "Key Exchange Group" [group]] |}];
     GoResponse.Alert := None; GoResponse.CertChain := state.(PeerCertificates);
     GoResponse.HTTP := match outcome with Ok (http, _) => Some http | Err _ => None end;
     GoResponse.FailedStage := match outcome with Ok _ => "complete" | Err _ => "http_request" end;
     GoResponse.ErrorSummary := match outcome with Ok _ => None | Err err => Some err end;
     GoResponse.Diagnostics := r.(GoResponse.Diagnostics);
     GoResponse.BytesSent := peer.(counted).1; GoResponse.BytesReceived := peer.(counted).2;
     GoResponse.UDSDumpB64 :=
       match outcome with
       | Ok (_, raw) => if req.(GoRequest.RawRecords) then Some (b64 raw) else None
       | Err _ => None
       end;
     GoResponse.DurationMS := r.(GoResponse.DurationMS) |}.

(** From the dialing on. *)
Definition go_connect (peer : Peer) (req : GoRequest.t) (resp : GoResponse.t) (curves : list Z)
    : GoResponse.t :=
  let timeout := probe_limit req.(GoRequest.TimeoutMS) in
  let target := req.(GoRequest.Target) in
  let sni := if String.eqb target.(GoTarget.SNI) "" then target.(GoTarget.Host)
             else target.(GoTarget.SNI) in
  match peer.(dial) (join_host_port target.(GoTarget.Host) (show target.(GoTarget.Port))) timeout with
  | Err err => resp_failed resp "tcp" err None (0, 0)%Z
  | Ok _ =>
      match peer.(handshake) sni curves timeout with
      | Err err => resp_failed resp "tls_handshake" err (alertFromError err) peer.(counted_early)
      | Ok state => resp_connected resp peer req sni state
      end
  end.

Definition go_probe (peer : Peer) (req : GoRequest.t) (adapterName : string) : GoResponse.t :=
  let resp := resp_init req adapterName peer.(since) in
  let groups := elems req.(GoRequest.KEMGroups) in
  let curves := known_curves groups in
  if (length curves =? 0) && negb (length groups =? 0) then
    resp_failed resp "tls_handshake"
      ("crypto/tls does not implement: " +:+ join ", " (unknown_groups groups)) None (0, 0)%Z
  else go_connect peer req resp curves.

(** ** The JSON of the structs *)

Definition go_string (s : string) : Value := json_string (go_utf8 s).

(** A pointer with [omitempty]. *)
Definition go_ptr (k : string) (o : option string) : list (string * Value) :=
  skip_none go_string k o.

Definition go_field_value (f : GoField.t) : Value :=
  json_object [("label", go_string f.(GoField.Label)); ("values", values_value f.(GoField.Values))].

Definition go_message_value (m : GoMessage.t) : Value :=
  json_object
    [("index", json_int m.(GoMessage.Index)); ("direction", go_string m.(GoMessage.Direction));
     ("kind", go_string m.(GoMessage.Kind));
     ("fields", json_array (map go_field_value m.(GoMessage.Fields)))].

Definition go_alert_value (a : string * string) : Value :=
  json_object [("level", go_string a.1); ("description", go_string a.2)].

Definition go_certificate_value (c : GoCertificate.t) : Value :=
  json_object (
    [("subject", go_string c.(GoCertificate.Subject)); ("issuer", go_string c.(GoCertificate.Issuer))]
    ++ go_ptr "not_before" c.(GoCertificate.NotBefore)
    ++ go_ptr "not_after" c.(GoCertificate.NotAfter)
    ++ go_ptr "signature_algorithm" c.(GoCertificate.SignatureAlgorithm)
    ++ go_ptr "public_key_algorithm" c.(GoCertificate.PublicKeyAlgorithm)).

Definition go_http_value (h : GoHttp.t) : Value :=
  json_object (
    [("status", json_int h.(GoHttp.Status));
     ("headers", json_array (map go_field_value h.(GoHttp.Headers)))]
    ++ go_ptr "body_excerpt" h.(GoHttp.BodyExcerpt)).

(** [CertVerifySigAl] is never set. *)
Definition go_response_value (r : GoResponse.t) : Value :=
  json_object (
    [("adapter", go_string r.(GoResponse.Adapter));
     ("handshake_success", json_bool r.(GoResponse.HandshakeSuccess));
     ("negotiated", json_object (
        go_ptr "tls_version" r.(GoResponse.TLSVersion)
        ++ go_ptr "cipher_suite" r.(GoResponse.CipherSuite)
        ++ go_ptr "group" r.(GoResponse.Group)));
     ("messages", json_array (map go_message_value r.(GoResponse.Messages)))]
    ++ skip_none go_alert_value "alert" r.(GoResponse.Alert)
    ++ [("cert_chain", json_array (map go_certificate_value r.(GoResponse.CertChain)))]
    ++ skip_none go_http_value "http" r.(GoResponse.HTTP)
    ++ [("failed_stage", go_string r.(GoResponse.FailedStage))]
    ++ go_ptr "error_summary" r.(GoResponse.ErrorSummary)
    ++ [("diagnostics", r.(GoResponse.Diagnostics));
        ("evidence", json_object (
           [("bytes_sent", json_int r.(GoResponse.BytesSent));
            ("bytes_received", json_int r.(GoResponse.BytesReceived))]
           ++ go_ptr "uds_dump_b64" r.(GoResponse.UDSDumpB64)));
        ("duration_ms", json_int r.(GoResponse.DurationMS))]).

(** Decoding: a member that is missing or null leaves the zero value. *)
Definition go_member {A} (zero : A) (d : Value → option A) (k : string) (m : JsonMap) : option A :=
  match map_get k m with
  | None => Some zero
  | Some v => match as_null v with Some _ => Some zero | None => d v end
  end.

Definition go_elem (v : Value) : option string :=
  match as_null v with
  | Some _ => Some ""
  | None => as_str v
  end.

Definition go_slice (v : Value) : option (slice string) :=
  l ← as_array v; Some <$> mapM go_elem l.

Definition zero_target : GoTarget.t :=
  {| GoTarget.Host := ""; GoTarget.Port := 0; GoTarget.SNI := ""; GoTarget.HTTPPath := "" |}.

Definition go_target : Value → option GoTarget.t := struct (λ m,
  host ← go_member "" as_str "host" m;
  port ← go_member 0%Z as_i64_val "port" m;
  sni ← go_member "" as_str "sni" m;
  http_path ← go_member "" as_str "http_path" m;
  Some {| GoTarget.Host := host; GoTarget.Port := port; GoTarget.SNI := sni;
          GoTarget.HTTPPath := http_path |}).

Definition go_capture : Value → option (bool * bool) := struct (λ m,
  raw_records ← go_member false as_bool "raw_records" m;
  keylog ← go_member false as_bool "keylog" m;
  Some (raw_records, keylog)).

Definition zero_request : GoRequest.t := {|
  GoRequest.Target := zero_target; GoRequest.KEMGroups := None; GoRequest.SigAlgs := None;
  GoRequest.TLSVersions := None; GoRequest.CipherSuites := None; GoRequest.TimeoutMS := 0;
  GoRequest.RawRecords := false; GoRequest.Keylog := false |}.

Definition go_request (v : Value) : option GoRequest.t :=
  match as_null v with
  | Some _ => Some zero_request
  | None =>
      struct (λ m,
        target ← go_member zero_target go_target "target" m;
        kem_groups ← go_member None go_slice "kem_groups" m;
        sig_algs ← go_member None go_slice "sig_algs" m;
        tls_versions ← go_member None go_slice "tls_versions" m;
        cipher_suites ← go_member None go_slice "cipher_suites" m;
        timeout_ms ← go_member 0%Z as_i64_val "timeout_ms" m;
        capture ← go_member (false, false) go_capture "capture" m;
        Some {| GoRequest.Target := target; GoRequest.KEMGroups := kem_groups;
                GoRequest.SigAlgs := sig_algs; GoRequest.TLSVersions := tls_versions;
                GoRequest.CipherSuites := cipher_suites; GoRequest.TimeoutMS := timeout_ms;
                GoRequest.RawRecords := capture.1; GoRequest.Keylog := capture.2 |}) v
  end.

(** ** The server *)

Definition go_error (err : string) : string := go_encode (json_object [("error", go_string err)]).

Definition go_serve_probe (peer : Peer) (adapterName method body : string) : Z * string :=
  if negb (String.eqb method "POST") then (405%Z, go_error "POST only")
  else
    match go_decode body with
    | Err err => (400%Z, go_error err)
    | Ok v =>
        match go_request v with
        | None => (400%Z, go_error (go_type_error v))
        | Some req =>
            if String.eqb (trim req.(GoRequest.Target).(GoTarget.Host)) ""
            then (400%Z, go_error "target host is required")
            else (200%Z, go_encode (go_response_value (go_probe peer req adapterName)))
        end
    end.

Definition go_serve_capabilities (order : list (string * Z)) (adapterName version : string)
    : Z * string :=
  (200%Z, go_encode (json_object
    [("adapter", go_string adapterName); ("version", go_string version);
     ("kem_groups", values_value (Some (supportedGroups order)));
     ("sig_algs", values_value (Some supportedSigAlgs));
     ("tls_versions", values_value (Some ["TLSv1.3"; "TLSv1.2"]))])).

End probe.

(** ** Correspondence with the Rust structs *)

Section correspondence.
Context {J : SerdeJson} {G : GoJson}.

Definition as_go_request (r : ProbeRequest.t) : GoRequest.t := {|
  GoRequest.Target := {|
    GoTarget.Host := r.(ProbeRequest.target).(Target.host);
    GoTarget.Port := r.(ProbeRequest.target).(Target.port);
    GoTarget.SNI := unwrap_or "" r.(ProbeRequest.target).(Target.sni);
    GoTarget.HTTPPath := unwrap_or "" r.(ProbeRequest.target).(Target.http_path) |};
  GoRequest.KEMGroups := Some r.(ProbeRequest.kem_groups);
  GoRequest.SigAlgs := Some r.(ProbeRequest.sig_algs);
  GoRequest.TLSVersions := Some r.(ProbeRequest.tls_versions);
  GoRequest.CipherSuites := Some r.(ProbeRequest.cipher_suites);
  GoRequest.TimeoutMS := r.(ProbeRequest.timeout_ms);
  GoRequest.RawRecords := r.(ProbeRequest.capture).(CaptureOptions.raw_records);
  GoRequest.Keylog := r.(ProbeRequest.capture).(CaptureOptions.keylog) |}.

Definition as_field (f : GoField.t) : MessageField.t := {|
  MessageField.label := go_utf8 f.(GoField.Label);
  MessageField.values := map go_utf8 (elems f.(GoField.Values)) |}.

Definition as_direction (s : string) : Direction.t :=
  if String.eqb s "inbound" then Direction.Inbound else Direction.Outbound.

Definition as_message (m : GoMessage.t) : HandshakeMessage.t := {|
  HandshakeMessage.index := m.(GoMessage.Index);
  HandshakeMessage.direction := as_direction m.(GoMessage.Direction);
  HandshakeMessage.kind := go_utf8 m.(GoMessage.Kind);
  HandshakeMessage.fields := map as_field m.(GoMessage.Fields) |}.

Definition as_certificate (c : GoCertificate.t) : Certificate.t := {|
  Certificate.subject := go_utf8 c.(GoCertificate.Subject);
  Certificate.issuer := go_utf8 c.(GoCertificate.Issuer);
  Certificate.not_before := go_utf8 <$> c.(GoCertificate.NotBefore);
  Certificate.not_after := go_utf8 <$> c.(GoCertificate.NotAfter);
  Certificate.signature_algorithm := go_utf8 <$> c.(GoCertificate.SignatureAlgorithm);
  Certificate.public_key_algorithm := go_utf8 <$> c.(GoCertificate.PublicKeyAlgorithm);
  Certificate.sha256_fingerprint := None |}.

Definition as_http (h : GoHttp.t) : HttpOutcome.t := {|
  HttpOutcome.status := h.(GoHttp.Status);
  HttpOutcome.headers := map as_field h.(GoHttp.Headers);
  HttpOutcome.body_excerpt := go_utf8 <$> h.(GoHttp.BodyExcerpt) |}.

Definition as_stage (s : string) : Stage.t :=
  if String.eqb s "tcp" then Stage.Tcp
  else if String.eqb s "http_request" then Stage.HttpRequest
  else if String.eqb s "complete" then Stage.Complete
  else Stage.TlsHandshake.

Definition as_response (r : GoResponse.t) : ProbeResponse.t := {|
  ProbeResponse.adapter := go_utf8 r.(GoResponse.Adapter);
  ProbeResponse.handshake_success := r.(GoResponse.HandshakeSuccess);
  ProbeResponse.negotiated := {|
    Negotiated.tls_version := go_utf8 <$> r.(GoResponse.TLSVersion);
    Negotiated.cipher_suite := go_utf8 <$> r.(GoResponse.CipherSuite);
    Negotiated.group := go_utf8 <$> r.(GoResponse.Group);
    Negotiated.cert_verify_sig_alg := None |};
  ProbeResponse.messages := map as_message r.(GoResponse.Messages);
  ProbeResponse.alert := (λ a, {| Alert.level := go_utf8 a.1; Alert.description := go_utf8 a.2 |})
                           <$> r.(GoResponse.Alert);
  ProbeResponse.cert_chain := map as_certificate r.(GoResponse.CertChain);
  ProbeResponse.http := as_http <$> r.(GoResponse.HTTP);
  ProbeResponse.failed_stage := as_stage r.(GoResponse.FailedStage);
  ProbeResponse.error_summary := go_utf8 <$> r.(GoResponse.ErrorSummary);
  ProbeResponse.diagnostics := r.(GoResponse.Diagnostics);
  ProbeResponse.evidence := {|
    Evidence.bytes_sent := r.(GoResponse.BytesSent);
    Evidence.bytes_received := r.(GoResponse.BytesReceived);
    Evidence.uds_dump_b64 := go_utf8 <$> r.(GoResponse.UDSDumpB64); Evidence.keylog := None |};
  ProbeResponse.duration_ms := r.(GoResponse.DurationMS) |}.

(** No slice is nil, and stage and direction are among the spellings of the contract. *)
Definition field_set (f : GoField.t) : Prop := is_Some f.(GoField.Values).

Record contract_shape (r : GoResponse.t) : Prop := {
  sh_messages : Forall (λ m, Forall field_set m.(GoMessage.Fields) ∧
                   m.(GoMessage.Direction) ∈ ["outbound"; "inbound"]) r.(GoResponse.Messages);
  sh_headers : from_option (λ h, Forall field_set h.(GoHttp.Headers)) True r.(GoResponse.HTTP);
  sh_stage : r.(GoResponse.FailedStage) ∈ ["tcp"; "tls_handshake"; "http_request"; "complete"];
}.

(** ASCII text is UTF-8. *)
Class GoAscii : Prop := {
  go_ascii s : s ∈ ["outbound"; "inbound"; "tcp"; "tls_handshake"; "http_request"; "complete"] →
    go_utf8 s = s;
}.

Context {GA : GoAscii}.

Lemma go_field_eq f : field_set f → go_field_value f = to_value (as_field f).
Proof.
  intros [l Hl]. destruct f as [label values]. cbn in Hl. subst.
  change (to_value _) with (json_object [("label", json_string (go_utf8 label));
    ("values", json_array (map json_string (map go_utf8 l)))]).
  by rewrite map_map.
Qed.

Lemma go_list_eq {A B} `{!Wire B} (P : A → Prop) (f : A → Value) (g : A → B) l :
  Forall P l → (∀ a, P a → f a = to_value (g a)) → json_array (map f l) = to_value (map g l).
Proof.
  intros Hl Hfg. unfold to_value. cbn. f_equal.
  induction Hl as [|a l Ha _ IH]; [done|]. cbn. by rewrite IH, Hfg.
Qed.

Lemma go_direction_eq s :
  s ∈ ["outbound"; "inbound"] → go_string s = to_value (as_direction s).
Proof.
  intros Hs. unfold go_string. rewrite go_ascii by set_solver.
  rewrite !elem_of_cons, elem_of_nil in Hs. by destruct Hs as [->|[->|[]]].
Qed.

Lemma go_stage_eq s :
  s ∈ ["tcp"; "tls_handshake"; "http_request"; "complete"] → go_string s = to_value (as_stage s).
Proof.
  intros Hs. unfold go_string. rewrite go_ascii by set_solver.
  rewrite !elem_of_cons, elem_of_nil in Hs. by destruct Hs as [->|[->|[->|[->|[]]]]].
Qed.

Lemma go_message_eq m :
  Forall field_set m.(GoMessage.Fields) → m.(GoMessage.Direction) ∈ ["outbound"; "inbound"] →
  go_message_value m = to_value (as_message m).
Proof.
  intros Hf Hd. unfold go_message_value. rewrite go_direction_eq by done.
  by rewrite (go_list_eq field_set _ as_field _ Hf go_field_eq).
Qed.

Lemma go_certificate_eq c : go_certificate_value c = to_value (as_certificate c).
Proof. by destruct c as [s i [] [] [] []]. Qed.

Lemma go_http_eq h : Forall field_set h.(GoHttp.Headers) → go_http_value h = to_value (as_http h).
Proof.
  intros Hh. unfold go_http_value. rewrite (go_list_eq field_set _ as_field _ Hh go_field_eq).
  by destruct h as [status headers []].
Qed.

(** Both programs write the same document. *)
Lemma go_response_eq r : contract_shape r → go_response_value r = to_value (as_response r).
Proof.
  intros [Hm Hh Hs]. unfold go_response_value. rewrite (go_stage_eq _ Hs).
  rewrite (go_list_eq _ _ as_message _ Hm); [|intros m []; by apply go_message_eq].
  rewrite (go_list_eq (λ _, True) _ as_certificate); [|by apply Forall_true|intros; apply go_certificate_eq].
  destruct r as [adapter ok v c g ms al certs http stage err diag sent received dump ms'].
  cbn in Hh |- *.
  assert (Hhttp : skip_none go_http_value "http" http = skip_none to_value "http" (as_http <$> http))
    by (destruct http; cbn; [by rewrite go_http_eq|done]).
  rewrite Hhttp. by destruct v, c, g, al as [[]|], err, dump, http.
Qed.

End correspondence.

(** ** What the Rust side writes, the Go side reads *)

Section decoding.
Context {J : SerdeJson} {JL : SerdeJsonLaws}.

Lemma go_member_string k (m : JsonMap) s :
  map_get k m = Some (json_string s) → go_member "" as_str k m = Some s.
Proof. intros Hk. unfold go_member. by rewrite Hk, as_null_string, as_str_string. Qed.

Lemma go_member_int k (m : JsonMap) z :
  is_i64 z → map_get k m = Some (json_int z) → go_member 0%Z as_i64_val k m = Some z.
Proof.
  intros [H1 H2] Hk. unfold go_member. rewrite Hk, as_null_int. apply as_i64_int. lia.
Qed.

Lemma go_member_bool k (m : JsonMap) b :
  map_get k m = Some (json_bool b) → go_member false as_bool k m = Some b.
Proof. intros Hk. unfold go_member. by rewrite Hk, as_null_bool, as_bool_bool. Qed.

Lemma go_elem_string s : go_elem (json_string s) = Some s.
Proof. unfold go_elem. by rewrite as_null_string, as_str_string. Qed.

Lemma go_member_slice k (m : JsonMap) (l : list string) :
  map_get k m = Some (to_value l) → go_member None go_slice k m = Some (Some l).
Proof.
  intros Hk. unfold go_member. rewrite Hk.
  change (to_value l) with (json_array (map json_string l)).
  rewrite as_null_array. unfold go_slice. rewrite as_array_array. cbn.
  assert (mapM go_elem (map json_string l) = Some l) as ->; [|done].
  clear Hk. induction l as [|a l IH]; [done|]. cbn. rewrite go_elem_string. cbn. by rewrite IH.
Qed.

Lemma go_member_some {A} (zero : A) d k (m : JsonMap) v :
  map_get k m = Some v → as_null v = None → go_member zero d k m = d v.
Proof. intros Hk Hv. unfold go_member. by rewrite Hk, Hv. Qed.

Lemma go_member_missing {A} (zero : A) d k (m : JsonMap) :
  map_get k m = None → go_member zero d k m = Some zero.
Proof. intros Hk. unfold go_member. by rewrite Hk. Qed.

Lemma go_target_eq t :
  is_uint u16_max t.(Target.port) →
  go_target (to_value t)
  = Some {| GoTarget.Host := t.(Target.host); GoTarget.Port := t.(Target.port);
            GoTarget.SNI := unwrap_or "" t.(Target.sni);
            GoTarget.HTTPPath := unwrap_or "" t.(Target.http_path) |}.
Proof.
  intros [Hp1 Hp2]. unfold go_target. apply struct_object. intros m Hm.
  rewrite (go_member_string "host" m t.(Target.host)) by (rewrite Hm; by destruct t as [? ? [] []]).
  rewrite (go_member_int "port" m t.(Target.port))
    by (unfold is_i64; lia || (rewrite Hm; by destruct t as [? ? [] []])).
  destruct t as [host port [sni|] [path|]]; cbn in Hm |- *.
  - by rewrite (go_member_string "sni" m sni), (go_member_string "http_path" m path) by (by rewrite Hm).
  - by rewrite (go_member_string "sni" m sni), (go_member_missing _ _ "http_path" m) by (by rewrite Hm).
  - by rewrite (go_member_missing _ _ "sni" m), (go_member_string "http_path" m path) by (by rewrite Hm).
  - by rewrite (go_member_missing _ _ "sni" m), (go_member_missing _ _ "http_path" m) by (by rewrite Hm).
Qed.

Lemma go_capture_eq c :
  go_capture (to_value c)
  = Some (c.(CaptureOptions.raw_records), c.(CaptureOptions.keylog)).
Proof.
  unfold go_capture. apply struct_object. intros m Hm.
  rewrite (go_member_bool "raw_records" m c.(CaptureOptions.raw_records)) by (by rewrite Hm).
  by rewrite (go_member_bool "keylog" m c.(CaptureOptions.keylog)) by (by rewrite Hm).
Qed.

Lemma go_request_eq (r : ProbeRequest.t) :
  typed r → is_i64 r.(ProbeRequest.timeout_ms) → go_request (to_value r) = Some (as_go_request r).
Proof.
  intros [Ht _] Hms. unfold go_request.
  assert (as_null (to_value r) = None) as -> by apply as_null_object.
  apply struct_object. intros m Hm.
  rewrite (go_member_some zero_target go_target "target" m (to_value r.(ProbeRequest.target)))
    by (by rewrite Hm || apply as_null_object).
  rewrite go_target_eq by done. cbn [mbind option_bind].
  rewrite (go_member_slice "kem_groups" m r.(ProbeRequest.kem_groups)) by (by rewrite Hm).
  rewrite (go_member_slice "sig_algs" m r.(ProbeRequest.sig_algs)) by (by rewrite Hm).
  rewrite (go_member_slice "tls_versions" m r.(ProbeRequest.tls_versions)) by (by rewrite Hm).
  rewrite (go_member_slice "cipher_suites" m r.(ProbeRequest.cipher_suites)) by (by rewrite Hm).
  rewrite (go_member_int "timeout_ms" m r.(ProbeRequest.timeout_ms)) by (done || by rewrite Hm).
  rewrite (go_member_some (false, false) go_capture "capture" m (to_value r.(ProbeRequest.capture)))
    by (by rewrite Hm || apply as_null_object).
  by rewrite go_capture_eq.
Qed.

End decoding.

(** ** What the adapter answers *)

Section answers.
Context {J : SerdeJson} {G : GoJson} {CT : CryptoTls}.
Context (b64 : string → string) (range1 range2 : list (string * Z)).

(** The counters are [uint64]s. *)
Record peer_typed (peer : Peer) : Prop := {
  pt_early : u64_range peer.(counted_early).1 ∧ u64_range peer.(counted_early).2;
  pt_end : u64_range peer.(counted).1 ∧ u64_range peer.(counted).2;
}.

(** The request carries all its lists. *)
Definition lists_set (req : GoRequest.t) : Prop :=
  is_Some req.(GoRequest.KEMGroups) ∧ is_Some req.(GoRequest.SigAlgs) ∧
  is_Some req.(GoRequest.TLSVersions).

Lemma client_hello_set req : lists_set req → Forall field_set (clientHello req).(GoMessage.Fields).
Proof.
  intros (H1 & H2 & H3). unfold clientHello. cbn.
  repeat constructor; unfold field_set; cbn; try done.
  by destruct (elems req.(GoRequest.TLSVersions)).
Qed.

Lemma doHTTP_headers peer req sni h raw :
  doHTTP peer req sni = Ok (h, raw) → Forall field_set h.(GoHttp.Headers).
Proof.
  unfold doHTTP. destruct (conn_write _ _); [|done].
  assert (Hall : ∀ ls, Forall field_set (omap header_field ls)).
  { intros ls. apply Forall_forall. intros f (line & _ & Hf)%list_elem_of_omap.
    unfold header_field in Hf. destruct (split_once _ _) as [[]|]; [|done].
    injection Hf as <-. by eexists. }
  repeat case_match; intros; simplify_eq/=; apply Hall.
Qed.

Lemma go_probe_shape peer req name :
  lists_set req → contract_shape (go_probe b64 range1 range2 peer req name).
Proof.
  intros Hl. pose proof (client_hello_set req Hl) as Hch. unfold go_probe.
  assert (Hfail : ∀ stage err alert counts,
    stage ∈ ["tcp"; "tls_handshake"; "http_request"; "complete"] →
    contract_shape (resp_failed (resp_init req name peer.(since)) stage err alert counts)).
  { intros stage err alert counts Hs. split; [|done|done]. cbn.
    constructor; [split; [done|set_solver]|]. destruct alert as [[level desc]|]; constructor; [|done].
    cbn. split; [repeat constructor; by eexists|set_solver]. }
  destruct (_ && _); [apply Hfail; set_solver|]. unfold go_connect.
  destruct (dial _ _ _); [|apply Hfail; set_solver].
  destruct (handshake _ _ _ _) as [state|err]; [|apply Hfail; set_solver].
  split; cbn.
  - constructor; [split; [done|set_solver]|]. constructor; [|done]. cbn.
    split; [repeat constructor; by eexists|set_solver].
  - destruct (doHTTP _ _ _) as [[h raw]|] eqn:Hh; [|done]. cbn. by eapply doHTTP_headers.
  - destruct (doHTTP _ _ _); set_solver.
Qed.

(** The status line says a number that fits the contract. *)
Definition status_fits (r : GoResponse.t) : Prop :=
  from_option (λ h, is_uint u16_max h.(GoHttp.Status)) True r.(GoResponse.HTTP).

#[export] Instance status_fits_dec r : Decision (status_fits r).
Proof. unfold status_fits, is_uint. destruct (r.(GoResponse.HTTP)); apply _. Defined.

Lemma resp_failed_typed req name since stage err alert counts :
  u64_range counts.1 → u64_range counts.2 →
  typed (as_response (resp_failed (resp_init req name since) stage err alert counts)).
Proof.
  intros H1 H2. cbn. pose proof (as_u64_range since) as Hu. unfold u64_range, is_uint in *.
  split_and!; try done; [|lia..].
  repeat constructor; cbn; unfold is_uint; cbn; [lia..|].
  destruct alert as [[]|]; repeat constructor; cbn; unfold is_uint; cbn; lia.
Qed.

Lemma go_probe_typed peer req name :
  peer_typed peer → status_fits (go_probe b64 range1 range2 peer req name) →
  typed (as_response (go_probe b64 range1 range2 peer req name)).
Proof.
  intros [[E1 E2] [F1 F2]]. unfold go_probe.
  destruct (_ && _); [intros _; by apply resp_failed_typed|]. unfold go_connect.
  destruct (dial _ _ _); [|intros _; by apply resp_failed_typed].
  destruct (handshake _ _ _ _) as [state|err]; [|intros _; by apply resp_failed_typed].
  intros Hs. pose proof (as_u64_range peer.(since)). cbn in Hs |- *. unfold u64_range, is_uint in *.
  split_and!; [repeat constructor; cbn; unfold is_uint; cbn; lia| |lia..].
  by destruct (doHTTP _ _ _) as [[]|].
Qed.

End answers.

(** ** A status that does not fit *)

Section misfit.
Context {J : SerdeJson} {JL : SerdeJsonLaws}.

Lemma uint_misfit max z : (max ≤ u64_max)%Z → ¬ is_uint max z → is_i64 z → uint max (json_int z) = None.
Proof.
  intros Hm Hn [H1 H2]. unfold uint. destruct (decide (z < 0)%Z) as [Hz|Hz].
  - by rewrite as_u64_neg.
  - rewrite as_u64_int by lia. cbn. rewrite bool_decide_false; [done|]. unfold is_uint in Hn. lia.
Qed.

Lemma bind_nothing {A B} (x : option A) (f : A → option B) :
  (∀ a, f a = None) → (x ≫= f) = None.
Proof. intros Hf. destruct x; [apply Hf|done]. Qed.

Lemma struct_refused {A} (f : JsonMap → option A) l :
  (∀ m, (∀ k, map_get k m = assoc_last k l) → f m = None) → struct f (json_object l) = None.
Proof. intros Hf. unfold struct. destruct (as_object_object l) as (m & -> & Hk). by apply Hf. Qed.

Lemma http_refused h : ¬ is_uint u16_max h.(HttpOutcome.status) → is_i64 h.(HttpOutcome.status) →
  from_value (to_value h) = (None : option HttpOutcome.t).
Proof.
  intros Hn Hi. apply struct_refused. intros m Hk. unfold Wire.field. rewrite Hk.
  destruct h as [status headers []]; cbn -[from_value to_value] in *; by rewrite uint_misfit.
Qed.

(** The decoder of the worker refuses the whole answer. *)
Lemma response_refused (r : ProbeResponse.t) h :
  r.(ProbeResponse.http) = Some h → ¬ is_uint u16_max h.(HttpOutcome.status) →
  is_i64 h.(HttpOutcome.status) → from_value (to_value r) = (None : option ProbeResponse.t).
Proof.
  intros Hh Hn Hi. apply struct_refused. intros m Hk.
  do 6 (apply bind_nothing; intros ?).
  assert (opt_field from_value "http" m = (None : option (option HttpOutcome.t))) as ->; [|done].
  unfold opt_field. rewrite Hk. destruct r as [adapter ok neg ms al certs http stage err diag ev dur].
  cbn in Hh. subst http. destruct al, err; cbn -[from_value to_value]; unfold nullable;
    rewrite not_null; by rewrite http_refused.
Qed.

End misfit.

(** ** The worker and the Go adapter joined *)

Section joined.
Context {J : SerdeJson} {JL : SerdeJsonLaws} {T : JsonText} {G : GoJson} {GL : GoJsonLaws}.
Context {GA : GoAscii} {CT : CryptoTls} {HT : HttpTexts}.
Context (b64 : string → string) (range1 range2 : list (string * Z)).

Lemma request_lists_set r : lists_set (as_go_request r).
Proof. by split_and!; eexists. Qed.

Lemma rust_reads_response r : contract_shape r → typed (as_response r) →
  from_text (go_encode (go_response_value r)) = Some (as_response r).
Proof.
  intros Hs Ht. unfold from_text. rewrite rust_reads_go. cbn.
  rewrite go_response_eq by done. by apply wire_round_trip.
Qed.

Lemma sscanf_d_range s : is_i64 (sscanf_d s).
Proof.
  unfold sscanf_d. destruct s as [|c r]; [unfold is_i64; lia|].
  repeat case_match; try (unfold is_i64; lia); by case_bool_decide.
Qed.

Lemma doHTTP_status peer req sni h raw :
  doHTTP peer req sni = Ok (h, raw) → is_i64 h.(GoHttp.Status).
Proof.
  unfold doHTTP. destruct (conn_write _ _); [|done].
  assert (Hs : ∀ o, is_i64 (from_option sscanf_d 0%Z o)).
  { intros [s|]; [apply sscanf_d_range|unfold is_i64; cbn; lia]. }
  repeat case_match; intros; simplify_eq/=; apply Hs.
Qed.

Lemma go_probe_status peer req name h :
  (go_probe b64 range1 range2 peer req name).(GoResponse.HTTP) = Some h → is_i64 h.(GoHttp.Status).
Proof.
  unfold go_probe. destruct (_ && _); [done|]. unfold go_connect.
  destruct (dial _ _ _); [|done]. destruct (handshake _ _ _ _); [|done]. cbn.
  destruct (doHTTP _ _ _) as [[]|] eqn:Hh; [|done]. intros [= <-]. by eapply doHTTP_status.
Qed.

Lemma go_response_refused peer req name :
  lists_set req → ¬ status_fits (go_probe b64 range1 range2 peer req name) →
  from_text (go_encode (go_response_value (go_probe b64 range1 range2 peer req name)))
  = (None : option ProbeResponse.t).
Proof.
  intros Hl Hn. unfold from_text. rewrite rust_reads_go. cbn.
  rewrite go_response_eq by by apply go_probe_shape.
  pose proof (go_probe_status peer req name) as Hi. unfold status_fits in Hn.
  destruct (GoResponse.HTTP _) as [h|] eqn:Hh; [|by cbn in Hn].
  apply (response_refused _ (as_http h)); [|exact Hn|by apply Hi].
  cbn. by rewrite Hh.
Qed.


Lemma values_eq l : values_value (Some l) = to_value (map go_utf8 l).
Proof.
  change (to_value _) with (json_array (map json_string (map go_utf8 l))). by rewrite map_map.
Qed.

(** The capabilities the worker caches. *)
Lemma go_capabilities_read order name version :
  get_reply (Ok (go_serve_capabilities order name version))
  = Ok {| Capabilities.adapter := go_utf8 name; Capabilities.version := go_utf8 version;
          Capabilities.kem_groups := map go_utf8 (supportedGroups order);
          Capabilities.sig_algs := map go_utf8 supportedSigAlgs;
          Capabilities.tls_versions := map go_utf8 ["TLSv1.3"; "TLSv1.2"] |}.
Proof.
  unfold get_reply, go_serve_capabilities. rewrite bool_decide_false by lia.
  unfold from_text. rewrite rust_reads_go. cbn [mbind option_bind].
  rewrite !values_eq. match goal with |- _ = Ok ?caps =>
    assert (from_value (to_value caps) = Some caps) as Hc by by apply wire_round_trip end.
  change (json_object _) with (to_value (A := Capabilities.t) {|
    Capabilities.adapter := go_utf8 name; Capabilities.version := go_utf8 version;
    Capabilities.kem_groups := map go_utf8 (supportedGroups order);
    Capabilities.sig_algs := map go_utf8 supportedSigAlgs;
    Capabilities.tls_versions := map go_utf8 ["TLSv1.3"; "TLSv1.2"] |}).
  by rewrite Hc.
Qed.

End joined.

(** ** What the order of a range decides *)

Lemma find_first_spec {A} (p : A → bool) l :
  match find_first p l with
  | Some a => a ∈ l ∧ p a = true
  | None => ∀ a, a ∈ l → p a = false
  end.
Proof.
  induction l as [|b l IH]; cbn; [intros a []%elem_of_nil|].
  destruct (p b) eqn:Hb; [split; [constructor|done]|].
  destruct (find_first p l) as [a|]; [destruct IH; split; [by constructor|done]|].
  intros a [->|Ha]%elem_of_cons; auto.
Qed.

(** With at most one match, any order finds it. *)
Lemma find_first_perm {A} (p : A → bool) l l' :
  l ≡ₚ l' → (∀ a b, a ∈ l → b ∈ l → p a = true → p b = true → a = b) →
  find_first p l = find_first p l'.
Proof.
  intros Hl Hu. pose proof (find_first_spec p l) as H1. pose proof (find_first_spec p l') as H2.
  destruct (find_first p l) as [a|], (find_first p l') as [b|]; try done;
    setoid_rewrite <-Hl in H2.
  - destruct H1, H2. f_equal. by apply Hu.
  - destruct H1 as [Ha Hpa]. by rewrite H2 in Hpa.
  - destruct H2 as [Hb Hpb]. by rewrite H1 in Hpb.
Qed.

Lemma capital_unique (a b : string * Z) :
  a ∈ groupByName → b ∈ groupByName → starts_upper a.1 = true → starts_upper b.1 = true →
  a.2 = b.2 → a = b.
Proof.
  assert (H : forallb (λ a, forallb (λ b,
    negb (starts_upper a.1 && starts_upper b.1 && (a.2 =? b.2)%Z) || bool_decide (a = b))
    groupByName) groupByName = true) by by vm_compute.
  rewrite forallb_forall in H. intros Ha Hb Hua Hub Hab.
  apply list_elem_of_In in Ha, Hb. specialize (H a Ha). rewrite forallb_forall in H.
  specialize (H b Hb). rewrite Hua, Hub, Hab, Z.eqb_refl in H. by apply bool_decide_eq_true in H.
Qed.

(** Every curve of the map has a name that starts with a capital. *)
Lemma capital_exists name id : (name, id) ∈ groupByName →
  ∃ e, e ∈ groupByName ∧ (e.2 =? id)%Z && starts_upper e.1 = true.
Proof.
  assert (H : forallb (λ a, existsb (λ e, (e.2 =? a.2)%Z && starts_upper e.1) groupByName)
    groupByName = true) by by vm_compute.
  rewrite forallb_forall in H. intros Hin%list_elem_of_In.
  apply H, existsb_exists in Hin as (e & He & Hp). exists e. by rewrite list_elem_of_In.
Qed.

Section ranges.
Context {CT : CryptoTls}.

(** The name the trace gives to a group does not depend on the order of the ranges. *)
Lemma groupName_order range1 range2 id :
  range1 ≡ₚ groupByName → range2 ≡ₚ groupByName →
  groupName range1 range2 id = groupName groupByName groupByName id.
Proof.
  intros H1 H2. unfold groupName.
  rewrite (find_first_perm _ range1 groupByName H1).
  2:{ intros a b Ha Hb [Ha2%Z.eqb_eq Hua]%andb_true_iff [Hb2%Z.eqb_eq Hub]%andb_true_iff.
      rewrite H1 in Ha, Hb. apply capital_unique; congruence. }
  pose proof (find_first_spec (λ e : string * Z, (e.2 =? id)%Z && starts_upper e.1) groupByName) as Hs.
  destruct (find_first _ groupByName) as [e|]; [done|].
  assert (Hnone : ∀ r, r ≡ₚ groupByName → find_first (λ e : string * Z, (e.2 =? id)%Z) r = None).
  { intros r Hr. pose proof (find_first_spec (λ e : string * Z, (e.2 =? id)%Z) r) as Hf.
    destruct (find_first _ r) as [[n i]|]; [|done]. destruct Hf as [Hin Hi%Z.eqb_eq]. cbn in Hi. subst i.
    rewrite Hr in Hin. apply capital_exists in Hin as (e & He & Hp). by rewrite Hs in Hp. }
  by rewrite !Hnone.
Qed.

Lemma first_names_spec seen order :
  (∀ name, name ∈ first_names seen order → ∃ id, (name, id) ∈ order ∧ id ∉ seen) ∧
  (∀ id name, (name, id) ∈ order → id ∉ seen →
     ∃ name', name' ∈ first_names seen order ∧ (name', id) ∈ order).
Proof.
  revert seen. induction order as [|[n i] order IH]; intros seen; cbn.
  { split; [intros ? []%elem_of_nil|intros ?? []%elem_of_nil]. }
  case_bool_decide as Hi.
  - destruct (IH seen) as [I1 I2]. split.
    + intros name (id & Hin & Hs)%I1. exists id. split; [by constructor|done].
    + intros id name [[= -> ->]|Hin]%elem_of_cons Hs; [done|].
      destruct (I2 id name Hin Hs) as (n' & ? & ?). exists n'. split; [done|by constructor].
  - destruct (IH (i :: seen)) as [I1 I2]. split.
    + intros name [->|(id & Hin & Hs)%I1]%elem_of_cons.
      * exists i. split; [constructor|done].
      * exists id. split; [by constructor|set_solver].
    + intros id name Hin Hs. destruct (decide (id = i)) as [->|Hne].
      * exists n. split; constructor.
      * apply elem_of_cons in Hin as [[= -> ->]|Hin]; [done|].
        destruct (I2 id name Hin) as (n' & ? & ?); [set_solver|].
        exists n'. split; by constructor.
Qed.

(** Whatever the order, each curve Go implements is advertised, under one of its names. *)
Lemma supportedGroups_spec order : order ≡ₚ groupByName →
  (∀ name, name ∈ supportedGroups order → is_Some (lookup_group name)) ∧
  (∀ name id, (name, id) ∈ groupByName →
     ∃ name', name' ∈ supportedGroups order ∧ (name', id) ∈ groupByName).
Proof.
  intros Ho. destruct (first_names_spec [] order) as [H1 H2]. unfold supportedGroups.
  setoid_rewrite merge_sort_Permutation. split.
  - intros name (id & Hin & _)%H1. rewrite Ho in Hin.
    assert (H : forallb (λ e, bool_decide (is_Some (lookup_group e.1))) groupByName = true)
      by by vm_compute.
    rewrite forallb_forall in H. apply list_elem_of_In, H in Hin. by apply bool_decide_eq_true in Hin.
  - intros name id Hin. rewrite <-Ho in Hin.
    destruct (H2 id name Hin) as (n & Hn & Hni); [set_solver|]. exists n. by rewrite <-Ho.
Qed.

End ranges.

(** What the adapter advertises, as [go_capabilities_read] has it. *)
Definition go_capabilities (order : list (string * Z)) (name version : string) : Capabilities.t := {|
  Capabilities.adapter := name; Capabilities.version := version;
  Capabilities.kem_groups := supportedGroups order; Capabilities.sig_algs := supportedSigAlgs;
  Capabilities.tls_versions := ["TLSv1.3"; "TLSv1.2"] |}.

(** The catalog spells the curve [P-256]: whether a pair with it passes or is put down as
    unsupported depends on which of its two names the range over the map met first. *)
Lemma verdict_by_range `{SerdeJson} response :
  response.(ProbeResponse.handshake_success) = true →
  groupByName ≡ₚ rev groupByName ∧
  classify response ["P-256"; "mldsa44"] (go_capabilities groupByName "go" "go1.24")
  = ResultStatus.Passed ∧
  classify response ["P-256"; "mldsa44"] (go_capabilities (rev groupByName) "go" "go1.24")
  = ResultStatus.Unsupported.
Proof.
  intros Hr. split; [apply Permutation_rev|].
  unfold classify. rewrite Hr.
  assert (existsb (known (go_capabilities groupByName "go" "go1.24")) ["P-256"; "mldsa44"] = true)
    as -> by by vm_compute.
  by assert (existsb (known (go_capabilities (rev groupByName) "go" "go1.24")) ["P-256"; "mldsa44"]
    = false) as -> by by vm_compute.
Qed.

Module GoWitness.
Import JsonModel WireModel ExchangeWitness.

#[export] Instance go_json : GoJson := {|
  go_utf8 s := s; go_encode := print; go_decode := parse;
  go_type_error _ := "json: cannot unmarshal" |}.

#[export] Instance go_json_laws : GoJsonLaws.
Proof. split; exact text_reads_back. Qed.

#[export] Instance go_ascii_id : GoAscii.
Proof. by split. Qed.

#[export] Instance names : CryptoTls := {|
  CipherSuiteName s := "0x" +:+ hex4 s; CurveID_String c := "CurveID(" +:+ show c +:+ ")" |}.

(** A target that answers, one that refuses the handshake, and one with a strange status. *)
Definition target (answer : string) : Peer := {|
  dial _ _ := Ok tt;
  handshake _ _ _ := Ok {| Version := 772; Suite := 4865; CurveID := 4588;
                           PeerCertificates := [] |};
  counted_early := (0, 0)%Z; counted := (1500, 2400)%Z; conn_write _ := Ok tt;
  read_all := (answer, None); since := 12 |}.

Definition answer (status : string) : string :=
  "HTTP/1.1 " +:+ status +:+ " OK" +:+ crlf +:+ "Server: lab" +:+ crlf2 +:+ " hello ".

Definition refusing : Peer := {|
  dial _ _ := Ok tt; handshake _ _ _ := Err "remote error: tls: handshake failure";
  counted_early := (300, 7)%Z; counted := (0, 0)%Z; conn_write _ := Ok tt;
  read_all := ("", None); since := 3 |}.

Definition probe_of (peer : Peer) (req : GoRequest.t) : GoResponse.t :=
  go_probe base64 groupByName groupByName peer req "go".

Definition req (groups : list string) : GoRequest.t := {|
  GoRequest.Target := {| GoTarget.Host := "127.0.0.1"; GoTarget.Port := 1; GoTarget.SNI := "";
                         GoTarget.HTTPPath := "" |};
  GoRequest.KEMGroups := Some groups; GoRequest.SigAlgs := Some ["mldsa65"];
  GoRequest.TLSVersions := None; GoRequest.CipherSuites := None; GoRequest.TimeoutMS := 100;
  GoRequest.RawRecords := false; GoRequest.Keylog := false |}.

(** ** [main_test.go] *)

Definition TestGroupNameCoversPQCHybrid : bool :=
  forallb (λ order,
    String.eqb (groupName order order X25519MLKEM768) "X25519MLKEM768"
    && String.eqb (groupName order order CurveP256) "P-256") [groupByName; rev groupByName].

Definition TestAlertFromErrorMapsCommonFailures : bool :=
  forallb (λ c, match alertFromError c.1 with
                | Some (_, description) => String.eqb description c.2
                | None => false
                end)
    [("remote error: tls: handshake failure", "handshake_failure");
     ("local error: tls: bad record MAC", "bad_record_mac");
     ("tls: protocol version not supported", "protocol_version")]
  && match alertFromError "connection reset by peer" with None => true | Some _ => false end.

Definition TestProbeRejectsGroupsGoDoesNotImplement : bool :=
  let resp := probe_of refusing (req ["mceliece460896"]) in
  negb resp.(GoResponse.HandshakeSuccess)
  && match resp.(GoResponse.ErrorSummary) with Some _ => true | None => false end
  && String.eqb resp.(GoResponse.FailedStage) "tls_handshake".

Definition TestClientHelloAlwaysRecordsWhatWasOffered : bool :=
  let msg := clientHello (req ["X25519MLKEM768"]) in
  String.eqb msg.(GoMessage.Kind) "ClientHello"
  && (length msg.(GoMessage.Fields) =? 4)
  && match msg.(GoMessage.Fields) with
     | f :: _ => String.eqb (hd "" (elems f.(GoField.Values))) "X25519MLKEM768"
     | [] => false
     end.

Example go_tests_pass :
  TestGroupNameCoversPQCHybrid && TestAlertFromErrorMapsCommonFailures
  && TestProbeRejectsGroupsGoDoesNotImplement && TestClientHelloAlwaysRecordsWhatWasOffered = true.
Proof. vm_compute. reflexivity. Qed.

Definition http_status (resp : GoResponse.t) : option Z := GoHttp.Status <$> resp.(GoResponse.HTTP).

(** The stages a probe ends in. *)
Example go_stages :
  map (λ r, (r.(GoResponse.FailedStage), r.(GoResponse.HandshakeSuccess), http_status r))
    [probe_of (target (answer "200")) (req ["X25519"]); probe_of refusing (req ["X25519"]);
     probe_of (target "SSH-2.0") (req ["X25519"]); probe_of (target (answer "70000")) (req [])]
  = [("complete", true, Some 200%Z); ("tls_handshake", false, None);
     ("http_request", true, None); ("complete", true, Some 70000%Z)].
Proof. vm_compute. reflexivity. Qed.

(** The groups Go does not know are left out of the offer while the trace lists them all. *)
Example unknown_dropped :
  (known_curves ["mceliece460896"; "X25519"],
   map (λ f, elems f.(GoField.Values))
     (take 1 (clientHello (req ["mceliece460896"; "X25519"])).(GoMessage.Fields)))
  = ([X25519], [["mceliece460896"; "X25519"]]).
Proof. vm_compute. reflexivity. Qed.

Lemma target_typed a : peer_typed (target a).
Proof. split; cbn; unfold u64_range; lia. Qed.


End GoWitness.
