(* ===== verification/Kem.v ===== *)
(** * KEM DEMO runs ([services/worker/src/kem.rs])

    The streaming console and the three modes. The console's [seq] is state the modes
    change and the handler still sees when a mode has failed, so a mode is a program that
    takes the counter and returns it next to its result. *)

From S2P Require Import Prelude RustStr Json Proto Status Domain KemOrder Effects World Registry.

(** [DateTime::to_rfc3339] of [chrono]. *)
Class Chrono := to_rfc3339 : DateTime → string.

Section kem.
Context {J : SerdeJson} {U : UuidDisplay} {C : Chrono}.
Context (env : Env) (bases : gmap string string).

Local Open Scope prog_scope.

(** ** The console *)

(** [&mut Console]: the counter goes in and comes out, on an error too. *)
Definition console (A : Type) : Type := Z → prog World (result string A * Z).

Definition con_ret {A} (a : A) : console A := λ seq, Ret (Ok a, seq).
Definition con_fail {A} (e : string) : console A := λ seq, Ret (Err e, seq).

(** [m.await?] *)
Definition con_bind {A B} (m : console A) (k : A → console B) : console B := λ seq,
  let! r := m seq in
  match r.1 with
  | Ok a => k a r.2
  | Err e => Ret (Err e, r.2)
  end.

(** An operation that does not involve the console. *)
Definition lift {A} (p : prog World A) : console A := λ seq,
  let! r := attempt p in Ret (r, seq).

Fixpoint con_for {A} (l : list A) (body : A → console unit) : console unit :=
  match l with
  | [] => con_ret tt
  | x :: r => con_bind (body x) (λ _, con_for r body)
  end.

Definition insert_log (run_id : Uuid) (seq : Z) (at_ : DateTime) (level message : string)
    : op World unit :=
  sql env (λ _ d,
    match d.(kem_runs) !! run_id, d.(kem_run_logs) !! (run_id, seq) with
    | None, _ => Err "violates foreign key constraint"
    | _, Some _ => Err "duplicate key value violates unique constraint"
    | Some _, None =>
        Ok (tt, with_kem_run_logs
          <[(run_id, seq) := {|
              KemRunLog.run_id := run_id; KemRunLog.seq := seq; KemRunLog.at_ := at_;
              KemRunLog.level := level; KemRunLog.message := message |}]> d)
    end).

Definition publish_kem (run_id : Uuid) (event : KemEvent.t) : op World unit :=
  redis_publish env (kem_channel run_id) (Kem_event event).

(** [Console::log]. *)
Definition log (run_id : Uuid) (level message : string) : console unit := λ seq0,
  let! at_ := call (now env) in
  let seq := (seq0 + 1)%Z in
  let! r := attempt (
    call (insert_log run_id seq at_ level message);;;
    call (publish_kem run_id (KemEvent.Log seq (to_rfc3339 at_) level message))) in
  Ret (r, seq).

(** [Console::cell]. *)
Definition upsert_cell (run_id : Uuid) (kem adapter : string) (verdict : ResultStatus.t)
    (detail : option string) : op World unit :=
  sql env (λ _ d,
    match d.(kem_runs) !! run_id with
    | None => Err "violates foreign key constraint"
    | Some _ =>
        Ok (tt, with_kem_matrix_cells
          <[(run_id, kem, adapter) := {|
              KemMatrixCell.run_id := run_id; KemMatrixCell.kem := kem;
              KemMatrixCell.adapter := adapter; KemMatrixCell.verdict := verdict;
              KemMatrixCell.detail := detail |}]> d)
    end).

Definition cell (run_id : Uuid) (kem adapter : string) (verdict : ResultStatus.t)
    (detail : option string) : console unit :=
  lift (call (upsert_cell run_id kem adapter verdict detail);;;
        call (publish_kem run_id (KemEvent.Cell kem adapter verdict detail))).

Definition run_with_status (status : TaskStatus.t) (finished_at : option DateTime)
    (r : KemRun.t) : KemRun.t := {|
  KemRun.id := r.(KemRun.id); KemRun.mode := r.(KemRun.mode);
  KemRun.endpoint_id := r.(KemRun.endpoint_id); KemRun.status := status;
  KemRun.kem_groups := r.(KemRun.kem_groups); KemRun.created_at := r.(KemRun.created_at);
  KemRun.finished_at := finished_at;
|}.

(** [Console::finish]. *)
Definition finish (run_id : Uuid) (status : TaskStatus.t) : prog World unit :=
  call (sql env (λ at_ d,
    Ok (tt, with_kem_runs (alter (run_with_status status (Some at_)) run_id) d)));;;
  call (publish_kem run_id (KemEvent.Finished run_id)).

(** ** The modes *)

Definition request_for (job : KemJob.t) (groups : list string) : ProbeRequest.t := {|
  ProbeRequest.target := {|
    Target.host := job.(KemJob.host);
    Target.port := job.(KemJob.port);
    Target.sni := Some job.(KemJob.host);
    Target.http_path := Some "/";
  |};
  ProbeRequest.kem_groups := groups;
  ProbeRequest.sig_algs := [];
  ProbeRequest.tls_versions := ProbeRequest.default_tls_versions;
  ProbeRequest.cipher_suites := [];
  ProbeRequest.timeout_ms := ProbeRequest.default_timeout_ms;
  ProbeRequest.capture := CaptureOptions.default;
|}.

Definition target_text (job : KemJob.t) : string :=
  "(" +:+ job.(KemJob.host) +:+ ":" +:+ show job.(KemJob.port) +:+ ")".

(** [preferred_adapter]. *)
Definition preferred_adapter : result string string :=
  match find_first (is_configured bases) ["openssl"; "go"; "boringssl"; "wolfssl"] with
  | Some candidate => Ok candidate
  | None => ok_or "no adapters are configured" (first (names bases))
  end.

Notation "'do' x := m 'in' k" := (con_bind m (λ x, k))
  (at level 10, x binder, m at level 100, k at level 200).
Notation "m >> k" := (con_bind m (λ _, k)) (at level 60, right associativity).

Section job.
Context (job : KemJob.t).
Notation run_id := (job.(KemJob.run_id)).

Definition supports (caps : Capabilities.t) (kem : string) : bool :=
  existsb (λ g, eq_ignore_ascii_case g kem) caps.(Capabilities.kem_groups).

Definition pass_fail (response : ProbeResponse.t) : string :=
  if response.(ProbeResponse.handshake_success) then "PASS" else "FAIL".

Definition verdict_of (response : ProbeResponse.t) : ResultStatus.t :=
  if response.(ProbeResponse.handshake_success) then ResultStatus.Passed
  else ResultStatus.Failed.

(** The body of the two loops of [library_compat]. *)
Definition compat_cell (kem adapter : string) : console unit :=
  if negb (is_configured bases adapter) then
    cell run_id kem adapter ResultStatus.Disabled None
  else
    do supported :=
      do caps := lift (attempt (capabilities env bases adapter)) in
      match caps with
      | Ok caps => con_ret (supports caps kem)
      | Err err =>
          log run_id "info" (adapter +:+ ": capabilities unavailable (" +:+ err +:+ ")") >>
          con_ret false
      end in
    if negb supported then cell run_id kem adapter ResultStatus.Unsupported None
    else
      do response := lift (probe env bases adapter (request_for job [kem])) in
      cell run_id kem adapter (verdict_of response) response.(ProbeResponse.error_summary) >>
      log run_id "info" (adapter +:+ " × " +:+ kem +:+ ": " +:+ pass_fail response).

Definition library_compat : console unit :=
  log run_id "info" ("=== run_library_compat " +:+ target_text job +:+ " ===") >>
  con_for MATRIX_KEMS (λ kem, con_for MATRIX_ADAPTERS (compat_cell kem)) >>
  log run_id "result" "Result: compatibility matrix complete".

(** Why a handshake failed, for the student. *)
Definition failure_reason (response : ProbeResponse.t) : string :=
  unwrap_or "unknown"
    (or_else (Alert.description <$> response.(ProbeResponse.alert))
       response.(ProbeResponse.error_summary)).

Definition banner : string := "========== HTTPS response header ==========".

Definition log_http (http : HttpOutcome.t) : console unit :=
  log run_id "info" banner >>
  log run_id "info" ("HTTP/1.1 " +:+ show http.(HttpOutcome.status) +:+ " "
                     +:+ status_text http.(HttpOutcome.status)) >>
  con_for http.(HttpOutcome.headers) (λ header,
    log run_id "info" (header.(MessageField.label) +:+ ": "
                       +:+ join ", " header.(MessageField.values))) >>
  log run_id "info" banner >>
  log run_id "info" "response success".

Definition group_compat : console unit :=
  do adapter := lift (of_result preferred_adapter) in
  log run_id "info" ("=== run_full_handshake " +:+ target_text job +:+ " ===") >>
  log run_id "info" ("Using KEMs: " +:+ join ", " job.(KemJob.kem_groups)) >>
  do response := lift (probe env bases adapter (request_for job job.(KemJob.kem_groups))) in
  if negb response.(ProbeResponse.handshake_success) then
    log run_id "info" "key_gen TLS 完整交握失敗：" >>
    log run_id "result" ("Result: HandshakeFailed - " +:+ failure_reason response)
  else
    match response.(ProbeResponse.http) with
    | Some http => log_http http
    | None => con_ret tt
    end >>
    log run_id "result" (result_line response).

(** The [while] loop of [priority]. Each round takes an entry off [remaining] or leaves the
    loop, so [fuel] is enough when it is the length of the offer. *)
Fixpoint priority_loop (fuel : nat) (adapter : string) (remaining order : list string)
    : console (list string) :=
  match remaining, fuel with
  | [], _ => con_ret order
  | _, 0 => con_fail "out of fuel"
  | _, S fuel =>
      do response := lift (probe env bases adapter (request_for job remaining)) in
      if negb response.(ProbeResponse.handshake_success) then con_ret order
      else
        match response.(ProbeResponse.negotiated).(Negotiated.group) with
        | None => con_ret order
        | Some group =>
            log run_id "info" group >>
            let order' := order ++ [group] in
            let remaining' :=
              filter (λ g, negb (eq_ignore_ascii_case g group) = true) remaining in
            if length remaining' =? length remaining then con_ret order'
            else priority_loop fuel adapter remaining' order'
        end
  end.

Definition log_findings (findings : list string) : console unit :=
  match findings with
  | [] =>
      log run_id "finding_ok"
        "[+] 伺服器的演算法指定順序符合安全性等級從高到低的最佳實踐"
  | _ =>
      con_for findings (λ group,
        log run_id "finding_warn" ("[-] 伺服器將安全性較高演算法放在後面：" +:+ group))
  end.

(** A double quote around a name. *)
Definition quoted (g : string) : string :=
  String (Ascii.ascii_of_N 34) (g +:+ String (Ascii.ascii_of_N 34) "").

Definition priority : console unit :=
  do adapter := lift (of_result preferred_adapter) in
  log run_id "info" ("=== run_priority_test " +:+ target_text job +:+ " ===") >>
  log run_id "info" "=== 演算法指定順序測試 ===" >>
  do caps := lift (capabilities env bases adapter) in
  let remaining :=
    match job.(KemJob.kem_groups) with
    | [] => caps.(Capabilities.kem_groups)
    | groups => groups
    end in
  do order := priority_loop (length remaining) adapter remaining [] in
  log_findings (evaluate_order order) >>
  log run_id "result" ("Final Order: [" +:+ join "," (map quoted order) +:+ "]").

(** ** The handler *)

Definition mode_body : console unit :=
  match job.(KemJob.mode) with
  | KemRunMode.LibraryCompat => library_compat
  | KemRunMode.GroupCompat => group_compat
  | KemRunMode.Priority => priority
  end.

Definition mark_running : op World unit :=
  sql env (λ _ d, Ok (tt, with_kem_runs (alter (λ r,
    run_with_status TaskStatus.Running r.(KemRun.finished_at) r) run_id) d)).

Definition handle : prog World unit :=
  call mark_running;;;
  let! outcome := mode_body 0%Z in
  match outcome.1 with
  | Ok _ => finish run_id TaskStatus.Finished
  | Err err =>
      let! r := log run_id "result" ("Result: RunFailed - " +:+ err) outcome.2 in
      of_result r.1;;;
      finish run_id TaskStatus.Failed
  end.

End job.
End kem.
