(* ===== verification/Fixtures.v ===== *)
(** * A small deployment

    Concrete instances of what the model leaves open (a JSON library, the serializers, the
    printing of a [Uuid]), an environment and a database with one test, on which the
    witnesses of the worker's theorems run. *)

From S2P Require Import Prelude RustStr Json Proto Status Domain Wire Effects World Store Registry.
From S2P Require Import Probe Kem.
Import JsonModel.

Module Lab.

(** Its texts are the ones of [WireModel], so that what is written can be read. *)
#[export] Instance json : SerdeJson := WireModel.json.

#[export] Instance report_json : ReportJson := {|
  alert_value := λ a, match a with Some a => VString a.(Alert.description) | None => VNull end;
  messages_value := λ l, VArray (map (λ m, VString m.(HandshakeMessage.kind)) l);
  cert_chain_value := λ l, VArray (map (λ c, VString c.(Certificate.subject)) l);
  http_value := λ h, match h with Some h => VInt h.(HttpOutcome.status) | None => VNull end;
  response_value := λ r, VBool r.(ProbeResponse.handshake_success);
|}.

#[export] Instance uuid : UuidDisplay := λ u, pretty u.

#[export] Instance uuid_laws : UuidDisplayLaws.
Proof. split. intros a b Heq. by apply (inj pretty). Qed.

Definition caps : Capabilities.t := {|
  Capabilities.adapter := "openssl"; Capabilities.version := "1";
  Capabilities.kem_groups := ["MLKEM768"; "X25519"]; Capabilities.sig_algs := ["mldsa65"];
  Capabilities.tls_versions := ["TLSv1.3"] |}.

(** The adapter completes every handshake with the first group it is offered. *)
Definition success (group : option string) : ProbeResponse.t := {|
  ProbeResponse.adapter := "openssl";
  ProbeResponse.handshake_success := true;
  ProbeResponse.negotiated := {|
    Negotiated.tls_version := Some "TLSv1.3"; Negotiated.cipher_suite := Some "AES";
    Negotiated.group := group; Negotiated.cert_verify_sig_alg := None |};
  ProbeResponse.messages := []; ProbeResponse.alert := None; ProbeResponse.cert_chain := [];
  ProbeResponse.http := None; ProbeResponse.failed_stage := Stage.HttpRequest;
  ProbeResponse.error_summary := None; ProbeResponse.diagnostics := VNull;
  ProbeResponse.evidence := Evidence.default; ProbeResponse.duration_ms := 5;
|}.

Definition env_with (fault : nat → Fault) : Env := {|
  clock := λ n, Z.of_nat n; fresh_uuid := λ n k, N.of_nat (100 * n + k);
  next_serial := λ n, Z.of_nat n; row_order := λ _ l, l;
  fault := fault;
  get_capabilities := λ _ _, Ok caps;
  post_probe := λ _ _ request, Report (success (first request.(ProbeRequest.kem_groups)));
|}.

Definition env : Env := env_with (λ _, Works).

Definition bases : gmap string string := {[ "openssl" := "http://adapter-openssl:9100" ]}.

Definition test : Test.t := {|
  Test.id := 1; Test.host := "lab"; Test.port := 443; Test.http_path := "/";
  Test.method := "GET"; Test.tool := "pq-dsa"; Test.plugin := "open3x";
  Test.status := TaskStatus.Pending; Test.group_count := 2; Test.sig_alg_count := 1;
  Test.subtask_count := 2; Test.created_at := 0; Test.started_at := None;
  Test.finished_at := None |}.

Definition subtask (id : Uuid) (ordinal : Z) (group : string) : Subtask.t := {|
  Subtask.id := id; Subtask.test_id := 1; Subtask.ordinal := ordinal;
  Subtask.group_name := group; Subtask.sig_alg := "mldsa65";
  Subtask.exec_status := ExecStatus.Queued; Subtask.result_status := ResultStatus.Pending;
  Subtask.report_status := ReportStatus.Missing; Subtask.failed_stage := None;
  Subtask.error_summary := None; Subtask.started_at := None; Subtask.finished_at := None |}.

Definition job (id : Uuid) (group adapter : string) : ProbeJob.t := {|
  ProbeJob.test_id := 1; ProbeJob.subtask_id := id; ProbeJob.host := "lab";
  ProbeJob.port := 443; ProbeJob.http_path := "/"; ProbeJob.adapter := adapter;
  ProbeJob.group_name := group; ProbeJob.sig_alg := "mldsa65"; ProbeJob.timeout_ms := 15000 |}.

Definition world : World := {|
  db := {|
    endpoints := ∅; algorithms := ∅;
    tests := {[ 1%N := test ]};
    subtasks := {[ 10%N := subtask 10 0 "MLKEM768"; 11%N := subtask 11 1 "X25519" ]};
    subtask_reports := ∅; kem_runs := ∅; kem_run_logs := ∅; kem_matrix_cells := ∅;
    cavp_packs := ∅; cavp_sessions := ∅ |};
  streams := []; published := []; acked := []; cache := ∅; steps := 0 |}.

(** A run of the priority mode. *)
#[export] Instance chrono : Chrono := λ t, show t.

Definition kem_run : KemRun.t := {|
  KemRun.id := 7; KemRun.mode := KemRunMode.Priority; KemRun.endpoint_id := 3;
  KemRun.status := TaskStatus.Pending; KemRun.kem_groups := []; KemRun.created_at := 0;
  KemRun.finished_at := None |}.

Definition kem_job : KemJob.t := {|
  KemJob.run_id := 7; KemJob.mode := KemRunMode.Priority; KemJob.host := "lab";
  KemJob.port := 443; KemJob.kem_groups := ["MLKEM768"; "X25519"] |}.

Definition kem_world : World := {|
  db := {|
    endpoints := ∅; algorithms := ∅;
    tests := ∅; subtasks := ∅; subtask_reports := ∅; kem_runs := {[ 7%N := kem_run ]};
    kem_run_logs := ∅; kem_matrix_cells := ∅;
    cavp_packs := ∅; cavp_sessions := ∅ |};
  streams := []; published := []; acked := []; cache := ∅; steps := 0 |}.

End Lab.
