(* ===== verification/ProbeFacts.v ===== *)
(** * What handling a subtask achieves

    [Probe.handle] run on its own: both branches when the database works, and what a
    successful return means when statements may fail. *)

From S2P Require Import Prelude RustStr Json Proto Status Domain Effects World Store Registry.
From S2P Require Import Probe Fixtures.

Section handle.
Context {J : SerdeJson} {RJ : ReportJson} {U : UuidDisplay}.
Context (env : Env) (bases : gmap string string).

(** What the worker gets when it asks for the capabilities at the [n]th operation. *)
Definition caps_answer (cached : gmap string Capabilities.t) (n : nat) (adapter : string)
    : result string Capabilities.t :=
  match cached !! adapter with
  | Some caps => Ok caps
  | None =>
      match bases !! adapter with
      | Some base => env.(get_capabilities) n (base +:+ "/capabilities")
      | None => Err (not_configured adapter)
      end
  end.

Lemma run_capabilities adapter w :
  ∃ w', run (capabilities env bases adapter) w
        = (caps_answer w.(cache) (S w.(steps)) adapter, w') ∧ same_tables w w'.
Proof.
  pose proof (run_quiet (capabilities env bases adapter) w) as Ht.
  exists (run (capabilities env bases adapter) w).2. split; [|done]. clear Ht.
  unfold capabilities, caps_answer. rewrite run_bind, run_call. cbn [cache_get].
  destruct (cache w !! adapter) as [caps|]; [done|]. destruct (bases !! adapter); [|done].
  rewrite run_bind, run_call. unfold http_get. simpl.
  by destruct (get_capabilities _ _ _).
Qed.

(** The messages a subtask publishes: its own, and the end of the test if nothing of it is
    outstanding in the tables [d]. *)
Definition announcements (job : ProbeJob.t) (exec : ExecStatus.t) (result : ResultStatus.t)
    (d : Db) : list (string * Event) :=
  let channel := test_channel job.(ProbeJob.test_id) in
  let c := conclusion job.(ProbeJob.test_id) d in
  (channel, Test_event (TestEvent.SubtaskUpdated job.(ProbeJob.subtask_id) exec result
                          job.(ProbeJob.group_name) job.(ProbeJob.sig_alg)))
  :: (if all_done job.(ProbeJob.test_id) d
      then [(channel, Test_event (TestEvent.TestFinished job.(ProbeJob.test_id)
                                    (as_u32 c.1.2) (as_u32 c.2)))]
      else []).

(** The tables after [finish]: the test is closed if nothing of it is outstanding. *)
Definition closed_if_done (test_id : Uuid) (at_ : DateTime) (d : Db) : Db :=
  if all_done test_id d
  then with_tests (alter (test_closed (conclusion test_id d).1.1 at_) test_id) d
  else d.

Context (Hr : reliable env).

Lemma run_finish job w :
  ∃ w', run (finish env job) w = (Ok tt, w') ∧
    w'.(db) = closed_if_done job.(ProbeJob.test_id) (env.(clock) (S w.(steps))) w.(db) ∧
    w'.(published) = w.(published)
      ++ tail (announcements job ExecStatus.Finished ResultStatus.Passed w.(db)).
Proof.
  unfold finish, closed_if_done, announcements. rewrite run_bind, run_finish_test_if_done by done.
  cbn [tail]. destruct (all_done _ _).
  - cbv zeta. rewrite run_call, redis_publish_works by done. by eexists.
  - eexists. split; [done|]. by rewrite app_nil_r.
Qed.

Lemma run_publish_finish job exec result w :
  ∃ w', run (bind (publish env job exec result) (λ _, finish env job)) w = (Ok tt, w') ∧
    w'.(db) = closed_if_done job.(ProbeJob.test_id) (env.(clock) (S (S w.(steps)))) w.(db) ∧
    w'.(published) = w.(published) ++ announcements job exec result w.(db).
Proof.
  unfold publish. rewrite run_bind, run_call, redis_publish_works by done.
  match goal with |- context [run (finish env job) ?w1] => destruct (run_finish job w1) as (w' & -> & Hd & Hp) end.
  exists w'. split; [done|]. split; [done|]. rewrite Hp. cbn [published set_published].
  rewrite <-app_assoc. done.
Qed.

(** The row of a subtask that was reported on: started at [t1],
    finished at [t2], with the result and what the response says. *)
Definition finished_row (result : ResultStatus.t) (response : ProbeResponse.t) (t1 t2 : DateTime)
    (s : Subtask.t) : Subtask.t := {|
  Subtask.id := s.(Subtask.id); Subtask.test_id := s.(Subtask.test_id);
  Subtask.ordinal := s.(Subtask.ordinal); Subtask.group_name := s.(Subtask.group_name);
  Subtask.sig_alg := s.(Subtask.sig_alg);
  Subtask.exec_status := ExecStatus.Finished; Subtask.result_status := result;
  Subtask.report_status :=
    if decide (response.(ProbeResponse.handshake_success) = false ∧
               length response.(ProbeResponse.messages) = 0)
    then ReportStatus.Partial else ReportStatus.Complete;
  Subtask.failed_stage := Some (Stage.as_str response.(ProbeResponse.failed_stage));
  Subtask.error_summary := response.(ProbeResponse.error_summary);
  Subtask.started_at := Some t1; Subtask.finished_at := Some t2;
|}.

Lemma finished_row_eq result response t1 t2 s :
  (reported result response t2 ∘ subtask_running t1) s = finished_row result response t1 t2 s.
Proof.
  unfold finished_row, reported, report_status_of. cbn. f_equal.
  destruct (ProbeResponse.handshake_success response), (ProbeResponse.messages response); done.
Qed.

(** A row that errored on our side. *)
Definition errored_row (reason : string) (t1 t2 : DateTime) (s : Subtask.t) : Subtask.t := {|
  Subtask.id := s.(Subtask.id); Subtask.test_id := s.(Subtask.test_id);
  Subtask.ordinal := s.(Subtask.ordinal); Subtask.group_name := s.(Subtask.group_name);
  Subtask.sig_alg := s.(Subtask.sig_alg);
  Subtask.exec_status := ExecStatus.Error; Subtask.result_status := ResultStatus.Failed;
  Subtask.report_status := ReportStatus.Missing;
  Subtask.failed_stage := s.(Subtask.failed_stage); Subtask.error_summary := Some reason;
  Subtask.started_at := Some t1; Subtask.finished_at := Some t2;
|}.

(** What handling [job] leaves: its row is [row] and no other changed, the reports are
    [reports], the test was marked running and, if it has nothing outstanding now, closed,
    and the events were published. *)
Record handled (job : ProbeJob.t) (exec : ExecStatus.t) (result : ResultStatus.t)
    (row : Subtask.t) (reports : gmap Uuid SubtaskReport.t) (t0 t3 : DateTime)
    (w w' : World) : Prop := {
  handled_row : w'.(db).(subtasks) = <[job.(ProbeJob.subtask_id) := row]> w.(db).(subtasks);
  handled_reports : w'.(db).(subtask_reports) = reports;
  handled_test : w'.(db).(tests) = alter (λ x,
    if all_done job.(ProbeJob.test_id) w'.(db)
    then test_closed (conclusion job.(ProbeJob.test_id) w'.(db)).1.1 t3 (test_running t0 x)
    else test_running t0 x) job.(ProbeJob.test_id) w.(db).(tests);
  handled_events : w'.(published) = w.(published) ++ announcements job exec result w'.(db);
}.

Lemma closed_if_done_rows test_id at_ d :
  (closed_if_done test_id at_ d).(subtasks) = d.(subtasks) ∧
  (closed_if_done test_id at_ d).(subtask_reports) = d.(subtask_reports).
Proof. unfold closed_if_done. by destruct (all_done _ _). Qed.

Lemma announcements_rows job exec result d d' :
  d'.(subtasks) = d.(subtasks) → announcements job exec result d' = announcements job exec result d.
Proof.
  intros Hd. unfold announcements, all_done, conclusion, rows_of, subtasks_of. by rewrite Hd.
Qed.

(** The end of both branches. *)
Lemma publish_finish_handled job exec result row t0 w w1 :
  w1.(db).(subtasks) = <[job.(ProbeJob.subtask_id) := row]> w.(db).(subtasks) →
  w1.(db).(tests) = alter (test_running t0) job.(ProbeJob.test_id) w.(db).(tests) →
  w1.(published) = w.(published) →
  ∃ w' t3,
    run (bind (publish env job exec result) (λ _, finish env job)) w1 = (Ok tt, w') ∧
    handled job exec result row w1.(db).(subtask_reports) t0 t3 w w'.
Proof.
  intros Hs Ht Hp. destruct (run_publish_finish job exec result w1) as (w' & Hrun & Hd & He).
  set (t3 := clock env _) in Hd. exists w', t3. split; [done|].
  destruct (closed_if_done_rows job.(ProbeJob.test_id) t3 w1.(db)) as [H1 H2].
  rewrite <-Hd in H1, H2. split; [congruence|done| |].
  - unfold all_done, conclusion, rows_of, subtasks_of. rewrite H1, Hd.
    unfold closed_if_done, all_done, rows_of, subtasks_of.
    destruct (negb _); cbn [tests with_tests]; [|done]. by rewrite Ht, alter_alter_eq.
  - by rewrite He, Hp, (announcements_rows _ _ _ _ _ H1).
Qed.

End handle.

(** ** When statements may fail *)

Section faults.
Context {J : SerdeJson} {RJ : ReportJson} {U : UuidDisplay}.
Context (env : Env) (bases : gmap string string).

(** The subtask has a row that is not queued or running, if it has a row at all. *)
Definition settled (id : Uuid) (w : World) : Prop :=
  ∀ s, w.(db).(subtasks) !! id = Some s → outstanding s = false.

Definition same_subtasks (w w' : World) : Prop := w'.(db).(subtasks) = w.(db).(subtasks).

(** Hoare triple of a program that returns. *)
Definition ensures {A} (p : prog World A) (w : World) (Q : A → World → Prop) : Prop :=
  match run p w with
  | (Ok a, w') => Q a w'
  | (Err _, _) => True
  end.

Lemma ensures_bind {A B} (p : prog World A) (f : A → prog World B) w Q :
  ensures p w (λ a w', ensures (f a) w' Q) → ensures (bind p f) w Q.
Proof. unfold ensures. rewrite run_bind. by destruct (run p w) as [[a|e] w']. Qed.

Lemma ensures_impl {A} (p : prog World A) w (Q Q' : A → World → Prop) :
  ensures p w Q → (∀ a w', Q a w' → Q' a w') → ensures p w Q'.
Proof. unfold ensures. destruct (run p w) as [[a|e] w']; auto. Qed.

Lemma ensures_sql {X} (q : DateTime → Db → result string (X * Db)) w (Q : X → World → Prop) :
  (∀ x d, q (env.(clock) w.(steps)) w.(db) = Ok (x, d) → Q x (set_db d w)) →
  ensures (call (sql env q)) w Q.
Proof.
  unfold ensures. rewrite run_call. intros HQ. unfold sql.
  destruct (fault env _), (q _ _) as [[x d]|e]; auto.
Qed.

Lemma ensures_publish channel event w :
  ensures (call (redis_publish env channel event)) w
    (λ _ w', same_subtasks w w' ∧ (channel, event) ∈ w'.(published)).
Proof.
  unfold ensures. rewrite run_call. unfold redis_publish.
  destruct (fault env _); [|done..]. split; [done|]. set_solver.
Qed.

Lemma ensures_finish job w Q :
  (∀ w', same_subtasks w w' → w.(published) ⊆ w'.(published) → Q tt w') →
  ensures (finish env job) w Q.
Proof.
  intros HQ. apply ensures_bind. unfold finish_test_if_done.
  apply ensures_bind, ensures_sql. intros [[[[o p] f] e] t] d Hc.
  assert (d = w.(db)) as -> by congruence. clear Hc.
  destruct (0 <? o)%Z; [by apply HQ|].
  apply ensures_bind, ensures_sql. intros [] d [= <-]. unfold ensures. cbn [run].
  rewrite run_call. unfold redis_publish.
  destruct (fault env _); [apply HQ; [done|]; set_solver|done..].
Qed.

Lemma settled_alter (f : Subtask.t → Subtask.t) id w d :
  (∀ s, outstanding (f s) = false) → d.(subtasks) = alter f id w.(db).(subtasks) →
  settled id (set_db d w).
Proof.
  intros Hf Hd s. cbn [db set_db]. rewrite Hd, lookup_alter_eq.
  destruct (_ !! id); [|done]. by intros [= <-].
Qed.

Lemma ensures_report job exec result w :
  settled job.(ProbeJob.subtask_id) w →
  ensures (bind (publish env job exec result) (λ _, finish env job)) w
    (λ _ w', settled job.(ProbeJob.subtask_id) w' ∧
       (test_channel job.(ProbeJob.test_id),
        Test_event (TestEvent.SubtaskUpdated job.(ProbeJob.subtask_id) exec result
                      job.(ProbeJob.group_name) job.(ProbeJob.sig_alg))) ∈ w'.(published)).
Proof.
  intros Hs. apply ensures_bind. eapply ensures_impl; [apply ensures_publish|].
  intros [] w1 [H1 He]. apply ensures_finish. intros w2 H2 Hp. split; [|by apply Hp].
  unfold settled, same_subtasks in *. by rewrite H2, H1.
Qed.

End faults.

Section theorems.
Context {J : SerdeJson} {RJ : ReportJson} {U : UuidDisplay}.
Context (env : Env) (bases : gmap string string).

(** A configured adapter: the subtask ends [finished] with the verdict of [classify] on
    the adapter's answer (the raw outcome if its capabilities cannot be had), the report is
    stored next to it, one [SubtaskUpdated] event is published, and, when nothing of the
    test is outstanding any more, the test is closed and one [TestFinished] with the counts
    of the table follows. An adapter that cannot be reached is an answer like any other. *)
Theorem handle_configured job w s base :
  reliable env →
  bases !! job.(ProbeJob.adapter) = Some base →
  w.(db).(subtasks) !! job.(ProbeJob.subtask_id) = Some s →
  let response := response_of job.(ProbeJob.adapter)
    (env.(post_probe) (2 + w.(steps)) (base +:+ "/probe") (request_of job)) in
  let result :=
    match caps_answer env bases w.(cache) (4 + w.(steps)) job.(ProbeJob.adapter) with
    | Ok caps => classify response [job.(ProbeJob.group_name); job.(ProbeJob.sig_alg)] caps
    | Err _ => if response.(ProbeResponse.handshake_success)
               then ResultStatus.Passed else ResultStatus.Failed
    end in
  ∃ t0 t1 t2 t3 w',
    run (handle env bases job) w = (Ok tt, w') ∧
    handled job ExecStatus.Finished result (finished_row result response t1 t2 s)
      (<[job.(ProbeJob.subtask_id) := report_row job.(ProbeJob.subtask_id) response]>
         w.(db).(subtask_reports)) t0 t3 w w'.
Proof.
  intros Hr Hb Hs response result. unfold handle.
  rewrite run_bind, run_mark_test_running by done.
  rewrite run_bind, run_mark_subtask_running by done.
  rewrite (proj2 (is_configured_spec bases _)) by eauto. cbn [negb].
  rewrite run_bind, run_probe, Hb. fold response.
  match goal with |- context [response_of _ ?r] => change (response_of _ r) with response end.
  rewrite run_bind, run_attempt.
  match goal with |- context [run (capabilities env bases _) ?w1] =>
    destruct (run_capabilities env bases job.(ProbeJob.adapter) w1) as (w2 & Hc & Hd & Hp & _)
  end.
  rewrite Hc. cbn [fst snd].
  match goal with |- context [result_of job response ?c] => change (result_of job response c) with result end.
  cbv zeta.
  rewrite run_bind, run_save_report; [|done|].
  2: { rewrite Hd. cbn [db set_db tick with_subtasks subtasks with_tests].
       rewrite lookup_alter_eq, Hs. eauto. }
  match goal with |- context [run (bind (publish _ _ _ _) _) ?w3] =>
    destruct (publish_finish_handled env Hr job ExecStatus.Finished result
      (finished_row result response (env.(clock) (S w.(steps))) (env.(clock) w2.(steps)) s)
      (env.(clock) w.(steps)) w w3) as (w' & t3 & Hrun & Hh)
  end.
  - cbn [db set_db subtasks with_subtasks with_reports]. rewrite Hd.
    cbn [db set_db tick subtasks with_subtasks with_tests].
    by rewrite alter_alter_eq, (alter_some _ _ _ s), finished_row_eq by done.
  - cbn [db set_db tests with_subtasks with_reports]. by rewrite Hd.
  - cbn [published set_db]. by rewrite Hp.
  - eexists _, _, _, _, w'. split; [exact Hrun|].
    cbn [db set_db subtask_reports with_subtasks with_reports] in Hh. rewrite Hd in Hh. exact Hh.
Qed.

(** An adapter that is not configured: the event tells the browser [disabled], the row
    of the subtask says [failed]. The subtask is over, has no report, and counts towards
    closing the test. *)
Theorem handle_unconfigured job w s :
  reliable env →
  bases !! job.(ProbeJob.adapter) = None →
  w.(db).(subtasks) !! job.(ProbeJob.subtask_id) = Some s →
  ∃ t0 t1 t2 t3 w',
    run (handle env bases job) w = (Ok tt, w') ∧
    handled job ExecStatus.Error ResultStatus.Disabled
      (errored_row ("adapter " +:+ job.(ProbeJob.adapter) +:+ " is not enabled in this deployment")
         t1 t2 s) w.(db).(subtask_reports) t0 t3 w w'.
Proof.
  intros Hr Hb Hs. unfold handle.
  rewrite run_bind, run_mark_test_running by done.
  rewrite run_bind, run_mark_subtask_running by done.
  unfold is_configured. rewrite Hb. cbn [negb].
  rewrite run_bind, run_mark_subtask_error by done.
  match goal with |- context [run (bind (publish _ _ _ _) _) ?w3] =>
    destruct (publish_finish_handled env Hr job ExecStatus.Error ResultStatus.Disabled
      (errored_row (not_enabled job) (env.(clock) (S w.(steps))) (env.(clock) (S (S w.(steps)))) s)
      (env.(clock) w.(steps)) w w3) as (w' & t3 & Hrun & Hh)
  end; [|done|done|].
  - cbn [db set_db subtasks with_subtasks with_tests].
    by rewrite alter_alter_eq, (alter_some _ _ _ s) by done.
  - eexists _, _, _, _, w'. split; [exact Hrun|exact Hh].
Qed.

(** Whatever fails underneath, a [handle] that returns [Ok] has settled its subtask, and
    said so: the row is neither queued nor running, and its event is published. *)
Theorem handle_ok_settles job w w' :
  run (handle env bases job) w = (Ok tt, w') →
  settled job.(ProbeJob.subtask_id) w' ∧
  ∃ exec result,
    (test_channel job.(ProbeJob.test_id),
     Test_event (TestEvent.SubtaskUpdated job.(ProbeJob.subtask_id) exec result
                   job.(ProbeJob.group_name) job.(ProbeJob.sig_alg))) ∈ w'.(published).
Proof.
  intros Hrun.
  assert (He : ensures (handle env bases job) w (λ _ w', settled job.(ProbeJob.subtask_id) w' ∧
    ∃ exec result,
      (test_channel job.(ProbeJob.test_id),
       Test_event (TestEvent.SubtaskUpdated job.(ProbeJob.subtask_id) exec result
                     job.(ProbeJob.group_name) job.(ProbeJob.sig_alg))) ∈ w'.(published)));
    [|unfold ensures in He; by rewrite Hrun in He].
  unfold handle. apply ensures_bind, ensures_sql. intros [] d _.
  apply ensures_bind, ensures_sql. intros [] d' _.
  destruct (negb _).
  - apply ensures_bind, ensures_sql. intros [] d2 [= <-].
    eapply ensures_impl; [apply ensures_report; eapply settled_alter; [|reflexivity]; done|]. naive_solver.
  - apply ensures_bind. unfold ensures at 1. rewrite run_probe.
    destruct (bases !! _); apply ensures_bind; unfold ensures at 1; rewrite run_attempt;
      (apply ensures_bind, ensures_sql; intros [] d2 Hq;
       destruct (subtasks _ !! _); [|done]; injection Hq as <-;
       eapply ensures_impl; [apply ensures_report; eapply settled_alter; [|reflexivity]; done|]; naive_solver).
Qed.

End theorems.

Module ProbeWitness.
Import Fixtures.Lab.

Lemma handle_configured_witness :
  ∃ t0 t1 t2 t3 w',
    run (handle env bases (job 10 "MLKEM768" "openssl")) world = (Ok tt, w') ∧
    handled (job 10 "MLKEM768" "openssl") ExecStatus.Finished ResultStatus.Passed
      (finished_row ResultStatus.Passed (success (Some "MLKEM768")) t1 t2 (subtask 10 0 "MLKEM768"))
      {[ 10%N := report_row 10 (success (Some "MLKEM768")) ]} t0 t3 world w'.
Proof.
  apply (handle_configured env bases (job 10 "MLKEM768" "openssl") world
           (subtask 10 0 "MLKEM768") "http://adapter-openssl:9100"); [done|reflexivity..].
Defined.

Lemma handle_unconfigured_witness :
  ∃ t0 t1 t2 t3 w',
    run (handle env bases (job 10 "MLKEM768" "nss")) world = (Ok tt, w') ∧
    handled (job 10 "MLKEM768" "nss") ExecStatus.Error ResultStatus.Disabled
      (errored_row "adapter nss is not enabled in this deployment" t1 t2
         (subtask 10 0 "MLKEM768")) ∅ t0 t3 world w'.
Proof.
  apply (handle_unconfigured env bases (job 10 "MLKEM768" "nss") world
           (subtask 10 0 "MLKEM768")); [done|reflexivity..].
Defined.

(** Losing the reply to the first statement is harmless only in that the job fails; here
    every statement works. *)
Lemma handle_ok_settles_witness :
  settled 10 (run (handle env bases (job 10 "MLKEM768" "openssl")) world).2.
Proof.
  apply (handle_ok_settles env bases (job 10 "MLKEM768" "openssl") world).
  apply run_pair. vm_compute. reflexivity.
Defined.

(** One lost connection when the report is published: the job fails and is acknowledged,
    and with the other subtask done the test still has nothing outstanding, yet is never
    closed. *)
Lemma redis_error_leaves_test_open :
  let broken := env_with (λ n, if n =? 7 then FailsBefore "connection reset" else Works) in
  let world1 := (run (handle env bases (job 11 "X25519" "openssl")) world).2 in
  let r := run (handle broken bases (job 10 "MLKEM768" "openssl"))
             {| db := world1.(db); streams := []; published := []; acked := []; cache := ∅; steps := 0 |} in
  r.1 = Err "connection reset" ∧
  all_done 1 r.2.(db) = true ∧
  Test.status <$> r.2.(db).(tests) !! 1%N = Some TaskStatus.Running.
Proof. vm_compute. done. Qed.

End ProbeWitness.
