(* ===== verification/Protocol.v ===== *)
(** * Closing a test: the protocol of the concurrent handlers

    The worker runs several [probe::handle] at once ([main.rs], one task per delivery), and
    they share one test row: whichever finds nothing outstanding closes the test. A job may
    be delivered more than once, so several handlers may work on one subtask. This file is
    the specification of that protocol. A handler is in one of five phases; a step of the
    protocol says what a handler may do to the tables in each. [Concurrency] shows that the
    code refines it. *)

From S2P Require Import Prelude Json Proto Status Domain Effects World Store.

Section protocol.
Context {J : SerdeJson} {RJ : ReportJson} {U : UuidDisplay}.

(** The jobs this deployment has no adapter for. *)
Context (broken : ProbeJob.t → bool).

Inductive phase :=
| Working
| Saved
| Closing (status : TaskStatus.t) (passed failed : Z)
| Announcing (passed failed : Z)
| Over.

#[export] Instance phase_eq_dec : EqDecision phase.
Proof. solve_decision. Defined.

Definition finished_event (test_id : Uuid) (passed failed : Z) : string * Event :=
  (test_channel test_id,
   Test_event (TestEvent.TestFinished test_id (as_u32 passed) (as_u32 failed))).

(** What a step leaves alone. *)
Definition same_rows (w w' : World) : Prop := w'.(db).(subtasks) = w.(db).(subtasks).
Definition same_tests (w w' : World) : Prop := w'.(db).(tests) = w.(db).(tests).
Definition more_events (w w' : World) : Prop := w.(published) ⊆ w'.(published).

(** A change of one subtask row, within its test, that leaves it as [P] says. *)
Definition row_update (id : Uuid) (P : Subtask.t → Prop) (w w' : World) : Prop :=
  ∃ f : Subtask.t → Subtask.t,
    w'.(db).(subtasks) = alter f id w.(db).(subtasks) ∧
    (∀ s, (f s).(Subtask.test_id) = s.(Subtask.test_id)) ∧ (∀ s, P (f s)).

Definition runs (s : Subtask.t) : Prop := outstanding s = true.
Definition settles (error : bool) (s : Subtask.t) : Prop :=
  outstanding s = false ∧ is_errored s = error.

Inductive move (job : ProbeJob.t) (w w' : World) : phase → phase → Prop :=
| move_quiet ph :
    same_rows w w' → same_tests w w' → more_events w w' → move job w w' ph ph
| move_start at_ :
    same_rows w w' → more_events w w' →
    w'.(db).(tests) = alter (test_running at_) job.(ProbeJob.test_id) w.(db).(tests) →
    move job w w' Working Working
| move_run :
    row_update job.(ProbeJob.subtask_id) runs w w' → same_tests w w' → more_events w w' →
    move job w w' Working Working
| move_save :
    row_update job.(ProbeJob.subtask_id) (settles (broken job)) w w' → same_tests w w' →
    more_events w w' →
    move job w w' Working Saved
| move_not_done :
    all_done job.(ProbeJob.test_id) w.(db) = false →
    same_rows w w' → same_tests w w' → more_events w w' →
    move job w w' Saved Over
| move_done :
    all_done job.(ProbeJob.test_id) w.(db) = true →
    same_rows w w' → same_tests w w' → more_events w w' →
    let c := conclusion job.(ProbeJob.test_id) w.(db) in
    move job w w' Saved (Closing c.1.1 c.1.2 c.2)
| move_close status passed failed at_ :
    same_rows w w' → more_events w w' →
    w'.(db).(tests) = alter (test_closed status at_) job.(ProbeJob.test_id) w.(db).(tests) →
    move job w w' (Closing status passed failed) (Announcing passed failed)
| move_announce passed failed :
    same_rows w w' → same_tests w w' → more_events w w' →
    finished_event job.(ProbeJob.test_id) passed failed ∈ w'.(published) →
    move job w w' (Announcing passed failed) Over.

(** The handlers of the deliveries, each with its job and its phase. *)
Definition threads : Type := list (ProbeJob.t * phase).

Inductive proto_step : World * threads → World * threads → Prop :=
| proto_step_at w w' l1 job ph ph' l2 :
    move job w w' ph ph' →
    proto_step (w, l1 ++ (job, ph) :: l2) (w', l1 ++ (job, ph') :: l2).

(** ** The invariant *)

Definition row_of (job : ProbeJob.t) (d : Db) (s : Subtask.t) : Prop :=
  d.(subtasks) !! job.(ProbeJob.subtask_id) = Some s ∧
  s.(Subtask.test_id) = job.(ProbeJob.test_id).

(** The row of the test carries the status its subtasks call for. *)
Definition closed (test_id : Uuid) (d : Db) : Prop :=
  ∃ x, d.(tests) !! test_id = Some x ∧
       x.(Test.status) = (conclusion test_id d).1.1.

(** The handler of a job has a row of a test to work on. *)
Definition placed (d : Db) (job : ProbeJob.t) : Prop :=
  is_Some (d.(tests) !! job.(ProbeJob.test_id)) ∧ ∃ s, row_of job d s.

(** How a test will end is settled beforehand: which of its subtasks break depends on their
    jobs alone, whatever the order and the number of deliveries. [ids] are its subtasks. *)
Context (test_id : Uuid) (kind : Uuid → bool) (ids : gset Uuid).

Definition verdict : TaskStatus.t :=
  if decide (ids ≠ ∅ ∧ set_Forall (λ id, kind id = true) ids)
  then TaskStatus.Failed else TaskStatus.Finished.

Definition counts (d : Db) : Z * Z := ((conclusion test_id d).1.2, (conclusion test_id d).2).

Definition thread_ok (d : Db) (t : ProbeJob.t * phase) : Prop :=
  placed d t.1 ∧
  (t.1.(ProbeJob.test_id) = test_id →
     kind t.1.(ProbeJob.subtask_id) = broken t.1 ∧
     match t.2 with
     | Closing status _ _ => status = verdict
     | _ => True
     end).

(** Some handler still has work to do on the subtask. *)
Definition worked_on (id : Uuid) (ths : threads) : Prop :=
  ∃ job, (job, Working) ∈ ths ∧ job.(ProbeJob.subtask_id) = id.

(** Some handler of the test is still going to look at it, or is about to close it with
    the counts of its rows. *)
Definition in_charge (d : Db) (ths : threads) : Prop :=
  ∃ job ph, (job, ph) ∈ ths ∧ job.(ProbeJob.test_id) = test_id ∧
    match ph with
    | Working | Saved => True
    | Closing _ passed failed => (passed, failed) = counts d
    | _ => False
    end.

Definition decided (d : Db) : Prop :=
  ∃ x, d.(tests) !! test_id = Some x ∧ x.(Test.status) = verdict.

Definition announced (w : World) (ths : threads) : Prop :=
  (∃ job passed failed, (job, Announcing passed failed) ∈ ths ∧
     job.(ProbeJob.test_id) = test_id ∧ (passed, failed) = counts w.(db)) ∨
  finished_event test_id (counts w.(db)).1 (counts w.(db)).2 ∈ w.(published).

Record proto_inv (c : World * threads) : Prop := {
  inv_threads : Forall (thread_ok c.1.(db)) c.2;
  inv_ids : dom (subtasks_of test_id c.1.(db)) = ids;
  inv_rows : ∀ id s, c.1.(db).(subtasks) !! id = Some s → s.(Subtask.test_id) = test_id →
    if outstanding s then worked_on id c.2 else is_errored s = kind id;
  inv_done : all_done test_id c.1.(db) = true →
    in_charge c.1.(db) c.2 ∨ decided c.1.(db) ∧ announced c.1 c.2;
}.

(** ** The verdict *)

Lemma elem_of_subtasks id d :
  id ∈ dom (subtasks_of test_id d) ↔
  ∃ s, d.(subtasks) !! id = Some s ∧ s.(Subtask.test_id) = test_id.
Proof.
  rewrite elem_of_dom. unfold subtasks_of, is_Some. by setoid_rewrite map_lookup_filter_Some.
Qed.

(** A test that is done has the status fixed from the beginning. *)
Lemma verdict_conclusion d :
  dom (subtasks_of test_id d) = ids →
  (∀ id s, d.(subtasks) !! id = Some s → s.(Subtask.test_id) = test_id →
     is_errored s = kind id) →
  (conclusion test_id d).1.1 = verdict.
Proof.
  intros Hids Hkind. unfold conclusion, verdict. cbn [fst].
  assert (Hrow : ∀ s, s ∈ rows_of test_id d ↔
            ∃ id, d.(subtasks) !! id = Some s ∧ s.(Subtask.test_id) = test_id)
    by (intros; apply elem_of_rows_of).
  apply decide_ext. rewrite <-Hids. split; intros [Hne Hall]; split.
  - destruct (rows_of test_id d) as [|s rows]; [done|].
    destruct (proj1 (Hrow s)) as (id & Hs & Ht); [by left|]. intros He.
    assert (id ∈ dom (subtasks_of test_id d)) by (apply elem_of_subtasks; eauto). set_solver.
  - intros id (s & Hs & Ht)%elem_of_subtasks. rewrite Forall_forall in Hall.
    rewrite <-(Hkind id s Hs Ht). apply bool_decide_eq_true, Hall, Hrow. eauto.
  - intros Hnil. rewrite Hnil in Hrow. apply Hne. apply set_eq. intros id. split; [|set_solver].
    intros (s & Hs & Ht)%elem_of_subtasks. assert (s ∈ []) by (apply Hrow; eauto). set_solver.
  - apply Forall_forall. intros s (id & Hs & Ht)%Hrow.
    apply (bool_decide_eq_true (s.(Subtask.exec_status) = ExecStatus.Error)).
    change (is_errored s = true). rewrite (Hkind id s Hs Ht). apply Hall, elem_of_subtasks. eauto.
Qed.

Lemma inv_verdict w ths :
  proto_inv (w, ths) → all_done test_id w.(db) = true →
  (conclusion test_id w.(db)).1.1 = verdict.
Proof.
  intros [_ Hids Hrows _] Hd. cbn [fst snd] in *. apply verdict_conclusion; [done|].
  intros id s Hs Ht. specialize (Hrows id s Hs Ht).
  by rewrite (proj1 (all_done_spec _ _) Hd id s Hs Ht) in Hrows.
Qed.

(** ** Frame lemmas *)

Lemma conclusion_frame id d d' :
  subtasks_of id d' = subtasks_of id d →
  all_done id d' = all_done id d ∧ conclusion id d' = conclusion id d.
Proof. intros Hs. unfold all_done, conclusion, rows_of. by rewrite Hs. Qed.

Lemma same_rows_frame id w w' :
  same_rows w w' → subtasks_of id w'.(db) = subtasks_of id w.(db).
Proof. unfold same_rows, subtasks_of. by intros ->. Qed.

Lemma row_update_lookup id P w w' s :
  row_update id P w w' → w.(db).(subtasks) !! id = Some s →
  ∃ s', w'.(db).(subtasks) !! id = Some s' ∧
    s'.(Subtask.test_id) = s.(Subtask.test_id) ∧ P s'.
Proof. intros (f & Hf & Ht & Ho) Hs. exists (f s). by rewrite Hf, lookup_alter_eq, Hs. Qed.

Lemma row_update_other id P w w' id' :
  row_update id P w w' → id ≠ id' →
  w'.(db).(subtasks) !! id' = w.(db).(subtasks) !! id'.
Proof. intros (f & Hf & _) Hne. by rewrite Hf, lookup_alter_ne. Qed.

(** Nothing that concerns the test. *)
Definition untouched (w w' : World) : Prop :=
  subtasks_of test_id w'.(db) = subtasks_of test_id w.(db) ∧
  w'.(db).(tests) !! test_id = w.(db).(tests) !! test_id ∧ more_events w w'.

Lemma untouched_decided w w' : untouched w w' → decided w.(db) → decided w'.(db).
Proof. intros (_ & Ht & _). unfold decided. by rewrite Ht. Qed.

Lemma untouched_counts w w' :
  subtasks_of test_id w'.(db) = subtasks_of test_id w.(db) → counts w'.(db) = counts w.(db).
Proof. intros Hs. unfold counts. by destruct (conclusion_frame _ _ _ Hs) as [_ ->]. Qed.

(** A thread replaced by its next phase. *)
Lemma elem_of_middle {A} (l1 l2 : list A) t t' x :
  x ∈ l1 ++ t :: l2 → x = t ∨ x ∈ l1 ++ t' :: l2.
Proof. set_solver. Qed.

Section move.
Context (job : ProbeJob.t) (ph ph' : phase) (w w' : World).
Context (Hm : move job w w' ph ph').

Lemma move_events : more_events w w'.
Proof. by destruct Hm. Qed.

(** The rows: no change, or the row of the subtask is running or settled. *)
Lemma move_rows :
  same_rows w w' ∨
  (∃ error, row_update job.(ProbeJob.subtask_id) (λ s, runs s ∨ settles error s) w w').
Proof.
  destruct Hm as [| | (f & Hf & Ht & HP) _ _ | (f & Hf & Ht & HP) _ _ | | | | ]; try by left.
  - right. exists true. exists f. split_and!; [done|done|]. intros s. left. apply HP.
  - right. exists (broken job). exists f. split_and!; [done|done|]. intros s. right. apply HP.
Qed.

(** Any row stays where it is and in its test. *)
Lemma move_row id s :
  w.(db).(subtasks) !! id = Some s →
  ∃ s', w'.(db).(subtasks) !! id = Some s' ∧ s'.(Subtask.test_id) = s.(Subtask.test_id).
Proof.
  intros Hs. destruct move_rows as [Hr|[e Hr]]; [unfold same_rows in Hr; rewrite Hr; by exists s|].
  destruct (decide (job.(ProbeJob.subtask_id) = id)) as [<-|Hne].
  - destruct (row_update_lookup _ _ _ _ _ Hr Hs) as (s' & ? & ? & _). by exists s'.
  - rewrite (row_update_other _ _ _ _ _ Hr Hne). by exists s.
Qed.

Lemma move_row_back id s' :
  w'.(db).(subtasks) !! id = Some s' →
  ∃ s, w.(db).(subtasks) !! id = Some s ∧ s'.(Subtask.test_id) = s.(Subtask.test_id).
Proof.
  intros Hs. destruct move_rows as [Hr|[e (f & Hf & Ht & _)]].
  - unfold same_rows in Hr. rewrite Hr in Hs. by exists s'.
  - rewrite Hf in Hs. destruct (decide (job.(ProbeJob.subtask_id) = id)) as [<-|Hne].
    + rewrite lookup_alter_eq in Hs. destruct (_ !! _) as [s|]; [|done].
      injection Hs as <-. exists s. split; [done|apply Ht].
    + rewrite lookup_alter_ne in Hs by done. by exists s'.
Qed.

Lemma move_ids : dom (subtasks_of test_id w'.(db)) = dom (subtasks_of test_id w.(db)).
Proof.
  apply set_eq. intros id. rewrite !elem_of_subtasks. split; intros (s & Hs & Ht).
  - apply move_row_back in Hs as (s' & Hs' & Ht'). exists s'. split; [done|congruence].
  - apply move_row in Hs as (s' & Hs' & Ht'). exists s'. split; [done|congruence].
Qed.

Lemma move_placed job' : placed w.(db) job' → placed w'.(db) job'.
Proof.
  intros [[x Hx] (s & Hs & Ht)]. split.
  - destruct Hm; unfold same_tests in *;
      match goal with
      | H : w'.(db).(tests) = _ |- _ => rewrite H
      end; rewrite ?lookup_alter_is_Some; eauto.
  - apply move_row in Hs as (s' & Hs' & Ht'). exists s'. split; [done|congruence].
Qed.

(** Handlers of other tests do not concern this one. *)
Lemma move_untouched :
  placed w.(db) job → job.(ProbeJob.test_id) ≠ test_id → untouched w w'.
Proof.
  intros [_ (s & Hs & Ht)] Hne. split_and!; [| |apply move_events].
  - destruct move_rows as [Hr|[e (f & Hf & Hft & _)]]; [by apply same_rows_frame|].
    unfold subtasks_of at 1. rewrite Hf. eapply subtasks_of_alter; [done|congruence|done].
  - destruct Hm; unfold same_tests in *;
      match goal with
      | H : w'.(db).(tests) = _ |- _ => rewrite H
      end; by rewrite ?lookup_alter_ne.
Qed.

(** The status of a test that was decided stays. *)
Lemma move_decided :
  thread_ok w.(db) (job, ph) → decided w.(db) → decided w'.(db).
Proof.
  intros [_ Hok] (x & Hx & Hst). unfold decided. cbn [fst snd] in *.
  assert (Hv : verdict ≠ TaskStatus.Pending) by (unfold verdict; by case_decide).
  destruct Hm as [| at_ Hs He Ht | | | | |st p f at_ Hs He Ht| ]; unfold same_tests in *;
    match goal with
    | H : w'.(db).(tests) = _ |- _ => rewrite H
    end; eauto;
    (destruct (decide (job.(ProbeJob.test_id) = test_id)) as [Heq|Hne];
     [|rewrite lookup_alter_ne by done; eauto]);
    rewrite Heq, lookup_alter_eq, Hx; eexists; (split; [done|]).
  - unfold test_running. by case_decide as Hp; [congruence|].
  - by destruct (Hok Heq) as [_ ->].
Qed.

End move.

(** ** The invariant is kept *)

Section kept.
Context (w w' : World) (l1 l2 : threads) (job : ProbeJob.t) (ph ph' : phase).
Context (Hm : move job w w' ph ph').
Context (Hinv : proto_inv (w, l1 ++ (job, ph) :: l2)).

Lemma moving_ok : thread_ok w.(db) (job, ph).
Proof. apply (proj1 (Forall_forall _ _) (inv_threads _ Hinv)). cbn [snd]. set_solver. Qed.

Lemma kept_threads : Forall (thread_ok w'.(db)) (l1 ++ (job, ph') :: l2).
Proof.
  pose proof moving_ok as [Hp Hk]. pose proof Hinv as [Hth _ _ _]. cbn [fst snd] in *.
  rewrite Forall_forall in *. intros t [->|Hin]%(elem_of_middle _ _ _ (job, ph)).
  - split; [by eapply move_placed|]. cbn [fst snd]. intros Ht. destruct (Hk Ht) as [Hkind Hph].
    split; [done|]. destruct Hm as [| | | | |Hd Hs Hts He c| | ]; try done.
    rewrite Ht in Hd. unfold c. rewrite Ht. by eapply inv_verdict.
  - destruct (Hth t Hin) as [Hpt Hkt]. split; [by eapply move_placed|done].
Qed.

Lemma worked_on_middle id :
  worked_on id (l1 ++ (job, ph) :: l2) →
  (ph = Working → job.(ProbeJob.subtask_id) = id → ph' = Working) →
  worked_on id (l1 ++ (job, ph') :: l2).
Proof.
  intros (j & Hin & <-) Hc. destruct (elem_of_middle _ _ _ (job, ph') _ Hin) as [[= -> <-]|Hin'].
  - rewrite Hc by done. exists job. split; [set_solver|done].
  - by exists j.
Qed.

(** A settled row stays settled the same way, or is being worked on again. *)
Lemma kept_rows id s :
  w'.(db).(subtasks) !! id = Some s → s.(Subtask.test_id) = test_id →
  if outstanding s then worked_on id (l1 ++ (job, ph') :: l2) else is_errored s = kind id.
Proof.
  pose proof moving_ok as [[_ (s0 & Hs0 & Ht0)] Hk]. pose proof Hinv as [_ _ Hrows _].
  cbn [fst snd] in *.
  assert (Hsame : w'.(db).(subtasks) !! id = w.(db).(subtasks) !! id →
            (ph = Working → job.(ProbeJob.subtask_id) = id → ph' = Working) →
            w'.(db).(subtasks) !! id = Some s → s.(Subtask.test_id) = test_id →
            if outstanding s then worked_on id (l1 ++ (job, ph') :: l2)
            else is_errored s = kind id).
  { intros He Hc Hs Ht. rewrite He in Hs. specialize (Hrows id s Hs Ht).
    destruct (outstanding s); [|done]. by apply worked_on_middle. }
  intros Hs Ht. destruct (decide (job.(ProbeJob.subtask_id) = id)) as [<-|Hne].
  - destruct Hm as [ph0 Hr|at_ Hr|Hr|Hr| Hd Hr|Hd Hr|st p f at_ Hr|p f Hr];
      try (by apply Hsame; [unfold same_rows in Hr; rewrite Hr|..]);
      destruct (row_update_lookup _ _ _ _ _ Hr Hs0) as (s' & Hs' & Ht' & HP);
      assert (s' = s) as -> by congruence.
    + unfold runs in HP. rewrite HP. exists job. split; [set_solver|done].
    + destruct HP as [-> ->]. symmetry. apply Hk. congruence.
  - apply Hsame; [|done..].
    destruct (move_rows _ _ _ _ _ Hm) as [Hr|[e Hr]]; [by unfold same_rows in Hr; rewrite Hr|].
    by eapply row_update_other.
Qed.

(** What the test still needs, after the step. *)
Definition looked_after : Prop :=
  in_charge w'.(db) (l1 ++ (job, ph') :: l2) ∨
  decided w'.(db) ∧ announced w' (l1 ++ (job, ph') :: l2).

(** The rows of the test do not change: whoever looked after the test still does, unless it
    was the moving handler. *)
Lemma kept_done_frame :
  subtasks_of test_id w'.(db) = subtasks_of test_id w.(db) →
  (decided w.(db) → decided w'.(db)) →
  (job.(ProbeJob.test_id) = test_id →
   match ph with
   | Working | Saved => looked_after
   | Closing _ passed failed => (passed, failed) = counts w'.(db) → looked_after
   | Announcing passed failed =>
       decided w'.(db) → (passed, failed) = counts w'.(db) → looked_after
   | Over => True
   end) →
  all_done test_id w'.(db) = true → looked_after.
Proof.
  intros Hs Hdec Hself Hd. pose proof (move_events _ _ _ _ _ Hm) as He.
  pose proof (untouched_counts _ _ Hs) as Hc. unfold looked_after, announced in *.
  destruct (inv_done _ Hinv) as [(j & p & Hin & Hj & Hp)|[Hde Han]]; cbn [fst snd] in *.
  - by destruct (conclusion_frame _ _ _ Hs) as [<- _].
  - destruct (elem_of_middle _ _ _ (job, ph') _ Hin) as [[= -> ->]|?].
    + specialize (Hself Hj). rewrite <-Hc in Hp. destruct ph; auto; done.
    + left. exists j, p. rewrite Hc. auto.
  - destruct Han as [(j & p & f & Hin & Hj & Hp)|Han]; [|right; rewrite Hc; auto].
    destruct (elem_of_middle _ _ _ (job, ph') _ Hin) as [[= -> <-]|?].
    + apply Hself; auto. by rewrite Hc.
    + right. split; [auto|]. left. exists j, p, f. by rewrite Hc.
Qed.

Lemma kept_done : all_done test_id w'.(db) = true → looked_after.
Proof.
  intros Hd. pose proof moving_ok as Hok. pose proof Hok as [Hpl Hk]. cbn [fst snd] in *.
  pose proof (move_decided _ _ _ _ _ Hm Hok) as Hdec.
  destruct (decide (job.(ProbeJob.test_id) = test_id)) as [Ht|Hne].
  2:{ apply kept_done_frame; [|done..]. by apply (move_untouched _ _ _ _ _ Hm). }
  assert (Hin : (job, ph') ∈ l1 ++ (job, ph') :: l2) by set_solver.
  destruct (decide (ph' = Working ∨ ph' = Saved)) as [Hw|Hnw].
  { left. exists job, ph'. by destruct Hw as [->| ->]. }
  assert (Hs : same_rows w w') by (destruct Hm; auto; destruct Hnw; auto).
  apply (same_rows_frame test_id) in Hs.
  apply kept_done_frame; [done..| |done]. intros _. unfold looked_after, announced.
  destruct (conclusion_frame _ _ _ Hs) as [Hdone Hcon]. rewrite Hd in Hdone.
  destruct Hm as [ph0|at_| | |Hnd|Hd0 Hr Hts _ c|st p f at_ Hr _ Hts|p f Hr Hts _ Han];
    try (by destruct Hnw; auto).
  - destruct ph0; try (by destruct Hnw; auto); try done; intros; [left|right].
    + by eexists _, _.
    + split; [done|]. left. by eexists _, _, _.
  - rewrite Ht in Hnd. congruence.
  - left. exists job, (Closing c.1.1 c.1.2 c.2). split_and!; [done|done|]. unfold c, counts.
    by rewrite Ht, Hcon.
  - intros Hc. right. split; [|left; by eexists _, _, _].
    destruct Hpl as [[x Hx] _]. destruct (Hk Ht) as [_ ->]. rewrite Ht in Hx, Hts.
    unfold decided. rewrite Hts, lookup_alter_eq, Hx. by eexists.
  - intros Hde Hc. right. split; [done|]. right. rewrite <-Hc. by rewrite <-Ht.
Qed.

End kept.

Lemma proto_inv_step c c' : proto_step c c' → proto_inv c → proto_inv c'.
Proof.
  intros Hs Hinv. destruct Hs as [w w' l1 job ph ph' l2 Hm]. split; cbn [fst snd].
  - by eapply kept_threads.
  - rewrite (move_ids _ _ _ _ _ Hm). apply Hinv.
  - by eapply kept_rows.
  - by eapply kept_done.
Qed.

(** ** Beginning, interruption and end *)

(** Handlers that have not begun may take the place of all those that are not over: what a
    dead worker leaves behind is finished by whoever gets its jobs. *)
Lemma proto_inv_restart w ths jobs :
  (∀ job ph, (job, ph) ∈ ths → ph ≠ Over → job ∈ jobs) →
  Forall (λ job, thread_ok w.(db) (job, Working)) jobs →
  proto_inv (w, ths) → proto_inv (w, map (λ job, (job, Working)) jobs).
Proof.
  intros Hths Hjobs [_ Hids Hrows Hdone]. cbn [fst snd] in *.
  assert (Hin : ∀ job ph, (job, ph) ∈ ths → ph ≠ Over →
            (job, Working) ∈ map (λ job, (job, Working)) jobs).
  { intros job ph Hj Hph. apply list_elem_of_fmap. eauto. }
  assert (Hch : ∀ job ph d, (job, ph) ∈ ths → ph ≠ Over → job.(ProbeJob.test_id) = test_id →
            in_charge d (map (λ job, (job, Working)) jobs)).
  { intros job ph d Hj Hph Ht. exists job, Working. eauto. }
  split; cbn [fst snd].
  - by rewrite Forall_map.
  - done.
  - intros id s Hs Ht. specialize (Hrows id s Hs Ht). destruct (outstanding s); [|done].
    destruct Hrows as (job & Hj & Hid). exists job. eauto.
  - intros Hd. destruct (Hdone Hd) as [(job & ph & Hj & Ht & Hph)|[Hde Han]].
    + left. eapply Hch; eauto. by intros ->.
    + destruct Han as [(job & p & f & Hj & Ht & _)|Han]; [left; by eapply Hch|].
      right. split; [done|]. by right.
Qed.

(** Nobody is at work any more. *)
Lemma proto_inv_over w ths :
  proto_inv (w, ths) → Forall (λ t, t.2 = Over) ths →
  all_done test_id w.(db) = true ∧ closed test_id w.(db) ∧
  finished_event test_id (counts w.(db)).1 (counts w.(db)).2 ∈ w.(published) ∧
  ∀ id s, w.(db).(subtasks) !! id = Some s → s.(Subtask.test_id) = test_id →
    is_errored s = kind id.
Proof.
  intros Hinv Hover. pose proof Hinv as [_ _ Hrows Hdone]. cbn [fst snd] in *.
  rewrite Forall_forall in Hover.
  assert (Hall : all_done test_id w.(db) = true).
  { apply all_done_spec. intros id s Hs Ht. apply not_true_iff_false. intros Ho.
    specialize (Hrows id s Hs Ht). rewrite Ho in Hrows. destruct Hrows as (job & Hj & _).
    by apply Hover in Hj. }
  split; [done|]. destruct (Hdone Hall) as [(job & ph & Hj & _ & Hph)|[(x & Hx & Hst) Han]].
  { apply Hover in Hj. cbn in Hj. by subst. }
  split_and!.
  - exists x. split; [done|]. by rewrite (inv_verdict _ _ Hinv).
  - destruct Han as [(job & p & f & Hj & _)|Han]; [|done]. by apply Hover in Hj.
  - intros id s Hs Ht. specialize (Hrows id s Hs Ht).
    by rewrite (proj1 (all_done_spec _ _) Hall id s Hs Ht) in Hrows.
Qed.

End protocol.

Arguments threads : clear implicits.
