(* ===== verification/Concurrency.v ===== *)
(** * Concurrent handlers close their test ([services/worker/src/main.rs])

    The worker spawns one task per delivery and they interleave at every [await]. The
    programs [Probe.handle] refine the protocol of [Protocol], so its invariant holds
    along every interleaving, and the last handler to finish leaves the test closed. *)

From S2P Require Import Prelude Json Proto Status Domain Effects World Store Registry Probe.
From S2P Require Import Protocol Fixtures.

(** The side conditions of a move. *)
Ltac frame := first [done | by eexists | solve [unfold more_events; cbn; set_solver]].

Section refinement.
Context {J : SerdeJson} {RJ : ReportJson} {U : UuidDisplay}.
Context (env : Env) (bases : gmap string string) (Hr : reliable env).

(** The jobs this deployment has no adapter for. *)
Definition unconfigured (job : ProbeJob.t) : bool :=
  negb (is_configured bases job.(ProbeJob.adapter)).

(** The rest [p] of a handler does what the protocol allows from phase [ph] on, in every
    world that has the row of its subtask, and cannot fail. *)
Fixpoint follows (job : ProbeJob.t) (ph : phase) (p : prog World unit) : Prop :=
  match p with
  | Ret _ => ph = Over
  | Throw _ => False
  | Do o k =>
      ∀ w, (∃ s, row_of job w.(db) s) →
      ∃ ph', move unconfigured job w (o w).2 ph ph' ∧
             follows job ph' (k (o w).1)
  end.

Lemma follows_quiet job ph {X} (o : op World X) k :
  (∀ w, (o w).2.(db) = w.(db) ∧ (o w).2.(published) = w.(published) ∧
        follows job ph (k (o w).1)) →
  follows job ph (Do o k).
Proof.
  intros Hq w _. destruct (Hq w) as (Hd & Hp & Hk). exists ph. split; [|done].
  apply move_quiet; unfold same_rows, same_tests, more_events; by rewrite ?Hd, ?Hp.
Qed.

Lemma follows_attempt job ph {A} (p : prog World A) (f : result string A → prog World unit) :
  Quiet p → (∀ r, follows job ph (f r)) →
  follows job ph (bind (attempt p) f).
Proof.
  induction p as [a|e|X o k IH]; intros Hp Hf; cbn [attempt bind]; [done..|].
  apply follows_quiet. intros w. destruct (Hp w) as ((Hd & He & _) & Hk). auto.
Qed.

Lemma follows_probe job ph adapter request (f : ProbeResponse.t → prog World unit) :
  (∀ r, follows job ph (f r)) → follows job ph (bind (probe env bases adapter request) f).
Proof.
  intros Hf. unfold probe. destruct (bases !! adapter); [|apply Hf].
  apply follows_quiet. intros w. split; [done|]. split; [done|]. apply Hf.
Qed.

(** A statement of the working database makes the move its effect amounts to. *)
Lemma follows_sql {X} job ph (ph' : X → phase) (q : DateTime → Db → result string (X * Db))
    (f : X → prog World unit) :
  (∀ w, (∃ s, row_of job w.(db) s) →
     ∃ x d, q (env.(clock) w.(steps)) w.(db) = Ok (x, d) ∧
       move unconfigured job w (set_db d w) ph (ph' x) ∧
       follows job (ph' x) (f x)) →
  follows job ph (bind (call (sql env q)) f).
Proof.
  intros Hq w Hw. cbn [call bind]. destruct (Hq w Hw) as (x & d & Hx & Hm & Hf).
  exists (ph' x). rewrite sql_works, Hx by done. done.
Qed.

Lemma follows_publish job ph ph' channel event (f : unit → prog World unit) :
  (∀ w, move unconfigured job w
          (set_published (w.(published) ++ [(channel, event)]) w) ph ph') →
  follows job ph' (f tt) →
  follows job ph (bind (call (redis_publish env channel event)) f).
Proof.
  intros Hm Hf w _. exists ph'. rewrite redis_publish_works by done. split; [apply Hm|done].
Qed.

Lemma quiet_publish job w ph e :
  move unconfigured job w (set_published (w.(published) ++ e) w) ph ph.
Proof. apply move_quiet; frame. Qed.

Lemma finish_follows job : follows job Saved (finish env job).
Proof.
  unfold finish, finish_test_if_done. intros w _. cbn [bind call].
  rewrite sql_works by done. cbn [fst snd of_result bind progress].
  change (set_db w.(db) w) with (tick w).
  destruct (all_done job.(ProbeJob.test_id) w.(db)) eqn:Hd.
  - unfold all_done in Hd. apply negb_true_iff in Hd as Hd'. rewrite Hd'. cbn [bind call].
    rewrite closing_status_conclusion. set (c := conclusion job.(ProbeJob.test_id) w.(db)).
    exists (Closing c.1.1 c.1.2 c.2). split; [apply move_done; frame|].
    intros w1 _. exists (Announcing c.1.2 c.2). rewrite sql_works by done. split.
    { eapply move_close; frame. }
    cbn [fst of_result bind call]. intros w2 _. exists Over.
    rewrite redis_publish_works by done. split; [|done]. apply move_announce; [frame..|].
    cbn [snd published set_published]. apply elem_of_app. right. by apply list_elem_of_singleton.
  - unfold all_done in Hd. apply negb_false_iff in Hd as Hd'. rewrite Hd'. cbn [bind].
    exists Over. split; [|done]. apply move_not_done; frame.
Qed.

Lemma report_follows job exec result :
  follows job Saved (bind (publish env job exec result) (λ _, finish env job)).
Proof.
  apply (follows_publish job Saved Saved); [intros w; apply quiet_publish|apply finish_follows].
Qed.

(** The handler, from its first statement to its return, follows the protocol. *)
Lemma handle_follows job : follows job Working (handle env bases job).
Proof.
  unfold handle.
  apply (follows_sql job Working (λ _, Working)). intros w _. eexists _, _. split; [done|].
  split; [eapply move_start; frame|].
  apply (follows_sql job Working (λ _, Working)). intros w1 _. eexists _, _. split; [done|].
  split.
  { apply move_run; frame. }
  destruct (negb _) eqn:Hb.
  - apply (follows_sql job Working (λ _, Saved)). intros w2 _. eexists _, _. split; [done|].
    split; [|apply report_follows]. apply move_save; [|frame..]. eexists. split_and!; [done..|].
    intros s. by unfold settles, unconfigured; rewrite Hb.
  - apply follows_probe. intros response. apply follows_attempt; [apply _|].
    intros caps. apply (follows_sql job Working (λ _, Saved)). intros w2 [s [Hs _]].
    rewrite Hs. eexists _, _. split; [done|]. split; [|apply report_follows].
    apply move_save; frame.
Qed.

(** A handler can be followed by operations that are no concern of the protocol. *)
Lemma follows_then job ph (p q : prog World unit) :
  follows job ph p → follows job Over q → follows job ph (bind (attempt p) (λ _, q)).
Proof.
  intros Hp Hq. revert ph Hp. induction p as [a|e|X o k IH]; intros ph Hp; cbn [attempt bind].
  - cbn in Hp. by subst.
  - done.
  - intros w Hw. destruct (Hp w Hw) as (ph' & Hm & Hf). exists ph'. split; [done|]. by apply IH.
Qed.

(** A task that keeps out of the protocol: it changes no row of a test or subtask and
    takes no event back. *)
Definition apart (w w' : World) : Prop := same_rows w w' ∧ same_tests w w' ∧ more_events w w'.

Lemma proto_inv_apart test_id kind ids w w' ths :
  apart w w' → proto_inv unconfigured test_id kind ids (w, ths) →
  proto_inv unconfigured test_id kind ids (w', ths).
Proof.
  intros (Hs & Ht & He) [H1 H2 H3 H4]. unfold same_tests, more_events in *. cbn [fst snd] in *.
  destruct (conclusion_frame _ _ _ (same_rows_frame test_id _ _ Hs)) as [Hd Hc].
  pose proof (same_rows_frame test_id _ _ Hs) as Hsub. unfold same_rows in Hs.
  split; cbn [fst snd].
  - eapply Forall_impl; [exact H1|]. unfold thread_ok, placed, row_of. by rewrite Hs, Ht.
  - by rewrite Hsub.
  - by rewrite Hs.
  - unfold in_charge, decided, announced, counts in *. rewrite Hd, Hc, Ht.
    intros Hd'. destruct (H4 Hd') as [?|[? [?|?]]]; auto.
Qed.

Lemma apart_placed w w' job : apart w w' → placed w.(db) job → placed w'.(db) job.
Proof.
  intros (Hs & Ht & _). unfold same_rows, same_tests in *. unfold placed, row_of. by rewrite Hs, Ht.
Qed.

Lemma proto_step_placed c c' job :
  proto_step unconfigured c c' → placed c.1.(db) job → placed c'.1.(db) job.
Proof. intros []. by eapply move_placed. Qed.

(** ** Simulation *)

(** Each task of the pool is a thread of the protocol or stands by. *)
Definition simulates (ths : list (option (ProbeJob.t * phase))) (pool : list (prog World unit))
    : Prop :=
  Forall2 (λ t p, match t with
                  | Some t => follows t.1 t.2 p
                  | None => preserves apart p
                  end) ths pool.

Definition threads_of (ths : list (option (ProbeJob.t * phase))) : threads := omap id ths.

Lemma threads_of_app l1 l2 : threads_of (l1 ++ l2) = threads_of l1 ++ threads_of l2.
Proof. apply omap_app. Qed.

Lemma threads_of_some ths : threads_of (map Some ths) = ths.
Proof. induction ths as [|t ths IH]; [done|]. cbn. by f_equal. Qed.

Lemma simulates_start jobs :
  simulates (map (λ job, Some (job, Working)) jobs) (map (handle env bases) jobs).
Proof.
  unfold simulates. induction jobs as [|job jobs IH]; constructor; [|done]. apply handle_follows.
Qed.

(** Every step of the tasks is a step of the protocol, or of a bystander. *)
Lemma simulates_step test_id kind ids w ths pool c' :
  simulates ths pool → proto_inv unconfigured test_id kind ids (w, threads_of ths) →
  step (w, pool) c' →
  ∃ ths', (proto_step unconfigured (w, threads_of ths) (c'.1, threads_of ths') ∨
           None ∈ ths ∧ apart w c'.1 ∧ threads_of ths' = threads_of ths) ∧
          map (fmap fst) ths' = map (fmap fst) ths ∧ simulates ths' c'.2.
Proof.
  intros Hsim Hinv Hs. remember (w, pool) as c eqn:Hc. destruct Hs as [w0 l1 X o k l2].
  injection Hc as -> <-. apply Forall2_app_inv_r in Hsim as (t1 & ts & H1 & H2 & ->).
  apply Forall2_cons_inv_r in H2 as ([[job ph]|] & t2 & Hf & H2 & ->); cbn [fst snd] in Hf.
  - rewrite threads_of_app in Hinv.
    change (threads_of (Some (job, ph) :: t2)) with ((job, ph) :: threads_of t2) in Hinv.
    destruct (Hf w) as (ph' & Hm & Hf').
    { assert (Hin : (job, ph) ∈ threads_of t1 ++ (job, ph) :: threads_of t2) by set_solver.
      by destruct (proj1 (Forall_forall _ _) (inv_threads _ _ _ _ _ Hinv) _ Hin) as [[_ Hs] _]. }
    exists (t1 ++ Some (job, ph') :: t2). split_and!.
    + left. rewrite !threads_of_app. by apply proto_step_at.
    + by rewrite !map_app.
    + apply Forall2_app; [done|]. by constructor.
  - destruct (Hf w) as [Ha Hk]. exists (t1 ++ None :: t2). split_and!; [|done|].
    + right. split_and!; [set_solver|done|done].
    + apply Forall2_app; [done|]. by constructor.
Qed.

Lemma simulates_steps test_id kind ids c c' ths :
  rtc step c c' → simulates ths c.2 →
  proto_inv unconfigured test_id kind ids (c.1, threads_of ths) →
  ∃ ths', (None ∉ ths → rtc (proto_step unconfigured) (c.1, threads_of ths) (c'.1, threads_of ths')) ∧
          map (fmap fst) ths' = map (fmap fst) ths ∧
          simulates ths' c'.2 ∧ proto_inv unconfigured test_id kind ids (c'.1, threads_of ths') ∧
          ∀ job, placed c.1.(db) job → placed c'.1.(db) job.
Proof.
  intros Hs. revert ths. induction Hs as [c|[w pool] c1 c2 Hs Hss IH]; intros ths Hsim Hinv.
  { exists ths. by split_and!. }
  destruct (simulates_step _ _ _ _ _ _ _ Hsim Hinv Hs) as (ths1 & Hp & Hj & Hsim1).
  destruct (IH ths1 Hsim1) as (ths2 & Hps & Hj2 & Hsim2 & Hinv2 & Hpl).
  { destruct Hp as [Hp|(_ & Ha & ->)]; [by eapply proto_inv_step|by eapply proto_inv_apart]. }
  exists ths2. split_and!; [|by rewrite Hj2|done|done|].
  2:{ intros job Hj0. apply Hpl. destruct Hp as [Hp|(_ & Ha & _)];
        [exact (proto_step_placed _ _ _ Hp Hj0)|by eapply apart_placed]. }
  intros Hn.
  destruct Hp as [Hp|(? & _)]; [|done]. eapply rtc_l; [exact Hp|]. apply Hps.
  intros Hin. apply Hn. clear -Hj Hin.
  assert (Hm : None ∈ map (fmap (M := option) fst) ths1).
  { apply list_elem_of_fmap. by exists None. }
  rewrite Hj in Hm. apply list_elem_of_fmap in Hm as ([t|] & Ht & Hm); done.
Qed.

Lemma halted_over ths pool :
  simulates ths pool → Forall halted pool → Forall (λ t, t.2 = Over) (threads_of ths).
Proof.
  induction 1 as [|[[job ph]|] p ths pool Hf Hsim IH]; [constructor|..]; rewrite Forall_cons;
    intros [Hh Hp]; [|by apply IH].
  change (threads_of (Some (job, ph) :: ths)) with ((job, ph) :: threads_of ths).
  constructor; [|by apply IH]. cbn [fst snd] in *. by destruct p as [[]|e|X o k].
Qed.

Lemma halted_ret ths pool :
  simulates ths pool → None ∉ ths → Forall halted pool → Forall (λ p, p = Ret tt) pool.
Proof.
  induction 1 as [|t p ths pool Hf Hsim IH]; [constructor|]. rewrite not_elem_of_cons, Forall_cons.
  intros [Hn Hns] [Hh Hp]. constructor; [|by apply IH].
  destruct t as [[job ph]|]; [|done]. by destruct p as [[]|e|X o k].
Qed.

Lemma all_some (ots : list (option (ProbeJob.t * phase))) (jobs : list ProbeJob.t) :
  map (fmap fst) ots = map Some jobs → ∃ ths, ots = map Some ths ∧ map fst ths = jobs.
Proof.
  revert jobs. induction ots as [|[[job ph]|] ots IH]; intros [|j jobs]; try done.
  - by exists [].
  - cbn. intros [= -> Hj]. destruct (IH jobs Hj) as (ths & -> & <-). by exists ((j, ph) :: ths).
Qed.

Lemma none_not_started (jobs : list ProbeJob.t) : None ∉ map (λ job, Some (job, Working)) jobs.
Proof. by intros (job & ? & _)%list_elem_of_fmap. Qed.

Lemma threads_started (jobs : list ProbeJob.t) :
  threads_of (map (λ job, Some (job, Working)) jobs) = map (λ job, (job, Working)) jobs.
Proof. rewrite <-(threads_of_some (map _ jobs)). by rewrite map_map. Qed.

End refinement.

(** ** Theorems *)

Section theorems.
Context {J : SerdeJson} {RJ : ReportJson} {U : UuidDisplay}.
Context (env : Env) (bases : gmap string string).

(** The jobs are those of rows that wait, or that an earlier delivery of the same job has
    settled; a job delivered more than once is the same each time. *)
Record enqueued (jobs : list ProbeJob.t) (d : Db) : Prop := {
  enq_same : ∀ job1 job2, job1 ∈ jobs → job2 ∈ jobs →
    job1.(ProbeJob.subtask_id) = job2.(ProbeJob.subtask_id) → job1 = job2;
  enq_rows : Forall (λ job, is_Some (d.(tests) !! job.(ProbeJob.test_id)) ∧
    ∃ s, row_of job d s ∧
         (outstanding s = false → is_errored s = unconfigured bases job)) jobs;
}.

(** The jobs as the API queues them: distinct subtasks, each with a row that waits. *)
Record queued (jobs : list ProbeJob.t) (d : Db) : Prop := {
  qd_ids : NoDup (map ProbeJob.subtask_id jobs);
  qd_rows : Forall (λ job, is_Some (d.(tests) !! job.(ProbeJob.test_id)) ∧
                           ∃ s, row_of job d s ∧ outstanding s = true) jobs;
}.

Lemma queued_enqueued jobs d : queued jobs d → enqueued jobs d.
Proof.
  intros [Hids Hrows]. split.
  - intros job1 job2 [i Hi]%list_elem_of_lookup [j Hj]%list_elem_of_lookup Heq.
    assert (i = j) as ->; [|congruence].
    eapply NoDup_lookup; [exact Hids|..]; rewrite list_lookup_fmap, ?Hi, ?Hj; [done|].
    cbn. by rewrite Heq.
  - eapply Forall_impl; [exact Hrows|]. intros job [Hx (s & Hs & Ho)]. split; [done|].
    exists s. split; [done|]. by rewrite Ho.
Qed.

(** Every subtask of the test that waits has a job among them. *)
Definition covered (test_id : Uuid) (jobs : list ProbeJob.t) (d : Db) : Prop :=
  (∃ job, job ∈ jobs ∧ job.(ProbeJob.test_id) = test_id) ∧
  ∀ id s, d.(subtasks) !! id = Some s → s.(Subtask.test_id) = test_id →
    outstanding s = true → id ∈ map ProbeJob.subtask_id jobs.

(** Which subtasks will be errors: those whose job has no adapter. *)
Definition kind_of (jobs : list ProbeJob.t) (d : Db) (id : Uuid) : bool :=
  match find_first (λ job, bool_decide (job.(ProbeJob.subtask_id) = id)) jobs with
  | Some job => unconfigured bases job
  | None => match d.(subtasks) !! id with Some s => is_errored s | None => false end
  end.

Lemma kind_of_job jobs d job :
  enqueued jobs d → job ∈ jobs →
  kind_of jobs d job.(ProbeJob.subtask_id) = unconfigured bases job.
Proof.
  intros [Hsame _] Hin. unfold kind_of. destruct (find_first _ jobs) as [job'|] eqn:Hf.
  - apply find_first_Some in Hf as (l1 & l2 & -> & Hid%bool_decide_eq_true & _).
    by rewrite (Hsame job' job) by (done || set_solver).
  - pose proof (proj1 (find_first_None _ _) Hf) as Hno. rewrite Forall_forall in Hno.
    apply Hno in Hin. by apply bool_decide_eq_false in Hin.
Qed.

Lemma enqueued_threads jobs d test_id :
  enqueued jobs d →
  Forall (λ job, thread_ok (unconfigured bases) test_id (kind_of jobs d)
                   (dom (subtasks_of test_id d)) d (job, Working)) jobs.
Proof.
  intros He. pose proof (enq_rows _ _ He) as Hrows. rewrite Forall_forall in *.
  intros job Hin. destruct (Hrows _ Hin) as [Hx (s & Hs & _)]. split; cbn [fst snd].
  - split; [done|by exists s].
  - intros _. split; [by apply kind_of_job|done].
Qed.

Lemma enqueued_inv jobs w test_id :
  enqueued jobs w.(db) → covered test_id jobs w.(db) →
  proto_inv (unconfigured bases) test_id (kind_of jobs w.(db))
    (dom (subtasks_of test_id w.(db))) (w, map (λ job, (job, Working)) jobs).
Proof.
  intros He [(job & Hin & Ht) Hown]. split; cbn [fst snd].
  - rewrite Forall_map. by apply enqueued_threads.
  - done.
  - intros id s Hs Hst. destruct (outstanding s) eqn:Ho.
    + destruct (proj1 (list_elem_of_fmap _ _ _) (Hown id s Hs Hst Ho)) as (j & -> & Hj).
      exists j. split; [|done]. apply list_elem_of_fmap. by exists j.
    + unfold kind_of. destruct (find_first _ jobs) as [j|] eqn:Hf; [|by rewrite Hs].
      apply find_first_Some in Hf as (l1 & l2 & -> & Hid%bool_decide_eq_true & _).
      pose proof (enq_rows _ _ He) as Hrows. rewrite Forall_forall in Hrows.
      destruct (Hrows j) as [_ (s' & [Hs' _] & Hk)]; [set_solver|].
      rewrite Hid, Hs in Hs'. injection Hs' as <-. by apply Hk.
  - intros _. left. exists job, Working. split_and!; [|done|done].
    apply list_elem_of_fmap. by exists job.
Qed.

(** No subtask of the test is queued or running. *)
Definition settled_rows (test_id : Uuid) (d : Db) : Prop :=
  ∀ id s, d.(subtasks) !! id = Some s → s.(Subtask.test_id) = test_id →
    s.(Subtask.exec_status) = ExecStatus.Finished ∨ s.(Subtask.exec_status) = ExecStatus.Error.

Lemma all_done_settled test_id d : all_done test_id d = true → settled_rows test_id d.
Proof.
  rewrite all_done_spec. intros Hd id s Hs Ht. specialize (Hd id s Hs Ht). revert Hd.
  unfold outstanding. case_match; auto; done.
Qed.

(** What a student waits for: every subtask is settled, the test is closed with the status
    its rows call for, [TestFinished] with the final counts was published; and the subtask
    of each job is an error exactly when there is no adapter for it. *)
Record test_over (test_id : Uuid) (jobs : list ProbeJob.t) (w : World) : Prop := {
  over_settled : settled_rows test_id w.(db);
  over_closed : closed test_id w.(db);
  over_told : finished_event test_id (conclusion test_id w.(db)).1.2
    (conclusion test_id w.(db)).2 ∈ w.(published);
  over_jobs : ∀ job, job ∈ jobs → job.(ProbeJob.test_id) = test_id →
    ∃ s, row_of job w.(db) s ∧
      s.(Subtask.exec_status)
        = if unconfigured bases job then ExecStatus.Error else ExecStatus.Finished;
}.

(** Every thread over is the test over. *)
Lemma threads_over jobs d test_id ids w ths :
  enqueued jobs d → Forall (placed w.(db)) jobs →
  proto_inv (unconfigured bases) test_id (kind_of jobs d) ids (w, ths) →
  Forall (λ t, t.2 = Over) ths → test_over test_id jobs w.
Proof.
  intros He Hpl Hinv Hover.
  destruct (proto_inv_over _ _ _ _ _ _ Hinv Hover) as (Hall & Hc & Ht & Hk).
  split; [by apply all_done_settled|done|done|]. intros job Hin Hjt.
  destruct (proj1 (Forall_forall _ _) Hpl _ Hin) as [_ (s & Hs & Hst)].
  exists s. split; [by split|].
  rewrite <-(kind_of_job _ _ _ He Hin), <-(Hk _ s Hs) by congruence.
  destruct (all_done_settled _ _ Hall _ s Hs) as [Hx|Hx]; [congruence|..];
    unfold is_errored; rewrite Hx; [by rewrite bool_decide_false|by rewrite bool_decide_true].
Qed.

Lemma test_over_incl test_id jobs jobs' w :
  (∀ job, job ∈ jobs' → job ∈ jobs) → test_over test_id jobs w → test_over test_id jobs' w.
Proof. intros Hin [H1 H2 H3 H4]. split; auto. Qed.

(** The verdict: a test failed if none of its jobs found its adapter. *)
Lemma test_over_status test_id jobs w :
  test_over test_id jobs w → jobs ≠ [] →
  (∀ job, job ∈ jobs → job.(ProbeJob.test_id) = test_id) →
  (∀ id s, w.(db).(subtasks) !! id = Some s → s.(Subtask.test_id) = test_id →
     id ∈ map ProbeJob.subtask_id jobs) →
  ∃ x, w.(db).(tests) !! test_id = Some x ∧
    x.(Test.status) = if forallb (unconfigured bases) jobs then TaskStatus.Failed
                      else TaskStatus.Finished.
Proof.
  intros [_ (x & Hx & Hst) _ Hj] Hne Ht Hrows. exists x. split; [done|]. rewrite Hst.
  unfold conclusion. cbn [fst]. case_decide as Hd; destruct (forallb _ _) eqn:Hb; try done; exfalso.
  - apply not_true_iff_false in Hb. apply Hb, forallb_forall. intros job Hin%list_elem_of_In.
    destruct (Hj job Hin (Ht job Hin)) as (s & [Hs Hsj] & He).
    destruct Hd as [_ Hall]. rewrite Forall_forall in Hall. rewrite Hall in He.
    + by destruct (unconfigured bases job).
    + apply elem_of_rows_of. exists job.(ProbeJob.subtask_id). rewrite <-(Ht job Hin). auto.
  - apply Hd. rewrite forallb_forall in Hb. split.
    + destruct jobs as [|job jobs]; [done|].
      destruct (Hj job) as (s & [Hs Hsj] & _); [by left|apply Ht; by left|].
      assert (Hin : s ∈ rows_of test_id w.(db)).
      { apply elem_of_rows_of. exists job.(ProbeJob.subtask_id). rewrite <-(Ht job) by (by left). auto. }
      intros Hnil. rewrite Hnil in Hin. by apply elem_of_nil in Hin.
    + apply Forall_forall. intros s (id & Hs & Hst')%elem_of_rows_of.
      pose proof (Hrows id s Hs Hst') as Hid. apply list_elem_of_fmap in Hid as (job & -> & Hin).
      destruct (Hj job Hin (Ht job Hin)) as (s' & [Hs' _] & He).
      rewrite Hs in Hs'. injection Hs' as <-. by rewrite He, Hb by by apply list_elem_of_In.
Qed.

(** Jobs of different tests. *)
Lemma enqueued_app jobs jobs' d :
  enqueued jobs d → enqueued jobs' d →
  (∀ job job', job ∈ jobs → job' ∈ jobs' → job.(ProbeJob.test_id) ≠ job'.(ProbeJob.test_id)) →
  enqueued (jobs ++ jobs') d.
Proof.
  intros [S1 R1] [S2 R2] Hne. split; [|by apply Forall_app].
  assert (Hx : ∀ j1 j2, j1 ∈ jobs → j2 ∈ jobs' →
                 j1.(ProbeJob.subtask_id) ≠ j2.(ProbeJob.subtask_id)).
  { intros j1 j2 H1 H2 Heq. rewrite Forall_forall in R1, R2.
    destruct (R1 _ H1) as [_ (s1 & [Hs1 Ht1] & _)]. destruct (R2 _ H2) as [_ (s2 & [Hs2 Ht2] & _)].
    apply (Hne j1 j2 H1 H2). congruence. }
  intros j1 j2 [H1|H1]%elem_of_app [H2|H2]%elem_of_app Heq; auto; exfalso;
    [by eapply Hx|]. by eapply (Hx j2 j1).
Qed.

Lemma enqueued_incl jobs jobs' d :
  (∀ job, job ∈ jobs' → job ∈ jobs) → enqueued jobs d → enqueued jobs' d.
Proof.
  intros Hin [H1 H2]. rewrite Forall_forall in H2. split; [auto|].
  apply Forall_forall. auto.
Qed.

Lemma enqueued_placed jobs d : enqueued jobs d → Forall (placed d) jobs.
Proof.
  intros [_ Hrows]. eapply Forall_impl; [exact Hrows|]. intros job [Hx (s & Hs & _)].
  split; [done|by exists s].
Qed.

(** Every run of the handlers of [jobs] from [w] ends, and ends with the test over. *)
Definition closes (jobs : list ProbeJob.t) (w : World) (test_id : Uuid) : Prop :=
  Acc (flip step) (w, map (handle env bases) jobs) ∧
  ∀ w' pool, rtc step (w, map (handle env bases) jobs) (w', pool) →
    (∃ c, step (w', pool) c) ∨
    Forall (λ p, p = Ret tt) pool ∧ test_over test_id jobs w'.

(** What a pool of handlers and bystanders has done when none of its tasks can go on. *)
Lemma pool_closes ths jobs pool w w' pool' test_id :
  reliable env → simulates bases ths pool → threads_of ths = map (λ job, (job, Working)) jobs →
  enqueued jobs w.(db) → covered test_id jobs w.(db) →
  rtc step (w, pool) (w', pool') → Forall halted pool' →
  test_over test_id jobs w'.
Proof.
  intros Hr Hsim Hths Henq Hcov Hs Hh.
  pose proof (enqueued_inv jobs w test_id Henq Hcov) as Hinv. rewrite <-Hths in Hinv.
  destruct (simulates_steps env bases Hr test_id _ _ _ _ ths Hs Hsim Hinv)
    as (ths' & _ & _ & Hsim' & Hinv' & Hpl).
  eapply threads_over; [exact Henq| |exact Hinv'|by eapply halted_over].
  eapply Forall_impl; [by apply enqueued_placed|exact Hpl].
Qed.

Lemma handlers_close jobs w test_id :
  reliable env → enqueued jobs w.(db) → covered test_id jobs w.(db) →
  closes jobs w test_id.
Proof.
  intros Hr Henq Hcov. split; [apply step_terminates|]. intros w' pool Hs.
  destruct (step_progress w' pool) as [Hh|Hc]; [right|by left]. split.
  - pose proof (enqueued_inv jobs w test_id Henq Hcov) as Hinv.
    rewrite <-threads_started in Hinv.
    destruct (simulates_steps env bases Hr test_id _ _ _ _ _ Hs (simulates_start env bases Hr jobs) Hinv)
      as (ots & _ & Hj & Hsim' & _ & _).
    destruct (all_some ots jobs) as (ths & -> & _); [by rewrite Hj, map_map|].
    eapply halted_ret; [exact Hsim'|by intros (? & ? & _)%list_elem_of_fmap|done].
  - by eapply pool_closes; [exact Hr|by apply simulates_start|apply threads_started|..].
Qed.

(** Handling the subtasks of a test concurrently, together with those of other tests,
    in any interleaving of their statements, some of them more than once: the run ends, no
    handler fails, and when the last one is over every subtask of the test is settled, as
    an error exactly if there is no adapter for it, the test is closed with the status its
    rows call for, and [TestFinished] with the final counts was published. *)
Theorem concurrent_handlers_close_test jobs w test_id :
  reliable env → enqueued jobs w.(db) → covered test_id jobs w.(db) →
  Acc (flip step) (w, map (handle env bases) jobs) ∧
  ∀ w' pool, rtc step (w, map (handle env bases) jobs) (w', pool) →
    (∃ c, step (w', pool) c) ∨
    Forall (λ p, p = Ret tt) pool ∧ test_over test_id jobs w'.
Proof. apply handlers_close. Qed.

(** C8. The handlers implement the closing protocol: every interleaving of their statements
    is a run of the protocol, with one thread per delivery, and a handler that has ended has
    ended its thread, without an error. *)
Theorem handlers_refine_protocol jobs w test_id c :
  reliable env → enqueued jobs w.(db) → covered test_id jobs w.(db) →
  rtc step (w, map (handle env bases) jobs) c →
  ∃ ths, rtc (proto_step (unconfigured bases)) (w, map (λ job, (job, Working)) jobs) (c.1, ths) ∧
    map fst ths = jobs ∧
    Forall2 (λ t p, halted p → t.2 = Over ∧ p = Ret tt) ths c.2.
Proof.
  intros Hr Henq Hcov Hs.
  pose proof (enqueued_inv jobs w test_id Henq Hcov) as Hinv. rewrite <-threads_started in Hinv.
  destruct (simulates_steps env bases Hr test_id _ _ _ _ _ Hs (simulates_start env bases Hr jobs) Hinv)
    as (ots & Hps & Hj & Hsim & _).
  destruct (all_some ots jobs) as (ths & -> & Hjobs); [by rewrite Hj, map_map|].
  specialize (Hps (none_not_started jobs)). cbn [fst] in Hps.
  rewrite threads_of_some, threads_started in Hps.
  exists ths. split; [done|]. split; [done|].
  apply Forall2_fmap_l in Hsim. eapply Forall2_impl; [exact Hsim|].
  intros [job ph] p Hf. by destruct p as [[]|e|X o k].
Qed.

End theorems.

Module ConcurrencyWitness.
Import Fixtures.Lab.

(** The first job is delivered twice. *)
Definition jobs : list ProbeJob.t :=
  [job 10 "MLKEM768" "openssl"; job 11 "X25519" "nss"; job 10 "MLKEM768" "openssl"].

Lemma jobs_enqueued : enqueued bases jobs world.(db).
Proof.
  split.
  - intros job1 job2 H1 H2 Hid.
    unfold jobs in H1, H2. rewrite !elem_of_cons, elem_of_nil in H1, H2.
    by destruct_or!; subst.
  - repeat constructor; try by eexists.
Qed.

Lemma jobs_covered : covered 1 jobs world.(db).
Proof.
  split; [exists (job 10 "MLKEM768" "openssl"); split; [by left|done]|].
  intros id s Hs _ _. cbn in Hs. unfold subtasks, world, db in Hs.
  apply lookup_insert_Some in Hs as [[<- _]|[_ Hs]]; [by left|].
  apply lookup_singleton_Some in Hs as [<- _]. right. by left.
Qed.

Lemma concurrent_handlers_close_test_witness :
  Acc (flip step) (world, map (handle env bases) jobs) ∧
  ∀ w' pool, rtc step (world, map (handle env bases) jobs) (w', pool) →
    (∃ c, step (w', pool) c) ∨
    Forall (λ p, p = Ret tt) pool ∧ test_over bases 1 jobs w'.
Proof.
  apply (concurrent_handlers_close_test env bases jobs world 1).
  - done.
  - apply jobs_enqueued.
  - apply jobs_covered.
Defined.

(** The first handler has marked the test running. *)
Definition one_step : World * list (prog World unit) :=
  match handle env bases (job 10 "MLKEM768" "openssl") with
  | Do o k => ((o world).2, k (o world).1 :: map (handle env bases) (tail jobs))
  | p => (world, [p])
  end.

Lemma handlers_refine_protocol_witness :
  ∃ ths, rtc (proto_step (unconfigured bases)) (world, map (λ job, (job, Working)) jobs)
           (one_step.1, ths) ∧
    map fst ths = jobs ∧
    Forall2 (λ t p, halted p → t.2 = Over ∧ p = Ret tt) ths one_step.2.
Proof.
  apply (handlers_refine_protocol env bases jobs world 1).
  - done.
  - apply jobs_enqueued.
  - apply jobs_covered.
  - apply rtc_once. exact (step_at world [] _ _ _ (map (handle env bases) (tail jobs))).
Defined.

End ConcurrencyWitness.
