(* ===== verification/KemFacts.v ===== *)
(** * What a KEM DEMO run leaves behind

    The console is one transcript, stored and published alike; the compatibility matrix is
    filled; the priority mode recovers a server's order; a run delivered twice is stuck. *)

From S2P Require Import Prelude RustStr Json Proto Status Domain KemOrder Effects Rely World.
From S2P Require Import Registry Asking Kem Fixtures.

(** ** Console programs *)

Section triples.
Context {J : SerdeJson} (R : World → World → Prop).

(** From [P] the program ends, without failing itself, in [Q] of its result and counter,
    whatever the others do within [R]. *)
Definition spec {A} (P : Z → World → Prop) (m : console A)
    (Q : result string A → Z → World → Prop) : Prop :=
  ∀ n w, P n w → wp R (m n) (λ x w', ∃ r n', x = Ok (r, n') ∧ Q r n' w') w.

Lemma spec_weaken {A} P (m : console A) (Q Q' : result string A → Z → World → Prop) :
  spec P m Q → (∀ r n w, Q r n w → Q' r n w) → spec P m Q'.
Proof.
  intros Hm HQ n w Hp. eapply wp_mono; [|by apply Hm]. cbn. intros x w' (r & n' & -> & Hq). eauto.
Qed.

Lemma spec_pre {A} (P P' : Z → World → Prop) (m : console A) Q :
  spec P m Q → (∀ n w, P' n w → P n w) → spec P' m Q.
Proof. intros Hm HP n w Hp. by apply Hm, HP. Qed.

Lemma spec_ret {A} (P : Z → World → Prop) (a : A) Q :
  (∀ n w, P n w → Q (Ok a) n w) → spec P (con_ret a) Q.
Proof. intros HQ n w Hp. exists (Ok a), n. auto. Qed.

Lemma spec_fail {A} (P : Z → World → Prop) e (Q : result string A → Z → World → Prop) :
  (∀ n w, P n w → Q (Err e) n w) → spec P (con_fail e) Q.
Proof. intros HQ n w Hp. exists (Err e), n. auto. Qed.

Lemma spec_bind {A B} P (m : console A) (k : A → console B) (S : A → Z → World → Prop) Q :
  spec P m (λ r n w, match r with Ok a => S a n w | Err e => Q (Err e) n w end) →
  (∀ a, spec (S a) (k a) Q) → spec P (con_bind m k) Q.
Proof.
  intros Hm Hk n w Hp. apply wp_bind. eapply wp_mono; [|by apply Hm].
  cbn. intros x w' ([a|e] & n' & -> & HS); cbn [fst snd]; [by apply Hk|].
  exists (Err e), n'. auto.
Qed.

Lemma spec_lift {A} (P : Z → World → Prop) (p : prog World A) Q :
  (∀ n w, P n w → wp R p (λ r w', Q r n w') w) → spec P (lift p) Q.
Proof.
  intros HQ n w Hp. apply wp_bind, wp_attempt. eapply wp_mono; [|by apply HQ].
  cbn. intros r w' Hq. eauto.
Qed.

Lemma spec_for {A} (P : Z → World → Prop) (l : list A) body :
  (∀ x, x ∈ l → spec P (body x) (λ r n w, P n w)) →
  spec P (con_for l body) (λ r n w, P n w).
Proof.
  induction l as [|x l IH]; intros Hb; cbn [con_for]; [by apply spec_ret|].
  eapply (spec_bind _ _ _ (λ _, P)).
  - eapply spec_weaken; [apply Hb; by left|]. by intros [].
  - intros _. apply IH. intros y Hy. apply Hb. by right.
Qed.

(** On its own. *)
Lemma spec_run `{!PreOrder R} {A} P (m : console A) Q n w :
  spec P m Q → P n w → ∃ r n' w', run (m n) w = (Ok (r, n'), w') ∧ Q r n' w'.
Proof.
  intros Hm Hp. destruct (wp_run R _ _ _ (Hm n w Hp)) as (r & n' & Hr & HQ).
  exists r, n', (run (m n) w).2. split; [by apply run_pair|done].
Qed.

End triples.

(** ** A run and its company *)

Section company.
Context {J : SerdeJson} {U : UuidDisplay} (env : Env) (bases : gmap string string).
Context (run_id : Uuid).

(** The events on the channel of the run. *)
Definition told (w : World) : list (string * Event) :=
  filter (λ e, e.1 = kem_channel run_id) w.(published).

(** Where a run starts: what was told on its channel before, and the cells it has. *)
Record Origin := {
  or_told : list (string * Event);
  or_cells : string → string → option KemMatrixCell.t;
}.

Definition seen (w : World) : Origin := {|
  or_told := told w;
  or_cells := λ kem adapter, w.(db).(kem_matrix_cells) !! (run_id, kem, adapter);
|}.

Record starts_from (start : Origin) (w : World) : Prop := {
  sf_told : told w = start.(or_told);
  sf_cells : ∀ kem adapter,
    w.(db).(kem_matrix_cells) !! (run_id, kem, adapter) = start.(or_cells) kem adapter;
}.

(** What the tasks beside a run leave alone: its rows, its channel, and the truth of the
    capability cache they share. *)
Record spares (w w' : World) : Prop := {
  sp_run : w'.(db).(kem_runs) !! run_id = w.(db).(kem_runs) !! run_id;
  sp_logs : ∀ seq, w'.(db).(kem_run_logs) !! (run_id, seq) = w.(db).(kem_run_logs) !! (run_id, seq);
  sp_cells : ∀ kem adapter, w'.(db).(kem_matrix_cells) !! (run_id, kem, adapter)
    = w.(db).(kem_matrix_cells) !! (run_id, kem, adapter);
  sp_told : told w' = told w;
  sp_cache : ∀ adapter caps, w'.(cache) !! adapter = Some caps →
    w.(cache) !! adapter = Some caps ∨ described env bases adapter caps;
}.

#[export] Instance spares_preorder : PreOrder spares.
Proof.
  split; [split; auto|]. intros w1 w2 w3 [H1 H2 H3 H4 H5] [K1 K2 K3 K4 K5].
  split; [congruence|..]; intros; rewrite ?K2, ?K3, ?K4; auto.
  destruct (K5 _ _ H); auto.
Qed.

End company.

Section transcript.
Context {J : SerdeJson} {U : UuidDisplay} {C : Chrono}.
Context (env : Env) (bases : gmap string string) (Hr : reliable env).
Context (run_id : Uuid) (run_row : KemRun.t) (start : Origin).
Context (R : World → World → Prop) `{!PreOrder R}.
Context (HR : ∀ w w', R w w' → spares env bases run_id w w').

Record line := { line_at : DateTime; line_level : string; line_message : string }.

Definition log_row (seq : Z) (l : line) : KemRunLog.t := {|
  KemRunLog.run_id := run_id; KemRunLog.seq := seq; KemRunLog.at_ := l.(line_at);
  KemRunLog.level := l.(line_level); KemRunLog.message := l.(line_message) |}.

Definition log_event (seq : Z) (l : line) : string * Event :=
  (kem_channel run_id,
   Kem_event (KemEvent.Log seq (to_rfc3339 l.(line_at)) l.(line_level) l.(line_message))).

Definition is_log (e : string * Event) : bool :=
  match e.2 with
  | Kem_event (KemEvent.Log _ _ _ _) => true
  | _ => false
  end.

(** The events of [evs] that are log lines. *)
Definition log_events (evs : list (string * Event)) : list (string * Event) :=
  filter (λ e, is_log e = true) evs.

Definition cell_row (kem adapter : string) (verdict : ResultStatus.t) (detail : option string)
    : KemMatrixCell.t := {|
  KemMatrixCell.run_id := run_id; KemMatrixCell.kem := kem; KemMatrixCell.adapter := adapter;
  KemMatrixCell.verdict := verdict; KemMatrixCell.detail := detail |}.

(** The cell of the matrix after an event. *)
Definition cell_told (kem adapter : string) (c : option KemMatrixCell.t) (e : string * Event)
    : option KemMatrixCell.t :=
  match e.2 with
  | Kem_event (KemEvent.Cell k a verdict detail) =>
      if decide ((kem, adapter) = (k, a)) then Some (cell_row k a verdict detail) else c
  | _ => c
  end.

(** Lines and cells are all that is told of a run before its end. *)
Definition progress_event (e : string * Event) : Prop :=
  match e.2 with
  | Kem_event (KemEvent.Log _ _ _ _) | Kem_event (KemEvent.Cell _ _ _ _) => True
  | _ => False
  end.

(** The events [evs] tell what is stored of the run: the lines [lines], numbered from 1, and
    the cells. *)
Record tells (evs : list (string * Event)) (lines : list line) (w : World) : Prop := {
  tl_rows : ∀ seq, w.(db).(kem_run_logs) !! (run_id, seq)
    = if decide (0 < seq)%Z then log_row seq <$> lines !! Z.to_nat (seq - 1) else None;
  tl_logs : log_events evs = imap (λ i, log_event (Z.of_nat (S i))) lines;
  tl_cells : ∀ kem adapter, w.(db).(kem_matrix_cells) !! (run_id, kem, adapter)
    = foldl (cell_told kem adapter) (start.(or_cells) kem adapter) evs;
  tl_only : Forall progress_event evs;
}.

(** The stored lines and cells and the published ones are the same, and nothing else of the
    run is stored. *)
Record transcript (lines : list line) (w : World) : Prop := {
  tr_run : w.(db).(kem_runs) !! run_id = Some run_row;
  tr_events : ∃ evs, told run_id w = start.(or_told) ++ evs ∧ tells evs lines w;
}.

Lemma tells_same evs lines w w' :
  (∀ seq, w'.(db).(kem_run_logs) !! (run_id, seq) = w.(db).(kem_run_logs) !! (run_id, seq)) →
  (∀ kem adapter, w'.(db).(kem_matrix_cells) !! (run_id, kem, adapter)
    = w.(db).(kem_matrix_cells) !! (run_id, kem, adapter)) →
  tells evs lines w → tells evs lines w'.
Proof. intros H1 H2 [K1 K2 K3 K4]. split; intros; rewrite ?H1, ?H2; auto. Qed.

Definition logged (lines : list line) (n : Z) (w : World) : Prop :=
  n = Z.of_nat (length lines) ∧ transcript lines w.

Definition tidy (n : Z) (w : World) : Prop := ∃ lines, logged lines n w.

(** The counter stays in step with the transcript, whatever the result. *)
Definition keeps {A} (m : console A) : Prop := spec R tidy m (λ _ n w, tidy n w).

(** ... and a successful end leaves a [result] line last. *)
Definition concludes {A} (m : console A) : Prop :=
  spec R tidy m (λ r n w, tidy n w ∧
    (is_ok r = true → ∃ lines l, logged (lines ++ [l]) n w ∧ l.(line_level) = "result")).

Lemma keeps_bind {A B} (m : console A) (k : A → console B) :
  keeps m → (∀ a, keeps (k a)) → keeps (con_bind m k).
Proof.
  intros Hm Hk. eapply (spec_bind _ _ _ _ (λ _, tidy)); [|done].
  eapply spec_weaken; [apply Hm|]. by intros [].
Qed.

Lemma concludes_bind {A B} (m : console A) (k : A → console B) :
  keeps m → (∀ a, concludes (k a)) → concludes (con_bind m k).
Proof.
  intros Hm Hk. eapply (spec_bind _ _ _ _ (λ _, tidy)); [|done].
  eapply spec_weaken; [apply Hm|]. intros [] n w ?; done.
Qed.

Lemma keeps_ret {A} (a : A) : keeps (con_ret a).
Proof. by apply spec_ret. Qed.

Lemma keeps_fail {A} e : keeps (con_fail e : console A).
Proof. by apply spec_fail. Qed.

Lemma keeps_for {A} (l : list A) body : (∀ x, keeps (body x)) → keeps (con_for l body).
Proof. intros Hb. apply spec_for. intros x _. apply Hb. Qed.

Lemma transcript_same lines w w' :
  same_tables w w' → transcript lines w → transcript lines w'.
Proof.
  intros (Hd & Hp & _) [H1 (evs & H2 & H3)]. split; [by rewrite Hd|]. exists evs.
  unfold told. rewrite Hp. split; [done|]. by eapply tells_same; [..|exact H3]; rewrite Hd.
Qed.

Lemma transcript_stable lines : stable R (transcript lines).
Proof.
  intros w w' [Hrun Hlogs Hcells Ht _]%HR [H1 (evs & H2 & H3)]. split; [congruence|].
  exists evs. split; [congruence|]. by eapply tells_same.
Qed.

Lemma tidy_stable n : stable R (tidy n).
Proof.
  intros w w' Hw (lines & Hn & Ht). exists lines. split; [done|]. by eapply transcript_stable.
Qed.

Lemma tidy_quiet n w w' : same_tables w w' → tidy n w → tidy n w'.
Proof. intros Hs (lines & Hn & Ht). exists lines. split; [done|]. by eapply transcript_same. Qed.

Lemma keeps_lift {A} (p : prog World A) `{!Quiet p} : keeps (lift p).
Proof.
  apply spec_lift. intros n w Ht. apply (wp_invariant R same_tables); [apply tidy_stable| |done|done].
  intros w1 w2. apply tidy_quiet.
Qed.

Lemma transcript_free lines w :
  transcript lines w →
  w.(db).(kem_run_logs) !! (run_id, Z.of_nat (S (length lines))) = None.
Proof.
  intros [_ (evs & _ & [Hrows _ _ _])]. rewrite Hrows. case_decide; [|done].
  rewrite lookup_ge_None_2 by lia. done.
Qed.

Lemma told_publish w e :
  told run_id (set_published (w.(published) ++ [(kem_channel run_id, e)]) w)
  = told run_id w ++ [(kem_channel run_id, e)].
Proof. unfold told. cbn. by rewrite filter_app, filter_cons_True. Qed.

(** One more line, stored and published. *)
Lemma transcript_snoc lines l seq w w' :
  transcript lines w → seq = Z.of_nat (S (length lines)) →
  w'.(db).(kem_runs) !! run_id = w.(db).(kem_runs) !! run_id →
  (∀ seq', w'.(db).(kem_run_logs) !! (run_id, seq')
     = if decide (seq' = seq) then Some (log_row seq l) else w.(db).(kem_run_logs) !! (run_id, seq')) →
  (∀ kem adapter, w'.(db).(kem_matrix_cells) !! (run_id, kem, adapter)
    = w.(db).(kem_matrix_cells) !! (run_id, kem, adapter)) →
  told run_id w' = told run_id w ++ [log_event seq l] →
  transcript (lines ++ [l]) w'.
Proof.
  intros [Hrun (evs & Hev & [Hrows Hlog Hcells Honly])] -> Hrun' Hlogs' Hcells' Ht.
  split; [congruence|]. exists (evs ++ [log_event (Z.of_nat (S (length lines))) l]).
  rewrite Ht, Hev, <-app_assoc. split; [done|]. split.
  - intros seq'. rewrite Hlogs'. case_decide as Hs; [subst seq'|].
    + rewrite decide_True by lia. rewrite lookup_app_r by lia.
      by replace (Z.to_nat _ - length lines) with 0 by lia.
    + rewrite Hrows. case_decide; [|done]. destruct (decide (seq' < Z.of_nat (S (length lines)))%Z).
      * by rewrite lookup_app_l by lia.
      * rewrite !lookup_ge_None_2; [done|rewrite length_app; simpl; lia|lia].
  - unfold log_events. rewrite filter_app. fold (log_events evs).
    rewrite Hlog, imap_app. f_equal. cbn. by rewrite Nat.add_0_r.
  - intros kem adapter. by rewrite Hcells', Hcells, foldl_snoc.
  - apply Forall_app. by rewrite Forall_singleton.
Qed.

(** A fact about cells and cache, which a line of the console leaves alone. *)
Definition aside (F : World → Prop) : Prop :=
  stable R F ∧ ∀ w w', w'.(db).(kem_matrix_cells) = w.(db).(kem_matrix_cells) →
                       w'.(cache) = w.(cache) → F w → F w'.

Lemma log_spec_aside F level message lines :
  aside F →
  spec R (λ n w, logged lines n w ∧ F w) (log env run_id level message) (λ r n w,
    r = Ok tt ∧ ∃ at_, logged (lines ++ [Build_line at_ level message]) n w ∧ F w).
Proof.
  intros [HFR HF] n w [[-> Ht] Hf]. unfold log. apply wp_bind, wp_call. intros w1 Hw1. cbn [now fst snd].
  apply (transcript_stable _ _ _ Hw1) in Ht. apply (HFR _ _ Hw1) in Hf.
  set (at_ := clock env (steps w1)). set (seq := (Z.of_nat (length lines) + 1)%Z).
  assert (Hseq : seq = Z.of_nat (S (length lines))) by lia.
  apply wp_bind, wp_attempt, wp_bind, wp_call. intros w2 Hw2.
  apply (transcript_same _ _ (tick w1)) in Ht; [|done]. apply (transcript_stable _ _ _ Hw2) in Ht.
  apply (HF _ (tick w1)) in Hf; [|done..]. apply (HFR _ _ Hw2) in Hf.
  unfold insert_log. rewrite sql_works by done.
  pose proof (transcript_free _ _ Ht) as Hfree. rewrite <-Hseq in Hfree.
  rewrite (tr_run _ _ Ht), Hfree. cbn [fst snd]. apply wp_call. intros w3 Hw3.
  pose proof (HR _ _ Hw3) as [Hrun Hlogs Hcells Htold _].
  assert (Hf3 : F w3) by by apply (HFR _ _ Hw3), (HF w2).
  unfold publish_kem. rewrite redis_publish_works by done. cbn [fst snd].
  exists (Ok tt), seq. split; [done|]. split; [done|]. exists at_. split; [split|].
  - rewrite length_app. simpl. lia.
  - eapply (transcript_snoc _ _ seq _ _ Ht Hseq).
    + exact Hrun.
    + intros seq'. cbn [db set_published]. rewrite Hlogs. cbn [db set_db kem_run_logs with_kem_run_logs].
      case_decide as Hs; [by rewrite Hs, lookup_insert_eq|]. by rewrite lookup_insert_ne by congruence.
    + exact Hcells.
    + rewrite told_publish, Htold. done.
  - by apply (HF w3).
Qed.

Lemma log_spec level message lines :
  spec R (logged lines) (log env run_id level message) (λ r n w,
    r = Ok tt ∧ ∃ at_, logged (lines ++ [Build_line at_ level message]) n w).
Proof.
  eapply spec_pre; [eapply spec_weaken; [by apply (log_spec_aside (λ _, True))|]|done].
  cbn. intros r n w (-> & at_ & Hl & _). eauto.
Qed.

Lemma keeps_log level message : keeps (log env run_id level message).
Proof.
  intros n w (lines & Hl). eapply wp_mono; [|by apply (log_spec level message lines)].
  cbn. intros x w' (r & n' & -> & -> & at_ & Hl'). exists (Ok tt), n'. split; [done|]. by eexists.
Qed.

Lemma concludes_log message : concludes (log env run_id "result" message).
Proof.
  intros n w (lines & Hl). eapply wp_mono; [|by apply (log_spec "result" message lines)].
  cbn. intros x w' (r & n' & -> & -> & at_ & Hl'). exists (Ok tt), n'. split; [done|].
  split; [by eexists|]. intros _. by eexists _, _.
Qed.

(** A cell was stored and published; the rest of the run is as it was. *)
Record cell_stored (kem adapter : string) (verdict : ResultStatus.t) (detail : option string)
    (w w' : World) : Prop := {
  cs_run : w'.(db).(kem_runs) !! run_id = w.(db).(kem_runs) !! run_id;
  cs_logs : ∀ seq, w'.(db).(kem_run_logs) !! (run_id, seq) = w.(db).(kem_run_logs) !! (run_id, seq);
  cs_cells : ∀ k a, w'.(db).(kem_matrix_cells) !! (run_id, k, a)
    = if decide ((k, a) = (kem, adapter)) then Some (cell_row kem adapter verdict detail)
      else w.(db).(kem_matrix_cells) !! (run_id, k, a);
  cs_told : told run_id w'
    = told run_id w ++ [(kem_channel run_id, Kem_event (KemEvent.Cell kem adapter verdict detail))];
  cs_cache : ∀ a caps, w'.(cache) !! a = Some caps →
    w.(cache) !! a = Some caps ∨ described env bases a caps;
}.

Lemma cell_spec (P : Z → World → Prop) kem adapter verdict detail :
  (∀ n, stable R (P n)) → (∀ n w, P n w → is_Some (w.(db).(kem_runs) !! run_id)) →
  spec R P (cell env run_id kem adapter verdict detail) (λ r n w',
    r = Ok tt ∧ ∃ w, P n w ∧ cell_stored kem adapter verdict detail w w').
Proof.
  intros HP Hrow. apply spec_lift. intros n w Hp. apply wp_bind, wp_call. intros w1 Hw1.
  apply (HP _ _ _ Hw1) in Hp. destruct (Hrow _ _ Hp) as [r Hrun].
  unfold upsert_cell. rewrite sql_works, Hrun by done. cbn [fst snd]. apply wp_call.
  intros w2 Hw2. pose proof (HR _ _ Hw2) as [H1 H2 H3 H4 H5].
  unfold publish_kem. rewrite redis_publish_works by done. cbn [fst snd]. split; [done|].
  exists w1. split; [done|]. split.
  - exact H1.
  - exact H2.
  - intros k a. cbn [db set_published]. rewrite H3. cbn [db set_db kem_matrix_cells with_kem_matrix_cells].
    case_decide as Hk; [injection Hk as -> ->; by rewrite lookup_insert_eq|].
    by rewrite lookup_insert_ne by congruence.
  - by rewrite told_publish, H4.
  - exact H5.
Qed.

Lemma cell_stored_transcript kem adapter verdict detail lines w w' :
  cell_stored kem adapter verdict detail w w' → transcript lines w → transcript lines w'.
Proof.
  intros [H1 H2 H3 H4 _] [Hrun (evs & Hev & [Hrows Hlog Hcells Honly])]. split; [congruence|].
  rewrite H4, Hev, <-app_assoc. eexists. split; [done|]. split.
  - intros seq. by rewrite H2.
  - unfold log_events. rewrite filter_app. fold (log_events evs). rewrite Hlog. cbn.
    by rewrite app_nil_r.
  - intros k a. rewrite H3, Hcells, foldl_snoc. generalize (foldl (cell_told k a)). intros f.
    unfold cell_told. cbn [snd]. case_decide as Hk; [|done]. by injection Hk as -> ->.
  - apply Forall_app. by rewrite Forall_singleton.
Qed.

Lemma keeps_cell kem adapter verdict detail :
  keeps (cell env run_id kem adapter verdict detail).
Proof.
  eapply spec_weaken.
  - apply (cell_spec tidy); [apply tidy_stable|]. intros n w (lines & _ & [Hrun _]). by eexists.
  - cbn. intros r n w (_ & w1 & (lines & Hn & Ht) & Hc). exists lines.
    split; [done|]. by eapply cell_stored_transcript.
Qed.

End transcript.

#[export] Hint Resolve keeps_ret keeps_fail keeps_log concludes_log keeps_cell : console.
#[export] Hint Extern 1 (keeps _ _ _ _ (lift _)) =>
  eapply keeps_lift; first [eassumption | apply _] : console.

(** Walk through a program of the console. *)
Ltac keep :=
  repeat first
    [ solve [eauto 4 with console]
    | apply concludes_bind | apply keeps_for | apply keeps_bind
    | match goal with |- ∀ _, _ => intro end | case_match ].

Section modes.
Context {J : SerdeJson} {U : UuidDisplay} {C : Chrono}.
Context (env : Env) (bases : gmap string string) (Hr : reliable env).
Context (job : KemJob.t).
Notation run_id := (job.(KemJob.run_id)).

Section within.
Context (R : World → World → Prop) `{!PreOrder R}.
Context (HR : ∀ w w', R w w' → spares env bases run_id w w').

Section keep.
Context (run_row : KemRun.t) (start : Origin).
Notation keeps := (keeps run_id run_row start R).
Notation concludes := (concludes run_id run_row start R).

Lemma keeps_compat_cell kem adapter : keeps (compat_cell env bases job kem adapter).
Proof. unfold compat_cell. keep. Qed.

Lemma library_compat_concludes : concludes (library_compat env bases job).
Proof. unfold library_compat. pose proof keeps_compat_cell. keep. Qed.

Lemma keeps_log_http http : keeps (log_http env job http).
Proof. unfold log_http. keep. Qed.

Lemma group_compat_concludes : concludes (group_compat env bases job).
Proof. unfold group_compat. pose proof keeps_log_http. keep. Qed.

Lemma keeps_priority_loop fuel adapter remaining order :
  keeps (priority_loop env bases job fuel adapter remaining order).
Proof.
  revert remaining order. induction fuel as [|fuel IH]; intros [|g remaining] order;
    cbn [priority_loop]; keep.
Qed.

Lemma keeps_log_findings findings : keeps (log_findings env job findings).
Proof. unfold log_findings. keep. Qed.

Lemma priority_concludes : concludes (priority env bases job).
Proof.
  unfold priority. pose proof keeps_priority_loop. pose proof keeps_log_findings. keep.
Qed.

Lemma mode_body_concludes : concludes (mode_body env bases job).
Proof.
  unfold mode_body. destruct (KemJob.mode job);
    auto using library_compat_concludes, group_compat_concludes, priority_concludes.
Qed.

(** A run that has ended: its row says how, its console is [lines], and [Finished] was
    published after them. *)
Definition ended_with (status : TaskStatus.t) (lines : list line) (w : World) : Prop :=
  ∃ evs at_,
    w.(db).(kem_runs) !! run_id = Some (run_with_status status (Some at_) run_row) ∧
    told run_id w = start.(or_told) ++ evs
      ++ [(kem_channel run_id, Kem_event (KemEvent.Finished run_id))] ∧
    tells run_id start evs lines w.

Lemma ended_with_stable status lines : stable R (ended_with status lines).
Proof.
  intros w w' [H1 H2 H3 H4 _]%HR (evs & at_ & K1 & K2 & K3). exists evs, at_.
  split_and!; [congruence..|]. by eapply tells_same.
Qed.

Lemma finish_spec F status lines w :
  aside R F → transcript run_id run_row start lines w → F w →
  wp R (finish env run_id status) (λ r w', r = Ok tt ∧ ended_with status lines w' ∧ F w') w.
Proof.
  intros [HFR HF] Ht Hf. unfold finish. apply wp_bind, wp_call. intros w1 Hw1.
  apply (HFR _ _ Hw1) in Hf.
  pose proof (transcript_stable env bases run_id run_row start R HR _ _ _ Hw1 Ht)
    as [Hrun (evs & Hev & Htl)]. clear Ht.
  rewrite sql_works by done. cbn [fst snd]. apply wp_call. intros w2 Hw2.
  pose proof (HR _ _ Hw2) as [H1 H2 H3 H4 _].
  assert (Hf2 : F w2) by by apply (HFR _ _ Hw2), (HF w1).
  unfold publish_kem. rewrite redis_publish_works by done. cbn [fst snd]. split; [done|].
  split; [|by apply (HF w2)]. exists evs, (clock env (steps w1)). split_and!.
  - cbn [db set_published]. rewrite H1. cbn. by rewrite lookup_alter_eq, Hrun.
  - rewrite told_publish, H4, app_assoc. f_equal. exact Hev.
  - eapply tells_same; [exact H2|exact H3|]. by eapply tells_same; [..|exact Htl].
Qed.

End keep.

(** The first statement of the handler. *)
Definition marked (w : World) : World :=
  set_db (with_kem_runs (alter (λ r,
    run_with_status TaskStatus.Running r.(KemRun.finished_at) r) run_id) w.(db)) w.

(** A run without lines, once it is marked running. *)
Lemma tidy_start start w r0 :
  w.(db).(kem_runs) !! run_id = Some r0 →
  (∀ seq, w.(db).(kem_run_logs) !! (run_id, seq) = None) → starts_from run_id start w →
  transcript run_id (run_with_status TaskStatus.Running r0.(KemRun.finished_at) r0) start []
    (marked w).
Proof.
  intros Hrun Hfree [Ht Hc]. split.
  - cbn. by rewrite lookup_alter_eq, Hrun.
  - exists []. rewrite app_nil_r. split; [exact Ht|]. split; [|done|exact Hc|constructor].
    intros seq. cbn. rewrite Hfree. by case_decide.
Qed.

Lemma starts_from_stable start : stable R (starts_from run_id start).
Proof. intros w w' [_ _ H3 H4 _]%HR [K1 K2]. split; [congruence|]. intros. by rewrite H3. Qed.

Definition failed_line (at_ : DateTime) (err : string) : line :=
  Build_line at_ "result" ("Result: RunFailed - " +:+ err).

(** The frame of the handler: what the mode says of its console in [Q] holds of the console
    the run ends with, to which the handler adds a line when the mode failed. *)
Lemma handle_spec w r0 (P : Z → World → Prop) (Q : result string unit → list line → World → Prop) :
  let row := run_with_status TaskStatus.Running r0.(KemRun.finished_at) r0 in
  let start := seen run_id w in
  w.(db).(kem_runs) !! run_id = Some r0 →
  (∀ seq, w.(db).(kem_run_logs) !! (run_id, seq) = None) →
  (∀ w1, R w w1 → transcript run_id row start [] (marked w1) → P 0%Z (marked w1)) →
  spec R P (mode_body env bases job) (λ r n w,
    ∃ lines, logged run_id row start lines n w ∧ Q r lines w) →
  (∀ r lines, aside R (Q r lines)) →
  wp R (handle env bases job) (λ r w', r = Ok tt ∧
    ((∃ lines, ended_with row start TaskStatus.Finished lines w' ∧ Q (Ok tt) lines w') ∨
     (∃ lines at_ err, ended_with row start TaskStatus.Failed (lines ++ [failed_line at_ err]) w' ∧
                       Q (Err err) lines w'))) w.
Proof.
  intros row start Hrun Hfree HP Hm HQ. unfold handle, mark_running. apply wp_bind, wp_call.
  intros w1 Hw1. pose proof (HR _ _ Hw1) as [H1 H2 _ H4 _]. rewrite sql_works by done. cbn [fst snd].
  fold (marked w1). assert (Ht : transcript run_id row start [] (marked w1)).
  { apply tidy_start; [congruence|intros seq; by rewrite H2|].
    by apply (starts_from_stable _ _ _ Hw1). }
  apply wp_bind. eapply wp_mono; [|by apply Hm, HP].
  intros x w2 (r & n & -> & lines & Hl & Hq). cbn [fst snd]. destruct r as [[]|err].
  - eapply wp_mono; [|by apply (finish_spec row start (Q (Ok tt) lines)); [apply HQ|apply Hl|]].
    intros r w' (-> & He & Hq'). split; [done|]. left. by exists lines.
  - apply wp_bind. eapply wp_mono; [|by apply (log_spec_aside env bases Hr run_id row start R HR
      (Q (Err err) lines) "result" ("Result: RunFailed - " +:+ err) lines); [apply HQ|]].
    intros x w3 (r & n' & -> & -> & at_ & [_ Ht3] & Hq3). cbn [fst of_result bind].
    eapply wp_mono; [|by apply (finish_spec row start (Q (Err err) lines)); [apply HQ|exact Ht3|]].
    intros r w' (-> & He & Hq'). split; [done|]. right. by exists lines, at_, err.
Qed.

(** The handler, from its first statement to its return. *)
Lemma handle_transcript w r0 :
  w.(db).(kem_runs) !! run_id = Some r0 →
  (∀ seq, w.(db).(kem_run_logs) !! (run_id, seq) = None) →
  wp R (handle env bases job) (λ r w', r = Ok tt ∧ ∃ status lines l,
    status ∈ [TaskStatus.Finished; TaskStatus.Failed] ∧ l.(line_level) = "result" ∧
    ended_with (run_with_status TaskStatus.Running r0.(KemRun.finished_at) r0) (seen run_id w)
      status (lines ++ [l]) w') w.
Proof.
  intros Hrun Hfree. set (row := run_with_status TaskStatus.Running r0.(KemRun.finished_at) r0).
  eapply wp_mono; [|apply (handle_spec w r0 (tidy run_id row (seen run_id w))
    (λ r lines _, is_ok r = true → ∃ lines0 l, lines = lines0 ++ [l] ∧ l.(line_level) = "result"));
    [done|done|..]].
  - cbn. intros r w' (-> & [(lines & He & Hq)|(lines & at_ & err & He & _)]); split; try done.
    + destruct (Hq eq_refl) as (lines0 & l & -> & Hlev). eexists _, lines0, l.
      split_and!; [|done|exact He]. by left.
    + eexists _, lines, (failed_line at_ err). split_and!; [|done|exact He]. right. by left.
  - intros w1 _ Ht. exists []. by split.
  - eapply spec_weaken; [apply mode_body_concludes|]. cbn. intros r n w' [(lines & Hl) Hok].
    destruct (is_ok r).
    + destruct (Hok eq_refl) as (lines0 & l & Hl' & Hlev). exists (lines0 ++ [l]).
      split; [done|]. by eexists _, _.
    + by exists lines.
  - intros r lines. split; [by intros w1 w2 _|by intros w1 w2 _ _].
Qed.

End within.

(** Every run, in any mode and whatever the adapters answer, ends, also in the company
    of tasks that spare it (other runs, subtasks, acknowledgements): the run is marked
    [finished], or [failed] when the mode failed, and its console ends with a [result] line.
    The stored lines are numbered from 1 without a gap, the [Log] events on the channel of
    the run are the same lines in the same order, and the last event is [Finished]. *)
Theorem kem_handle_transcript w r0 :
  w.(db).(kem_runs) !! run_id = Some r0 →
  (∀ seq, w.(db).(kem_run_logs) !! (run_id, seq) = None) →
  in_company (spares env bases run_id) (handle env bases job) w (λ r w', r = Ok tt ∧
    ∃ status lines l,
      status ∈ [TaskStatus.Finished; TaskStatus.Failed] ∧ l.(line_level) = "result" ∧
      ended_with (run_with_status TaskStatus.Running r0.(KemRun.finished_at) r0) (seen run_id w)
        status (lines ++ [l]) w').
Proof.
  intros Hrun Hfree.
  refine (wp_in_company _ _ _ _ _ (handle_transcript (spares env bases run_id) _ w r0 Hrun Hfree));
    [|done]. intros r w1 w2 Hw (-> & status & lines & l & ? & ? & He). split; [done|].
  exists status, lines, l. split_and!; [done..|].
  by apply (ended_with_stable (spares env bases run_id) (λ _ _ H, H) _ _ _ _ w1).
Qed.

Lemma log_taken level message n w :
  is_Some (w.(db).(kem_runs) !! run_id) →
  is_Some (w.(db).(kem_run_logs) !! (run_id, (n + 1)%Z)) →
  ∃ e w', run (log env run_id level message n) w = (Ok (Err e, (n + 1)%Z), w') ∧
          same_tables w w'.
Proof.
  intros [r Hrun] [l Hl]. unfold log. rewrite run_bind, run_call. cbn [now].
  rewrite run_bind, run_attempt, run_bind, run_call. unfold insert_log.
  rewrite sql_works by done. cbn [db tick]. rewrite Hrun, Hl. by eexists _, _.
Qed.

(** The first line of a mode is the first thing that can change the tables. *)
Lemma mode_body_taken w :
  is_Some (w.(db).(kem_runs) !! run_id) →
  is_Some (w.(db).(kem_run_logs) !! (run_id, 1%Z)) →
  ∃ e n w', run (mode_body env bases job 0%Z) w = (Ok (Err e, n), w') ∧
    n ∈ [0; 1]%Z ∧ same_tables w w'.
Proof.
  intros Hrun Hlog.
  assert (Hfirst : ∀ {A} message (k : unit → console A), ∃ e n w',
    run (con_bind (log env run_id "info" message) k 0%Z) w = (Ok (Err e, n), w') ∧
    n ∈ [0; 1]%Z ∧ same_tables w w').
  { intros A message k. destruct (log_taken "info" message 0%Z w Hrun Hlog) as (e & w' & Hl & Hs).
    exists e, 1%Z, w'. unfold con_bind. rewrite run_bind, Hl. split_and!; [done|set_solver|done]. }
  unfold mode_body, library_compat, group_compat, priority. destruct (KemJob.mode job);
    [apply Hfirst|..].
  all: unfold con_bind at 1, lift at 1; destruct (preferred_adapter bases) as [adapter|e];
    cbn [of_result attempt bind fst snd]; [apply Hfirst|].
  all: exists e, 0%Z, w; split_and!; [done|set_solver|done].
Qed.

(** A run that is handled a second time, as a job reclaimed from a dead worker is,
    cannot be completed: the numbering of its console starts again at 1, the lines of the
    first attempt are in the way, and the run stays [running] with nothing published. *)
Theorem kem_redelivery_stuck w r0 :
  w.(db).(kem_runs) !! run_id = Some r0 →
  is_Some (w.(db).(kem_run_logs) !! (run_id, 1%Z)) →
  is_Some (w.(db).(kem_run_logs) !! (run_id, 2%Z)) →
  ∃ err w',
    run (handle env bases job) w = (Err err, w') ∧
    w'.(db).(kem_runs) !! run_id
      = Some (run_with_status TaskStatus.Running r0.(KemRun.finished_at) r0) ∧
    w'.(published) = w.(published).
Proof.
  intros Hrun H1 H2. unfold handle, mark_running.
  rewrite run_bind, run_call, sql_works by done. set (w1 := set_db _ w).
  assert (Hrun1 : w1.(db).(kem_runs) !! run_id
                  = Some (run_with_status TaskStatus.Running r0.(KemRun.finished_at) r0))
    by (cbn; by rewrite lookup_alter_eq, Hrun).
  destruct (mode_body_taken w1) as (e & n & w2 & Hm & Hn & Hd & Hp & _); [by eexists|done|].
  rewrite run_bind, Hm. cbn [fst snd]. rewrite run_bind.
  destruct (log_taken "result" ("Result: RunFailed - " +:+ e) n w2) as (e' & w3 & Hl & Hd' & Hp' & _).
  - rewrite Hd, Hrun1. eauto.
  - rewrite Hd. cbn. rewrite !elem_of_cons, elem_of_nil in Hn. by destruct Hn as [->|[->|[]]].
  - rewrite Hl. cbn [fst of_result bind run]. exists e', w3.
    rewrite Hd', Hd, Hp', Hp. done.
Qed.

End modes.

Module KemWitness.
Import Fixtures.Lab.

Lemma kem_handle_transcript_witness :
  let w' := (run (handle env bases kem_job) kem_world).2 in
  ∃ status lines l,
    status ∈ [TaskStatus.Finished; TaskStatus.Failed] ∧ l.(line_level) = "result" ∧
    ended_with kem_job (run_with_status TaskStatus.Running None kem_run) (seen 7 kem_world) status (lines ++ [l]) w'.
Proof.
  cbv zeta.
  pose proof (in_company_run _ _ _ _ (kem_handle_transcript env bases ltac:(done) kem_job kem_world
                kem_run eq_refl (λ _, eq_refl))) as [_ H].
  exact H.
Defined.

Lemma kem_redelivery_stuck_witness :
  let w := (run (handle env bases kem_job) kem_world).2 in
  ∃ err w' r0,
    run (handle env bases kem_job) w = (Err err, w') ∧
    w'.(db).(kem_runs) !! 7%N
      = Some (run_with_status TaskStatus.Running r0.(KemRun.finished_at) r0) ∧
    w'.(published) = w.(published).
Proof.
  cbv zeta. set (w := (run (handle env bases kem_job) kem_world).2).
  destruct (kem_redelivery_stuck env bases ltac:(done) kem_job w
              (run_with_status TaskStatus.Finished (Some 24%Z)
                 (run_with_status TaskStatus.Running None kem_run)))
    as (err & w' & H); [vm_compute; reflexivity|vm_compute; by eexists|vm_compute; by eexists|].
  exists err, w', (run_with_status TaskStatus.Finished (Some 24%Z)
                     (run_with_status TaskStatus.Running None kem_run)). exact H.
Defined.

End KemWitness.
