(* ===== verification/KemModes.v ===== *)
(** * The modes of a KEM DEMO run

    The matrix mode fills every cell with what was observed; the priority mode always ends
    and, against a server that keeps to a preference order, recovers that order. *)

From S2P Require Import Prelude RustStr Json Proto Status Domain KemOrder Effects Rely World.
From S2P Require Import Registry Asking Kem KemFacts Fixtures.

(** ** Programs that succeed *)

Section does.
Context {J : SerdeJson} (R : World → World → Prop).

(** From [P] the program succeeds, in [Q] of its value. *)
Definition does {A} (P : Z → World → Prop) (m : console A) (Q : A → Z → World → Prop) : Prop :=
  spec R P m (λ r n w, ∃ a, r = Ok a ∧ Q a n w).

Lemma does_bind {A B} P (m : console A) (k : A → console B) S Q :
  does P m S → (∀ a, does (S a) (k a) Q) → does P (con_bind m k) Q.
Proof.
  intros Hm Hk. eapply spec_bind; [|apply Hk]. eapply spec_weaken; [apply Hm|].
  intros r n w (a & -> & HS). done.
Qed.

Lemma does_ret {A} (P : Z → World → Prop) (a : A) (Q : A → Z → World → Prop) :
  (∀ n w, P n w → Q a n w) → does P (con_ret a) Q.
Proof. intros HQ. apply spec_ret. eauto. Qed.

Lemma does_weaken {A} P (m : console A) (Q Q' : A → Z → World → Prop) :
  does P m Q → (∀ a n w, Q a n w → Q' a n w) → does P m Q'.
Proof. intros Hm HQ. eapply spec_weaken; [apply Hm|]. naive_solver. Qed.

Lemma does_pre {A} (P P' : Z → World → Prop) (m : console A) Q :
  does P m Q → (∀ n w, P' n w → P n w) → does P' m Q.
Proof. intros Hm HP. by eapply spec_pre. Qed.

Lemma does_lift {A} (P : Z → World → Prop) (p : prog World A) (Q : A → Z → World → Prop) :
  (∀ n w, P n w → wp R p (λ r w', ∃ a, r = Ok a ∧ Q a n w') w) → does P (lift p) Q.
Proof. apply spec_lift. Qed.

(** A fact of the precondition that is not about the state. *)
Lemma does_pure {A} (φ : Prop) P (m : console A) Q :
  (φ → does P m Q) → does (λ n w, P n w ∧ φ) m Q.
Proof. intros Hm n w [Hp Hφ]. by apply Hm. Qed.

(** A loop whose state depends on the elements walked so far. *)
Lemma does_for {A} (I : list A → Z → World → Prop) (l : list A) body :
  (∀ l1 x l2, l = l1 ++ x :: l2 → does (I l1) (body x) (λ _, I (l1 ++ [x]))) →
  does (I []) (con_for l body) (λ _, I l).
Proof.
  assert (Hgen : ∀ l2 l1, l = l1 ++ l2 →
    (∀ l1 x l2, l = l1 ++ x :: l2 → does (I l1) (body x) (λ _, I (l1 ++ [x]))) →
    does (I l1) (con_for l2 body) (λ _, I l)).
  { induction l2 as [|x l2 IH]; intros l1 Hl Hb; cbn [con_for].
    - apply does_ret. rewrite app_nil_r in Hl. by rewrite Hl.
    - eapply does_bind; [by apply (Hb l1 x l2)|]. intros []. apply IH; [|done].
      by rewrite <-app_assoc. }
  intros Hb. by apply Hgen.
Qed.

Lemma run_bind_ext {A B} (p : prog World A) (f g : A → prog World B) w :
  (∀ a w', run (f a) w' = run (g a) w') → run (bind p f) w = run (bind p g) w.
Proof. intros Hfg. rewrite !run_bind. destruct (run p w) as [[a|e] w']; [apply Hfg|done]. Qed.

Lemma con_bind_ext {A B} (m : console A) (f g : A → console B) n w :
  (∀ a n' w', run (f a n') w' = run (g a n') w') →
  run (con_bind m f n) w = run (con_bind m g n) w.
Proof.
  intros Hfg. unfold con_bind. apply run_bind_ext. intros [[a|e] n'] w'; [apply Hfg|done].
Qed.

End does.

(** ** The loop of the priority mode *)

Section priority.
Context {J : SerdeJson} {U : UuidDisplay} {C : Chrono}.
Context (env : Env) (bases : gmap string string) (job : KemJob.t) (adapter : string).

(** What is still to be offered once [group] was chosen. *)
Definition others (group : string) (remaining : list string) : list string :=
  filter (λ g, negb (eq_ignore_ascii_case g group) = true) remaining.

Lemma others_shorter group remaining :
  length (others group remaining) =? length remaining = false →
  length (others group remaining) < length remaining.
Proof.
  intros Hne%Nat.eqb_neq. pose proof (length_filter (λ g, negb (eq_ignore_ascii_case g group) = true) remaining).
  unfold others in *. lia.
Qed.

(** C28. The priority loop ends: each round takes an entry off the offer or leaves the loop,
    so the length of the offer is enough fuel, whatever the adapter answers and whatever
    fails, and any larger amount gives the same run. *)
Theorem priority_loop_total fuel fuel' remaining order seq w :
  length remaining ≤ fuel → length remaining ≤ fuel' →
  run (priority_loop env bases job fuel adapter remaining order seq) w
  = run (priority_loop env bases job fuel' adapter remaining order seq) w.
Proof.
  revert fuel' remaining order seq w.
  induction fuel as [|fuel IH]; intros fuel' [|g remaining] order seq w Hf Hf';
    cbn [length] in Hf, Hf'; [by destruct fuel'|lia|by destruct fuel'|].
  destruct fuel' as [|fuel']; [lia|]. cbn [priority_loop].
  apply con_bind_ext. intros response n1 w1. case_match; [done|].
  case_match; [|done]. apply con_bind_ext. intros _ n2 w2.
  cbv zeta. fold (others s (g :: remaining)).
  destruct (length (others s (g :: remaining)) =? length (g :: remaining)) eqn:Hl; [done|].
  apply others_shorter in Hl. cbn [length] in Hl. apply IH; lia.
Qed.

End priority.

(** ** A server that keeps to a preference order *)

(** The name is among the offered ones, in any case. *)
Definition offered (remaining : list string) (p : string) : bool :=
  existsb (λ g, eq_ignore_ascii_case g p) remaining.

(** What the server picks. *)
Definition choice (prefs remaining : list string) : option string :=
  find_first (offered remaining) prefs.

Lemma offered_spec remaining p : offered remaining p = true ↔ ∃ g, g ∈ remaining ∧ g ≈ci p.
Proof.
  unfold offered. rewrite existsb_exists. by setoid_rewrite <-list_elem_of_In.
Qed.

Lemma offered_others p remaining q :
  offered (others p remaining) q = true ↔ offered remaining q = true ∧ ¬ q ≈ci p.
Proof.
  rewrite !offered_spec. unfold others. setoid_rewrite list_elem_of_filter.
  setoid_rewrite negb_true_iff. split.
  - intros (g & [Hn Hg] & Hq). split; [by exists g|]. intros Hqp.
    apply not_true_iff_false in Hn. apply Hn. change (g ≈ci p). by transitivity q.
  - intros ((g & Hg & Hq) & Hn). exists g. split; [|done]. split; [|done].
    apply not_true_iff_false. intros Hgp. apply Hn. transitivity g; [by symmetry|done].
Qed.

Lemma choice_filter prefs remaining p :
  NoDup (map to_ascii_lowercase prefs) → choice prefs remaining = Some p →
  filter (λ q, offered remaining q = true) prefs
    = p :: filter (λ q, offered (others p remaining) q = true) prefs ∧
  length (others p remaining) < length remaining.
Proof.
  intros Hnd (l1 & l2 & -> & Hp & Hl1)%find_first_Some. split.
  - rewrite map_app in Hnd. cbn [map] in Hnd.
    apply NoDup_app in Hnd as (_ & _ & [Hnp _]%NoDup_cons).
    assert (H1 : ∀ rem, Forall (λ q, offered rem q = false) l1 →
                 filter (λ q, offered rem q = true) l1 = []).
    { clear. intros rem. induction 1 as [|q l Hq Hl IH]; [done|].
      by rewrite filter_cons_False by congruence. }
    rewrite !filter_app, H1, H1; [|eapply Forall_impl; [exact Hl1|]|done].
    2:{ intros q Hq. cbn in Hq. apply not_true_iff_false. intros [Ho _]%offered_others.
        congruence. }
    rewrite filter_cons_True, filter_cons_False by
      (done || by intros [_ Hn]%offered_others; destruct Hn).
    cbn [app]. f_equal. clear Hp Hl1 H1. induction l2 as [|q l2 IH]; [done|].
    cbn [map] in Hnp. rewrite not_elem_of_cons in Hnp. destruct Hnp as [Hne Hnp].
    rewrite !filter_cons, IH by done.
    destruct (decide (offered remaining q = true)) as [Ho|Ho].
    + rewrite decide_True; [done|]. apply offered_others. split; [done|].
      intros Hqp. apply Hne. by rewrite Hqp.
    + rewrite decide_False; [done|]. intros [? _]%offered_others. done.
  - apply offered_spec in Hp as (g & Hg & Hgp). unfold others. clear Hl1 Hnd.
    apply (length_filter_lt _ _ g); [done|]. intros Hn%negb_true_iff. unfold ci_eq in Hgp. congruence.
Qed.

Lemma choice_None prefs remaining :
  choice prefs remaining = None → filter (λ q, offered remaining q = true) prefs = [].
Proof.
  intros Hn%find_first_None. induction Hn as [|q prefs Hq Hn IH]; [done|].
  by rewrite filter_cons_False by congruence.
Qed.

Section server.
Context {J : SerdeJson} {U : UuidDisplay} {C : Chrono}.
Context (env : Env) (bases : gmap string string) (Hr : reliable env).
Context (job : KemJob.t) (adapter base : string) (prefs : list string).

(** The adapter reports the first group of [prefs] that was offered, by the server's own
    name for it, and fails when none was. *)
Definition server_keeps_order : Prop :=
  ∀ n request, ∃ response,
    env.(post_probe) n (base +:+ "/probe") request = Report response ∧
    match choice prefs request.(ProbeRequest.kem_groups) with
    | Some p => response.(ProbeResponse.handshake_success) = true ∧
                response.(ProbeResponse.negotiated).(Negotiated.group) = Some p
    | None => response.(ProbeResponse.handshake_success) = false
    end.

Context (Hserver : server_keeps_order) (Hbase : bases !! adapter = Some base).
Context (Hprefs : NoDup (map to_ascii_lowercase prefs)).
Context (run_row : KemRun.t) (start : Origin).
Notation run_id := (job.(KemJob.run_id)).
Context (R : World → World → Prop) `{!PreOrder R}.
Context (HR : ∀ w w', R w w' → spares env bases run_id w w').
Notation tidy := (tidy run_id run_row start).
Notation does := (does R).

Lemma does_log_last level message :
  does tidy (log env run_id level message) (λ _ n w,
    ∃ lines at_, logged run_id run_row start (lines ++ [Build_line at_ level message]) n w).
Proof.
  intros n w (lines & Hl).
  eapply wp_mono; [|exact (log_spec env bases Hr run_id run_row start R HR level message lines n w Hl)].
  cbn. intros x w' (r & n' & -> & -> & at_ & Hl'). exists (Ok tt), n'. split; [done|].
  exists tt. split; [done|]. by exists lines, at_.
Qed.

Lemma does_log level message : does tidy (log env run_id level message) (λ _, tidy).
Proof.
  eapply does_weaken; [apply does_log_last|]. intros [] n w (lines & at_ & Hl).
  by eexists.
Qed.

Lemma does_log_findings findings : does tidy (log_findings env job findings) (λ _, tidy).
Proof.
  unfold log_findings. destruct findings as [|f fs]; [apply does_log|].
  apply (does_for _ (λ _, tidy)). intros. apply does_log.
Qed.

Lemma does_probe request :
  does tidy (lift (probe env bases adapter request)) (λ response n w, tidy n w ∧
    match choice prefs request.(ProbeRequest.kem_groups) with
    | Some p => response.(ProbeResponse.handshake_success) = true ∧
                response.(ProbeResponse.negotiated).(Negotiated.group) = Some p
    | None => response.(ProbeResponse.handshake_success) = false
    end).
Proof.
  apply does_lift. intros n w Ht. eapply wp_probe; [done|]. intros w1 Hw1.
  destruct (Hserver (steps w1) request) as (response & -> & Hresp). cbn [response_of].
  eexists. split; [done|]. split; [|done].
  apply (tidy_quiet _ _ _ _ w1); [done|]. by eapply tidy_stable.
Qed.

(** The loop recovers the server's order, restricted to what was offered. *)
Lemma priority_loop_order fuel remaining order :
  length remaining ≤ fuel →
  does tidy (priority_loop env bases job fuel adapter remaining order) (λ order' n w,
    tidy n w ∧ order' = order ++ filter (λ p, offered remaining p = true) prefs).
Proof.
  revert remaining order. induction fuel as [|fuel IH]; intros [|g remaining] order Hf;
    cbn [length] in Hf; [|lia| |].
  1-2: apply does_ret; intros n w Ht; split; [done|];
    rewrite (choice_None prefs []); [by rewrite app_nil_r|]; by apply find_first_None, Forall_true.
  cbn [priority_loop]. set (rem := g :: remaining) in *.
  eapply does_bind; [apply does_probe|]. intros response. cbn [ProbeRequest.kem_groups request_for].
  destruct (choice prefs rem) as [p|] eqn:Hch.
  - apply does_pure. intros [-> ->]. cbn [negb]. apply choice_filter in Hch as [Hfilter Hlt]; [|done].
    eapply does_bind; [apply does_log|]. intros []. cbv zeta. fold (others p rem).
    rewrite (proj2 (Nat.eqb_neq _ _)) by lia.
    eapply does_weaken; [apply IH; assert (length rem = S (length remaining)) by done; lia|].
    intros order' n w [Ht ->]. split; [done|]. by rewrite Hfilter, <-app_assoc.
  - apply does_pure. intros ->. cbn [negb]. apply does_ret.
    intros n w Ht. split; [done|]. by rewrite (choice_None _ _ Hch), app_nil_r.
Qed.

Lemma does_capabilities :
  (∀ n, ∃ caps, env.(get_capabilities) n (base +:+ "/capabilities") = Ok caps) →
  does tidy (lift (capabilities env bases adapter)) (λ _, tidy).
Proof.
  intros Hcaps. apply does_lift. intros n w Ht.
  eapply wp_mono; [|exact (wp_capabilities env bases R adapter base (tidy n) w Hbase
    (tidy_stable env bases run_id run_row start R HR n)
    (λ w w' H, tidy_quiet run_id run_row start n w w' (proj1 H)) Ht)].
  cbn. intros [caps|err] w' [Ht' Hr']; [by exists caps|].
  destruct Hr' as [m Hm]. destruct (Hcaps m) as [caps Hc]. congruence.
Qed.

Definition recovered : list string :=
  filter (λ p, offered job.(KemJob.kem_groups) p = true) prefs.

Lemma priority_concludes_order :
  preferred_adapter bases = Ok adapter → job.(KemJob.kem_groups) ≠ [] →
  (∀ n, ∃ caps, env.(get_capabilities) n (base +:+ "/capabilities") = Ok caps) →
  does tidy (priority env bases job) (λ _ n w, ∃ lines at_,
    logged run_id run_row start (lines ++ [Build_line at_ "result"
      ("Final Order: [" +:+ join "," (map quoted recovered) +:+ "]")]) n w).
Proof.
  intros Hpref Hne Hcaps. unfold priority. rewrite Hpref.
  apply (does_bind _ _ _ _ (λ a n w, tidy n w ∧ a = adapter)).
  { apply does_lift. intros n w Ht. by exists adapter. }
  intros a. apply does_pure. intros ->.
  eapply does_bind; [apply does_log|]. intros []. eapply does_bind; [apply does_log|]. intros [].
  eapply does_bind; [by apply does_capabilities|]. intros caps. cbn beta.
  destruct (KemJob.kem_groups job) as [|g gs] eqn:Hg; [done|].
  eapply does_bind; [by apply priority_loop_order|]. intros order. cbn [app].
  apply does_pure. intros ->. unfold recovered. rewrite Hg.
  eapply does_bind; [apply does_log_findings|]. intros []. apply does_log_last.
Qed.

End server.

(** ** What a full handshake leaves on the console *)

Section group.
Context {J : SerdeJson} {U : UuidDisplay} {C : Chrono}.
Context (env : Env) (bases : gmap string string) (Hr : reliable env).
Context (job : KemJob.t) (adapter base : string) (run_row : KemRun.t).
Context (start : Origin).
Notation run_id := (job.(KemJob.run_id)).
Context (R : World → World → Prop) `{!PreOrder R}.
Context (HR : ∀ w w', R w w' → spares env bases run_id w w').
Notation does := (does R).

Definition line_text (l : line) : string * string := (l.(line_level), l.(line_message)).

(** The console shows exactly [texts]. *)
Definition said (texts : list (string * string)) (n : Z) (w : World) : Prop :=
  ∃ lines, logged run_id run_row start lines n w ∧ map line_text lines = texts.

Lemma does_say texts level message :
  does (said texts) (log env run_id level message) (λ _, said (texts ++ [(level, message)])).
Proof.
  intros n w (lines & Hl & <-).
  eapply wp_mono; [|exact (log_spec env bases Hr run_id run_row start R HR level message lines n w Hl)].
  cbn. intros x w' (r & n' & -> & -> & at_ & Hl'). exists (Ok tt), n'. split; [done|].
  exists tt. split; [done|]. eexists. split; [done|]. by rewrite map_app.
Qed.

(** What the student sees of an HTTP answer. *)
Definition http_texts (http : HttpOutcome.t) : list (string * string) :=
  [("info", banner);
   ("info", "HTTP/1.1 " +:+ show http.(HttpOutcome.status) +:+ " "
            +:+ status_text http.(HttpOutcome.status))]
  ++ map (λ h, ("info", h.(MessageField.label) +:+ ": " +:+ join ", " h.(MessageField.values)))
       http.(HttpOutcome.headers)
  ++ [("info", banner); ("info", "response success")].

Lemma does_log_http texts http :
  does (said texts) (log_http env job http) (λ _, said (texts ++ http_texts http)).
Proof.
  unfold log_http, http_texts. rewrite (app_assoc texts).
  set (line h := ("info", h.(MessageField.label) +:+ ": " +:+ join ", " h.(MessageField.values))).
  set (head := texts ++ _).
  eapply does_bind; [apply does_say|intros []]. eapply does_bind; [apply does_say|intros []].
  rewrite <-(app_assoc texts). cbn [app]. fold head.
  eapply (does_bind _ _ _ _ (λ _, said (head ++ map line http.(HttpOutcome.headers)))).
  - eapply does_pre;
      [apply (does_for _ (λ l, said (head ++ map line l)))|intros n w; by rewrite app_nil_r].
    intros l1 x l2 _. eapply does_weaken; [apply does_say|]. intros [] n w.
    by rewrite map_app, (app_assoc head).
  - intros []. eapply does_bind; [apply does_say|intros []]. eapply does_weaken; [apply does_say|].
    intros [] n w. by rewrite <-!app_assoc.
Qed.

(** The console of a full handshake whose answer is [response]. *)
Definition group_texts (response : ProbeResponse.t) : list (string * string) :=
  [("info", "=== run_full_handshake " +:+ target_text job +:+ " ===");
   ("info", "Using KEMs: " +:+ join ", " job.(KemJob.kem_groups))]
  ++ if response.(ProbeResponse.handshake_success) then
       match response.(ProbeResponse.http) with
       | Some http => http_texts http
       | None => []
       end ++ [("result", result_line response)]
     else
       [("info", "key_gen TLS 完整交握失敗：");
        ("result", "Result: HandshakeFailed - " +:+ failure_reason response)].

Lemma group_compat_says reply :
  preferred_adapter bases = Ok adapter → bases !! adapter = Some base →
  (∀ n, env.(post_probe) n (base +:+ "/probe") (request_for job job.(KemJob.kem_groups)) = reply) →
  does (said []) (group_compat env bases job)
    (λ _, said (group_texts (response_of adapter reply))).
Proof.
  intros Hpref Hbase Hpost. unfold group_compat, group_texts. rewrite Hpref.
  set (response := response_of adapter reply).
  eapply (does_bind _ _ _ _ (λ a n w, said [] n w ∧ a = adapter)).
  { apply does_lift. intros n w Ht. by exists adapter. }
  intros a. apply does_pure. intros ->.
  eapply does_bind; [apply does_say|intros []]. eapply does_bind; [apply does_say|intros []].
  cbn [app]. match goal with |- does (said ?h) _ _ => set (head := h) end.
  eapply (does_bind _ _ _ _ (λ r n w, said head n w ∧ r = response)).
  { apply does_lift. intros n w (lines & [Hn Ht] & Htext). eapply wp_probe; [done|].
    intros w1 Hw1. rewrite Hpost. eexists. split; [done|]. split; [|done].
    exists lines. split; [|exact Htext]. split; [done|].
    apply (transcript_same run_id run_row start lines w1); [done|]. by eapply transcript_stable. }
  intros r. apply does_pure. intros ->. destruct (ProbeResponse.handshake_success response); cbn [negb].
  - eapply (does_bind _ _ _ _ (λ _, said (head ++ match ProbeResponse.http response with
      Some http => http_texts http | None => [] end))).
    { destruct (ProbeResponse.http response); [apply does_log_http|].
      apply does_ret. intros n w. by rewrite app_nil_r. }
    intros []. eapply does_weaken; [apply does_say|]. intros [] n w. by rewrite <-app_assoc.
  - eapply does_bind; [apply does_say|intros []]. apply does_say.
Qed.

End group.

(** ** From the mode to the run *)

Section handle.
Context {J : SerdeJson} {U : UuidDisplay} {C : Chrono}.
Context (env : Env) (bases : gmap string string) (job : KemJob.t).
Notation run_id := (job.(KemJob.run_id)).

Section within.
Context (Hr : reliable env) (R : World → World → Prop) `{!PreOrder R}.
Context (HR : ∀ w w', R w w' → spares env bases run_id w w').

(** A mode that succeeds: what it establishes of its console is what the run ends with. *)
Lemma handle_does w r0 (P : Z → World → Prop) (Q : list line → World → Prop) :
  let row := run_with_status TaskStatus.Running r0.(KemRun.finished_at) r0 in
  let start := seen run_id w in
  w.(db).(kem_runs) !! run_id = Some r0 →
  (∀ seq, w.(db).(kem_run_logs) !! (run_id, seq) = None) →
  (∀ w1, R w w1 → transcript run_id row start [] (marked job w1) → P 0%Z (marked job w1)) →
  does R P (mode_body env bases job) (λ _ n w',
    ∃ lines, logged run_id row start lines n w' ∧ Q lines w') →
  (∀ lines, aside R (Q lines)) →
  wp R (handle env bases job) (λ r w', r = Ok tt ∧
    ∃ lines, ended_with job row start TaskStatus.Finished lines w' ∧ Q lines w') w.
Proof.
  intros row start Hrun Hfree HP Hm HQ.
  eapply wp_mono; [|exact (handle_spec env bases Hr job R HR w r0 P
    (λ r lines w', r = Ok tt ∧ Q lines w') Hrun Hfree HP
    ltac:(eapply spec_weaken; [exact Hm|]; cbn; intros r n w' ([] & -> & lines & Hl & Hq); eauto)
    ltac:(intros r lines; destruct (HQ lines) as [H1 H2]; split;
          [intros w1 w2 Hw [-> Hq]; split; [done|by eapply H1]
          |intros w1 w2 H3 H4 [-> Hq]; split; [done|by eapply H2]]))].
  intros r w' (-> & [(lines & He & _ & Hq)|(lines & at_ & err & _ & Herr & _)]); [|done].
  split; [done|]. by exists lines.
Qed.

Lemma aside_pure (φ : Prop) : aside R (λ _, φ).
Proof. split; [by intros w1 w2 _|by intros w1 w2 _ _]. Qed.

End within.

(** The result in any company. *)
Lemma does_in_company w (Q : World → Prop) :
  stable (spares env bases run_id) Q →
  wp (spares env bases run_id) (handle env bases job) (λ r w', r = Ok tt ∧ Q w') w →
  in_company (spares env bases run_id) (handle env bases job) w (λ r w', r = Ok tt ∧ Q w').
Proof.
  intros HQ Hw. refine (wp_in_company _ _ _ _ _ Hw). intros r w1 w2 H12 [-> Hq].
  split; [done|by eapply HQ].
Qed.

Lemma ended_stable row start status lines :
  stable (spares env bases run_id) (ended_with job row start status lines).
Proof. exact (ended_with_stable env bases job _ (λ _ _ H, H) row start status lines). Qed.

End handle.

Section theorems.
Context {J : SerdeJson} {U : UuidDisplay} {C : Chrono}.
Context (env : Env) (bases : gmap string string).

(** The line a priority run ends with. *)
Definition order_line (at_ : DateTime) (order : list string) : line :=
  Build_line at_ "result" ("Final Order: [" +:+ join "," (map quoted order) +:+ "]").


(** A group reported under a name that was not offered ends the recovery: it is added to
    the order and nothing that remains is tried, although the server might take it. *)
Lemma priority_stops_at_alias job adapter base fuel remaining order seq w response group
    row start :
  reliable env → bases !! adapter = Some base →
  remaining ≠ [] → length remaining ≤ fuel →
  env.(post_probe) w.(steps) (base +:+ "/probe") (request_for job remaining) = Report response →
  response.(ProbeResponse.handshake_success) = true →
  response.(ProbeResponse.negotiated).(Negotiated.group) = Some group →
  offered remaining group = false →
  tidy job.(KemJob.run_id) row start seq w →
  ∃ seq' w', run (priority_loop env bases job fuel adapter remaining order seq) w
             = (Ok (Ok (order ++ [group]), seq'), w').
Proof.
  intros Hr Hbase Hne Hf Hpost Hs Hg Hoff (lines & Hn & Ht).
  destruct remaining as [|g remaining]; [done|]. destruct fuel as [|fuel]; [simpl in Hf; lia|].
  cbn [priority_loop]. set (rem := g :: remaining) in *.
  unfold con_bind at 1, lift at 1. rewrite run_bind, run_bind, run_attempt, run_probe, Hbase, Hpost.
  cbn [fst snd response_of run bind]. rewrite Hs, Hg. cbn [negb].
  destruct (spec_run eq _ _ _ seq (tick w) (log_spec env bases Hr job.(KemJob.run_id) row start eq
    ltac:(by intros ? ? <-) "info" group lines)) as (r & n & w' & Hrun & -> & _).
  { split; [done|]. by apply (transcript_same job.(KemJob.run_id) row start lines w). }
  unfold con_bind. rewrite run_bind, Hrun. cbn [fst snd]. cbv zeta.
  assert (Hall : filter (λ g0, negb (eq_ignore_ascii_case g0 group) = true) rem = rem).
  { apply filter_all. intros x Hx. apply negb_true_iff, not_true_iff_false. intros Hc.
    apply not_true_iff_false in Hoff. apply Hoff, offered_spec. by exists x. }
  rewrite Hall, Nat.eqb_refl. by eexists _, _.
Qed.

(** A full handshake run shows the student exactly what happened, in any company that
    spares it: the target and the offer, then the HTTP answer (status line and every header)
    if there is one and the negotiated parameters, or the reason of the failure: the alert
    if the server sent one. *)
Theorem group_compat_console (job : KemJob.t) adapter base w r0 reply :
  reliable env →
  job.(KemJob.mode) = KemRunMode.GroupCompat →
  preferred_adapter bases = Ok adapter → bases !! adapter = Some base →
  (∀ n, env.(post_probe) n (base +:+ "/probe") (request_for job job.(KemJob.kem_groups)) = reply) →
  w.(db).(kem_runs) !! job.(KemJob.run_id) = Some r0 →
  (∀ seq, w.(db).(kem_run_logs) !! (job.(KemJob.run_id), seq) = None) →
  in_company (spares env bases job.(KemJob.run_id)) (handle env bases job) w (λ r w', r = Ok tt ∧
    ∃ lines, map line_text lines = group_texts job (response_of adapter reply) ∧
      ended_with job (run_with_status TaskStatus.Running r0.(KemRun.finished_at) r0)
        (seen job.(KemJob.run_id) w) TaskStatus.Finished lines w').
Proof.
  intros Hr Hmode Hpref Hbase Hpost Hrun Hfree.
  set (row := run_with_status TaskStatus.Running r0.(KemRun.finished_at) r0).
  apply does_in_company.
  { intros w1 w2 H12 (lines & Ht & He). exists lines. split; [done|]. by eapply ended_stable. }
  eapply wp_mono; [|refine (handle_does env bases job Hr (spares env bases _) (λ _ _ H, H) w r0
    (said job row (seen job.(KemJob.run_id) w) [])
    (λ lines _, map line_text lines = group_texts job (response_of adapter reply))
    Hrun Hfree _ _ (λ lines, aside_pure _ _))].
  - intros r w' (-> & lines & He & Ht). split; [done|]. by exists lines.
  - intros w1 _ Ht. exists []. by split.
  - unfold mode_body. rewrite Hmode. eapply does_weaken; [by eapply group_compat_says|].
    cbn. intros _ n w' (lines & Hl & Ht). by exists lines.
Qed.

End theorems.

Module KemModesWitness.
Import Fixtures.Lab.

(** A server that prefers X25519, asked through the OpenSSL adapter. *)
Definition prefs : list string := ["X25519"; "secp384r1"; "mlkem768"].

Definition server : Env := {|
  clock := λ n, Z.of_nat n; fresh_uuid := λ n k, N.of_nat (100 * n + k);
  next_serial := λ n, Z.of_nat n; row_order := λ _ l, l;
  fault := λ _, Works; get_capabilities := λ _ _, Ok caps;
  post_probe := λ _ _ request,
    Report (match choice prefs request.(ProbeRequest.kem_groups) with
            | Some p => success (Some p)
            | None => ProbeResponse.failure "openssl" Stage.TlsHandshake "no shared group"
            end) |}.


(** OpenSSL reports P-256 as [prime256v1]: a server that would also take P-384 is recorded
    with a single group. *)
Definition alias_server : Env := {|
  clock := λ n, Z.of_nat n; fresh_uuid := λ n k, N.of_nat (100 * n + k);
  next_serial := λ n, Z.of_nat n; row_order := λ _ l, l;
  fault := λ _, Works; get_capabilities := λ _ _, Ok caps;
  post_probe := λ _ _ _, Report (success (Some "prime256v1")) |}.

Lemma priority_stops_at_alias_witness :
  ∃ seq' w', run (priority_loop alias_server bases kem_job 2 "openssl" ["P-256"; "P-384"] [] 0%Z)
                 kem_world
             = (Ok (Ok ["prime256v1"], seq'), w').
Proof.
  apply (priority_stops_at_alias alias_server bases kem_job "openssl"
    "http://adapter-openssl:9100" 2 ["P-256"; "P-384"] [] 0%Z kem_world
    (success (Some "prime256v1")) "prime256v1" kem_run (seen 7 kem_world)); try reflexivity; try done.
  exists []. split; [done|]. split; [done|]. exists []. split; [done|].
  split; [|done|done|constructor]. intros seq. cbn. by case_decide.
Defined.

Lemma priority_loop_total_witness :
  run (priority_loop server bases kem_job 2 "openssl" ["MLKEM768"; "X25519"] [] 0%Z) kem_world
  = run (priority_loop server bases kem_job 9 "openssl" ["MLKEM768"; "X25519"] [] 0%Z) kem_world.
Proof. apply (priority_loop_total server bases kem_job "openssl" 2 9); simpl; lia. Defined.

Definition group_job : KemJob.t := {|
  KemJob.run_id := 7; KemJob.mode := KemRunMode.GroupCompat; KemJob.host := "lab";
  KemJob.port := 443; KemJob.kem_groups := ["MLKEM768"; "X25519"] |}.

Lemma group_compat_console_witness :
  let w' := (run (handle Lab.env bases group_job) kem_world).2 in
  ∃ lines, map line_text lines = group_texts group_job (success (Some "MLKEM768")) ∧
    ended_with group_job (run_with_status TaskStatus.Running None kem_run) (seen 7 kem_world)
      TaskStatus.Finished lines w'.
Proof.
  cbv zeta. apply (in_company_run _ _ _ _ (group_compat_console Lab.env bases group_job "openssl"
    "http://adapter-openssl:9100" kem_world kem_run (Report (success (Some "MLKEM768")))
    ltac:(done) eq_refl eq_refl eq_refl ltac:(done) eq_refl (λ _, eq_refl))).
Defined.

End KemModesWitness.
