(* ===== verification/KemMatrix.v ===== *)
(** * The compatibility matrix ([library_compat] of [services/worker/src/kem.rs])

    Forty-eight cells, one per KEM and adapter, each with a verdict that something the
    worker saw accounts for. *)

From S2P Require Import Prelude RustStr Json Proto Status Domain KemOrder Effects Rely World.
From S2P Require Import Registry Asking Kem KemFacts KemModes Fixtures.

Section matrix.
Context {J : SerdeJson} {U : UuidDisplay} {C : Chrono}.
Context (env : Env) (bases : gmap string string) (job : KemJob.t).
Context (cache0 : gmap string Capabilities.t).
Notation run_id := (job.(KemJob.run_id)).

(** The adapter said these are its capabilities, before the run or during it. *)
Definition reported_caps (adapter : string) (caps : Capabilities.t) : Prop :=
  cache0 !! adapter = Some caps ∨ described env bases adapter caps.

(** The verdicts a cell may have, and why. *)
Inductive cell_verdict (kem adapter : string) : ResultStatus.t → option string → Prop :=
| cell_disabled :
    is_configured bases adapter = false →
    cell_verdict kem adapter ResultStatus.Disabled None
| cell_unavailable n base err :
    bases !! adapter = Some base →
    env.(get_capabilities) n (base +:+ "/capabilities") = Err err →
    cell_verdict kem adapter ResultStatus.Unsupported None
| cell_unsupported caps :
    is_configured bases adapter = true → reported_caps adapter caps →
    supports caps kem = false →
    cell_verdict kem adapter ResultStatus.Unsupported None
| cell_probed caps n base response :
    bases !! adapter = Some base → reported_caps adapter caps → supports caps kem = true →
    response = response_of adapter
      (env.(post_probe) n (base +:+ "/probe") (request_for job [kem])) →
    cell_verdict kem adapter (verdict_of response) response.(ProbeResponse.error_summary).

Definition cell_known (w : World) (kem adapter : string) : Prop :=
  ∃ c, w.(db).(kem_matrix_cells) !! (run_id, kem, adapter) = Some c ∧
    cell_verdict kem adapter c.(KemMatrixCell.verdict) c.(KemMatrixCell.detail).

Definition cache_known (w : World) : Prop :=
  ∀ adapter caps, w.(cache) !! adapter = Some caps → reported_caps adapter caps.

Context (Hr : reliable env) (run_row : KemRun.t) (start : Origin).
Context (R : World → World → Prop) `{!PreOrder R}.
Context (HR : ∀ w w', R w w' → spares env bases run_id w w').
Notation does := (does R).

(** The cells in [done] are filled, the console is in order. *)
Record filled (done : list (string * string)) (n : Z) (w : World) : Prop := {
  fill_tidy : tidy run_id run_row start n w;
  fill_cache : cache_known w;
  fill_cells : ∀ kem adapter, (kem, adapter) ∈ done → cell_known w kem adapter;
}.

(** What does not concern the console: the cells and the cache. *)
Definition accounted (done : list (string * string)) (w : World) : Prop :=
  cache_known w ∧ ∀ kem adapter, (kem, adapter) ∈ done → cell_known w kem adapter.

Lemma cache_known_incl w w' :
  (∀ adapter caps, w'.(cache) !! adapter = Some caps →
     w.(cache) !! adapter = Some caps ∨ described env bases adapter caps) →
  cache_known w → cache_known w'.
Proof. intros Hc Hk adapter caps Ha. destruct (Hc _ _ Ha); [by apply Hk|by right]. Qed.

Lemma accounted_aside done : aside R (accounted done).
Proof.
  split.
  - intros w w' [_ _ Hcells _ Hcache]%HR [Hc Hk]. split; [by eapply cache_known_incl|].
    intros k a Hin. destruct (Hk k a Hin) as (c & Hl & Hv). exists c. by rewrite Hcells.
  - intros w w' Hcells Hcache [Hc Hk]. split; [unfold cache_known; by rewrite Hcache|].
    intros k a Hin. destruct (Hk k a Hin) as (c & Hl & Hv). exists c. by rewrite Hcells.
Qed.

Lemma filled_accounted done n w :
  filled done n w ↔ tidy run_id run_row start n w ∧ accounted done w.
Proof. split; [by intros []|by intros [? []]]. Qed.

Lemma filled_stable done n : stable R (filled done n).
Proof.
  intros w w' Hw. rewrite !filled_accounted. intros [Ht Ha].
  split; [by eapply tidy_stable|by eapply (proj1 (accounted_aside done))].
Qed.

Lemma filled_asks done n w w' : asks env bases w w' → filled done n w → filled done n w'.
Proof.
  intros [Hs Hc] [Ht Hk Hcells]. split.
  - by eapply tidy_quiet.
  - by eapply cache_known_incl.
  - intros k a Hin. destruct (Hcells k a Hin) as (c & Hl & Hv). exists c. by rewrite (proj1 Hs).
Qed.

(** A line of the console leaves the cells and the cache alone. *)
Lemma filled_log_last done level message :
  does (filled done) (log env run_id level message) (λ _ n w, filled done n w ∧
    ∃ lines l, logged run_id run_row start (lines ++ [l]) n w).
Proof.
  intros n w [(lines & Hl) Ha]%filled_accounted.
  eapply wp_mono; [|exact (log_spec_aside env bases Hr run_id run_row start R HR (accounted done)
    level message lines (accounted_aside done) n w (conj Hl Ha))].
  cbn. intros x w' (r & n' & -> & -> & at_ & Hl' & Ha'). exists (Ok tt), n'. split; [done|].
  exists tt. split; [done|]. split; [|by eexists _, _].
  apply filled_accounted. split; [by eexists|done].
Qed.

Lemma filled_log done level message :
  does (filled done) (log env run_id level message) (λ _, filled done).
Proof. eapply does_weaken; [apply filled_log_last|]. by intros [] n w []. Qed.

Lemma filled_cell done kem adapter verdict detail :
  cell_verdict kem adapter verdict detail →
  does (filled done) (cell env run_id kem adapter verdict detail)
    (λ _, filled (done ++ [(kem, adapter)])).
Proof.
  intros Hv. eapply spec_weaken.
  - apply (cell_spec env bases Hr run_id R HR (filled done)); [apply filled_stable|].
    intros n w [(lines & _ & [Hrow _]) _ _]. by eexists.
  - cbn. intros r n w' (-> & w & [(lines & Hn & Ht) Hc Hcells] & Hst). exists tt. split; [done|].
    split.
    + exists lines. split; [done|]. by eapply cell_stored_transcript.
    + eapply cache_known_incl; [apply Hst|done].
    + intros k a Hin. unfold cell_known. rewrite (cs_cells _ _ _ _ _ _ _ _ _ Hst).
      case_decide as Hk; [injection Hk as -> ->; by eexists|].
      apply elem_of_app in Hin as [Hin|Hin%list_elem_of_singleton]; [|done]. by apply Hcells.
Qed.

(** Asking for the capabilities: what comes back is accounted for. *)
Lemma filled_capabilities done adapter base :
  bases !! adapter = Some base →
  does (filled done) (lift (attempt (capabilities env bases adapter))) (λ r n w,
    filled done n w ∧
    match r with
    | Ok caps => reported_caps adapter caps
    | Err err => ∃ n, env.(get_capabilities) n (base +:+ "/capabilities") = Err err
    end).
Proof.
  intros Hb. apply does_lift. intros n w Hf. apply wp_attempt.
  eapply wp_mono; [|exact (wp_capabilities env bases R adapter base (filled done n) w Hb
    (filled_stable done n) (filled_asks done n) Hf)].
  cbn. intros r w' [Hf' Hr']. exists r. split; [done|]. split; [done|].
  destruct r as [caps|err]; [|done]. destruct Hr' as [(w0 & Hf0 & Hc)|Hd]; [|by right].
  by apply (fill_cache _ _ _ Hf0).
Qed.

Lemma filled_compat_cell done kem adapter :
  does (filled done) (compat_cell env bases job kem adapter)
    (λ _, filled (done ++ [(kem, adapter)])).
Proof.
  unfold compat_cell. destruct (is_configured bases adapter) eqn:Hconf; cbn [negb].
  2: { apply filled_cell. by apply cell_disabled. }
  destruct (proj1 (is_configured_spec _ _) Hconf) as [base Hb].
  eapply (does_bind _ _ _ _ (λ supported n w, filled done n w ∧
    if supported : bool
    then ∃ caps, reported_caps adapter caps ∧ supports caps kem = true
    else cell_verdict kem adapter ResultStatus.Unsupported None)).
  - eapply does_bind; [by apply (filled_capabilities done adapter base)|].
    intros [caps|err]; apply does_pure.
    + intros Hcaps. apply does_ret. intros n w Hf. split; [done|].
      destruct (supports caps kem) eqn:Hsup; [eauto|by eapply cell_unsupported].
    + intros [m Herr]. eapply does_bind; [apply filled_log|]. intros []. apply does_ret.
      intros n w Hf. split; [done|]. by eapply cell_unavailable.
  - intros supported. apply does_pure. destruct supported; cbn [negb]; [|apply filled_cell].
    intros (caps & Hcaps & Hsup).
    apply (does_bind _ _ _ _ (λ response n w, filled done n w ∧
      ∃ m, response = response_of adapter
        (env.(post_probe) m (base +:+ "/probe") (request_for job [kem])))).
    { apply does_lift. intros n w Hf. eapply wp_probe; [done|]. intros w1 Hw1.
      eexists. split; [done|]. split; [|by eexists].
      eapply filled_asks; [apply asks_tick|]. by eapply filled_stable. }
    intros response. apply does_pure. intros [m Hm].
    eapply does_bind; [apply filled_cell; by eapply cell_probed|]. intros []. apply filled_log.
Qed.

Lemma filled_row done kem adapters :
  does (filled done) (con_for adapters (compat_cell env bases job kem))
    (λ _, filled (done ++ map (pair kem) adapters)).
Proof.
  rewrite <-(app_nil_r done) at 1.
  apply (does_for _ (λ l, filled (done ++ map (pair kem) l))). intros l1 a l2 _.
  eapply does_weaken; [apply filled_compat_cell|]. intros [] n w Hf.
  by rewrite map_app, app_assoc.
Qed.

(** Every pair of the two axes, row by row. *)
Definition all_cells : list (string * string) :=
  flat_map (λ kem, map (pair kem) MATRIX_ADAPTERS) MATRIX_KEMS.

Lemma library_compat_fills :
  does (filled []) (library_compat env bases job) (λ _ n w, filled all_cells n w ∧
    ∃ lines l, logged run_id run_row start (lines ++ [l]) n w).
Proof.
  unfold library_compat. eapply does_bind; [apply filled_log|]. intros [].
  eapply does_bind.
  { apply (does_for _ (λ l, filled (flat_map (λ kem, map (pair kem) MATRIX_ADAPTERS) l))).
    intros l1 kem l2 _. eapply does_weaken; [apply filled_row|]. intros [] n w Hf.
    rewrite flat_map_app. cbn [flat_map]. by rewrite app_nil_r. }
  intros []. apply filled_log_last.
Qed.

End matrix.

Section theorem.
Context {J : SerdeJson} {U : UuidDisplay} {C : Chrono}.
Context (env : Env) (bases : gmap string string) (job : KemJob.t).
Notation run_id := (job.(KemJob.run_id)).

(** The 48 cells of a finished run, seen from a world in which the worker knew [known]. *)
Definition matrix_filled (known : gmap string Capabilities.t) (w : World) : Prop :=
  ∀ kem adapter, kem ∈ MATRIX_KEMS → adapter ∈ MATRIX_ADAPTERS →
    ∃ c, w.(db).(kem_matrix_cells) !! (run_id, kem, adapter) = Some c ∧
      cell_verdict env bases job known kem adapter
        c.(KemMatrixCell.verdict) c.(KemMatrixCell.detail) ∧
      (c.(KemMatrixCell.verdict) = ResultStatus.Disabled ↔
       is_configured bases adapter = false).

Lemma all_cells_filled known w :
  (∀ kem adapter, (kem, adapter) ∈ all_cells → cell_known env bases job known w kem adapter) →
  matrix_filled known w.
Proof.
  intros Hcells kem adapter Hk Ha. destruct (Hcells kem adapter) as (c & Hc & Hv).
  { apply list_elem_of_In, in_flat_map. exists kem. rewrite <-!list_elem_of_In. split; [done|].
    apply list_elem_of_fmap. by exists adapter. }
  exists c. split; [done|]. split; [done|].
  destruct Hv as [Hd|m base err Hb| |caps m base response Hb]; [done|..].
  - unfold is_configured. by rewrite Hb.
  - split; [done|]. congruence.
  - unfold is_configured, verdict_of. rewrite Hb. by destruct (ProbeResponse.handshake_success _).
Qed.

(** C24. A library-compatibility run finishes, in any company that spares it, with all 48
    cells filled, each with a verdict something observed accounts for: [disabled] exactly
    for adapters that are not configured, [unsupported] when the capabilities could not be
    had or lack the KEM, otherwise the outcome of a handshake offering that KEM alone. *)
Theorem library_compat_matrix w r0 :
  reliable env → job.(KemJob.mode) = KemRunMode.LibraryCompat →
  w.(db).(kem_runs) !! run_id = Some r0 →
  (∀ seq, w.(db).(kem_run_logs) !! (run_id, seq) = None) →
  in_company (spares env bases run_id) (handle env bases job) w (λ r w', r = Ok tt ∧
    KemRun.status <$> w'.(db).(kem_runs) !! run_id = Some TaskStatus.Finished ∧
    matrix_filled w.(cache) w').
Proof.
  intros Hr Hmode Hrun Hfree.
  set (row := run_with_status TaskStatus.Running r0.(KemRun.finished_at) r0).
  set (R := spares env bases run_id). assert (HR : ∀ w w', R w w' → spares env bases run_id w w') by done.
  apply does_in_company.
  { intros w1 w2 [H1 _ H3 _ _] [Hs Hc]. split; [by rewrite H1|].
    intros k a Hk Ha. destruct (Hc k a Hk Ha) as (c & Hl & Hv). exists c. by rewrite H3. }
  eapply wp_mono; [|refine (handle_does env bases job Hr R HR w r0
    (filled env bases job w.(cache) row (seen run_id w) [])
    (λ _, accounted env bases job w.(cache) all_cells)
    Hrun Hfree _ _ (λ lines, accounted_aside env bases job w.(cache) R HR _))].
  - intros r w' (-> & lines & (evs & at_ & Hrow & _) & _ & Hcells). split; [done|].
    split; [by rewrite Hrow|by apply all_cells_filled].
  - intros w1 [_ _ _ _ Hcache] Ht. split; [by exists []| |by intros ? ? ?%elem_of_nil].
    eapply cache_known_incl; [exact Hcache|]. intros a c Hc. by left.
  - unfold mode_body. rewrite Hmode. eapply does_weaken; [by apply library_compat_fills|].
    cbn. intros _ n w' [Hf (lines & l & Hl)]. exists (lines ++ [l]). split; [done|].
    by apply filled_accounted in Hf as [_ ?].
Qed.

End theorem.

Module KemMatrixWitness.
Import Fixtures.Lab.

Definition matrix_job : KemJob.t := {|
  KemJob.run_id := 7; KemJob.mode := KemRunMode.LibraryCompat; KemJob.host := "lab";
  KemJob.port := 443; KemJob.kem_groups := [] |}.

Lemma library_compat_matrix_witness :
  let w' := (run (handle env bases matrix_job) kem_world).2 in
  ∃ c, w'.(db).(kem_matrix_cells) !! (7%N, "MLKEM768", "nss") = Some c ∧
    c.(KemMatrixCell.verdict) = ResultStatus.Disabled.
Proof.
  cbv zeta.
  destruct (in_company_run _ _ _ _ (library_compat_matrix env bases matrix_job kem_world kem_run
              ltac:(done) eq_refl eq_refl (λ _, eq_refl))) as (_ & _ & Hcells).
  destruct (Hcells "MLKEM768" "nss") as (c & Hc & _ & Hd).
  - apply (bool_decide_unpack (_ ∈ _)). by vm_compute.
  - apply (bool_decide_unpack (_ ∈ _)). by vm_compute.
  - exists c. split; [exact Hc|]. apply Hd. reflexivity.
Defined.

End KemMatrixWitness.
