(* ===== verification/Upsert.v ===== *)
(** * Upserts ([INSERT ... ON CONFLICT (key) DO UPDATE SET ...])

    The catalog handlers and the seeding write rows with the same kind of statement. This
    file says what the statement does to a table, what the instances promise (the assigned
    columns overwrite each other and leave the key alone), and what a sequence of such
    statements leaves behind: running it again changes nothing. *)

From S2P Require Import Prelude.

(** An entry of type [E] becomes a row of type [R] with primary key in [K]; [Key] is the
    unique column, or columns, of the [ON CONFLICT] clause. *)
Class Upsert (K E R Key : Type) := {
  row_id : R → K;
  row_key : R → Key;
  entry_key : E → Key;
  row_check : R → bool;
  assign : E → R → R;
  new_row : K → E → R;
}.

Class UpsertLaws (K E R Key : Type) `{Upsert K E R Key} : Prop := {
  new_row_id k e : row_id (new_row k e) = k;
  new_row_key k e : row_key (new_row k e) = entry_key e;
  assign_id e r : row_id (assign e r) = row_id r;
  assign_key e r : row_key (assign e r) = row_key r;
  assign_assign e e' r : assign e (assign e' r) = assign e r;
  assign_new e e' k : entry_key e = entry_key e' → assign e (new_row k e') = new_row k e;
  assign_check k e r : row_key r = entry_key e → row_check (new_row k e) = true →
    row_check (assign e r) = true;
  check_new k k' e : row_check (new_row k e) = row_check (new_row k' e);
}.

Section upsert.
Context {K E R Key : Type} `{Countable K, EqDecision Key} {U : Upsert K E R Key}.

(** The row with a key, if any. *)
Definition find_row (key : Key) (m : gmap K R) : option R :=
  first (filter (λ r, row_key r = key) (map snd (map_to_list m))).

Definition row_for (e : E) (m : gmap K R) : option R := find_row (entry_key e) m.

Definition update_row (e : E) (r : R) : R :=
  if decide (row_key r = entry_key e) then assign e r else r.

(** The statement: the proposed row must satisfy the [CHECK] of the table; then the row
    with its key is updated, or the proposed row inserted under a generated primary key. *)
Definition upsert (k : K) (e : E) (m : gmap K R) : result string (gmap K R) :=
  if negb (row_check (new_row k e)) then Err "violates check constraint"
  else match row_for e m, m !! k with
       | Some _, _ => Ok (update_row e <$> m)
       | None, Some _ => Err "duplicate key value violates unique constraint"
       | None, None => Ok (<[k := new_row k e]> m)
       end.

(** The row the statement leaves: the old one with new columns, or a new one. *)
Definition posted (k : K) (e : E) (m : gmap K R) : R :=
  match row_for e m with
  | Some r => assign e r
  | None => new_row k e
  end.

(** A sequence of statements, with the keys generated for them. *)
Fixpoint upserts (l : list (K * E)) (m : gmap K R) : result string (gmap K R) :=
  match l with
  | [] => Ok m
  | (k, e) :: l =>
      match upsert k e m with
      | Ok m => upserts l m
      | Err err => Err err
      end
  end.

(** What the statements do to one row: the last entry for its key decides. *)
Definition latest (key : Key) (l : list E) : option E :=
  last (filter (λ e, entry_key e = key) l).

Definition updated (l : list E) (r : R) : R :=
  match latest (row_key r) l with
  | Some e => assign e r
  | None => r
  end.

(** The constraints of the table: the primary key, the unique columns, the [CHECK]. *)
Record table_wf (m : gmap K R) : Prop := {
  tw_id i r : m !! i = Some r → row_id r = i;
  tw_key i j r s : m !! i = Some r → m !! j = Some s → row_key r = row_key s → i = j;
  tw_check i r : m !! i = Some r → row_check r = true;
}.

(** ** Lemmas *)

Context {L : UpsertLaws K E R Key}.

Lemma find_row_Some key m r :
  find_row key m = Some r → row_key r = key ∧ ∃ k, m !! k = Some r.
Proof.
  unfold find_row. destruct (filter _ _) as [|r0 rs] eqn:Hf; [done|]. cbn. intros [= ->].
  assert (Hin : r ∈ filter (λ r, row_key r = key) (map snd (map_to_list m)))
    by (rewrite Hf; by left).
  apply list_elem_of_filter in Hin as [Hk Hr]. by rewrite elem_of_rows in Hr.
Qed.

Lemma find_row_None key m :
  find_row key m = None ↔ ∀ k r, m !! k = Some r → row_key r ≠ key.
Proof.
  unfold find_row. split.
  - destruct (filter _ _) as [|r0 rs] eqn:Hf; [|done]. intros _ k r Hr Hk.
    apply (not_elem_of_nil r). rewrite <-Hf. apply list_elem_of_filter.
    split; [done|]. apply elem_of_rows. by exists k.
  - intros Hno. rewrite filter_none; [done|]. intros r Hr. rewrite elem_of_rows in Hr.
    destruct Hr as [k Hr]. by eapply Hno.
Qed.

(** With unique keys there is at most one row to find. *)
Lemma find_row_unique key m i r :
  table_wf m → m !! i = Some r → row_key r = key → find_row key m = Some r.
Proof.
  intros Hwf Hr Hk. destruct (find_row key m) as [r0|] eqn:Hf.
  - apply find_row_Some in Hf as (Hk0 & j & Hj).
    assert (i = j) as -> by (eapply (tw_key m Hwf); [done..|congruence]). congruence.
  - by destruct (proj1 (find_row_None key m) Hf i r).
Qed.

Lemma update_row_key e r : row_key (update_row e r) = row_key r.
Proof. unfold update_row. case_decide; [apply assign_key|done]. Qed.

Lemma update_row_id e r : row_id (update_row e r) = row_id r.
Proof. unfold update_row. case_decide; [apply assign_id|done]. Qed.

Lemma latest_nil key : latest key [] = None.
Proof. done. Qed.

Lemma latest_cons key e l :
  latest key (e :: l) = match latest key l with
                        | Some e' => Some e'
                        | None => if decide (entry_key e = key) then Some e else None
                        end.
Proof.
  unfold latest. rewrite filter_cons. case_decide; [|by destruct (last _)].
  destruct (filter _ l) as [|e' l'] eqn:Hf; [done|].
  change (last (e :: e' :: l')) with (last (e' :: l')).
  destruct (last (e' :: l')) eqn:Hl; [done|]. by apply last_None in Hl.
Qed.

Lemma latest_key key l e : latest key l = Some e → entry_key e = key ∧ e ∈ l.
Proof.
  induction l as [|e0 l IH]; [done|]. rewrite latest_cons.
  destruct (latest key l) as [e'|].
  - intros [= ->]. destruct (IH eq_refl). split; [done|by right].
  - case_decide; [|done]. intros [= ->]. split; [done|by left].
Qed.

Lemma latest_elem l e : e ∈ l → is_Some (latest (entry_key e) l).
Proof.
  induction l as [|e0 l IH]; [by intros ?%elem_of_nil|].
  rewrite latest_cons. intros [->|Hin]%elem_of_cons.
  - rewrite decide_True by done. by destruct (latest _ l).
  - by destruct (IH Hin) as [e' ->].
Qed.

Lemma updated_key l r : row_key (updated l r) = row_key r.
Proof. unfold updated. destruct (latest _ _); [apply assign_key|done]. Qed.

Lemma updated_cons e l r : updated (e :: l) r = updated l (update_row e r).
Proof.
  unfold updated. rewrite latest_cons, update_row_key. unfold update_row.
  destruct (latest (row_key r) l) as [e'|] eqn:Hl.
  - case_decide; [by rewrite assign_assign|done].
  - case_decide as H1; [by rewrite decide_True by done|by rewrite decide_False by congruence].
Qed.

Lemma updated_twice l r : updated l (updated l r) = updated l r.
Proof.
  unfold updated at 1. rewrite updated_key. unfold updated.
  destruct (latest (row_key r) l); [apply assign_assign|done].
Qed.

Lemma updated_new l k e :
  latest (entry_key e) l = Some e → updated l (new_row k e) = new_row k e.
Proof. intros Hl. unfold updated. rewrite new_row_key, Hl. by apply assign_new. Qed.

(** One statement: rows stay, up to the update; a new row is the proposed one. *)
Lemma upsert_spec k e m m' :
  upsert k e m = Ok m' →
  (∀ i r, m !! i = Some r → m' !! i = Some (update_row e r)) ∧
  (∀ i r, m !! i = None → m' !! i = Some r → i = k ∧ r = new_row k e) ∧
  (∃ i r, m' !! i = Some r ∧ row_key r = entry_key e) ∧ row_check (new_row k e) = true.
Proof.
  unfold upsert. destruct (row_check _) eqn:Hc; [|done]. cbn [negb].
  destruct (row_for e m) as [r0|] eqn:Hf.
  - intros [= <-]. apply find_row_Some in Hf as (Hk & i0 & Hi). split_and!; [..|done].
    + intros i r Hr. by rewrite lookup_fmap, Hr.
    + intros i r Hr. by rewrite lookup_fmap, Hr.
    + exists i0, (update_row e r0). by rewrite lookup_fmap, Hi, update_row_key.
  - destruct (m !! k) eqn:Hm; [done|]. intros [= <-].
    pose proof (proj1 (find_row_None (entry_key e) m) Hf) as Hno. split_and!; [..|done].
    + intros i r Hr. unfold update_row. rewrite decide_False by (by eapply Hno).
      rewrite lookup_insert_ne; [done|congruence].
    + intros i r Hr. rewrite lookup_insert. case_decide; [|congruence].
      intros [= <-]. by subst.
    + exists k, (new_row k e). rewrite lookup_insert_eq. by rewrite new_row_key.
Qed.

(** The sequence: rows that were there have the columns of the last entry for their key,
    the others are the proposed rows of the last entry, and no entry is left out. *)
Lemma upserts_spec l m m' :
  upserts l m = Ok m' →
  (∀ i r, m !! i = Some r → m' !! i = Some (updated (map snd l) r)) ∧
  (∀ i r, m !! i = None → m' !! i = Some r →
     ∃ e, latest (row_key r) (map snd l) = Some e ∧ r = new_row i e) ∧
  (∀ e, e ∈ map snd l → ∃ i r, m' !! i = Some r ∧ row_key r = entry_key e).
Proof.
  revert m. induction l as [|[k e] l IH]; intros m; cbn [upserts map snd].
  { intros [= <-]. split_and!; [done|congruence|by intros e ?%elem_of_nil]. }
  destruct (upsert k e m) as [m1|] eqn:H1; [|done]. intros H2.
  destruct (upsert_spec _ _ _ _ H1) as (Ha & Hb & (i0 & r0 & Hi0 & Hk0) & _).
  destruct (IH _ H2) as (Ia & Ib & Ic). split_and!.
  - intros i r Hr. rewrite updated_cons. by apply Ia, Ha.
  - intros i r Hn Hr. rewrite latest_cons. destruct (m1 !! i) as [r1|] eqn:Hr1.
    + destruct (Hb i r1 Hn Hr1) as [-> ->]. rewrite (Ia _ _ Hr1) in Hr. injection Hr as <-.
      rewrite updated_key, new_row_key. unfold updated. rewrite new_row_key.
      destruct (latest (entry_key e) (map snd l)) as [e'|] eqn:Hl.
      * exists e'. split; [done|]. apply assign_new. by apply latest_key in Hl as [? _].
      * exists e. by rewrite decide_True.
    + destruct (Ib i r Hr1 Hr) as (e' & -> & ->). by exists e'.
  - intros e' [->|Hin]%elem_of_cons; [|by apply Ic].
    exists i0, (updated (map snd l) r0). rewrite updated_key. split; [by apply Ia|done].
Qed.

Lemma table_wf_empty : table_wf ∅.
Proof. by split; intros *; rewrite lookup_empty. Qed.

Lemma upsert_wf k e m m' : upsert k e m = Ok m' → table_wf m → table_wf m'.
Proof.
  unfold upsert. destruct (row_check _) eqn:Hc; [|done]. cbn [negb]. intros Hm [Hi Hk Hch].
  destruct (row_for e m) as [r0|] eqn:Hf; [|destruct (m !! k) eqn:Hn; [done|]];
    injection Hm as <-.
  - split.
    + intros i r (r1 & <- & Hr)%lookup_fmap_Some. rewrite update_row_id. by apply Hi.
    + intros i j r s (r1 & <- & Hr)%lookup_fmap_Some (s1 & <- & Hs)%lookup_fmap_Some.
      rewrite !update_row_key. by apply Hk.
    + intros i r (r1 & <- & Hr)%lookup_fmap_Some. unfold update_row.
      case_decide; [by eapply assign_check|by eapply Hch].
  - pose proof (proj1 (find_row_None (entry_key e) m) Hf) as Hno. split.
    + intros i r [[<- <-]|[? Hr]]%lookup_insert_Some; [apply new_row_id|by apply Hi].
    + intros i j r s [[<- <-]|[? Hr]]%lookup_insert_Some [[<- <-]|[? Hs]]%lookup_insert_Some;
        rewrite ?new_row_key; intros He; [done|..|by eapply Hk].
      * by destruct (Hno j s).
      * by destruct (Hno i r).
    + intros i r [[<- <-]|[? Hr]]%lookup_insert_Some; [done|by eapply Hch].
Qed.

Lemma posted_key k e m : row_key (posted k e m) = entry_key e.
Proof.
  unfold posted. destruct (row_for e m) as [r|] eqn:Hf; [|apply new_row_key].
  rewrite assign_key. by apply find_row_Some in Hf as [? _].
Qed.

(** On a table that keeps its constraints the statement writes that one row. *)
Lemma upsert_posted k e m :
  table_wf m → row_check (new_row k e) = true → m !! k = None →
  upsert k e m = Ok (<[row_id (posted k e m) := posted k e m]> m).
Proof.
  intros Hwf Hc Hn. unfold upsert, posted. rewrite Hc, Hn. cbn [negb].
  destruct (row_for e m) as [r|] eqn:Hf; [|by rewrite new_row_id].
  apply find_row_Some in Hf as (Hk & i & Hi). f_equal.
  rewrite assign_id, (tw_id m Hwf i r Hi). apply map_eq. intros j.
  rewrite lookup_fmap, lookup_insert. case_decide as Hj.
  - subst. rewrite Hi. cbn. unfold update_row. by rewrite decide_True.
  - destruct (m !! j) as [s|] eqn:Hs; [|done]. cbn. unfold update_row.
    rewrite decide_False; [done|]. intros Hks. apply Hj.
    eapply (tw_key m Hwf); [done..|congruence].
Qed.

Lemma row_for_posted k e m m' :
  table_wf m → m !! k = None → upsert k e m = Ok m' → row_for e m' = Some (posted k e m).
Proof.
  intros Hwf Hn Hu. assert (Hc : row_check (new_row k e) = true).
  { unfold upsert in Hu. by destruct (row_check _). }
  eapply (find_row_unique (entry_key e) m'); [by eapply upsert_wf| |apply posted_key].
  rewrite upsert_posted in Hu by done. injection Hu as <-. apply lookup_insert_eq.
Qed.

Lemma upserts_checked l m m' k e :
  upserts l m = Ok m' → e ∈ map snd l → row_check (new_row k e) = true.
Proof.
  revert m. induction l as [|[k1 e1] l IH]; intros m; cbn [upserts map snd].
  { by intros _ ?%elem_of_nil. }
  destruct (upsert k1 e1 m) as [m1|] eqn:H1; [|done].
  intros Hm [->|Hin]%elem_of_cons; [|by eapply IH].
  rewrite (check_new k k1). by eapply upsert_spec.
Qed.

(** When every entry finds its row, the statements only update. *)
Lemma upserts_present l m :
  (∀ k e, e ∈ map snd l → row_check (new_row k e) = true) →
  (∀ e, e ∈ map snd l → ∃ i r, m !! i = Some r ∧ row_key r = entry_key e) →
  upserts l m = Ok (updated (map snd l) <$> m).
Proof.
  revert m. induction l as [|[k e] l IH]; intros m Hok Hex; cbn [upserts map snd].
  { f_equal. symmetry. apply map_fmap_id. }
  unfold upsert. rewrite (Hok k e) by (by left). cbn [negb].
  destruct (row_for e m) as [r|] eqn:Hf.
  - rewrite IH.
    + f_equal. rewrite <-map_fmap_compose. apply map_fmap_ext. intros i r' _. cbn.
      symmetry. apply updated_cons.
    + intros k' e' Hin. apply Hok. by right.
    + intros e' Hin. destruct (Hex e') as (i & r' & Hr' & Hk'); [by right|].
      exists i, (update_row e r'). by rewrite lookup_fmap, Hr', update_row_key.
  - exfalso. destruct (Hex e) as (i & r' & Hr' & Hk'); [by left|]. by eapply find_row_None in Hf.
Qed.

Lemma upserts_wf l m m' : upserts l m = Ok m' → table_wf m → table_wf m'.
Proof.
  revert m. induction l as [|[k e] l IH]; intros m; cbn [upserts]; [by intros [= <-]|].
  destruct (upsert k e m) as [m1|] eqn:H1; [|done]. intros Hm Hwf.
  eapply IH; [done|]. by eapply upsert_wf.
Qed.

(** What is found under a key afterwards. *)
Lemma upserts_found l m m' key :
  table_wf m → upserts l m = Ok m' →
  match latest key (map snd l) with
  | Some e => ∃ k, find_row key m' = Some (match find_row key m with
                                           | Some r => assign e r
                                           | None => new_row k e
                                           end)
  | None => find_row key m' = find_row key m
  end.
Proof.
  intros Hwf Hu. pose proof (upserts_wf _ _ _ Hu Hwf) as Hwf'.
  destruct (upserts_spec _ _ _ Hu) as (Ha & Hb & Hc).
  destruct (find_row key m) as [r|] eqn:Hf.
  - apply find_row_Some in Hf as (<- & i & Hi).
    assert (Hf' : find_row (row_key r) m' = Some (updated (map snd l) r)).
    { eapply find_row_unique; [done|by apply Ha|apply updated_key]. }
    unfold updated in Hf'. destruct (latest _ _) as [e|]; [|done]. by exists (row_id r).
  - pose proof (proj1 (find_row_None key m) Hf) as Hno.
    assert (Hold : ∀ i r, m' !! i = Some r → row_key r = key → m !! i = None).
    { intros i r Hr Hk. destruct (m !! i) as [r0|] eqn:Hr0; [|done]. exfalso.
      apply (Hno _ _ Hr0). rewrite (Ha _ _ Hr0) in Hr. injection Hr as <-.
      by rewrite updated_key in Hk. }
    destruct (latest key (map snd l)) as [e|] eqn:Hl.
    + apply latest_key in Hl as He. destruct He as [He Hin].
      destruct (Hc e Hin) as (i & r & Hr & Hk).
      assert (Hrk : row_key r = key) by congruence.
      destruct (Hb i r (Hold i r Hr Hrk) Hr) as (e' & Hl' & ->). rewrite Hrk, Hl in Hl'.
      injection Hl' as ->. exists i. by eapply find_row_unique.
    + apply find_row_None. intros i r Hr Hk.
      destruct (Hb i r (Hold i r Hr Hk) Hr) as (e & Hl' & _). by rewrite Hk, Hl in Hl'.
Qed.

(** Doing it again, with other generated keys, changes nothing. *)
Lemma upserts_again l l' m m' :
  upserts l m = Ok m' → map snd l' = map snd l → upserts l' m' = Ok m'.
Proof.
  intros Hm Hl. destruct (upserts_spec _ _ _ Hm) as (Ha & Hb & Hc).
  rewrite upserts_present; rewrite ?Hl; [|intros k e; by eapply upserts_checked|done].
  f_equal. rewrite <-(map_fmap_id m') at 2. apply map_fmap_ext. intros i r Hr. cbn.
  destruct (m !! i) as [r0|] eqn:Hr0.
  - rewrite (Ha _ _ Hr0) in Hr. injection Hr as <-. apply updated_twice.
  - destruct (Hb _ _ Hr0 Hr) as (e & He & ->). rewrite new_row_key in He. by apply updated_new.
Qed.

End upsert.
