(* ===== verification/Api.v ===== *)
(** * The API's test tasks ([services/api/src]: [error.rs], [queue.rs], [routes/tests.rs])

    Creating a test expands the selected axes into subtasks and queues one job per pair;
    the matrix reads the axes back from the rows. A handler is a program whose result is a
    value or an [ApiError]; a failed statement becomes one by the [#[from]] conversions. *)

From S2P Require Import Prelude RustStr Json Proto Status Domain Effects World.

(** ** Errors *)

Inductive ApiError :=
| BadRequest (msg : string)
| NotFound (what : string)
| Conflict (msg : string)
| RowNotFound
| Database (err : string)
| Redis (err : string)
| JsonError (err : string)
| Other (err : string).

(** [IntoResponse]: the status and the text of the [error] field. [sqlx::Error::RowNotFound]
    is the constructor [RowNotFound]. *)
Definition into_response (e : ApiError) : Z * string :=
  match e with
  | BadRequest msg => (400%Z, msg)
  | NotFound what => (404%Z, what +:+ " not found")
  | Conflict msg => (409%Z, msg)
  | RowNotFound => (404%Z, "not found")
  | _ => (500%Z, "internal error")
  end.

Section api.
Context {J : SerdeJson}.

(** [ApiResult<A>] of an [async fn]. *)
Definition api (A : Type) : Type := prog World (result ApiError A).

Definition api_ret {A} (a : A) : api A := Ret (Ok a).
Definition api_err {A} (e : ApiError) : api A := Ret (Err e).

Definition api_bind {A B} (m : api A) (k : A → api B) : api B :=
  bind m (λ r, match r with
               | Ok a => k a
               | Err e => Ret (Err e)
               end).

(** [operation.await?], with the conversion of its error. *)
Definition api_op {X} (from : string → ApiError) (o : op World X) : api X :=
  Do o (λ r, Ret (map_err from r)).

End api.

Declare Scope api_scope.
Delimit Scope api_scope with api.
Notation "'do' x := m 'in' k" := (api_bind m (λ x, k))
  (at level 10, x binder, m at level 100, k at level 200) : api_scope.
Notation "m >> k" := (api_bind m (λ _, k)) (at level 60, right associativity) : api_scope.

(** ** Configuration *)

Record ApiConfig := {
  max_subtasks_per_test : nat;
  probe_timeout_ms : Z;
  default_adapter : string;
}.

Section tests.
Context {J : SerdeJson} (env : Env) (config : ApiConfig).

Local Open Scope api_scope.

(** ** [queue.rs] *)

Definition enqueue_probes (jobs : list ProbeJob.t) : api unit :=
  api_op Redis (xadd env STREAM_PROBE (map Probe_job jobs)).

Definition enqueue_kem (job : KemJob.t) : api unit :=
  api_op Redis (xadd env STREAM_KEM [Kem_job job]).

(** ** [routes/tests.rs] *)

Record NewTest := {
  host : string;
  port : Z;
  http_path : string;
  tool : string;
  plugin : string;
  groups : list string;
  sig_algs : list string;
}.

(** [adapter_for]: the arms in order. *)
Definition adapter_for (tool plugin default : string) : string :=
  if starts_with "bq" plugin then "boringssl"
  else if starts_with "bo" plugin then "boringssl"
  else if starts_with "wo" plugin then "wolfssl"
  else if starts_with "go" plugin then "go"
  else if starts_with "open" plugin then "openssl"
  else default.

(** [dedupe]: the filter inserts what it lets through into [seen]. *)
Fixpoint dedupe_from (seen : gset string) (values : list string) : list string :=
  match values with
  | [] => []
  | v :: r =>
      let v := trim v in
      if negb (String.eqb v "") && negb (bool_decide (v ∈ seen))
      then v :: dedupe_from ({[ v ]} ∪ seen) r
      else dedupe_from seen r
  end.

Definition dedupe (values : list string) : list string := dedupe_from ∅ values.

(** [SELECT name FROM algorithms WHERE kind = $1 AND name = ANY($2)]. *)
Definition known_names (kind : string) (names : list string) (d : Db) : list string :=
  map Algorithm.name
    (filter (λ a, a.(Algorithm.kind) = kind ∧ a.(Algorithm.name) ∈ names)
       (map snd (map_to_list d.(algorithms)))).

(** The name is in the catalog. *)
Definition in_catalog (kind name : string) (d : Db) : Prop :=
  ∃ id a, d.(algorithms) !! id = Some a ∧ a.(Algorithm.kind) = kind ∧ a.(Algorithm.name) = name.

Definition reject_unknown (kind : string) (names : list string) : api unit :=
  do known := api_op Database (sql env (λ _ d, Ok (known_names kind names d, d))) in
  match filter (λ n, n ∉ known) names with
  | [] => api_ret tt
  | unknown => api_err (BadRequest ("unknown " +:+ kind +:+ ": " +:+ join ", " unknown))
  end.

(** The row of the [INSERT INTO tests], the column defaults included. *)
Definition new_test_row (id : Uuid) (at_ : DateTime) (body : NewTest) (groups sig_algs : list string)
    : Test.t := {|
  Test.id := id; Test.host := trim body.(host); Test.port := body.(port);
  Test.http_path := body.(http_path); Test.method := "GET"; Test.tool := body.(tool);
  Test.plugin := body.(plugin); Test.status := TaskStatus.Pending;
  Test.group_count := as_i32 (Z.of_nat (length groups));
  Test.sig_alg_count := as_i32 (Z.of_nat (length sig_algs));
  Test.subtask_count := as_i32 (Z.of_nat (length groups * length sig_algs));
  Test.created_at := at_; Test.started_at := None; Test.finished_at := None;
|}.

(** The two nested loops: ordinal, group and signature algorithm of each pair. *)
Definition expand (groups sig_algs : list string) : list (Z * string * string) :=
  concat (imap (λ g group,
    imap (λ s alg, (as_i32 (Z.of_nat (g * length sig_algs + s)), group, alg)) sig_algs) groups).

(** The rows of the [INSERT INTO subtasks], the column defaults included. *)
Definition new_subtask_row (test_id id : Uuid) (pair : Z * string * string) : Subtask.t := {|
  Subtask.id := id; Subtask.test_id := test_id; Subtask.ordinal := pair.1.1;
  Subtask.group_name := pair.1.2; Subtask.sig_alg := pair.2;
  Subtask.exec_status := ExecStatus.Queued; Subtask.result_status := ResultStatus.Pending;
  Subtask.report_status := ReportStatus.Missing; Subtask.failed_stage := None;
  Subtask.error_summary := None; Subtask.started_at := None; Subtask.finished_at := None;
|}.

Definition new_subtasks (fresh : nat → Uuid) (test_id : Uuid) (pairs : list (Z * string * string))
    : list (Uuid * Subtask.t) :=
  imap (λ i pair, (fresh (S i), new_subtask_row test_id (fresh (S i)) pair)) pairs.

Definition returned (rows : list (Uuid * Subtask.t)) : list (Uuid * string * string) :=
  map (λ r, (r.1, r.2.(Subtask.group_name), r.2.(Subtask.sig_alg))) rows.

(** The transaction. The unique constraints: new keys, and no pair or ordinal twice. *)
Definition insert_test (n : nat) (body : NewTest) (groups sig_algs : list string)
    (at_ : DateTime) (d : Db) : result string ((Test.t * list (Uuid * string * string)) * Db) :=
  let fresh := env.(fresh_uuid) n in
  let test := new_test_row (fresh 0) at_ body groups sig_algs in
  let pairs := expand groups sig_algs in
  let rows := new_subtasks fresh (fresh 0) pairs in
  if bool_decide (d.(tests) !! fresh 0 = None ∧ Forall (λ r, d.(subtasks) !! r.1 = None) rows ∧
                  NoDup (map fst rows) ∧ NoDup (map (λ p, (p.1.2, p.2)) pairs) ∧
                  NoDup (map (λ p, p.1.1) pairs))
  then Ok ((test, env.(row_order) n (returned rows)),
           with_subtasks (λ m, list_to_map rows ∪ m)
             (with_tests <[fresh 0 := test]> d))
  else Err "duplicate key value violates unique constraint".

(** The statement reads the generator at the current operation. *)
Definition insert_test_op (body : NewTest) (groups sig_algs : list string)
    : op World (Test.t * list (Uuid * string * string)) := λ w,
  sql env (insert_test w.(steps) body groups sig_algs) w.

Definition probe_job (test : Test.t) (adapter : string) (row : Uuid * string * string)
    : ProbeJob.t := {|
  ProbeJob.test_id := test.(Test.id); ProbeJob.subtask_id := row.1.1;
  ProbeJob.host := test.(Test.host); ProbeJob.port := as_u16 test.(Test.port);
  ProbeJob.http_path := test.(Test.http_path); ProbeJob.adapter := adapter;
  ProbeJob.group_name := row.1.2; ProbeJob.sig_alg := row.2;
  ProbeJob.timeout_ms := config.(probe_timeout_ms);
|}.

(** The checks on the body, in order. *)
Definition check_body (body : NewTest) : result ApiError unit :=
  if String.eqb (trim body.(host)) "" then Err (BadRequest "host is required")
  else if negb ((1 <=? body.(port)) && (body.(port) <=? 65535))%Z
  then Err (BadRequest "port must be 1-65535")
  else if (length body.(groups) =? 0) || (length body.(sig_algs) =? 0)
  then Err (BadRequest "select at least one group and one signature algorithm")
  else if negb (starts_with "/" body.(http_path))
  then Err (BadRequest "http path must start with /")
  else Ok tt.

Definition create_test (body : NewTest) : api Test.t :=
  do _ := Ret (check_body body) in
  let groups := dedupe body.(groups) in
  let sig_algs := dedupe body.(sig_algs) in
  let subtask_count := length groups * length sig_algs in
  let max := config.(max_subtasks_per_test) in
  if max <? subtask_count then
    api_err (BadRequest (show (Z.of_nat subtask_count) +:+ " subtasks exceeds the limit of "
      +:+ show (Z.of_nat max) +:+ "; narrow the selection"))
  else
    reject_unknown "kem_group" groups >>
    reject_unknown "sig_alg" sig_algs >>
    do inserted := api_op Database (insert_test_op body groups sig_algs) in
    let test := inserted.1 in
    let adapter := adapter_for body.(tool) body.(plugin) config.(default_adapter) in
    enqueue_probes (map (probe_job test adapter) inserted.2) >>
    api_ret test.

(** [fetch_test] and the queries of [get_test] and [get_matrix]. *)
Definition fetch_test (id : Uuid) : api Test.t :=
  do found := api_op Database (sql env (λ _ d, Ok (d.(tests) !! id, d))) in
  Ret (ok_or (NotFound "test") found).

Definition ordinal_le (a b : Subtask.t) : Prop := (a.(Subtask.ordinal) ≤ b.(Subtask.ordinal))%Z.

#[export] Instance ordinal_le_dec : RelDecision ordinal_le.
Proof. intros a b. unfold ordinal_le. apply _. Defined.
#[export] Instance ordinal_le_trans : Transitive ordinal_le.
Proof. intros a b c. unfold ordinal_le. lia. Qed.
#[export] Instance ordinal_le_total : Total ordinal_le.
Proof. intros a b. unfold ordinal_le. lia. Qed.

(** [... FROM subtasks WHERE test_id = $1 ORDER BY ordinal]. *)
Definition subtasks_in_order (id : Uuid) (d : Db) : list Subtask.t :=
  merge_sort ordinal_le
    (filter (λ s, s.(Subtask.test_id) = id) (map snd (map_to_list d.(subtasks)))).

Definition fetch_subtasks (id : Uuid) : api (list Subtask.t) :=
  api_op Database (sql env (λ _ d, Ok (subtasks_in_order id d, d))).

Record TestDetail := { detail_test : Test.t; detail_subtasks : list Subtask.t }.

Definition get_test (id : Uuid) : api TestDetail :=
  do test := fetch_test id in
  do rows := fetch_subtasks id in
  api_ret {| detail_test := test; detail_subtasks := rows |}.

(** The loop that collects an axis: push what is not in yet. *)
Definition push_new (axis : list string) (name : string) : list string :=
  if bool_decide (name ∈ axis) then axis else axis ++ [name].

Definition matrix_of (rows : list Subtask.t) : Matrix.t := {|
  Matrix.groups := foldl push_new [] (map Subtask.group_name rows);
  Matrix.sig_algs := foldl push_new [] (map Subtask.sig_alg rows);
  Matrix.cells := map (λ row, {|
    MatrixCell.subtask_id := row.(Subtask.id);
    MatrixCell.group_name := row.(Subtask.group_name);
    MatrixCell.sig_alg := row.(Subtask.sig_alg);
    MatrixCell.result_status := row.(Subtask.result_status);
    MatrixCell.exec_status := row.(Subtask.exec_status) |}) rows;
|}.

Definition get_matrix (id : Uuid) : api Matrix.t :=
  fetch_test id >>
  do rows := fetch_subtasks id in
  api_ret (matrix_of rows).

(** [list_tests]: at least 1 and at most 200 rows, latest first. *)
Definition created_ge (a b : Test.t) : Prop := (b.(Test.created_at) ≤ a.(Test.created_at))%Z.

#[local] Instance created_ge_dec : RelDecision created_ge.
Proof. intros a b. unfold created_ge. apply _. Defined.

Definition clamp (lo hi x : Z) : Z := Z.max lo (Z.min hi x).

Definition list_tests (limit : Z) : api (list Test.t) :=
  api_op Database (sql env (λ _ d,
    Ok (take (Z.to_nat (clamp 1 200 limit))
          (merge_sort created_ge (map snd (map_to_list d.(tests)))), d))).

End tests.

(** ** Lemmas *)

Section lemmas.
Context {J : SerdeJson}.

Lemma run_api_bind {A B} (m : api A) (k : A → api B) w :
  run (api_bind m k) w
  = match run m w with
    | (Ok (Ok a), w') => run (k a) w'
    | (Ok (Err e), w') => (Ok (Err e), w')
    | (Err e, w') => (Err e, w')
    end.
Proof. unfold api_bind. rewrite run_bind. by destruct (run m w) as [[[a|e]|e] w']. Qed.

Lemma run_api_op {X} from (o : op World X) w :
  run (api_op from o) w = (Ok (map_err from (o w).1), (o w).2).
Proof. done. Qed.

End lemmas.
