(* ===== verification/Walk.v ===== *)
(** * Walking through the programs of the services

    That every operation of a handler respects a relation between the world before and
    after it follows from the statements alone: the control structure of the three monads
    ([prog], [api], [console]) passes it on. The lemmas here are that structure; a client
    proves its relation for the statements, puts these facts into the hint database [walk]
    and calls the tactic [walk]. *)

From S2P Require Import Prelude Json Proto Status Domain Effects World Registry Kem Api.

Section walk.
Context {J : SerdeJson} (R : World → World → Prop).

(** One operation respects the relation. *)
Definition leaves {X} (o : op World X) : Prop := ∀ w, R w (o w).2.

(** A statement does when what it can do to the tables does. *)
Lemma leaves_sql {X} env (q : DateTime → Db → result string (X * Db)) :
  (∀ w, R w (tick w)) → (∀ w at_ x d, q at_ w.(db) = Ok (x, d) → R w (set_db d w)) →
  leaves (sql env q).
Proof.
  intros Ht Hq w. unfold sql. destruct (env.(fault) w.(steps)); [|apply Ht|];
    destruct (q _ _) as [[x d]|e] eqn:He; cbn [snd]; eauto.
Qed.

(** A statement that reads the number of the operation first. *)
Lemma leaves_sql_at {X} env (q : nat → DateTime → Db → result string (X * Db)) :
  (∀ w, R w (tick w)) → (∀ n w at_ x d, q n at_ w.(db) = Ok (x, d) → R w (set_db d w)) →
  leaves (λ w, sql env (q w.(steps)) w).
Proof. intros Ht Hq w. apply (leaves_sql env (q w.(steps))); eauto. Qed.

Lemma leaves_redis_publish env channel event :
  (∀ w, R w (tick w)) → (∀ w e, R w (set_published (w.(published) ++ [e]) w)) →
  leaves (redis_publish env channel event).
Proof. intros Ht Hp w. unfold redis_publish. destruct (fault env _); cbn [snd]; eauto. Qed.

Lemma leaves_xadd env stream jobs :
  (∀ w, R w (tick w)) → (∀ w s, R w (set_streams s w)) → leaves (xadd env stream jobs).
Proof. intros Ht Hs w. unfold xadd. destruct (fault env _); cbn [snd]; eauto. Qed.

Lemma walk_call {X} (o : op World X) : leaves o → preserves R (call o).
Proof. apply preserves_call. Qed.

Lemma walk_for_each {B} (l : list B) body :
  (∀ x, preserves R (body x)) → preserves R (for_each l body).
Proof. intros Hb. induction l as [|x l IH]; [done|]. by apply preserves_bind. Qed.

Lemma walk_api_op {X} from (o : op World X) : leaves o → preserves R (api_op from o).
Proof. intros Ho w. split; [apply Ho|done]. Qed.

Lemma walk_api_bind {A B} (m : api A) (k : A → api B) :
  preserves R m → (∀ a, preserves R (k a)) → preserves R (api_bind m k).
Proof. intros Hm Hk. apply preserves_bind; [done|]. intros [a|e]; [apply Hk|done]. Qed.

Lemma walk_lift {A} (p : prog World A) n : preserves R p → preserves R (lift p n).
Proof. intros Hp. apply preserves_bind; [by apply preserves_attempt|done]. Qed.

Lemma walk_con_bind {A B} (m : console A) (k : A → console B) n :
  (∀ n, preserves R (m n)) → (∀ a n, preserves R (k a n)) → preserves R (con_bind m k n).
Proof. intros Hm Hk. apply preserves_bind; [done|]. intros [[a|e] n']; [apply Hk|done]. Qed.

Lemma walk_con_for {A} (l : list A) body n :
  (∀ x n, preserves R (body x n)) → preserves R (con_for l body n).
Proof.
  intros Hb. revert n. induction l as [|x l IH]; intros n; [done|].
  apply walk_con_bind; [apply Hb|]. intros _. apply IH.
Qed.

(** Asking an adapter changes neither tables nor events. *)
Lemma walk_quiet {A} (p : prog World A) `{!Quiet p} :
  (∀ w w', same_tables w w' → R w w') → preserves R p.
Proof.
  intros HR. revert Quiet0. unfold Quiet. induction p as [a|e|X o k IH]; intros Hp; [done..|].
  intros w. destruct (Hp w) as [Hs Hk]. split; [by apply HR|by apply IH].
Qed.

End walk.

Create HintDb walk.

Ltac walk_step :=
  match goal with
  | |- ∀ _, _ => intro
  | |- preserves _ (Ret _) => exact I
  | |- preserves _ (Throw _) => exact I
  | |- preserves _ (api_ret _) => exact I
  | |- preserves _ (api_err _) => exact I
  | |- preserves _ (con_ret _ _) => exact I
  | |- preserves _ (con_fail _ _) => exact I
  | |- preserves _ (of_result _) => apply preserves_of_result
  | |- preserves _ (api_bind _ _) => apply walk_api_bind
  | |- preserves _ (con_bind _ _ _) => apply walk_con_bind
  | |- preserves _ (con_for _ _ _) => apply walk_con_for
  | |- preserves _ (for_each _ _) => apply walk_for_each
  | |- preserves _ (api_op _ _) => apply walk_api_op
  | |- preserves _ (call _) => apply walk_call
  | |- preserves _ (bind _ _) => apply preserves_bind
  | |- preserves _ (attempt _) => apply preserves_attempt
  | |- preserves _ (lift _ _) => apply walk_lift
  | |- preserves _ (match ?x with _ => _ end) => destruct x
  | |- preserves _ ((match ?x with _ => _ end) _) => destruct x
  end.

Ltac walk := repeat first [solve [auto 2 with walk nocore] | walk_step].
