(* ===== verification/Footprint.v ===== *)
(** * What the handlers of the worker touch

    A handler respects a relation between worlds as soon as its statements do: the lists of
    statements of the two handlers, once for all the relations of the development. *)

From S2P Require Import Prelude RustStr Json Proto Status Domain KemOrder Effects World Store.
From S2P Require Import Registry Asking Probe Kem Walk.

Section footprint.
Context {J : SerdeJson} {RJ : ReportJson} {U : UuidDisplay} {C : Chrono}.
Context (env : Env) (bases : gmap string string) (R : World → World → Prop).

(** What both handlers ask the adapters. *)
Record asking_leaves : Prop := {
  al_capabilities : ∀ adapter, preserves R (capabilities env bases adapter);
  al_probe : ∀ adapter request, preserves R (Registry.probe env bases adapter request);
}.

Lemma quiet_asking : (∀ w w', same_tables w w' → R w w') → asking_leaves.
Proof. intros HR. split; intros; apply walk_quiet; auto; apply _. Qed.

Lemma asks_asking : (∀ w w', asks env bases w w' → R w w') → asking_leaves.
Proof.
  intros HR. split; intros; eapply (preserves_impl (asks env bases)); try exact HR;
    [apply capabilities_asks|apply probe_asks].
Qed.

(** ** KEM runs *)

(** The last statement of a run. *)
Definition mark_ended (run_id : Uuid) (status : TaskStatus.t) : op World unit :=
  sql env (λ at_ d, Ok (tt, with_kem_runs (alter (run_with_status status (Some at_)) run_id) d)).

Record kem_leaves (job : KemJob.t) : Prop := {
  kl_now : leaves R (now env);
  kl_mark : leaves R (mark_running env job);
  kl_log : ∀ seq at_ level message,
    leaves R (insert_log env job.(KemJob.run_id) seq at_ level message);
  kl_cell : ∀ kem adapter verdict detail,
    leaves R (upsert_cell env job.(KemJob.run_id) kem adapter verdict detail);
  kl_event : ∀ event, leaves R (publish_kem env job.(KemJob.run_id) event);
  kl_end : ∀ status, status = TaskStatus.Finished ∨ status = TaskStatus.Failed →
    leaves R (mark_ended job.(KemJob.run_id) status);
}.

Section kem.
Context (job : KemJob.t) (Ha : asking_leaves) (Hk : kem_leaves job).
Notation run_id := (job.(KemJob.run_id)).

#[local] Hint Resolve al_capabilities al_probe kl_mark kl_log kl_cell kl_event kl_end : walk.

Lemma log_leaves level message n : preserves R (log env run_id level message n).
Proof. pose proof (kl_now _ Hk). unfold log. walk. Qed.

Lemma cell_leaves kem adapter verdict detail n :
  preserves R (cell env run_id kem adapter verdict detail n).
Proof. unfold cell. walk. Qed.

#[local] Hint Resolve log_leaves cell_leaves : walk.

Lemma priority_loop_leaves fuel adapter remaining order n :
  preserves R (priority_loop env bases job fuel adapter remaining order n).
Proof.
  revert remaining order n. induction fuel as [|fuel IH]; intros [|g remaining] order n;
    cbn [priority_loop]; walk.
Qed.

#[local] Hint Resolve priority_loop_leaves : walk.

Lemma mode_body_leaves n : preserves R (mode_body env bases job n).
Proof.
  unfold mode_body, library_compat, compat_cell, group_compat, log_http, priority, log_findings.
  walk.
Qed.

Lemma kem_finish_leaves status :
  status = TaskStatus.Finished ∨ status = TaskStatus.Failed →
  preserves R (Kem.finish env run_id status).
Proof.
  intros Hs. apply preserves_bind; [by apply walk_call, (kl_end _ Hk)|]. intros _. walk.
Qed.

Lemma kem_handle_leaves : preserves R (Kem.handle env bases job).
Proof.
  pose proof mode_body_leaves. pose proof (kem_finish_leaves _ (or_introl eq_refl)).
  pose proof (kem_finish_leaves _ (or_intror eq_refl)). unfold Kem.handle. walk.
Qed.

End kem.

(** ** Subtasks *)

(** The statement that closes a test. *)
Definition mark_closed (test_id : Uuid) (status : TaskStatus.t) : op World unit :=
  sql env (λ at_ d, Ok (tt, with_tests (alter (test_closed status at_) test_id) d)).

Record probe_leaves (job : ProbeJob.t) : Prop := {
  pl_test : preserves R (mark_test_running env job.(ProbeJob.test_id));
  pl_started : preserves R (mark_subtask_running env job.(ProbeJob.subtask_id));
  pl_error : preserves R (mark_subtask_error env job.(ProbeJob.subtask_id) (not_enabled job));
  pl_report : ∀ response caps, preserves R
    (save_report env job.(ProbeJob.subtask_id) (result_of job response caps) response);
  pl_event : ∀ event,
    leaves R (redis_publish env (test_channel job.(ProbeJob.test_id)) (Test_event event));
  pl_count : leaves R (sql env (λ _ d, Ok (progress job.(ProbeJob.test_id) d, d)));
  pl_close : ∀ errored total,
    leaves R (mark_closed job.(ProbeJob.test_id) (closing_status errored total));
}.

Section probe.
Context (job : ProbeJob.t) (Ha : asking_leaves) (Hp : probe_leaves job).

#[local] Hint Resolve al_capabilities al_probe pl_test pl_started pl_error pl_report pl_event
  pl_count pl_close : walk.

Lemma finish_test_leaves : preserves R (finish_test_if_done env job.(ProbeJob.test_id)).
Proof.
  apply preserves_bind; [by apply walk_call, (pl_count _ Hp)|].
  intros [[[[o p] f] e] t]. destruct (0 <? o)%Z; [done|].
  apply preserves_bind; [by apply walk_call, (pl_close _ Hp)|done].
Qed.

#[local] Hint Resolve finish_test_leaves : walk.

Lemma probe_handle_leaves : preserves R (Probe.handle env bases job).
Proof. unfold Probe.handle, Probe.publish, Probe.finish. walk. Qed.

End probe.
End footprint.
