(* ===== verification/Worker.v ===== *)
(** * The loop of the worker ([services/worker/src/main.rs])

    One task reads deliveries and, for each, waits for a permit of a semaphore and spawns
    the handler; the spawned tasks interleave and acknowledge their entry at the end
    whatever the handler returned. The process is a transition system; which replies Redis
    gives to the reads, and when the shutdown signal arrives, is open. *)

From S2P Require Import Prelude RustStr Json Proto Status Domain KemOrder Effects World Stream.
From S2P Require Import Store Registry Probe Kem Protocol Concurrency Api Walk Fixtures.

(** What [serde_json::from_str] makes of a payload. *)
Class JobJson := {
  probe_job_from_str : string → result string ProbeJob.t;
  kem_job_from_str : string → result string KemJob.t;
}.

Section worker.
Context {J : SerdeJson} {RJ : ReportJson} {U : UuidDisplay} {C : Chrono}.
Context {V : RedisValue} {JJ : JobJson}.
Context (env : Env) (bases : gmap string string) (concurrency : nat).

Local Open Scope prog_scope.

(** ** [tick]: the deliveries of a round *)

(** What Redis answers in one round: to the read and, per stream, to the claim. *)
Record Replies := {
  on_read : result string (option StreamReadReply.t);
  on_claim : string → result string RValue;
}.

(** Nothing new: the entries another worker left pending, of both streams. *)
Definition tick_deliveries (replies : Replies) : result string (list Delivery.t) :=
  match read replies.(on_read) with
  | Err err => Err err
  | Ok [] =>
      match autoclaim STREAM_PROBE (replies.(on_claim) STREAM_PROBE) with
      | Err err => Err err
      | Ok probes =>
          match autoclaim STREAM_KEM (replies.(on_claim) STREAM_KEM) with
          | Err err => Err err
          | Ok kems => Ok (probes ++ kems)
          end
      end
  | Ok deliveries => Ok deliveries
  end.

(** The [match] on the stream. *)
Definition dispatch (delivery : Delivery.t) : prog World unit :=
  if String.eqb delivery.(Delivery.stream) STREAM_PROBE then
    match probe_job_from_str delivery.(Delivery.payload) with
    | Ok job => Probe.handle env bases job
    | Err err => Throw ("undecodable probe job: " +:+ err)
    end
  else if String.eqb delivery.(Delivery.stream) STREAM_KEM then
    match kem_job_from_str delivery.(Delivery.payload) with
    | Ok job => Kem.handle env bases job
    | Err err => Throw ("undecodable kem job: " +:+ err)
    end
  else Throw ("unknown stream " +:+ delivery.(Delivery.stream)).

(** The last part of the spawned task: errors are logged, the acknowledgement is sent
    either way. *)
Definition acking (delivery : Delivery.t) (outcome : prog World unit) : prog World unit :=
  let! _ := attempt outcome in
  let! _ := attempt (ack env delivery.(Delivery.stream) delivery.(Delivery.id)) in
  Ret tt.

Definition spawned (delivery : Delivery.t) : prog World unit := acking delivery (dispatch delivery).

(** ** The process *)

(** Both groups exist before the loop starts; any other answer ends the process. *)
Definition ensure_groups (probe kem : result string string) : result string unit :=
  match ensure_group probe with
  | Err err => Err err
  | Ok _ => ensure_group kem
  end.

Inductive main_phase := Ticking | Spawning | BackingOff | Draining | Exited.

#[export] Instance main_phase_eq_dec : EqDecision main_phase.
Proof. solve_decision. Defined.

(** [inbox] is what is left of the deliveries of the round; [started] and [tasks] are the
    deliveries spawned so far and what remains of their tasks. *)
Record Process := {
  world : World;
  phase : main_phase;
  inbox : list Delivery.t;
  started : list Delivery.t;
  tasks : list (prog World unit);
}.

Definition is_halted (p : prog World unit) : bool :=
  match p with
  | Do _ _ => false
  | _ => true
  end.

(** A task holds its permit until it ends. *)
Definition held (ts : list (prog World unit)) : nat :=
  length (filter (λ p, is_halted p = false) ts).

(** [select!] watches for the signal while it polls [tick], which is dropped then; the
    back-off happens outside. After the loop the process waits for
    [config.concurrency as u32] permits. *)
Inductive worker_step : Process → Process → Prop :=
| worker_read w st ts replies ds :
    tick_deliveries replies = Ok ds →
    worker_step (Build_Process w Ticking [] st ts) (Build_Process w Spawning ds st ts)
| worker_read_failed w st ts replies err :
    tick_deliveries replies = Err err →
    worker_step (Build_Process w Ticking [] st ts) (Build_Process w BackingOff [] st ts)
| worker_backed_off w st ts :
    worker_step (Build_Process w BackingOff [] st ts) (Build_Process w Ticking [] st ts)
| worker_spawn w d ds st ts :
    held ts < concurrency →
    worker_step (Build_Process w Spawning (d :: ds) st ts)
                (Build_Process w Spawning ds (st ++ [d]) (ts ++ [spawned d]))
| worker_round_over w st ts :
    worker_step (Build_Process w Spawning [] st ts) (Build_Process w Ticking [] st ts)
| worker_task w w' ph ib st ts ts' :
    ph ≠ Exited → step (w, ts) (w', ts') →
    worker_step (Build_Process w ph ib st ts) (Build_Process w' ph ib st ts')
| worker_signal w ph ib st ts :
    ph = Ticking ∨ ph = Spawning →
    worker_step (Build_Process w ph ib st ts) (Build_Process w Draining ib st ts)
| worker_exit w ib st ts :
    (as_u32 (Z.of_nat concurrency) ≤ Z.of_nat concurrency - Z.of_nat (held ts))%Z →
    worker_step (Build_Process w Draining ib st ts) (Build_Process w Exited ib st ts).

Definition starts (w : World) : Process := Build_Process w Ticking [] [] [].

End worker.

Arguments Process {J}.
