(* ===== verification/WorkerFacts.v ===== *)
(** * What the loop of the worker guarantees

    At most [concurrency] handlers at once; an entry is acknowledged after its handler has
    ended, once, and whatever the handler returned; the process is a run of the pool of the
    spawned tasks, so the tests whose jobs were delivered are closed ([Concurrency]) even in
    the company of KEM runs and undecodable entries; and without new deliveries the process
    comes to rest. *)

From S2P Require Import Prelude RustStr Json Proto Status Domain KemOrder Effects Rely World Stream.
From S2P Require Import Store Registry Probe Kem Protocol Concurrency Api Walk Footprint Worker.
From S2P Require Import Fixtures.

(** ** Handlers do not acknowledge *)

Section handlers.
Context {J : SerdeJson} {RJ : ReportJson} {U : UuidDisplay} {C : Chrono}.
Context {V : RedisValue} {JJ : JobJson}.
Context (env : Env) (bases : gmap string string).

Definition same_acked (w w' : World) : Prop := w'.(acked) = w.(acked).

(** What a KEM run may do: nothing to the rows of tests, nothing to earlier events. *)
Definition quietly (w w' : World) : Prop := apart w w' ∧ same_acked w w'.

Lemma apart_same w w' :
  w'.(db).(subtasks) = w.(db).(subtasks) → w'.(db).(tests) = w.(db).(tests) →
  w.(published) ⊆ w'.(published) → apart w w'.
Proof. done. Qed.

Lemma quietly_tick w : quietly w (tick w).
Proof. split; [|done]. by apply apart_same. Qed.

Lemma quietly_same_tables w w' : same_tables w w' → quietly w w'.
Proof.
  intros (Hd & Hp & Ha). split; [|done]. apply apart_same; by rewrite ?Hd, ?Hp.
Qed.

Lemma quietly_sql {X} (q : DateTime → Db → result string (X * Db)) :
  (∀ at_ d x d', q at_ d = Ok (x, d') → d'.(subtasks) = d.(subtasks) ∧ d'.(tests) = d.(tests)) →
  leaves quietly (sql env q).
Proof.
  intros Hq. apply leaves_sql; [apply quietly_tick|]. intros w at_ x d Hd.
  apply Hq in Hd as [Hs Ht]. split; [|done]. by apply apart_same.
Qed.

Lemma quietly_publish channel event : leaves quietly (redis_publish env channel event).
Proof.
  apply leaves_redis_publish; [apply quietly_tick|]. intros w e. split; [|done].
  apply apart_same; [done|done|]. cbn. set_solver.
Qed.

Lemma quietly_insert_log run_id seq at_ level message :
  leaves quietly (insert_log env run_id seq at_ level message).
Proof.
  apply quietly_sql. intros at' d x d'. destruct (d.(kem_runs) !! _); [|done].
  destruct (d.(kem_run_logs) !! _); [done|]. by intros [= _ <-].
Qed.

Lemma quietly_upsert_cell run_id kem adapter verdict detail :
  leaves quietly (upsert_cell env run_id kem adapter verdict detail).
Proof. apply quietly_sql. intros at' d x d'. destruct (d.(kem_runs) !! _); [|done]. by intros [= _ <-]. Qed.

Lemma quietly_update_run f id :
  leaves quietly (sql env (λ at_ d, Ok (tt, with_kem_runs (alter (f at_) id) d))).
Proof. apply quietly_sql. by intros at' d x d' [= _ <-]. Qed.

Lemma kem_handle_quietly job : preserves quietly (Kem.handle env bases job).
Proof.
  apply kem_handle_leaves; [by apply quiet_asking, quietly_same_tables|]. split; intros.
  - intros w. apply quietly_tick.
  - apply (quietly_update_run (λ _ r, run_with_status _ r.(KemRun.finished_at) r)).
  - apply quietly_insert_log.
  - apply quietly_upsert_cell.
  - apply quietly_publish.
  - apply (quietly_update_run (λ at_, run_with_status _ (Some at_))).
Qed.

Lemma same_acked_sql {X} (q : DateTime → Db → result string (X * Db)) :
  leaves same_acked (sql env q).
Proof. by apply leaves_sql. Qed.

Lemma probe_handle_same_acked job : preserves same_acked (Probe.handle env bases job).
Proof.
  apply probe_handle_leaves; [by apply quiet_asking; intros w w' (_ & _ & Ha)|].
  split; intros; try apply walk_call; try apply same_acked_sql. by apply leaves_redis_publish.
Qed.

Lemma dispatch_same_acked d : preserves same_acked (dispatch env bases d).
Proof.
  unfold dispatch. destruct (String.eqb _ STREAM_PROBE).
  - destruct (probe_job_from_str _); [apply probe_handle_same_acked|done].
  - destruct (String.eqb _ STREAM_KEM); [|done]. destruct (kem_job_from_str _) as [job|]; [|done].
    apply (preserves_impl quietly same_acked); [by intros w w' [_ Ha]|]. apply kem_handle_quietly.
Qed.

(** What was published stays published, in its place. *)
Definition appends (w w' : World) : Prop := w.(published) `prefix_of` w'.(published).

#[export] Instance appends_preorder : PreOrder appends.
Proof. split; unfold appends; [by intros w|intros w1 w2 w3; apply transitivity]. Qed.

Lemma appends_same w w' : w'.(published) = w.(published) → appends w w'.
Proof. intros Hp. unfold appends. by rewrite Hp. Qed.

Lemma appends_sql {X} (q : DateTime → Db → result string (X * Db)) : leaves appends (sql env q).
Proof. by apply leaves_sql; intros; apply appends_same. Qed.

Lemma appends_publish channel event : leaves appends (redis_publish env channel event).
Proof.
  apply leaves_redis_publish; [by intros; apply appends_same|]. intros w e. by eexists.
Qed.

Lemma appends_asking : asking_leaves env bases appends.
Proof. apply quiet_asking. intros w w' (_ & Hp & _). by apply appends_same. Qed.

Lemma spawned_appends d : preserves appends (spawned env bases d).
Proof.
  apply preserves_bind.
  - apply preserves_attempt. unfold dispatch. destruct (String.eqb _ STREAM_PROBE).
    { destruct (probe_job_from_str _); [|done]. apply probe_handle_leaves; [apply appends_asking|].
      split; intros; try apply walk_call; try apply appends_sql. apply appends_publish. }
    destruct (String.eqb _ STREAM_KEM); [|done]. destruct (kem_job_from_str _); [|done].
    apply kem_handle_leaves; [apply appends_asking|].
    split; intros; try apply appends_sql; try apply appends_publish.
    intros w. by apply appends_same.
  - intros _. apply preserves_bind; [|done]. apply preserves_attempt, preserves_bind; [|done].
    apply walk_call. intros w. unfold xack. by destruct (env.(fault) _); apply appends_same.
Qed.

(** The job of a delivery of the probe stream. *)
Definition probe_job_of (d : Delivery.t) : option ProbeJob.t :=
  if String.eqb d.(Delivery.stream) STREAM_PROBE then
    match probe_job_from_str d.(Delivery.payload) with
    | Ok job => Some job
    | Err _ => None
    end
  else None.

Lemma ack_apart d : preserves apart (ack env d.(Delivery.stream) d.(Delivery.id)).
Proof.
  assert (leaves apart (xack env d.(Delivery.stream) d.(Delivery.id))).
  { intros w. unfold xack. by destruct (env.(fault) _); apply apart_same. }
  unfold ack. walk.
Qed.

(** What a spawned task is to the protocol that closes tests: a thread, or a bystander. *)
Definition thread_of (d : Delivery.t) : option (ProbeJob.t * Protocol.phase) :=
  (λ job, (job, Working)) <$> probe_job_of d.

Lemma spawned_simulates ds :
  reliable env → simulates bases (map thread_of ds) (map (spawned env bases) ds).
Proof.
  intros Hr. unfold simulates. induction ds as [|d ds IH]; constructor; [|done].
  unfold thread_of, spawned, acking. destruct (probe_job_of d) as [job|] eqn:Hd; cbn [fmap option_fmap option_map fst snd].
  - assert (dispatch env bases d = Probe.handle env bases job) as ->.
    { unfold probe_job_of in Hd. unfold dispatch. destruct (String.eqb _ _); [|done].
      destruct (probe_job_from_str _); [|done]. by injection Hd as ->. }
    apply follows_then; [by apply handle_follows|].
    unfold ack. cbn [bind attempt call]. apply follows_quiet. intros w. unfold xack.
    rewrite Hr. done.
  - apply preserves_bind.
    + apply preserves_attempt. unfold probe_job_of in Hd. unfold dispatch.
      destruct (String.eqb _ STREAM_PROBE).
      { by destruct (probe_job_from_str _). }
      destruct (String.eqb _ STREAM_KEM); [|done]. destruct (kem_job_from_str _) as [job|]; [|done].
      apply (preserves_impl quietly apart); [by intros w w' [Ha _]|]. apply kem_handle_quietly.
    + intros _. apply preserves_bind; [|done]. apply preserves_attempt, ack_apart.
Qed.

Lemma threads_spawned ds :
  threads_of (map thread_of ds) = map (λ job, (job, Working)) (omap probe_job_of ds).
Proof.
  induction ds as [|d ds IH]; [done|]. cbn. unfold thread_of at 1.
  destruct (probe_job_of d); cbn; by rewrite <-IH.
Qed.

End handlers.

(** ** One step of a task *)

Section advance.
Context {J : SerdeJson}.

(** The next operation of a program, performed. *)
Definition advance {A} (p : prog World A) (w : World) : option (prog World A * World) :=
  match p with
  | Do o k => Some (k (o w).1, (o w).2)
  | _ => None
  end.

Lemma step_advance {A} w (pool : list (prog World A)) w' pool' :
  step (w, pool) (w', pool') →
  ∃ l1 p p' l2, pool = l1 ++ p :: l2 ∧ pool' = l1 ++ p' :: l2 ∧ advance p w = Some (p', w').
Proof.
  intros Hs. remember (w, pool) as c eqn:Hc. remember (w', pool') as c' eqn:Hc'.
  destruct Hs as [w0 l1 X o k l2]. injection Hc as -> <-. injection Hc' as <- <-.
  by eexists l1, _, _, l2.
Qed.

Lemma is_halted_spec (p : prog World unit) : is_halted p = true ↔ halted p.
Proof. by destruct p. Qed.

Lemma held_app ts1 ts2 : held (ts1 ++ ts2) = held ts1 + held ts2.
Proof. unfold held. by rewrite filter_app, length_app. Qed.

Lemma held_cons p ts : held (p :: ts) = (if is_halted p then 0 else 1) + held ts.
Proof. unfold held. rewrite filter_cons. by destruct (is_halted p). Qed.

Lemma held_zero (ts : list (prog World unit)) : held ts = 0 → Forall halted ts.
Proof.
  induction ts as [|p ts IH]; [constructor|]. rewrite held_cons.
  destruct (is_halted p) eqn:Hp; [|done]. constructor; [by apply is_halted_spec|by apply IH].
Qed.

End advance.

(** ** The acknowledgements *)

Section acknowledgements.
Context {J : SerdeJson} {RJ : ReportJson} {U : UuidDisplay} {C : Chrono}.
Context {V : RedisValue} {JJ : JobJson}.
Context (env : Env) (bases : gmap string string) (concurrency : nat).

Definition ack_key (d : Delivery.t) : string * string := (d.(Delivery.stream), d.(Delivery.id)).

(** What remains of a spawned task: something before the acknowledgement, or nothing. *)
Definition awaiting (d : Delivery.t) (p : prog World unit) : Prop :=
  ∃ q, p = acking env d q ∧ preserves same_acked q.

Definition task_ok (d : Delivery.t) (p : prog World unit) : Prop := awaiting d p ∨ p = Ret tt.

Lemma awaiting_running d p : awaiting d p → is_halted p = false.
Proof. intros (q & -> & _). by destruct q. Qed.

Lemma task_ok_advance d p w p' w' :
  task_ok d p → advance p w = Some (p', w') →
  is_halted p = false ∧
  (awaiting d p' ∧ w'.(acked) = w.(acked) ∨
   p' = Ret tt ∧ (w'.(acked) = w.(acked) ++ [ack_key d] ∨
                  w'.(acked) = w.(acked) ∧ ¬ reliable env)).
Proof.
  intros [(q & -> & Hq)| ->]; [|done]. intros Ha.
  split; [by destruct q|]. destruct q as [a|e|X o k].
  1-2: right; cbn in Ha; injection Ha as <- <-; unfold xack;
    destruct (env.(fault) w.(steps)) eqn:Hf; cbn; (split; [done|]);
    [by left| |by left]; right; (split; [done|]); intros Hr; by rewrite Hr in Hf.
  left. cbn in Ha. injection Ha as <- <-. destruct (Hq w) as [Hw Hk]. split; [|exact Hw].
  by exists (k (o w).1).
Qed.

(** The entries whose task has ended. *)
Fixpoint ended (ds : list Delivery.t) (ts : list (prog World unit)) : list (string * string) :=
  match ds, ts with
  | d :: ds, p :: ts => if is_halted p then ack_key d :: ended ds ts else ended ds ts
  | _, _ => []
  end.

Lemma ended_app ds1 ds2 ts1 ts2 :
  length ds1 = length ts1 → ended (ds1 ++ ds2) (ts1 ++ ts2) = ended ds1 ts1 ++ ended ds2 ts2.
Proof.
  revert ts1. induction ds1 as [|d ds1 IH]; intros [|p ts1]; try done. cbn. intros [= Hl].
  rewrite (IH ts1) by done. by destruct (is_halted p).
Qed.

Lemma ended_all ds ts : Forall halted ts → length ds = length ts → ended ds ts = map ack_key ds.
Proof.
  intros Hts. revert ds. induction Hts as [|p ts Hp Hts IH]; intros [|d ds]; try done.
  cbn. intros [= Hl]. rewrite (proj2 (is_halted_spec p)) by done. by rewrite IH.
Qed.

(** The acknowledgements sent since the process started. *)
Definition acks_of (acked0 : list (string * string)) (s : Process) : Prop :=
  ∃ l, s.(world).(acked) = acked0 ++ l ∧ l ⊆+ ended s.(started) s.(tasks) ∧
       (reliable env → l ≡ₚ ended s.(started) s.(tasks)).

Record process_inv (acked0 : list (string * string)) (s : Process) : Prop := {
  pi_tasks : Forall2 task_ok s.(started) s.(tasks);
  pi_held : held s.(tasks) ≤ concurrency;
  pi_acks : acks_of acked0 s;
  pi_inbox : s.(phase) = Ticking ∨ s.(phase) = BackingOff → s.(inbox) = [];
  pi_exited : s.(phase) = Exited → (as_u32 (Z.of_nat concurrency)
    ≤ Z.of_nat concurrency - Z.of_nat (held s.(tasks)))%Z;
}.

Lemma spawned_awaiting d : awaiting d (spawned env bases d).
Proof. eexists. split; [done|]. apply dispatch_same_acked. Qed.

(** A step of a task keeps the books. *)
Lemma task_step_inv acked0 w w' ph ib st ts ts' :
  ph ≠ Exited → step (w, ts) (w', ts') →
  process_inv acked0 (Build_Process w ph ib st ts) →
  process_inv acked0 (Build_Process w' ph ib st ts').
Proof.
  intros Hph Hs [Ht Hh (l & Hl & Hsub & Hall) Hib _]. unfold acks_of in *.
  cbn [world phase inbox started tasks] in *.
  apply step_advance in Hs as (l1 & p & p' & l2 & -> & -> & Ha).
  apply Forall2_app_inv_r in Ht as (s1 & ss & H1 & H2 & ->).
  apply Forall2_cons_inv_r in H2 as (d & s2 & Hd & H2 & ->).
  pose proof (Forall2_length _ _ _ H1) as Hlen. rewrite ended_app in Hsub, Hall by done.
  cbn [ended] in Hsub, Hall.
  destruct (task_ok_advance _ _ _ _ _ Hd Ha) as [Hrun Hcase]. rewrite Hrun in Hsub, Hall.
  rewrite held_app, held_cons, Hrun in Hh.
  split; cbn [world phase inbox started tasks].
  - apply Forall2_app; [done|]. constructor; [|done]. destruct Hcase as [[? _]|[? _]]; [by left|by right].
  - rewrite held_app, held_cons. destruct (is_halted p'); lia.
  - unfold acks_of. cbn [world started tasks]. rewrite ended_app by done. cbn [ended].
    destruct Hcase as [[Hp' Hw]|[-> [Hw|[Hw Hnr]]]].
    + rewrite (awaiting_running d p') by done. exists l. by rewrite Hw.
    + exists (l ++ [ack_key d]). cbn [is_halted]. rewrite Hw, Hl, app_assoc.
      assert (Hp : ended s1 l1 ++ ack_key d :: ended s2 l2
                   ≡ₚ (ended s1 l1 ++ ended s2 l2) ++ [ack_key d]).
      { by rewrite <-Permutation_middle, Permutation_cons_append. }
      split_and!; [done| |].
      * rewrite Hp. by apply submseteq_skips_r.
      * intros Hr. by rewrite Hp, (Hall Hr).
    + exists l. cbn [is_halted]. rewrite Hw. split_and!; [done| |done].
      rewrite <-Permutation_middle. by apply submseteq_cons.
  - done.
  - done.
Qed.

Lemma worker_step_inv acked0 s s' :
  worker_step env bases concurrency s s' → process_inv acked0 s → process_inv acked0 s'.
Proof.
  intros Hs Hi. destruct Hs as [w st ts replies ds Hd|w st ts replies err Hd|w st ts|
    w d ds st ts Hlt|w st ts|w w' ph ib st ts ts' Hph Hs|w ph ib st ts Hph|w ib st ts Hex].
  6: by eapply task_step_inv.
  all: destruct Hi as [Ht Hh Ha Hib Hx]; split; unfold acks_of in *;
    cbn [world phase inbox started tasks] in *; try done;
    try by intros [|].
  - apply Forall2_app; [done|]. constructor; [|done]. left. apply spawned_awaiting.
  - rewrite held_app, held_cons, (awaiting_running d) by apply spawned_awaiting.
    change (held []) with 0. lia.
  - destruct Ha as (l & Hl & Hsub & Hall). exists l.
    rewrite ended_app by by eapply Forall2_length. cbn [ended].
    rewrite (awaiting_running d) by apply spawned_awaiting. by rewrite app_nil_r.
Qed.

Lemma starts_inv w : process_inv w.(acked) (starts w).
Proof.
  split; cbn; [constructor|lia| |done|done]. exists []. by rewrite app_nil_r.
Qed.

Lemma worker_steps_inv w s :
  rtc (worker_step env bases concurrency) (starts w) s → process_inv w.(acked) s.
Proof.
  intros Hs. pose proof (starts_inv w) as Hi. revert Hi. generalize (acked w) as a.
  induction Hs as [|s1 s2 s3 H12 _ IH]; eauto using worker_step_inv.
Qed.

(** C17. At most [concurrency] handlers run at once, whatever Redis answers, whatever fails
    and whenever the signal comes; after the signal the process only exits once every
    handler has ended (the limit is below 2^32, the type of the permits it waits for). *)
Theorem worker_bounded w s :
  rtc (worker_step env bases concurrency) (starts w) s →
  held s.(tasks) ≤ concurrency ∧
  ((Z.of_nat concurrency < 2 ^ 32)%Z → s.(phase) = Exited → Forall halted s.(tasks)).
Proof.
  intros [_ Hh _ _ Hx]%worker_steps_inv. split; [done|]. intros Hc He.
  specialize (Hx He). rewrite as_u32_small in Hx by lia.
  apply held_zero. lia.
Qed.

(** C12. An entry is acknowledged only after its handler has ended, at most once per
    delivery, and, when Redis works, always: even for a payload that cannot be decoded, an
    unknown stream or a handler that failed. *)
Theorem worker_acknowledges w s :
  rtc (worker_step env bases concurrency) (starts w) s →
  ∃ l, s.(world).(acked) = w.(acked) ++ l ∧ l ⊆+ ended s.(started) s.(tasks) ∧
       (reliable env → l ≡ₚ ended s.(started) s.(tasks)) ∧
       (reliable env → Forall halted s.(tasks) → l ≡ₚ map ack_key s.(started)).
Proof.
  intros [Ht _ (l & Hl & Hsub & Hall) _ _]%worker_steps_inv. exists l. split_and!; try done.
  intros Hr Hh. rewrite (Hall Hr), ended_all; [done..|by eapply Forall2_length].
Qed.

End acknowledgements.

(** ** The process as a run of the pool *)

Section pool.
Context {J : SerdeJson} {RJ : ReportJson} {U : UuidDisplay} {C : Chrono}.
Context {V : RedisValue} {JJ : JobJson}.
Context (env : Env) (bases : gmap string string) (concurrency : nat).

Notation wsteps := (rtc (worker_step env bases concurrency)).

Lemma step_frame {A} (w w' : World) (ts ts' more : list (prog World A)) :
  step (w, ts) (w', ts') → step (w, ts ++ more) (w', ts' ++ more).
Proof.
  intros Hs. remember (w, ts) as c eqn:Hc. remember (w', ts') as c' eqn:Hc'.
  destruct Hs as [w0 l1 X o k l2]. injection Hc as -> <-. injection Hc' as <- <-.
  rewrite <-!app_assoc. apply step_at.
Qed.

(** Waiting for a permit only delays a task: the process does what all its tasks, spawned
    at once, could have done. *)
Lemma worker_step_pool s s' more :
  worker_step env bases concurrency s s' →
  ∃ ds, s'.(started) = s.(started) ++ ds ∧
    rtc step (s.(world), s.(tasks) ++ map (spawned env bases) (ds ++ more))
             (s'.(world), s'.(tasks) ++ map (spawned env bases) more).
Proof.
  intros []; try (exists []; split; [by rewrite app_nil_r|done]); cbn.
  - exists [d]. split; [done|]. cbn. by rewrite <-app_assoc.
  - exists []. split; [by rewrite app_nil_r|]. by apply rtc_once, step_frame.
Qed.

Lemma worker_steps_pool s s' :
  wsteps s s' → ∀ more,
  ∃ ds, s'.(started) = s.(started) ++ ds ∧
    rtc step (s.(world), s.(tasks) ++ map (spawned env bases) (ds ++ more))
             (s'.(world), s'.(tasks) ++ map (spawned env bases) more).
Proof.
  induction 1 as [s|s1 s2 s3 H12 _ IH]; intros more.
  { exists []. split; [by rewrite app_nil_r|done]. }
  destruct (IH more) as (ds & Hd & Hr).
  destruct (worker_step_pool s1 s2 (ds ++ more) H12) as (d1 & Hd1 & Hr1).
  exists (d1 ++ ds). rewrite Hd, Hd1, <-!app_assoc. split; [done|]. by etrans.
Qed.

Lemma worker_pool w s :
  wsteps (starts w) s →
  rtc step (w, map (spawned env bases) s.(started)) (s.(world), s.(tasks)).
Proof.
  intros Hs. destruct (worker_steps_pool _ _ Hs []) as (ds & Hd & Hr). cbn in Hd.
  rewrite !app_nil_r in Hr. cbn in Hr. by rewrite Hd.
Qed.

(** What all the tasks of the process respect. *)
Lemma process_preserves (R : World → World → Prop) `{!PreOrder R} w s :
  wsteps (starts w) s → Forall (λ d, preserves R (spawned env bases d)) s.(started) →
  R w s.(world).
Proof.
  intros Hs%worker_pool Hd. refine (steps_preserve R _ _ _ _ _ Hs). by apply Forall_map.
Qed.

Lemma process_appends w s : wsteps (starts w) s → appends w s.(world).
Proof.
  intros Hs. apply (process_preserves appends w s Hs). apply Forall_forall.
  intros d _. apply spawned_appends.
Qed.

(** What the handler of a delivery achieves beside tasks that respect [R] holds when the
    process has done its tasks. *)
Lemma process_in_company (R : World → World → Prop) `{!PreOrder R} w s l1 d l2
    (Q : World → Prop) :
  wsteps (starts w) s → Forall halted s.(tasks) → s.(started) = l1 ++ d :: l2 →
  Forall (λ d', preserves R (spawned env bases d')) (l1 ++ l2) →
  preserves R (ack env d.(Delivery.stream) d.(Delivery.id)) →
  stable R Q → wp R (dispatch env bases d) (λ _, Q) w → Q s.(world).
Proof.
  intros Hs Hh Hst [H1 H2]%Forall_app Hack HQ Hd. apply worker_pool in Hs.
  rewrite Hst, map_app in Hs. cbn [map] in Hs.
  assert (Hwp : wp R (spawned env bases d) (λ _, Q) w).
  { refine (wp_bind _ _ _ _ _ (wp_attempt _ _ _ _ (wp_mono _ _ _ _ _ _ Hd))). intros _ w' Hq.
    refine (wp_invariant R R _ Q w' HQ HQ _ Hq).
    apply preserves_bind; [|done]. by apply preserves_attempt. }
  destruct (wp_in_company R _ _ (λ _, Q) (λ _, HQ) Hwp _ _ _ _ (proj2 (Forall_map _ _ _) H1)
    (proj2 (Forall_map _ _ _) H2) Hs Hh) as (_ & _ & HQs). exact HQs.
Qed.

Lemma worker_closes w s test_id :
  reliable env → wsteps (starts w) s → Forall halted s.(tasks) →
  let jobs := omap probe_job_of s.(started) in
  enqueued bases jobs w.(db) → covered test_id jobs w.(db) →
  test_over bases test_id jobs s.(world).
Proof.
  intros Hr Hs Hh jobs Henq Hcov.
  eapply (pool_closes env bases (map thread_of s.(started)) jobs); try done.
  - by apply spawned_simulates.
  - apply threads_spawned.
  - by apply worker_pool.
Qed.

(** The worker closes tests. Redis delivers entries in any rounds and any mix: the jobs
    of a test, at least once each, jobs of other tests, KEM jobs, entries nobody can decode.
    However the rounds, the permits and the handlers interleave, once every task has
    ended the test is over: each subtask is settled, as an error exactly if there is no
    adapter for it, the test is closed with the status its rows call for, [TestFinished]
    with the final counts was published; and every delivery has been acknowledged. *)
Theorem worker_closes_test w s test_id :
  reliable env → wsteps (starts w) s → Forall halted s.(tasks) →
  let jobs := omap probe_job_of s.(started) in
  enqueued bases jobs w.(db) → covered test_id jobs w.(db) →
  test_over bases test_id jobs s.(world) ∧
  ∃ l, s.(world).(acked) = w.(acked) ++ l ∧ l ≡ₚ map ack_key s.(started).
Proof.
  intros Hr Hs Hh jobs Henq Hcov. split; [by eapply worker_closes|].
  apply worker_steps_inv in Hs as [Ht _ (l & Hl & _ & Hall) _ _]. exists l. split; [done|].
  rewrite (Hall Hr), ended_all; [done..|by eapply Forall2_length].
Qed.

(** ** Coming to rest *)

(** The process takes in new work only by reading. *)
Definition is_read (s s' : Process) : Prop :=
  s.(phase) = Ticking ∧ (s'.(phase) = Spawning ∨ s'.(phase) = BackingOff).

Definition busy (s s' : Process) : Prop :=
  worker_step env bases concurrency s s' ∧ ¬ is_read s s'.

(** Every task is over, and the process waits for work or has exited. *)
Definition at_rest (s : Process) : Prop :=
  Forall halted s.(tasks) ∧ (s.(phase) = Ticking ∧ s.(inbox) = [] ∨ s.(phase) = Exited).

Definition pool_of (s : Process) : list (prog World unit) :=
  s.(tasks) ++ map (spawned env bases) s.(inbox).

Definition rank (s : Process) : nat :=
  4 * length s.(inbox) +
  match s.(phase) with
  | Spawning | BackingOff => 3
  | Ticking => 2
  | Draining => 1
  | Exited => 0
  end.

Lemma step_shrinks (w w' : World) (ts ts' : list (prog World unit)) :
  step (w, ts) (w', ts') → pool_shrinks ts' ts.
Proof.
  intros Hs. apply step_advance in Hs as (l1 & p & p' & l2 & -> & -> & Ha).
  apply pool_shrinks_at. destruct p as [| |X o k]; [done..|]. cbn in *.
  injection Ha as <- _. by eexists.
Qed.

Lemma pool_shrinks_app (ts ts' more : list (prog World unit)) :
  pool_shrinks ts' ts → pool_shrinks (ts' ++ more) (ts ++ more).
Proof. intros []. rewrite <-!app_assoc. by apply pool_shrinks_at. Qed.

Lemma busy_measure s s' :
  busy s s' →
  pool_shrinks (pool_of s') (pool_of s) ∨ pool_of s' = pool_of s ∧ rank s' < rank s.
Proof.
  intros [Hs Hn]. destruct Hs as [w st ts replies ds Hd|w st ts replies err Hd|w st ts|
    w d ds st ts Hlt|w st ts|w w' ph ib st ts ts' Hph Hs|w ph ib st ts Hph|w ib st ts Hex];
    unfold pool_of, rank; cbn [tasks inbox phase map length].
  - destruct Hn. split; [done|by left].
  - destruct Hn. split; [done|by right].
  - right. split; [done|lia].
  - right. split; [by rewrite <-app_assoc|lia].
  - right. split; [done|lia].
  - left. by eapply pool_shrinks_app, step_shrinks.
  - right. split; [done|]. destruct Hph as [->| ->]; lia.
  - right. split; [done|lia].
Qed.

Lemma busy_terminates s : Acc (flip busy) s.
Proof.
  remember (pool_of s) as pool eqn:Hp. revert s Hp.
  induction (pool_shrinks_wf pool) as [pool _ IHp]. intros s.
  induction s as [s IHr] using (induction_ltof1 _ rank). intros ->. constructor.
  intros s' Hs. apply busy_measure in Hs as [Hs|[Hs Hlt]].
  - by apply (IHp (pool_of s')).
  - apply IHr; [done|]. by rewrite Hs.
Qed.

Lemma running_steps (w : World) ts : 0 < held ts → ∃ w' ts', step (w, ts) (w', ts').
Proof.
  intros Hh. destruct (step_progress w ts) as [Hall|[[w' ts'] Hs]]; [|by eauto]. exfalso.
  induction Hall as [|p ts Hp Hall IH]; [by cbn in Hh; lia|].
  rewrite held_cons, (proj2 (is_halted_spec p) Hp) in Hh. by apply IH.
Qed.

Lemma busy_progress w s :
  0 < concurrency → (Z.of_nat concurrency < 2 ^ 32)%Z → wsteps (starts w) s →
  at_rest s ∨ ∃ s', busy s s'.
Proof.
  intros Hc Hc32 Hs. pose proof (worker_steps_inv env bases concurrency w s Hs) as [_ _ _ Hib Hex].
  destruct (decide (held s.(tasks) = 0)) as [H0|H0].
  - apply held_zero in H0 as Hh. destruct s as [w1 ph ib st ts].
    cbn [world phase inbox started tasks] in *. destruct ph.
    + left. split; [done|]. left. split; [done|]. by apply Hib; left.
    + right. destruct ib as [|d ib].
      * eexists. split; [apply worker_round_over|]. by intros [? _].
      * eexists. split; [apply worker_spawn; lia|]. by intros [? _].
    + right. rewrite Hib by (by right). eexists. split; [apply worker_backed_off|]. by intros [? _].
    + right. eexists. split; [apply worker_exit; rewrite H0, as_u32_small; lia|]. by intros [? _].
    + left. split; [done|]. by right.
  - destruct (decide (s.(phase) = Exited)) as [He|He].
    { specialize (Hex He). rewrite as_u32_small in Hex by lia. lia. }
    right. destruct (running_steps s.(world) s.(tasks)) as (w' & ts' & Hst); [lia|].
    destruct s as [w1 ph ib st ts].
    cbn [world phase inbox started tasks] in *. eexists. split; [by apply worker_task|].
    unfold is_read. cbn [phase]. by intros [-> [?|?]].
Qed.

(** C16. The process comes to rest. Whatever fails and however tasks, permits and the
    shutdown signal interleave, it cannot be busy for ever without reading new entries, and
    it can only stop being busy with every handler over, waiting for work or after an
    orderly exit: with at least one permit no delivery waits in vain. *)
Theorem worker_comes_to_rest w s :
  0 < concurrency → (Z.of_nat concurrency < 2 ^ 32)%Z → wsteps (starts w) s →
  Acc (flip busy) s ∧
  ∀ s', rtc busy s s' → (∃ s'', busy s' s'') ∨ at_rest s'.
Proof.
  intros Hc Hc32 Hs. split; [apply busy_terminates|]. intros s' Hb.
  assert (Hs' : wsteps (starts w) s').
  { etrans; [exact Hs|]. clear -Hb. induction Hb as [|s1 s2 s3 [H12 _] _ IH]; [done|].
    by eapply rtc_l. }
  destruct (busy_progress w s' Hc Hc32 Hs'); auto.
Qed.

End pool.
