(* ===== verification/KemCompany.v ===== *)
(** * A KEM DEMO run among the other tasks of the worker

    What a run relies on ([KemFacts]) is what the worker's other tasks do: handlers of other
    runs, of subtasks, undecodable entries and acknowledgements leave the rows and the
    channel of the run alone. So a run that is delivered once ends with its transcript in
    any run of the process. *)

From S2P Require Import Prelude RustStr Json Proto Status Domain KemOrder Effects Rely World.
From S2P Require Import Stream Store Registry Asking Probe Kem KemFacts Walk Footprint Worker.
From S2P Require Import WorkerFacts Fixtures.

(** The lines and cells of the consoles are found by their keys. *)
Definition cell_key (c : KemMatrixCell.t) : Uuid * string * string :=
  (c.(KemMatrixCell.run_id), c.(KemMatrixCell.kem), c.(KemMatrixCell.adapter)).

Record console_keyed `{SerdeJson} (d : Db) : Prop := {
  ck_logs k l : d.(kem_run_logs) !! k = Some l → k = (l.(KemRunLog.run_id), l.(KemRunLog.seq));
  ck_cells k c : d.(kem_matrix_cells) !! k = Some c → k = cell_key c;
}.

Section keyed.
Context {J : SerdeJson}.

Lemma console_keyed_same d d' :
  d'.(kem_run_logs) = d.(kem_run_logs) → d'.(kem_matrix_cells) = d.(kem_matrix_cells) →
  console_keyed d → console_keyed d'.
Proof. intros H1 H2 [K1 K2]. split; intros k; rewrite ?H1, ?H2; auto. Qed.

Lemma console_keyed_log k l d :
  k = (l.(KemRunLog.run_id), l.(KemRunLog.seq)) → console_keyed d →
  console_keyed (with_kem_run_logs <[k := l]> d).
Proof.
  intros Hk [K1 K2]. split; [|exact K2]. intros k' l'. cbn [kem_run_logs with_kem_run_logs].
  intros [[<- <-]|[_ Hl]]%lookup_insert_Some; [done|by apply K1].
Qed.

Lemma console_keyed_cell k c d :
  k = cell_key c → console_keyed d → console_keyed (with_kem_matrix_cells <[k := c]> d).
Proof.
  intros Hk [K1 K2]. split; [exact K1|]. intros k' c'. cbn [kem_matrix_cells with_kem_matrix_cells].
  intros [[<- <-]|[_ Hl]]%lookup_insert_Some; [done|by apply K2].
Qed.

End keyed.

Section company.
Context {J : SerdeJson} {RJ : ReportJson} {U : UuidDisplay} {UL : UuidDisplayLaws} {C : Chrono}.
Context {V : RedisValue} {JJ : JobJson}.
Context (env : Env) (bases : gmap string string) (run_id : Uuid).

Definition kept (w w' : World) : Prop :=
  w'.(db).(endpoints) = w.(db).(endpoints) ∧ (console_keyed w.(db) → console_keyed w'.(db)).

#[export] Instance kept_preorder : PreOrder kept.
Proof.
  split; [done|]. intros w1 w2 w3 [H1 H2] [H3 H4]. split; [congruence|auto].
Qed.

(** The tasks that share the worker and the database with a run. *)
Definition company (w w' : World) : Prop := spares env bases run_id w w' ∧ kept w w'.

#[export] Instance company_preorder : PreOrder company.
Proof.
  split; [done|]. intros w1 w2 w3 [H1 K1] [H2 K2]. split; by etrans.
Qed.

(** ** Statements *)

(** A world that differs in nothing the run can see. *)
Lemma company_same w w' :
  w'.(db).(kem_runs) = w.(db).(kem_runs) → w'.(db).(kem_run_logs) = w.(db).(kem_run_logs) →
  w'.(db).(kem_matrix_cells) = w.(db).(kem_matrix_cells) →
  w'.(db).(endpoints) = w.(db).(endpoints) → told run_id w' = told run_id w →
  w'.(cache) = w.(cache) → company w w'.
Proof.
  intros H1 H2 H3 H4 H5 H6. split; split; rewrite ?H1, ?H2, ?H3, ?H6; auto.
  by apply console_keyed_same.
Qed.

Lemma company_tick w : company w (tick w).
Proof. by apply company_same. Qed.

Lemma company_asks w w' : asks env bases w w' → company w w'.
Proof.
  intros [(Hd & Hp & _) Hc]. split; [|unfold kept; by rewrite Hd].
  split; unfold told; rewrite ?Hd, ?Hp; auto.
Qed.

Lemma told_publish_other w channel e :
  channel ≠ kem_channel run_id →
  told run_id (set_published (w.(published) ++ [(channel, e)]) w) = told run_id w.
Proof. intros Hne. unfold told. cbn. by rewrite filter_app, filter_cons_False, app_nil_r. Qed.

Lemma company_publish channel event :
  channel ≠ kem_channel run_id → leaves company (redis_publish env channel event).
Proof.
  intros Hne w. unfold redis_publish.
  destruct (fault env _); cbn [snd]; try apply company_tick;
    apply company_same; try done; by apply told_publish_other.
Qed.

(** A statement on the tables of the tests. *)
Lemma company_sql {X} (q : DateTime → Db → result string (X * Db)) :
  (∀ at_ d x d', q at_ d = Ok (x, d') → d'.(kem_runs) = d.(kem_runs) ∧
     d'.(kem_run_logs) = d.(kem_run_logs) ∧ d'.(kem_matrix_cells) = d.(kem_matrix_cells) ∧
     d'.(endpoints) = d.(endpoints)) →
  leaves company (sql env q).
Proof.
  intros Hq. apply leaves_sql; [apply company_tick|]. intros w at_ x d Hd.
  apply Hq in Hd as (? & ? & ? & ?). by apply company_same.
Qed.

(** A statement on the rows of another run. *)
Lemma company_other_run {X} (q : DateTime → Db → result string (X * Db)) :
  (∀ at_ d x d', q at_ d = Ok (x, d') → d'.(endpoints) = d.(endpoints) ∧
     (console_keyed d → console_keyed d') ∧ d'.(kem_runs) !! run_id = d.(kem_runs) !! run_id ∧
     (∀ seq, d'.(kem_run_logs) !! (run_id, seq) = d.(kem_run_logs) !! (run_id, seq)) ∧
     ∀ kem adapter, d'.(kem_matrix_cells) !! (run_id, kem, adapter)
                    = d.(kem_matrix_cells) !! (run_id, kem, adapter)) →
  leaves company (sql env q).
Proof.
  intros Hq. apply leaves_sql; [apply company_tick|]. intros w at_ x d Hd.
  apply Hq in Hd as (? & ? & ? & ? & ?). split; split; auto.
Qed.

(** A statement on the row of another run. *)
Lemma company_alter_run (f : DateTime → KemRun.t → KemRun.t) other :
  other ≠ run_id →
  leaves company (sql env (λ at_ d, Ok (tt, with_kem_runs (alter (f at_) other) d))).
Proof.
  intros Hne. apply company_other_run. intros at_ d x d' [= _ <-].
  split_and!; try done; [by apply console_keyed_same|]. cbn. by rewrite lookup_alter_ne.
Qed.

Lemma company_asking : asking_leaves env bases company.
Proof. apply asks_asking, company_asks. Qed.

(** ** Handlers *)

Lemma kem_handle_company job :
  job.(KemJob.run_id) ≠ run_id → preserves company (Kem.handle env bases job).
Proof.
  intros Hne. apply kem_handle_leaves; [apply company_asking|]. split.
  - intros w. apply company_tick.
  - by apply (company_alter_run (λ _ r, run_with_status _ r.(KemRun.finished_at) r)).
  - intros seq at_ level message. apply company_other_run. intros at' d x d'.
    destruct (kem_runs d !! _); [|done]. destruct (kem_run_logs d !! _); [done|]. intros [= _ <-].
    split_and!; try done; [by apply console_keyed_log|].
    intros seq'. cbn. rewrite lookup_insert_ne; [done|congruence].
  - intros kem adapter verdict detail. apply company_other_run. intros at' d x d'.
    destruct (kem_runs d !! _); [|done]. intros [= _ <-]. split_and!; try done; [by apply console_keyed_cell|].
    intros kem' adapter'. cbn. rewrite lookup_insert_ne; [done|congruence].
  - intros event. apply company_publish. by intros Heq%kem_channel_inj.
  - intros status _. by apply (company_alter_run (λ at_, run_with_status status (Some at_))).
Qed.

Lemma probe_handle_company job : preserves company (Probe.handle env bases job).
Proof.
  apply probe_handle_leaves; [apply company_asking|].
  split; intros; try apply walk_call.
  5: by apply company_publish, channels_disjoint.
  all: apply company_sql; intros at_ d x d'; try case_match; try done; by intros [= _ <-].
Qed.

Lemma ack_company d : preserves company (ack env d.(Delivery.stream) d.(Delivery.id)).
Proof.
  apply preserves_bind; [|done]. apply walk_call. intros w. unfold xack.
  by destruct (env.(fault) _); apply company_same.
Qed.

(** The job of a delivery of the KEM stream. *)
Definition kem_job_of (d : Delivery.t) : option KemJob.t :=
  if String.eqb d.(Delivery.stream) STREAM_KEM then
    match kem_job_from_str d.(Delivery.payload) with
    | Ok job => Some job
    | Err _ => None
    end
  else None.

(** The delivery is not one of the run. *)
Definition not_of_run (d : Delivery.t) : Prop :=
  ∀ job, kem_job_of d = Some job → job.(KemJob.run_id) ≠ run_id.

Lemma spawned_company d : not_of_run d → preserves company (spawned env bases d).
Proof.
  intros Hd. apply preserves_bind.
  - apply preserves_attempt. unfold dispatch. destruct (String.eqb _ STREAM_PROBE).
    { destruct (probe_job_from_str _); [apply probe_handle_company|done]. }
    destruct (String.eqb (Delivery.stream d) STREAM_KEM) eqn:Hs; [|done].
    destruct (kem_job_from_str _) as [job|] eqn:Hj; [|done].
    apply kem_handle_company, Hd. unfold kem_job_of. by rewrite Hs, Hj.
  - intros _. apply preserves_bind; [|done]. apply preserves_attempt, ack_company.
Qed.

(** ** In the process *)

Lemma dispatch_kem d job : kem_job_of d = Some job → dispatch env bases d = Kem.handle env bases job.
Proof.
  unfold kem_job_of, dispatch. destruct (String.eqb_spec (Delivery.stream d) STREAM_KEM) as [->|]; [|done].
  destruct (kem_job_from_str _); [|done]. by intros [= ->].
Qed.

(** What the handler of a delivery of the run achieves beside others. *)
Lemma run_in_process concurrency w s l1 d l2 (Q : World → Prop) :
  rtc (worker_step env bases concurrency) (starts w) s → Forall halted s.(tasks) →
  s.(started) = l1 ++ d :: l2 → Forall not_of_run (l1 ++ l2) →
  stable company Q → wp company (dispatch env bases d) (λ _, Q) w → Q s.(world).
Proof.
  intros Hs Hh Hst Hl HQ Hd. eapply (process_in_company env bases concurrency company);
    [exact Hs|exact Hh|exact Hst| |apply ack_company|exact HQ|exact Hd].
  eapply Forall_impl; [exact Hl|]. apply spawned_company.
Qed.

End company.

Section runs.
Context {J : SerdeJson} {RJ : ReportJson} {U : UuidDisplay} {UL : UuidDisplayLaws} {C : Chrono}.
Context {V : RedisValue} {JJ : JobJson}.
Context (env : Env) (bases : gmap string string) (job : KemJob.t).
Notation run_id := (job.(KemJob.run_id)).

(** C10. The worker completes runs. Redis delivers the job of a run once, among any other
    entries; however the rounds, the permits and the handlers interleave and whatever the
    adapters answer, once every task has ended the run is marked [finished], or [failed]
    when its mode failed, and its console ends with a [result] line: the stored lines are
    numbered from 1 without a gap, the [Log] events on the channel of the run are the same
    lines in the same order, and the last event is [Finished]. *)
Theorem worker_completes_runs concurrency w s l1 d l2 r0 :
  reliable env → rtc (worker_step env bases concurrency) (starts w) s → Forall halted s.(tasks) →
  s.(started) = l1 ++ d :: l2 → Forall (not_of_run run_id) (l1 ++ l2) →
  kem_job_of d = Some job →
  w.(db).(kem_runs) !! run_id = Some r0 →
  (∀ seq, w.(db).(kem_run_logs) !! (run_id, seq) = None) →
  ∃ status lines l,
    status ∈ [TaskStatus.Finished; TaskStatus.Failed] ∧ l.(line_level) = "result" ∧
    ended_with job (run_with_status TaskStatus.Running r0.(KemRun.finished_at) r0)
      (seen run_id w) status (lines ++ [l]) s.(world).
Proof.
  intros Hr Hs Hh Hst Hl Hd Hrun Hfree.
  eapply (run_in_process env bases run_id concurrency w s l1 d l2); [done..| |].
  - intros w1 w2 Hw (status & lines & l & ? & ? & He). exists status, lines, l.
    split_and!; [done..|].
    refine (ended_with_stable env bases job (company env bases run_id) _ _ _ _ _ w1 w2 Hw He). by intros ? ? [].
  - rewrite (dispatch_kem env bases d job Hd). eapply wp_mono; [|by apply (handle_transcript env bases Hr job
      (company env bases run_id)); [intros ? ? []|..]]. cbn. by intros r w' [_ H].
Qed.

End runs.
