(* ===== verification/SubtaskCompany.v ===== *)
(** * A subtask among the other tasks of the worker

    [handle_configured] of [ProbeFacts] says what the handler of a subtask does on its own;
    here it shares the pool with everything else the worker does. If its job is delivered
    once, nothing else writes its row, its report or an event about it. *)

From S2P Require Import Prelude RustStr Json Proto Status Domain KemOrder Effects Rely World.
From S2P Require Import Stream Store Registry Asking Probe ProbeFacts Kem Walk Footprint.
From S2P Require Import Protocol Concurrency Worker WorkerFacts KemCompany Fixtures.

(** The verdict a message reports of a subtask, and on which channel. *)
Definition update_of (id : Uuid) (message : string * Event)
    : option (string * (ExecStatus.t * ResultStatus.t)) :=
  match message.2 with
  | Test_event (TestEvent.SubtaskUpdated sub exec result _ _) =>
      if decide (sub = id) then Some (message.1, (exec, result)) else None
  | _ => None
  end.

Section company.
Context {J : SerdeJson} {RJ : ReportJson} {U : UuidDisplay} {C : Chrono}.
Context {V : RedisValue} {JJ : JobJson}.
Context (env : Env) (bases : gmap string string) (id : Uuid).

(** What the browsers were told of the subtask. *)
Definition updates (w : World) : list (string * (ExecStatus.t * ResultStatus.t)) :=
  omap (update_of id) w.(published).

(** What the tasks beside a subtask leave alone. *)
Record spares_row (w w' : World) : Prop := {
  sr_row : w'.(db).(subtasks) !! id = w.(db).(subtasks) !! id;
  sr_report : w'.(db).(subtask_reports) !! id = w.(db).(subtask_reports) !! id;
  sr_updates : updates w' = updates w;
  sr_cache : ∀ adapter caps, w'.(cache) !! adapter = Some caps →
    w.(cache) !! adapter = Some caps ∨ described env bases adapter caps;
}.

#[export] Instance spares_row_preorder : PreOrder spares_row.
Proof.
  split; [split; auto|]. intros w1 w2 w3 [H1 H2 H3 H4] [K1 K2 K3 K4].
  split; [congruence..|]. intros adapter caps Hc. destruct (K4 _ _ Hc); auto.
Qed.

(** ** Statements *)

Lemma spares_row_same w w' :
  w'.(db).(subtasks) !! id = w.(db).(subtasks) !! id →
  w'.(db).(subtask_reports) !! id = w.(db).(subtask_reports) !! id →
  updates w' = updates w → w'.(cache) = w.(cache) → spares_row w w'.
Proof. intros H1 H2 H3 H4. split; rewrite ?H4; auto. Qed.

Lemma spares_row_tick w : spares_row w (tick w).
Proof. by apply spares_row_same. Qed.

Lemma spares_row_asks w w' : asks env bases w w' → spares_row w w'.
Proof. intros [(Hd & Hp & _) Hc]. split; unfold updates; rewrite ?Hd, ?Hp; auto. Qed.

Lemma updates_publish w channel e :
  updates (set_published (w.(published) ++ [(channel, e)]) w)
  = updates w ++ match update_of id (channel, e) with Some u => [u] | None => [] end.
Proof.
  unfold updates. cbn [published set_published]. rewrite omap_app. cbn [omap list_omap].
  by destruct (update_of id (channel, e)).
Qed.

Lemma spares_row_publish channel event :
  update_of id (channel, event) = None → leaves spares_row (redis_publish env channel event).
Proof.
  intros Hu w. unfold redis_publish.
  destruct (fault env _); cbn [snd]; try apply spares_row_tick;
    apply spares_row_same; try done; by rewrite updates_publish, Hu, app_nil_r.
Qed.

Lemma spares_row_sql {X} (q : DateTime → Db → result string (X * Db)) :
  (∀ at_ d x d', q at_ d = Ok (x, d') → d'.(subtasks) !! id = d.(subtasks) !! id ∧
     d'.(subtask_reports) !! id = d.(subtask_reports) !! id) →
  leaves spares_row (sql env q).
Proof.
  intros Hq. apply leaves_sql; [apply spares_row_tick|]. intros w at_ x d Hd.
  apply Hq in Hd as [? ?]. by apply spares_row_same.
Qed.

(** ** Handlers *)

Lemma kem_handle_spares_row job : preserves spares_row (Kem.handle env bases job).
Proof.
  apply kem_handle_leaves; [apply asks_asking, spares_row_asks|]. split; intros.
  - intros w. apply spares_row_tick.
  - apply spares_row_sql. by intros at_ d x d' [= _ <-].
  - apply spares_row_sql. intros at' d x d'. repeat case_match; try done. by intros [= _ <-].
  - apply spares_row_sql. intros at' d x d'. case_match; [|done]. by intros [= _ <-].
  - by apply spares_row_publish.
  - apply spares_row_sql. by intros at_ d x d' [= _ <-].
Qed.

(** The end of a handler says nothing of the subtask any more. *)
Lemma finish_spares_row job : preserves spares_row (Probe.finish env job).
Proof.
  apply preserves_bind.
  - apply preserves_bind; [apply walk_call, spares_row_sql; by intros at_ d x d' [= _ <-]|].
    intros [[[[o p] f] e] t]. destruct (0 <? o)%Z; [done|]. apply preserves_bind; [|done].
    apply walk_call, spares_row_sql. by intros at_ d x d' [= _ <-].
  - intros [p|]; [|done]. by apply walk_call, spares_row_publish.
Qed.

Lemma mark_test_spares_row test_id : preserves spares_row (mark_test_running env test_id).
Proof. apply walk_call, spares_row_sql. by intros at_ d x d' [= _ <-]. Qed.

Lemma probe_handle_spares_row job :
  job.(ProbeJob.subtask_id) ≠ id → preserves spares_row (Probe.handle env bases job).
Proof.
  intros Hne.
  assert (Hp : ∀ exec result, preserves spares_row (publish env job exec result)).
  { intros. apply walk_call, spares_row_publish. cbn. by rewrite decide_False. }
  assert (Hs : ∀ f, preserves spares_row (call (sql env (λ at_ d,
    Ok (tt, with_subtasks (alter (f at_) job.(ProbeJob.subtask_id)) d))))).
  { intros f. apply walk_call, spares_row_sql. intros at_ d x d' [= _ <-]. cbn.
    by rewrite lookup_alter_ne. }
  unfold Probe.handle. apply preserves_bind; [apply mark_test_spares_row|]. intros _.
  apply preserves_bind; [apply (Hs subtask_running)|]. intros _. destruct (negb _).
  - apply preserves_bind; [apply (Hs (subtask_errored _))|]. intros _.
    apply preserves_bind; [apply Hp|]. intros _. apply finish_spares_row.
  - destruct (asks_asking env bases spares_row spares_row_asks) as [Hc Hr].
    apply preserves_bind; [apply Hr|]. intros response.
    apply preserves_bind; [apply preserves_attempt, Hc|]. intros caps. cbv zeta.
    apply preserves_bind.
    { apply walk_call, spares_row_sql. intros at_ d x d'. case_match; [|done]. intros [= _ <-].
      cbn. by rewrite lookup_alter_ne, lookup_insert_ne. }
    intros _. apply preserves_bind; [apply Hp|]. intros _. apply finish_spares_row.
Qed.

Lemma ack_spares_row d : preserves spares_row (ack env d.(Delivery.stream) d.(Delivery.id)).
Proof.
  apply preserves_bind; [|done]. apply walk_call. intros w. unfold xack.
  by destruct (env.(fault) _); apply spares_row_same.
Qed.

(** The delivery is not one of the subtask. *)
Definition not_of_subtask (d : Delivery.t) : Prop :=
  ∀ job, probe_job_of d = Some job → job.(ProbeJob.subtask_id) ≠ id.

Lemma spawned_spares_row d : not_of_subtask d → preserves spares_row (spawned env bases d).
Proof.
  intros Hd. apply preserves_bind.
  - apply preserves_attempt. unfold dispatch, not_of_subtask, probe_job_of in *.
    destruct (String.eqb _ STREAM_PROBE).
    { destruct (probe_job_from_str _); [|done]. by apply probe_handle_spares_row, Hd. }
    destruct (String.eqb (Delivery.stream d) STREAM_KEM); [|done].
    destruct (kem_job_from_str _); [apply kem_handle_spares_row|done].
  - intros _. apply preserves_bind; [|done]. apply preserves_attempt, ack_spares_row.
Qed.

End company.

(** ** The handler of the subtask *)

Section handler.
Context {J : SerdeJson} {RJ : ReportJson} {U : UuidDisplay} {C : Chrono}.
Context {V : RedisValue} {JJ : JobJson}.
Context (env : Env) (bases : gmap string string) (Hr : reliable env) (job : ProbeJob.t).
Notation id := (job.(ProbeJob.subtask_id)).
Notation channel := (test_channel job.(ProbeJob.test_id)).
Notation R := (spares_row env bases id).

(** The response is what the adapter answered to the request of the subtask. *)
Definition answered (response : ProbeResponse.t) : Prop :=
  ∃ n base, bases !! job.(ProbeJob.adapter) = Some base ∧
    response = response_of job.(ProbeJob.adapter)
                 (env.(post_probe) n (base +:+ "/probe") (request_of job)).

(** The result is the verdict on it by the capabilities the adapter gave, now or earlier. *)
Definition judged (cached : gmap string Capabilities.t) (response : ProbeResponse.t)
    (result : ResultStatus.t) : Prop :=
  ∃ caps, result = result_of job response caps ∧
    match caps with
    | Ok c => cached !! job.(ProbeJob.adapter) = Some c ∨ described env bases job.(ProbeJob.adapter) c
    | Err err => ∃ n base, bases !! job.(ProbeJob.adapter) = Some base ∧
                   env.(get_capabilities) n (base +:+ "/capabilities") = Err err
    end.

(** The row [r] as the handler leaves it, its report, and what the browsers were told. *)
Definition subtask_over (r : Subtask.t) (w w' : World) : Prop :=
  ∃ t1 t2,
  if is_configured bases job.(ProbeJob.adapter) then
    ∃ response result, answered response ∧ judged w.(cache) response result ∧
      w'.(db).(subtasks) !! id = Some (finished_row result response t1 t2 r) ∧
      w'.(db).(subtask_reports) !! id = Some (report_row id response) ∧
      updates id w' = updates id w ++ [(channel, (ExecStatus.Finished, result))]
  else
    w'.(db).(subtasks) !! id = Some (errored_row (not_enabled job) t1 t2 r) ∧
    w'.(db).(subtask_reports) !! id = w.(db).(subtask_reports) !! id ∧
    updates id w' = updates id w ++ [(channel, (ExecStatus.Error, ResultStatus.Disabled))].

Lemma subtask_over_stable r w : stable R (subtask_over r w).
Proof.
  intros w1 w2 [H1 H2 H3 _] (t1 & t2 & H). exists t1, t2.
  destruct (is_configured _ _); [|by rewrite H1, H2, H3].
  destruct H as (response & result & H). exists response, result. by rewrite H1, H2, H3.
Qed.

(** Where the handler of the subtask is between its statements. *)
Record on_row (row : Subtask.t) (w0 w : World) : Prop := {
  on_subtask : w.(db).(subtasks) !! id = Some row;
  on_report : w.(db).(subtask_reports) !! id = w0.(db).(subtask_reports) !! id;
  on_updates : updates id w = updates id w0;
  on_cache : ∀ adapter caps, w.(cache) !! adapter = Some caps →
    w0.(cache) !! adapter = Some caps ∨ described env bases adapter caps;
}.

Lemma on_row_spares row w0 w w' : R w w' → on_row row w0 w → on_row row w0 w'.
Proof.
  intros [H1 H2 H3 H4] [K1 K2 K3 K4]. split; [congruence..|].
  intros adapter caps Hc. destruct (H4 _ _ Hc); auto.
Qed.

(** The last two statements: the event, then the bookkeeping of the test. *)
Lemma report_spec exec shown (Q : World → Prop) w :
  (∀ w1 w', R w w1 → w'.(db) = w1.(db) →
     updates id w' = updates id w1 ++ [(channel, (exec, shown))] → Q w') →
  stable R Q →
  wp R (bind (publish env job exec shown) (λ _, Probe.finish env job)) (λ r w', r = Ok tt ∧ Q w') w.
Proof.
  intros HQ HR. apply wp_bind, wp_call. intros w1 Hw1. rewrite redis_publish_works by done.
  cbn [fst snd].
  set (w2 := set_published _ w1).
  assert (HQ2 : Q w2).
  { apply (HQ w1); [done|done|]. unfold w2. rewrite updates_publish. cbn. by rewrite decide_True. }
  clearbody w2. clear HQ Hw1 w w1. unfold Probe.finish, finish_test_if_done.
  apply wp_bind, wp_bind, wp_call. intros w3 Hw3. rewrite sql_works by done. cbn [fst snd].
  assert (Hsame : ∀ d x, d.(subtasks) = x.(db).(subtasks) →
    d.(subtask_reports) = x.(db).(subtask_reports) → Q x → Q (set_db d x)).
  { intros d x H1 H2 Hq. eapply HR; [|exact Hq]. apply spares_row_same; cbn; by rewrite ?H1, ?H2. }
  apply (HR _ _ Hw3) in HQ2. destruct (progress _ _) as [[[[o p] f] e] t]. destruct (0 <? o)%Z.
  { cbn. split; [done|]. by apply Hsame. }
  apply wp_bind, wp_call. intros w4 Hw4. rewrite sql_works by done. cbn [fst snd wp].
  intros w5 Hw5. rewrite redis_publish_works by done. cbn [fst snd]. split; [done|].
  eapply HR; [|apply (HR _ _ Hw5), (Hsame _ w4); [..|apply (HR _ _ Hw4), (Hsame _ w3)]]; try done.
  apply spares_row_same; try done. by rewrite updates_publish, app_nil_r.
Qed.

(** With an adapter: from the request to the end. *)
Lemma probed_settles t1 r w w2' :
  is_configured bases job.(ProbeJob.adapter) = true →
  on_row (subtask_running t1 r) w w2' →
  wp R (let! response := Registry.probe env bases job.(ProbeJob.adapter) (request_of job) in
        let! caps := attempt (capabilities env bases job.(ProbeJob.adapter)) in
        let result := result_of job response caps in
        save_report env id result response;;;
        publish env job ExecStatus.Finished result;;;
        Probe.finish env job)%prog (λ res w', res = Ok tt ∧ subtask_over r w w') w2'.
Proof.
  intros Hc H2'.
  pose proof (proj1 (is_configured_spec _ _) Hc) as [base Hb].
  apply wp_bind. refine (wp_probe env bases R _ base _ _ _ Hb _). intros w3 Hw3. cbn [fst snd].
  set (response := response_of _ _).
  assert (Ha : answered response) by by eexists _, base. clearbody response.
  assert (H3 : on_row (subtask_running t1 r) w (tick w3)).
  { eapply on_row_spares; [|exact H2']. etrans; [exact Hw3|]. apply spares_row_tick. }
  apply wp_bind, wp_attempt. eapply wp_mono;
    [|refine (wp_capabilities env bases R _ base (on_row (subtask_running t1 r) w) _ Hb _ _ H3)].
  2: { intros x y. apply on_row_spares. }
  2: { intros x y Hxy. by apply on_row_spares, spares_row_asks. }
  intros caps w4 [H4 Hcaps]. cbv zeta. set (result := result_of job response caps).
  assert (Hj : judged w.(cache) response result).
  { exists caps. split; [done|]. destruct caps as [c|err].
    - destruct Hcaps as [(w0 & H0 & Hc0)|Hd]; [|by right]. by apply (on_cache _ _ _ H0).
    - destruct Hcaps as [n Hn]. by exists n, base. }
  clearbody result. apply wp_bind, wp_call. intros w5 Hw5. rewrite sql_works by done.
  pose proof (on_row_spares _ _ _ _ Hw5 H4) as [K1 K2 K3 K4]. rewrite K1. cbn [fst snd].
  apply report_spec; [|apply subtask_over_stable]. intros w6 w7 [L1 L2 L3 _] Hd Hu.
  exists t1, (clock env (steps w5)). rewrite Hc. exists response, result.
  rewrite Hd, L1, L2, Hu, L3. split_and!; [done|done| | |].
  - cbn. rewrite lookup_alter_eq, K1. cbn. f_equal. apply finished_row_eq.
  - cbn. by rewrite lookup_insert_eq.
  - by rewrite <-K3.
Qed.

Lemma handle_settles w r :
  w.(db).(subtasks) !! id = Some r →
  wp R (Probe.handle env bases job) (λ res w', res = Ok tt ∧ subtask_over r w w') w.
Proof.
  intros Hrow. unfold Probe.handle. apply wp_bind, wp_call. intros w1 Hw1.
  rewrite sql_works by done. cbn [fst snd].
  assert (H1 : on_row r w w1) by (eapply on_row_spares; [exact Hw1|]; split; auto).
  apply wp_bind, wp_call. intros w2 Hw2. rewrite sql_works by done. cbn [fst snd].
  assert (H2 : on_row r w w2).
  { eapply on_row_spares; [exact Hw2|]. by destruct H1; split. }
  set (t1 := clock env (steps w2)). set (w2' := set_db _ w2).
  assert (H2' : on_row (subtask_running t1 r) w w2').
  { destruct H2 as [K1 K2 K3 K4]. split; try done. cbn. by rewrite lookup_alter_eq, K1. }
  clearbody w2'. clear H1 Hw1 Hw2 w1. destruct (is_configured bases (ProbeJob.adapter job)) eqn:Hc; cbn [negb].
  - by apply (probed_settles t1).
  - apply wp_bind, wp_call. intros w3 Hw3. rewrite sql_works by done. cbn [fst snd].
    pose proof (on_row_spares _ _ _ _ Hw3 H2') as [K1 K2 K3 K4].
    apply report_spec; [|apply subtask_over_stable]. intros w6 w7 [L1 L2 L3 _] Hd Hu.
    exists t1, (clock env (steps w3)). rewrite Hc, Hd, L1, L2, Hu, L3. split_and!.
    + cbn. by rewrite lookup_alter_eq, K1.
    + done.
    + by rewrite <-K3.
Qed.

(** The handler of the subtask, in the process. *)
Lemma handled_in_process concurrency w s l1 d l2 r :
  rtc (worker_step env bases concurrency) (starts w) s → Forall halted s.(tasks) →
  s.(started) = l1 ++ d :: l2 → Forall (not_of_subtask id) (l1 ++ l2) →
  probe_job_of d = Some job → w.(db).(subtasks) !! id = Some r →
  subtask_over r w s.(world).
Proof.
  intros Hs Hh Hst Hl Hd Hrow.
  eapply (process_in_company env bases concurrency R); [exact Hs|exact Hh|exact Hst|..].
  - eapply Forall_impl; [exact Hl|]. apply spawned_spares_row.
  - apply ack_spares_row.
  - apply subtask_over_stable.
  - assert (dispatch env bases d = Probe.handle env bases job) as ->.
    { unfold probe_job_of in Hd. unfold dispatch. destruct (String.eqb _ STREAM_PROBE); [|done].
      destruct (probe_job_from_str _); [|done]. by injection Hd as ->. }
    eapply wp_mono; [|by apply handle_settles]. by intros res w' [_ H].
Qed.

End handler.
