(* ===== verification/Recovery.v ===== *)
(** * Workers that die ([services/worker/src/stream.rs], [main.rs])

    The consumer group keeps an entry until it is acknowledged, and a worker acknowledges an
    entry when its handler has ended. So a worker may stop at any point, in the middle of
    any handler: whoever gets the entries that are left finishes the tests. What a worker
    holds in memory, the capability cache and the deliveries it had not begun, is lost with
    it. *)

From S2P Require Import Prelude RustStr Json Proto Status Domain KemOrder Effects World Stream.
From S2P Require Import Store Registry Probe Kem Protocol Concurrency Api Walk Worker.
From S2P Require Import WorkerFacts.

(** ** Lists of threads *)

Lemma threads_of_lookup (ots : list (option (ProbeJob.t * Protocol.phase))) t :
  t ∈ threads_of ots ↔ ∃ i, ots !! i = Some (Some t).
Proof.
  unfold threads_of. rewrite list_elem_of_omap. split.
  - intros (ot & [i Hi]%list_elem_of_lookup & Ht). exists i. by destruct ot; simplify_eq/=.
  - intros [i Hi%list_elem_of_lookup_2]. by exists (Some t).
Qed.

Section recovery.
Context {J : SerdeJson} {RJ : ReportJson} {U : UuidDisplay} {C : Chrono}.
Context {V : RedisValue} {JJ : JobJson}.
Context (bases : gmap string string).

(** The entries of the streams that no worker has acknowledged. *)
Definition unacked (queue : list Delivery.t) (w : World) : list Delivery.t :=
  filter (λ d, ack_key d ∉ w.(acked)) queue.

Notation jobs_of := (omap probe_job_of).

(** The life of one worker: it starts on what is in the stores, is given entries that
    nobody has acknowledged, each once, and stops at any point of its run. *)
Inductive life (queue : list Delivery.t) (w : World) : World → Prop :=
| life_until env concurrency w0 s :
    reliable env → same_tables w w0 → rtc (worker_step env bases concurrency) (starts w0) s →
    NoDup (map ack_key s.(started)) → (∀ d, d ∈ s.(started) → d ∈ unacked queue w) →
    life queue w s.(world).

(** What one life leaves to the next: the invariant of the protocol, with a handler still
    to begin for every entry that is left. *)
Definition left_over test_id kind ids (queue : list Delivery.t) (w : World) : Prop :=
  proto_inv (unconfigured bases) test_id kind ids
    (w, map (λ job, (job, Working)) (jobs_of (unacked queue w))).

(** ** A run of the process as a run of the protocol *)

Section run.
Context (env : Env) (concurrency : nat) (Hr : reliable env).
Context (test_id : Uuid) (kind : Uuid → bool) (ids : gset Uuid).

(** The deliveries still to come take part as handlers that have not begun. *)
Lemma process_inv_of w0 s more :
  rtc (worker_step env bases concurrency) (starts w0) s →
  proto_inv (unconfigured bases) test_id kind ids
    (w0, map (λ job, (job, Working)) (jobs_of (s.(started) ++ more))) →
  ∃ ots, map (fmap fst) ots = map probe_job_of (s.(started) ++ more) ∧
    simulates bases ots (s.(tasks) ++ map (spawned env bases) more) ∧
    proto_inv (unconfigured bases) test_id kind ids (s.(world), threads_of ots) ∧
    ∀ job, placed w0.(db) job → placed s.(world).(db) job.
Proof.
  intros Hs Hinv. destruct (worker_steps_pool env bases concurrency _ _ Hs more) as (ds & Hd & Hp).
  cbn in Hd. rewrite <-Hd in Hp. rewrite <-threads_spawned in Hinv.
  destruct (simulates_steps env bases Hr test_id kind ids _ _ _ Hp
              (spawned_simulates env bases (s.(started) ++ more) Hr) Hinv)
    as (ots & _ & Hj & Hsim & Hinv' & Hpl).
  exists ots. split_and!; [|done|done|done]. rewrite Hj, map_map. apply map_ext. intros d.
  unfold thread_of. by destruct (probe_job_of d).
Qed.

End run.

(** ** One life *)

(** Handlers that have not begun count for their jobs only. *)
Lemma fresh_inv_incl test_id kind ids w jobs jobs' :
  (∀ job, job ∈ jobs' ↔ job ∈ jobs) →
  proto_inv (unconfigured bases) test_id kind ids (w, map (λ job, (job, Working)) jobs) →
  proto_inv (unconfigured bases) test_id kind ids (w, map (λ job, (job, Working)) jobs').
Proof.
  intros Hin Hinv. pose proof (inv_threads _ _ _ _ _ Hinv) as Hth. cbn [fst snd] in Hth.
  rewrite Forall_map, Forall_forall in Hth.
  eapply proto_inv_restart; [| |exact Hinv].
  - intros job ph (j & [= -> ->] & Hj)%list_elem_of_fmap _. by apply Hin.
  - apply Forall_forall. intros job Hj. by apply Hth, Hin.
Qed.

Lemma elem_of_ended key ds ts :
  key ∈ ended ds ts →
  ∃ i d p, ds !! i = Some d ∧ ts !! i = Some p ∧ is_halted p = true ∧ key = ack_key d.
Proof.
  revert ts. induction ds as [|d ds IH]; intros [|p ts]; cbn; try by rewrite elem_of_nil.
  assert (Hlater : key ∈ ended ds ts → ∃ i d0 p0, (d :: ds) !! i = Some d0 ∧
            (p :: ts) !! i = Some p0 ∧ is_halted p0 = true ∧ key = ack_key d0).
  { intros (i & d0 & p0 & ?)%IH. by exists (S i), d0, p0. }
  destruct (is_halted p) eqn:Hp; [|done]. rewrite elem_of_cons. intros [->|Hin]; [|auto].
  by exists 0%nat, d, p.
Qed.

(** The key of a delivery whose task is not over was not acknowledged in this life. *)
Lemma unfinished_unacked env concurrency w0 s i d p more :
  rtc (worker_step env bases concurrency) (starts w0) s →
  NoDup (map ack_key (s.(started) ++ more)) →
  (s.(started) ++ more) !! i = Some d →
  (s.(tasks) ++ map (spawned env bases) more) !! i = Some p → is_halted p = false →
  ack_key d ∉ w0.(acked) → ack_key d ∉ s.(world).(acked).
Proof.
  intros Hs Hnd Hd Hp Hh Hn. apply worker_steps_inv in Hs as [Ht _ (l & -> & Hl & _) _ _].
  rewrite elem_of_app. intros [Ha|Ha]; [done|].
  eapply elem_of_submseteq in Ha; [|exact Hl].
  apply elem_of_ended in Ha as (j & d' & p' & Hd' & Hp' & Hh' & Hk).
  assert (Hij : i = j).
  { eapply NoDup_lookup; [exact Hnd|..]; rewrite list_lookup_fmap.
    - rewrite Hd. cbn. reflexivity.
    - rewrite (lookup_app_l_Some _ _ _ _ Hd'). cbn. by rewrite Hk. }
  subst j. rewrite (lookup_app_l_Some _ _ _ _ Hp') in Hp. congruence.
Qed.

(** The rest of the queue, in the eyes of one life. *)
Definition not_begun (queue : list Delivery.t) (w : World) (s : Process) : list Delivery.t :=
  filter (λ d, d ∉ s.(started)) (unacked queue w).

Lemma begun_or_not queue w s :
  NoDup (map ack_key queue) → NoDup (map ack_key s.(started)) →
  (∀ d, d ∈ s.(started) → d ∈ unacked queue w) →
  s.(started) ++ not_begun queue w s ≡ₚ unacked queue w.
Proof.
  intros Hq Hs Hin. apply NoDup_fmap_1 in Hq, Hs. unfold not_begun, unacked in *.
  apply NoDup_Permutation; [|by apply NoDup_filter|].
  - apply NoDup_app. split_and!; [done| |by apply NoDup_filter, NoDup_filter].
    intros d Hd [Hn _]%list_elem_of_filter. done.
  - intros d. rewrite elem_of_app, (list_elem_of_filter (λ d, d ∉ s.(started))). split.
    + intros [Hd|[_ Hd]]; auto.
    + intros Hd. destruct (decide (d ∈ s.(started))); auto.
Qed.

Section life.
Context (env : Env) (concurrency : nat) (queue : list Delivery.t) (w w0 : World) (s : Process).
Context (Hq : NoDup (map ack_key queue)) (Hr : reliable env) (Hsame : same_tables w w0).
Context (Hs : rtc (worker_step env bases concurrency) (starts w0) s).
Context (Hnd : NoDup (map ack_key s.(started))).
Context (Hin : ∀ d, d ∈ s.(started) → d ∈ unacked queue w).

Notation more := (not_begun queue w s).

Lemma run_deliveries d : d ∈ s.(started) ++ more ↔ d ∈ unacked queue w.
Proof. by rewrite (begun_or_not queue w s). Qed.

Lemma life_acked : w.(acked) ⊆ s.(world).(acked).
Proof.
  destruct Hsame as (_ & _ & Ha). apply worker_steps_inv in Hs as [_ _ (l & -> & _) _ _].
  rewrite Ha. set_solver.
Qed.

(** An entry is acknowledged when its handler is over, not before. *)
Lemma unfinished_job_left ots job ph :
  map (fmap fst) ots = map probe_job_of (s.(started) ++ more) →
  simulates bases ots (s.(tasks) ++ map (spawned env bases) more) →
  (job, ph) ∈ threads_of ots → ph ≠ Over → job ∈ jobs_of (unacked queue s.(world)).
Proof.
  intros Hj Hsim [i Hi]%threads_of_lookup Hph. pose proof Hsame as (_ & _ & Hack).
  destruct (Forall2_lookup_l _ _ _ _ _ Hsim Hi) as (p & Hp & Hf). cbn [fst snd] in Hf.
  assert (Hd : (map probe_job_of (s.(started) ++ more)) !! i = Some (Some job)).
  { by rewrite <-Hj, list_lookup_fmap, Hi. }
  rewrite list_lookup_fmap in Hd. destruct ((s.(started) ++ more) !! i) as [d|] eqn:Hi'; [|done].
  injection Hd as Hd. apply list_elem_of_omap. exists d. split; [|done].
  assert (Hu : d ∈ unacked queue w) by (apply run_deliveries; by eapply list_elem_of_lookup_2).
  unfold unacked in *. apply list_elem_of_filter in Hu as [Hn Hdq].
  apply list_elem_of_filter. split; [|done].
  eapply (unfinished_unacked env concurrency w0 s i d p more); [done| |done|done| |by rewrite Hack].
  - rewrite begun_or_not by done. unfold unacked.
    eapply sublist_NoDup; [exact Hq|]. by apply fmap_sublist, sublist_filter.
  - destruct (is_halted p) eqn:Hh; [|done]. destruct Hph. by destruct p.
Qed.

Lemma life_left_over test_id kind ids :
  left_over test_id kind ids queue w →
  left_over test_id kind ids queue s.(world) ∧
  ∀ job, placed w.(db) job → placed s.(world).(db) job.
Proof.
  intros Hinv. pose proof Hsame as (Hdb & Hpub & Hack).
  assert (Hinv0 : proto_inv (unconfigured bases) test_id kind ids
                    (w0, map (λ job, (job, Working)) (jobs_of (s.(started) ++ more)))).
  { apply (proto_inv_apart bases test_id kind ids w); [by apply apart_same; rewrite ?Hdb, ?Hpub|].
    eapply fresh_inv_incl; [|exact Hinv]. intros job. by rewrite (begun_or_not queue w s). }
  destruct (process_inv_of env concurrency Hr test_id kind ids w0 s more Hs Hinv0)
    as (ots & Hj & Hsim & Hinv1 & Hpl).
  split; [|by rewrite <-Hdb]. unfold left_over. eapply proto_inv_restart; [| |exact Hinv1].
  { intros job ph. by eapply unfinished_job_left. }
  apply Forall_forall. intros job (d & Hd & Hjob)%list_elem_of_omap.
  unfold unacked in Hd. apply list_elem_of_filter in Hd as [Hn Hd].
  assert (Hu : d ∈ s.(started) ++ more).
  { apply run_deliveries, list_elem_of_filter. split; [|done]. intros Ha. by apply Hn, life_acked. }
  apply list_elem_of_lookup in Hu as [i Hi].
  assert (Ho : map (fmap fst) ots !! i = Some (Some job)) by by rewrite Hj, list_lookup_fmap, Hi, <-Hjob.
  rewrite list_lookup_fmap in Ho. destruct (ots !! i) as [[[j ph]|]|] eqn:Hoi; try done.
  injection Ho as ->.
  pose proof (inv_threads _ _ _ _ _ Hinv1) as Hth. cbn [fst snd] in Hth. rewrite Forall_forall in Hth.
  destruct (Hth (job, ph)) as [Hpl' Hk]; [by apply threads_of_lookup; exists i|].
  split; [done|]. cbn [fst snd] in *. intros Ht. by destruct (Hk Ht).
Qed.

End life.

(** ** Any number of them *)

Lemma lives_left_over test_id kind ids queue w w' :
  NoDup (map ack_key queue) → rtc (life queue) w w' →
  left_over test_id kind ids queue w →
  left_over test_id kind ids queue w' ∧ (∀ job, placed w.(db) job → placed w'.(db) job).
Proof.
  intros Hq Hl. induction Hl as [w|w w1 w2 [env concurrency w0 s Hr Hsame Hs Hnd Hin] _ IH];
    intros Hinv; [done|].
  destruct (life_left_over env concurrency queue w w0 s Hq Hr Hsame Hs Hnd Hin _ _ _ Hinv)
    as [Hinv1 Hpl1]. destruct (IH Hinv1) as [Hinv2 Hpl2]. auto.
Qed.

Lemma queue_left_over test_id queue w :
  (∀ d, d ∈ queue → ack_key d ∉ w.(acked)) →
  enqueued bases (jobs_of queue) w.(db) → covered test_id (jobs_of queue) w.(db) →
  left_over test_id (kind_of bases (jobs_of queue) w.(db)) (dom (subtasks_of test_id w.(db)))
    queue w.
Proof.
  intros Hn Henq Hcov. unfold left_over, unacked. rewrite filter_all by done.
  by apply enqueued_inv.
Qed.

Lemma deaths_close env concurrency test_id queue w w1 w2 s :
  NoDup (map ack_key queue) → (∀ d, d ∈ queue → ack_key d ∉ w.(acked)) →
  enqueued bases (jobs_of queue) w.(db) → covered test_id (jobs_of queue) w.(db) →
  rtc (life queue) w w1 →
  reliable env → same_tables w1 w2 → rtc (worker_step env bases concurrency) (starts w2) s →
  (∀ d, d ∈ s.(started) ↔ d ∈ unacked queue w1) → Forall halted s.(tasks) →
  test_over bases test_id (jobs_of queue) s.(world) ∧
  (∀ d, d ∈ queue → ack_key d ∈ s.(world).(acked)) ∧
  dom (subtasks_of test_id s.(world).(db)) = dom (subtasks_of test_id w.(db)).
Proof.
  intros Hq Hn Henq Hcov Hlives Hr (Hdb & Hpub & Hack) Hs Hall Hh.
  destruct (lives_left_over _ _ _ _ _ _ Hq Hlives (queue_left_over _ _ _ Hn Henq Hcov))
    as [Hinv1 Hpl1].
  assert (Hinv2 : proto_inv (unconfigured bases) test_id (kind_of bases (jobs_of queue) w.(db))
    (dom (subtasks_of test_id w.(db)))
    (w2, map (λ job, (job, Working)) (jobs_of (s.(started) ++ [])))).
  { apply (proto_inv_apart bases test_id _ _ w1); [by apply apart_same; rewrite ?Hdb, ?Hpub|].
    eapply fresh_inv_incl; [|exact Hinv1]. intros job. rewrite app_nil_r, !list_elem_of_omap.
    by setoid_rewrite Hall. }
  destruct (process_inv_of env concurrency Hr test_id _ _ w2 s [] Hs Hinv2)
    as (ots & Hj & Hsim & Hinv3 & Hpl3). cbn [map] in Hsim. rewrite app_nil_r in Hsim.
  split_and!; [| |exact (inv_ids _ _ _ _ _ Hinv3)].
  - eapply threads_over; [exact Henq| |exact Hinv3|by eapply halted_over].
    eapply Forall_impl; [by eapply enqueued_placed|]. cbn. intros job Hp.
    apply Hpl3. rewrite Hdb. by apply Hpl1.
  - intros d Hd. apply worker_steps_inv in Hs as [Ht _ (l & -> & _ & Hl) _ _].
    rewrite (Hl Hr), ended_all by (done || by eapply Forall2_length).
    apply elem_of_app. rewrite Hack.
    destruct (decide (ack_key d ∈ w1.(acked))) as [Ha|Ha]; [by left|right].
    apply list_elem_of_fmap. exists d. split; [done|]. by apply Hall, list_elem_of_filter.
Qed.

(** C2. A dead worker strands nothing. The entries of a test (among any others) are on the
    streams; any number of workers, one after the other, take entries nobody has
    acknowledged and die at any point of their run, in the middle of handlers or with
    deliveries not begun. When one more worker is given what is left, some of it perhaps
    twice, and its tasks end, the test is over exactly as if nobody had died, and every
    entry is acknowledged. *)
Theorem deaths_recovered env concurrency test_id queue w w1 w2 s :
  NoDup (map ack_key queue) → (∀ d, d ∈ queue → ack_key d ∉ w.(acked)) →
  enqueued bases (jobs_of queue) w.(db) → covered test_id (jobs_of queue) w.(db) →
  rtc (life queue) w w1 →
  reliable env → same_tables w1 w2 → rtc (worker_step env bases concurrency) (starts w2) s →
  (∀ d, d ∈ s.(started) ↔ d ∈ unacked queue w1) → Forall halted s.(tasks) →
  test_over bases test_id (jobs_of queue) s.(world) ∧
  ∀ d, d ∈ queue → ack_key d ∈ s.(world).(acked).
Proof. intros. edestruct deaths_close as (? & ? & _); eauto. Qed.

End recovery.
