(* ===== verification/ApiFacts.v ===== *)
(** * What creating a test promises

    The selection is cleaned, checked and expanded; the rows, the jobs and the matrix agree
    with each other; a refused request changes nothing. *)

From S2P Require Import Prelude RustStr Json Proto Status Domain Effects World Store Registry.
From S2P Require Import Probe Protocol Concurrency Api Fixtures.

(** ** [dedupe] *)

Lemma dedupe_from_elem seen values x :
  x ∈ dedupe_from seen values ↔ x ≠ "" ∧ x ∉ seen ∧ x ∈ map trim values.
Proof.
  revert seen. induction values as [|v values IH]; intros seen; cbn [dedupe_from map].
  { split; [by intros ?%elem_of_nil|]. intros (_ & _ & []%elem_of_nil). }
  rewrite (elem_of_cons (map trim values)). specialize (IH seen) as IH1.
  specialize (IH ({[ trim v ]} ∪ seen)) as IH2.
  rewrite not_elem_of_union, not_elem_of_singleton in IH2. clear IH.
  revert IH1 IH2. generalize (trim v) as t. generalize (x ∈ map trim values) as P. intros P t IH1 IH2.
  destruct (String.eqb_spec t "") as [->|He]; cbn [negb andb].
  { rewrite IH1. intuition congruence. }
  destruct (bool_decide_reflect (t ∈ seen)) as [Hs|Hs]; cbn [negb].
  - rewrite IH1. intuition congruence.
  - rewrite elem_of_cons, IH2. destruct (decide (x = t)) as [->|]; intuition congruence.
Qed.

Lemma dedupe_from_NoDup seen values : NoDup (dedupe_from seen values).
Proof.
  revert seen. induction values as [|v values IH]; intros seen; cbn [dedupe_from]; [constructor|].
  destruct (_ && _); [|done]. constructor; [|done]. rewrite dedupe_from_elem. set_solver.
Qed.

Lemma dedupe_from_app seen l1 l2 :
  dedupe_from seen (l1 ++ l2)
  = dedupe_from seen l1 ++ dedupe_from (list_to_set (dedupe_from seen l1) ∪ seen) l2.
Proof.
  revert seen. induction l1 as [|v l1 IH]; intros seen; cbn [app dedupe_from].
  { f_equal. set_solver. }
  destruct (_ && _); [|done]. rewrite IH. cbn [app list_to_set]. do 3 f_equal. set_solver.
Qed.

Lemma dedupe_from_seen seen values :
  dedupe_from seen values = filter (λ x, x ∉ seen) (dedupe values).
Proof.
  unfold dedupe.
  assert (Hgen : ∀ seen0, dedupe_from (seen ∪ seen0) values
                          = filter (λ x, x ∉ seen) (dedupe_from seen0 values)).
  { induction values as [|v values IH]; intros seen0; [done|]. cbn [dedupe_from].
    destruct (String.eqb_spec (trim v) "") as [He|He]; cbn [negb andb]; [apply IH|].
    destruct (bool_decide_reflect (trim v ∈ seen0)) as [Hs0|Hs0]; cbn [negb].
    - rewrite bool_decide_true by set_solver. apply IH.
    - rewrite filter_cons. case_decide as Hs.
      + rewrite bool_decide_false by set_solver. cbn [negb]. f_equal. rewrite <-IH.
        f_equal. set_solver.
      + rewrite bool_decide_true by set_solver. cbn [negb]. rewrite <-IH.
        assert (seen ∪ seen0 = seen ∪ ({[ trim v ]} ∪ seen0)) as -> by
          (apply set_eq; intros x; destruct (decide (x = trim v)); set_solver).
        done. }
  rewrite <-Hgen. f_equal. set_solver.
Qed.

(** ** The expansion *)

Lemma imap_imap {A B D} (f : nat → A → B) (g : nat → B → D) l :
  imap g (imap f l) = imap (λ i x, g i (f i x)) l.
Proof.
  apply list_eq. intros i. rewrite !list_lookup_imap. by destruct (l !! i).
Qed.

(** The pairs, row by row. *)
Definition pairs_of (groups sig_algs : list string) : list (string * string) :=
  flat_map (λ g, map (pair g) sig_algs) groups.

Lemma imap_pair_row (group : string) (sig_algs : list string) (f : nat → Z) m :
  imap (λ s alg, (f (m + s), group, alg)) sig_algs
  = imap (λ i p, (f (m + i), p.1, p.2)) (map (pair group) sig_algs).
Proof.
  revert m. induction sig_algs as [|a l IH]; intros m; [done|]. cbn [map]. rewrite !imap_cons.
  f_equal. etrans; [|etrans; [exact (IH (S m))|]]; apply imap_ext; intros i x _; cbn [compose];
    by rewrite Nat.add_succ_r.
Qed.

Lemma expand_pairs_from groups sig_algs m (f : nat → Z) :
  concat (imap (λ g group,
    imap (λ s alg, (f (m + (g * length sig_algs + s)), group, alg)) sig_algs) groups)
  = imap (λ i p, (f (m + i), p.1, p.2)) (pairs_of groups sig_algs).
Proof.
  revert m. induction groups as [|group groups IH]; intros m; [done|].
  rewrite imap_cons. cbn [concat pairs_of flat_map]. fold (pairs_of groups sig_algs).
  rewrite imap_app, length_map. f_equal; [apply imap_pair_row|].
  etrans; [|etrans; [exact (IH (m + length sig_algs))|]].
  - f_equal. apply imap_ext. intros g x _. cbn [compose]. apply imap_ext. intros s y _.
    replace (m + (S g * length sig_algs + s)) with (m + length sig_algs + (g * length sig_algs + s))
      by lia. done.
  - apply imap_ext. intros i x _. cbn [compose]. by rewrite Nat.add_assoc.
Qed.

Lemma expand_pairs groups sig_algs :
  expand groups sig_algs
  = imap (λ i p, (as_i32 (Z.of_nat i), p.1, p.2)) (pairs_of groups sig_algs).
Proof. exact (expand_pairs_from groups sig_algs 0 (λ n, as_i32 (Z.of_nat n))). Qed.

Lemma length_pairs groups sig_algs :
  length (pairs_of groups sig_algs) = length groups * length sig_algs.
Proof.
  unfold pairs_of. induction groups as [|g groups IH]; [done|]. cbn [flat_map].
  rewrite length_app, length_map, IH. simpl. lia.
Qed.

Lemma elem_of_pairs groups sig_algs g a :
  (g, a) ∈ pairs_of groups sig_algs ↔ g ∈ groups ∧ a ∈ sig_algs.
Proof.
  unfold pairs_of. rewrite list_elem_of_In, in_flat_map. setoid_rewrite <-list_elem_of_In.
  setoid_rewrite list_elem_of_fmap. naive_solver.
Qed.

Lemma NoDup_pairs groups sig_algs :
  NoDup groups → NoDup sig_algs → NoDup (pairs_of groups sig_algs).
Proof.
  intros Hg Hs. induction Hg as [|g groups Hn Hg IH]; [constructor|].
  unfold pairs_of. cbn [flat_map]. apply NoDup_app. split_and!; [| |done].
  - apply NoDup_fmap_2; [|done]. by intros ? ? [= ->].
  - intros [g' a] (a' & [= -> ->] & _)%list_elem_of_fmap Hin.
    apply elem_of_pairs in Hin as [Hin _]. done.
Qed.

(** Collecting an axis keeps the first occurrence of each name. *)
Lemma push_new_fold acc l :
  (∀ x, x ∈ l → x ∈ acc) → foldl push_new acc l = acc.
Proof.
  induction l as [|x l IH]; intros Hl; [done|]. cbn [foldl]. unfold push_new at 2.
  rewrite bool_decide_true by (apply Hl; by left). apply IH. intros y Hy. apply Hl. by right.
Qed.

Lemma axis_groups groups sig_algs :
  NoDup groups → sig_algs ≠ [] →
  foldl push_new [] (map fst (pairs_of groups sig_algs)) = groups.
Proof.
  intros Hg Hs.
  assert (Hgen : ∀ acc, NoDup (acc ++ groups) →
    foldl push_new acc (map fst (pairs_of groups sig_algs)) = acc ++ groups).
  { clear Hg. induction groups as [|g groups IH]; intros acc Hnd; [by rewrite app_nil_r|].
    unfold pairs_of. cbn [flat_map]. fold (pairs_of groups sig_algs).
    rewrite map_app, foldl_app. destruct sig_algs as [|a sigs]; [done|]. cbn [map foldl fst].
    unfold push_new at 3. rewrite bool_decide_false.
    2:{ intros Hin. apply NoDup_app in Hnd as (_ & Hdis & _). apply (Hdis g Hin). by left. }
    rewrite (push_new_fold (acc ++ [g])).
    - rewrite IH by by rewrite <-app_assoc. by rewrite <-app_assoc.
    - intros x. rewrite map_map. intros (y & -> & _)%list_elem_of_fmap. cbn. set_solver. }
  apply Hgen, Hg.
Qed.

Lemma axis_sig_algs groups sig_algs :
  NoDup sig_algs → groups ≠ [] →
  foldl push_new [] (map snd (pairs_of groups sig_algs)) = sig_algs.
Proof.
  intros Hs Hg. destruct groups as [|g groups]; [done|]. unfold pairs_of. cbn [flat_map].
  fold (pairs_of groups sig_algs). rewrite map_app, foldl_app, map_map. cbn [snd].
  assert (Hfirst : foldl push_new [] (map (λ x, x) sig_algs) = sig_algs).
  { rewrite map_id. assert (Hgen : ∀ acc, NoDup (acc ++ sig_algs) →
      foldl push_new acc sig_algs = acc ++ sig_algs).
    { clear Hs. induction sig_algs as [|a l IH]; intros acc Hnd; [by rewrite app_nil_r|].
      cbn [foldl]. unfold push_new at 2. rewrite bool_decide_false.
      - rewrite IH by by rewrite <-app_assoc. by rewrite <-app_assoc.
      - intros Hin. apply NoDup_app in Hnd as (_ & Hdis & _). apply (Hdis a Hin). by left. }
    apply Hgen, Hs. }
  rewrite Hfirst. apply push_new_fold. intros x (p & -> & Hin)%list_elem_of_fmap.
  destruct p as [g' a]. by apply elem_of_pairs in Hin as [_ Hin].
Qed.

(** ** Running the handler *)

Section create.
Context {J : SerdeJson} (env : Env) (config : ApiConfig).

Context (Hr : reliable env).

Definition unknown_names (kind : string) (names : list string) (d : Db) : list string :=
  filter (λ n, n ∉ known_names kind names d) names.

Lemma run_reject_unknown kind names w :
  run (reject_unknown env kind names) w
  = (Ok (match unknown_names kind names w.(db) with
         | [] => Ok tt
         | unknown => Err (BadRequest ("unknown " +:+ kind +:+ ": " +:+ join ", " unknown))
         end), tick w).
Proof.
  unfold reject_unknown. rewrite run_api_bind, run_api_op, sql_works by done. cbn [fst snd map_err].
  change (set_db w.(db) w) with (tick w).
  change (filter (λ n, n ∉ known_names kind names w.(db)) names)
    with (unknown_names kind names w.(db)).
  by destruct (unknown_names kind names (db w)).
Qed.

Lemma unknown_names_nil kind names d :
  unknown_names kind names d = [] ↔
  ∀ n, n ∈ names → in_catalog kind n d.
Proof.
  unfold unknown_names.
  assert (Hk : ∀ n, n ∈ names → (n ∈ known_names kind names d ↔ in_catalog kind n d)).
  { intros n Hn. unfold known_names. rewrite list_elem_of_fmap.
    setoid_rewrite list_elem_of_filter. setoid_rewrite elem_of_rows. split.
    - intros (a & -> & [Hkind _] & id & Ha). by exists id, a.
    - intros (id & a & Ha & Hkind & <-). exists a. eauto. }
  split.
  - intros Hnil n Hn. apply Hk; [done|]. destruct (decide (n ∈ known_names kind names d)); [done|].
    assert (Hin : n ∈ filter (λ n, n ∉ known_names kind names d) names)
      by by apply list_elem_of_filter.
    rewrite Hnil in Hin. by apply elem_of_nil in Hin.
  - intros Hall. destruct (filter _ names) as [|n l] eqn:Hf; [done|].
    assert (Hin : n ∈ filter (λ n, n ∉ known_names kind names d) names)
      by (rewrite Hf; by left).
    apply list_elem_of_filter in Hin as [Hn Hin]. destruct Hn. apply Hk; auto.
Qed.

(** ** The rows *)

Section rows.
Context (fresh : nat → Uuid) (Hinj : ∀ i j, fresh i = fresh j → i = j).
Context (test_id : Uuid) (groups sig_algs : list string).
Context (Hg : NoDup groups) (Hs : NoDup sig_algs).
Context (Hsmall : (Z.of_nat (length groups * length sig_algs) < 2 ^ 31)%Z).

Let rows := new_subtasks fresh test_id (expand groups sig_algs).

Definition row_at (i : nat) (p : string * string) : Uuid * Subtask.t :=
  (fresh (S i), new_subtask_row test_id (fresh (S i)) (Z.of_nat i, p.1, p.2)).

Lemma rows_imap : rows = imap row_at (pairs_of groups sig_algs).
Proof.
  unfold rows, new_subtasks. rewrite expand_pairs, imap_imap. apply imap_ext.
  intros i p Hi. unfold row_at. cbn [compose]. rewrite as_i32_small; [done|].
  apply lookup_lt_Some in Hi. rewrite length_pairs in Hi. lia.
Qed.

Lemma rows_lookup i r :
  rows !! i = Some r ↔ ∃ p, pairs_of groups sig_algs !! i = Some p ∧ r = row_at i p.
Proof.
  rewrite rows_imap, list_lookup_imap. destruct (pairs_of groups sig_algs !! i) as [p|]; simpl;
    naive_solver.
Qed.

Lemma elem_of_new_rows r :
  r ∈ rows ↔ ∃ i p, pairs_of groups sig_algs !! i = Some p ∧ r = row_at i p.
Proof.
  rewrite list_elem_of_lookup. setoid_rewrite rows_lookup. naive_solver.
Qed.

Lemma rows_ids_NoDup : NoDup (map fst rows).
Proof.
  apply NoDup_alt. intros i j u. rewrite !list_lookup_fmap.
  destruct (rows !! i) as [r|] eqn:Hi; [|done]. destruct (rows !! j) as [r'|] eqn:Hj; [|done].
  apply rows_lookup in Hi as (p & _ & ->). apply rows_lookup in Hj as (p' & _ & ->).
  cbn. intros [= <-] [= He]. apply Hinj in He. lia.
Qed.

Lemma expand_pairs_NoDup : NoDup (map (λ p, (p.1.2, p.2)) (expand groups sig_algs)).
Proof.
  rewrite expand_pairs. rewrite (fmap_imap _ _ (pairs_of groups sig_algs)).
  rewrite (imap_ext _ (λ _ p, p)) by (intros ? [] _; done).
  assert (Hid : ∀ l : list (string * string), imap (λ _ p, p) l = l).
  { intros l. apply list_eq. intros i. rewrite list_lookup_imap. by destruct (l !! i). }
  rewrite Hid. by apply NoDup_pairs.
Qed.

Lemma expand_ordinals_NoDup : NoDup (map (λ p, p.1.1) (expand groups sig_algs)).
Proof.
  rewrite expand_pairs, (fmap_imap _ _ (pairs_of groups sig_algs)).
  apply NoDup_alt. intros i j z. rewrite !list_lookup_imap.
  destruct (pairs_of groups sig_algs !! i) eqn:Hi; [|done].
  destruct (pairs_of groups sig_algs !! j) eqn:Hj; [|done].
  apply lookup_lt_Some in Hi, Hj. rewrite length_pairs in Hi, Hj. cbn. intros [= <-] [= He].
  rewrite !as_i32_small in He by lia. lia.
Qed.

Lemma row_by_id id s : (list_to_map rows : gmap Uuid Subtask.t) !! id = Some s ↔ (id, s) ∈ rows.
Proof.
  symmetry. apply elem_of_list_to_map. apply rows_ids_NoDup.
Qed.

End rows.
(** ** A request that goes through *)

(** The keys the transaction gets: it is the third operation. *)
Definition new_id (w : World) (i : nat) : Uuid := env.(fresh_uuid) (2 + w.(steps)) i.

(** [gen_random_uuid] yields new values, [RETURNING] lists every row once. *)
Record database_honest (w : World) : Prop := {
  ids_distinct : ∀ i j, new_id w i = new_id w j → i = j;
  ids_new_test : w.(db).(tests) !! new_id w 0 = None;
  ids_new_rows : ∀ i, w.(db).(subtasks) !! new_id w (S i) = None;
  order_complete : ∀ n l, env.(row_order) n l ≡ₚ l;
}.

Record creatable (body : NewTest) (d : Db) : Prop := {
  cr_body : check_body body = Ok tt;
  cr_max : length (dedupe body.(groups)) * length (dedupe body.(sig_algs))
           ≤ config.(max_subtasks_per_test);
  cr_small : (Z.of_nat (length (dedupe body.(groups)) * length (dedupe body.(sig_algs))) < 2 ^ 31)%Z;
  cr_groups : ∀ n, n ∈ dedupe body.(groups) →
    in_catalog "kem_group" n d;
  cr_sig_algs : ∀ n, n ∈ dedupe body.(sig_algs) →
    in_catalog "sig_alg" n d;
}.

Definition created_test (body : NewTest) (w : World) : Test.t :=
  new_test_row (new_id w 0) (env.(clock) (2 + w.(steps))) body
    (dedupe body.(groups)) (dedupe body.(sig_algs)).

Definition created_rows (body : NewTest) (w : World) : list (Uuid * Subtask.t) :=
  new_subtasks (new_id w) (new_id w 0) (expand (dedupe body.(groups)) (dedupe body.(sig_algs))).

Definition created_jobs (body : NewTest) (w : World) : list ProbeJob.t :=
  map (probe_job config (created_test body w)
         (adapter_for body.(tool) body.(plugin) config.(default_adapter)))
    (env.(row_order) (2 + w.(steps)) (returned (created_rows body w))).

Definition created_world (body : NewTest) (w : World) : World :=
  set_streams
    (w.(streams) ++ map (pair STREAM_PROBE) (map Probe_job (created_jobs body w)))
    (set_db (with_subtasks (λ m, list_to_map (created_rows body w) ∪ m)
               (with_tests <[new_id w 0 := created_test body w]> w.(db)))
       (tick (tick w))).

Lemma run_create_test body w :
  database_honest w → creatable body w.(db) →
  run (create_test env config body) w
  = (Ok (Ok (created_test body w)), created_world body w).
Proof.
  intros [Hinj Ht Hrows _] [Hbody Hmax Hsmall Hg Hs]. unfold create_test.
  rewrite run_api_bind. cbn [run]. rewrite Hbody.
  rewrite (proj2 (Nat.ltb_ge _ _)) by done.
  rewrite run_api_bind, run_reject_unknown, (proj2 (unknown_names_nil _ _ _)) by done.
  rewrite run_api_bind, run_reject_unknown, (proj2 (unknown_names_nil _ _ _)) by done.
  rewrite run_api_bind, run_api_op. unfold insert_test_op. rewrite sql_works by done.
  unfold insert_test. rewrite bool_decide_true.
  - cbn [fst snd map_err]. rewrite run_api_bind. unfold enqueue_probes.
    rewrite run_api_op, xadd_works by done. done.
  - split_and!.
    + done.
    + apply Forall_forall. intros r Hin. apply elem_of_new_rows in Hin as (i & p & _ & ->); [|done].
      apply Hrows.
    + apply rows_ids_NoDup; done.
    + apply expand_pairs_NoDup; apply dedupe_from_NoDup.
    + by apply expand_ordinals_NoDup.
Qed.

Lemma elem_of_created_jobs body w job :
  database_honest w →
  job ∈ created_jobs body w ↔
  ∃ r, r ∈ created_rows body w ∧
    job = probe_job config (created_test body w)
            (adapter_for body.(tool) body.(plugin) config.(default_adapter))
            (r.1, r.2.(Subtask.group_name), r.2.(Subtask.sig_alg)).
Proof.
  intros [_ _ _ Hord]. unfold created_jobs. rewrite Hord. unfold returned.
  rewrite list_elem_of_fmap. setoid_rewrite list_elem_of_fmap. naive_solver.
Qed.

Lemma created_row_stored body w i p :
  database_honest w → creatable body w.(db) →
  pairs_of (dedupe body.(groups)) (dedupe body.(sig_algs)) !! i = Some p →
  (created_world body w).(db).(subtasks) !! new_id w (S i)
  = Some (new_subtask_row (new_id w 0) (new_id w (S i)) (Z.of_nat i, p.1, p.2)).
Proof.
  intros Hh Hc Hp. cbn. apply lookup_union_Some_l. apply row_by_id; [apply Hh|apply Hc|].
  apply elem_of_new_rows; [apply Hc|]. by exists i, p.
Qed.

(** What the transaction and the queue leave is what the worker's handlers need. *)
Lemma created_queued body w :
  database_honest w → creatable body w.(db) →
  queued (created_jobs body w) (created_world body w).(db).
Proof.
  intros Hh Hc. split.
  - pose proof Hh as [Hinj _ _ Hord].
    assert (Hp : map ProbeJob.subtask_id (created_jobs body w) ≡ₚ map fst (created_rows body w)).
    { unfold created_jobs, returned. rewrite Hord, !map_map. done. }
    rewrite Hp. apply rows_ids_NoDup; [done|apply Hc].
  - apply Forall_forall. intros job Hjob. apply elem_of_created_jobs in Hjob as (r & Hr' & ->); [|done].
    apply elem_of_new_rows in Hr' as (i & p & Hp & ->); [|apply Hc]. split.
    + cbn. rewrite lookup_insert_eq. eauto.
    + eexists. split; [split; [by apply created_row_stored|done]|done].
Qed.

Lemma created_owned body w id s :
  database_honest w → creatable body w.(db) →
  (∀ k s, w.(db).(subtasks) !! k = Some s → s.(Subtask.test_id) ≠ new_id w 0) →
  (created_world body w).(db).(subtasks) !! id = Some s →
  s.(Subtask.test_id) = new_id w 0 →
  ∃ i p, pairs_of (dedupe body.(groups)) (dedupe body.(sig_algs)) !! i = Some p ∧
    id = new_id w (S i) ∧
    s = new_subtask_row (new_id w 0) (new_id w (S i)) (Z.of_nat i, p.1, p.2).
Proof.
  intros Hh Hc Hfk Hs Ht. cbn in Hs. apply lookup_union_Some_raw in Hs as [Hs|[_ Hs]].
  - apply row_by_id in Hs; [|apply Hh|apply Hc].
    apply elem_of_new_rows in Hs as (i & p & Hp & [= -> ->]); [|apply Hc]. by exists i, p.
  - by apply Hfk in Hs.
Qed.

(** ** Reading the matrix back *)

(** The rows of the new test, in the order of the table. *)
Definition created_subtasks (body : NewTest) (w : World) : list Subtask.t :=
  map snd (created_rows body w).

Lemma created_subtasks_sorted body w :
  database_honest w → creatable body w.(db) →
  filter (λ s, s.(Subtask.test_id) = new_id w 0)
    (map snd (map_to_list (created_world body w).(db).(subtasks))) ≡ₚ created_subtasks body w →
  subtasks_in_order (new_id w 0) (created_world body w).(db) = created_subtasks body w.
Proof.
  intros Hh Hc. unfold subtasks_in_order. apply (merge_sort_unique ordinal_le).
  - unfold created_subtasks. intros s1 s2 H1 H2 H12 H21.
    apply list_elem_of_fmap in H1 as (r1 & -> & Hr1).
    apply list_elem_of_fmap in H2 as (r2 & -> & Hr2).
    apply elem_of_new_rows in Hr1 as (i & p & Hi & ->); [|apply Hc].
    apply elem_of_new_rows in Hr2 as (j & q & Hj & ->); [|apply Hc].
    unfold ordinal_le in *. cbn in H12, H21. assert (i = j) as <- by lia. congruence.
  - unfold created_subtasks, created_rows. rewrite rows_imap by apply Hc.
    rewrite fmap_imap. apply imap_sorted. intros i j x y Hij. unfold ordinal_le. cbn. lia.
Qed.

Lemma created_subtasks_Permutation body w :
  database_honest w → creatable body w.(db) →
  (∀ k s, w.(db).(subtasks) !! k = Some s → s.(Subtask.test_id) ≠ new_id w 0) →
  filter (λ s, s.(Subtask.test_id) = new_id w 0)
    (map snd (map_to_list (created_world body w).(db).(subtasks))) ≡ₚ created_subtasks body w.
Proof.
  intros Hh Hc Hfk. cbn [db set_db set_streams created_world subtasks with_subtasks with_tests].
  rewrite map_to_list_union.
  2:{ apply map_disjoint_spec. intros id s1 s2 H1 H2.
      apply row_by_id in H1; [|apply Hh|apply Hc].
      apply elem_of_new_rows in H1 as (i & p & _ & [= -> ->]); [|apply Hc].
      pose proof (ids_new_rows w Hh i). congruence. }
  rewrite map_app, filter_app. rewrite map_to_list_to_map.
  2:{ apply rows_ids_NoDup; [apply Hh|apply Hc]. }
  fold (created_subtasks body w).
  assert (Hnew : filter (λ s, s.(Subtask.test_id) = new_id w 0) (created_subtasks body w)
                 = created_subtasks body w).
  { apply filter_all. intros s Hs. apply list_elem_of_fmap in Hs as (r & -> & Hr').
    by apply elem_of_new_rows in Hr' as (i & p & _ & ->); [|apply Hc]. }
  assert (Hold : filter (λ s, s.(Subtask.test_id) = new_id w 0)
                   (map snd (map_to_list w.(db).(subtasks))) = []).
  { apply filter_none. intros s Hin Ht.
    apply list_elem_of_fmap in Hin as ([k s'] & -> & Hk%elem_of_map_to_list).
    by apply (Hfk k s'). }
  rewrite Hnew, Hold. by rewrite app_nil_r.
Qed.

End create.

Lemma reject_unknown_same `{SerdeJson} env kind names w :
  ∃ r w', run (reject_unknown env kind names) w = (Ok r, w') ∧
    w'.(db) = w.(db) ∧ w'.(streams) = w.(streams).
Proof.
  unfold reject_unknown. rewrite run_api_bind, run_api_op. unfold sql.
  destruct (fault env (steps w)); cbn [fst snd map_err].
  - destruct (filter _ names); by eexists _, _.
  - by eexists _, _.
  - by eexists _, _.
Qed.

Lemma check_body_port body : check_body body = Ok tt → (1 ≤ body.(port) ≤ 65535)%Z.
Proof.
  unfold check_body. destruct (String.eqb _ _); [done|].
  destruct ((1 <=? port body)%Z && (port body <=? 65535)%Z) eqn:Hp; [|done].
  apply andb_true_iff in Hp as [H1%Z.leb_le H2%Z.leb_le]. done.
Qed.

Section created.
Context {J : SerdeJson} (env : Env) (config : ApiConfig) (body : NewTest) (w : World).
Context (Hr : reliable env) (Hh : database_honest env w) (Hc : creatable config body w.(db)).
Context (Hfk : ∀ k s, w.(db).(subtasks) !! k = Some s → s.(Subtask.test_id) ≠ new_id env w 0).

Lemma created_test_stored :
  (created_world env config body w).(db).(tests) !! new_id env w 0
  = Some (created_test env body w).
Proof. cbn. by rewrite lookup_insert_eq. Qed.

Lemma created_rows_pairs :
  map (λ r, (r.2.(Subtask.group_name), r.2.(Subtask.sig_alg))) (created_rows env body w)
  = pairs_of (dedupe body.(groups)) (dedupe body.(sig_algs)).
Proof.
  unfold created_rows. rewrite rows_imap by apply Hc. rewrite fmap_imap.
  apply list_eq. intros i. rewrite list_lookup_imap.
  by destruct (pairs_of _ _ !! i) as [[]|].
Qed.

Lemma created_jobs_pairs :
  map (λ job, (job.(ProbeJob.group_name), job.(ProbeJob.sig_alg))) (created_jobs env config body w)
  ≡ₚ pairs_of (dedupe body.(groups)) (dedupe body.(sig_algs)).
Proof.
  rewrite <-created_rows_pairs. unfold created_jobs. rewrite (order_complete _ _ Hh).
  unfold returned. by rewrite !map_map.
Qed.

Lemma created_job_of_row id s :
  (created_world env config body w).(db).(subtasks) !! id = Some s →
  s.(Subtask.test_id) = new_id env w 0 →
  ∃ job, job ∈ created_jobs env config body w ∧ job.(ProbeJob.subtask_id) = id ∧
    job.(ProbeJob.test_id) = new_id env w 0 ∧
    job.(ProbeJob.group_name) = s.(Subtask.group_name) ∧
    job.(ProbeJob.sig_alg) = s.(Subtask.sig_alg) ∧
    job.(ProbeJob.port) = body.(port).
Proof.
  intros Hs Ht.
  destruct (created_owned env config body w id s Hh Hc Hfk Hs Ht) as (i & p & Hp & -> & ->).
  eexists. split; [apply elem_of_created_jobs; [done|]|].
  - exists (row_at (new_id env w) (new_id env w 0) i p). split; [|reflexivity].
    apply elem_of_new_rows; [apply Hc|]. by exists i, p.
  - split_and!; try done. cbn. apply as_u16_small. pose proof (check_body_port body (cr_body _ _ _ Hc)).
    lia.
Qed.

End created.

(** ** Theorems *)

(** [dedupe] keeps the trimmed, non-empty names of the selection, each once, in the
    order of first occurrence: after a prefix only what is new is appended. *)
Lemma dedupe_spec (l1 l2 : list string) :
  NoDup (dedupe (l1 ++ l2)) ∧
  (∀ x, x ∈ dedupe (l1 ++ l2) ↔ x ≠ "" ∧ ∃ v, v ∈ l1 ++ l2 ∧ trim v = x) ∧
  dedupe (l1 ++ l2) = dedupe l1 ++ filter (λ x, x ∉ dedupe l1) (dedupe l2).
Proof.
  split_and!.
  - apply dedupe_from_NoDup.
  - intros x. unfold dedupe. rewrite dedupe_from_elem, list_elem_of_fmap.
    split; [naive_solver|]. intros (Hx & v & Hv & <-). split_and!; [done|set_solver|eauto].
  - unfold dedupe at 1. rewrite dedupe_from_app. f_equal.
    rewrite dedupe_from_seen. apply list_filter_iff. intros x. set_solver.
Qed.

(** A request the API answers with 400 changes nothing, whatever the state of the
    database: no row is written and no job is queued. *)
Theorem create_test_refused `{SerdeJson} env config body w msg w' :
  run (create_test env config body) w = (Ok (Err (BadRequest msg)), w') →
  w'.(db) = w.(db) ∧ w'.(streams) = w.(streams).
Proof.
  unfold create_test. rewrite run_api_bind. cbn [run].
  destruct (check_body body) as [[]|e]; [|by intros [= _ <-]].
  destruct (_ <? _); [by intros [= _ <-]|].
  rewrite run_api_bind.
  destruct (reject_unknown_same env "kem_group" (dedupe body.(groups)) w)
    as ([[]|e] & w1 & -> & H1 & H1'); [|by intros [= _ <-]].
  rewrite run_api_bind.
  destruct (reject_unknown_same env "sig_alg" (dedupe body.(sig_algs)) w1)
    as ([[]|e] & w2 & -> & H2 & H2'); [|intros [= _ <-]; split; congruence].
  rewrite run_api_bind, run_api_op. destruct (insert_test_op _ _ _ _ w2) as [[[test ids]|e] w3];
    [|done]. cbn [fst snd map_err]. rewrite run_api_bind. unfold enqueue_probes.
  rewrite run_api_op. by destruct (xadd _ _ _ w3) as [[[]|e] w4].
Qed.

(** C11. An accepted request stores one test with one queued subtask per pair of the cleaned
    selection, and queues one job per subtask, each for its own row; nothing else is in the
    rows of the test. *)
Theorem create_test_expands `{SerdeJson} env config body w :
  reliable env → database_honest env w → creatable config body w.(db) →
  (∀ k s, w.(db).(subtasks) !! k = Some s → s.(Subtask.test_id) ≠ new_id env w 0) →
  ∃ test jobs w',
    run (create_test env config body) w = (Ok (Ok test), w') ∧
    w'.(db).(tests) !! test.(Test.id) = Some test ∧
    test.(Test.status) = TaskStatus.Pending ∧
    w'.(streams) = w.(streams) ++ map (λ job, (STREAM_PROBE, Probe_job job)) jobs ∧
    map (λ job, (job.(ProbeJob.group_name), job.(ProbeJob.sig_alg))) jobs
      ≡ₚ pairs_of (dedupe body.(groups)) (dedupe body.(sig_algs)) ∧
    queued jobs w'.(db) ∧
    (∀ id s, w'.(db).(subtasks) !! id = Some s → s.(Subtask.test_id) = test.(Test.id) →
       ∃ job, job ∈ jobs ∧ job.(ProbeJob.subtask_id) = id ∧
         job.(ProbeJob.test_id) = test.(Test.id) ∧
         job.(ProbeJob.group_name) = s.(Subtask.group_name) ∧
         job.(ProbeJob.sig_alg) = s.(Subtask.sig_alg) ∧
         job.(ProbeJob.port) = body.(port)).
Proof.
  intros Hr Hh Hc Hfk.
  exists (created_test env body w), (created_jobs env config body w),
    (created_world env config body w).
  split_and!.
  - by apply run_create_test.
  - apply created_test_stored.
  - done.
  - cbn. by rewrite map_map.
  - by apply created_jobs_pairs.
  - by apply created_queued.
  - intros id s Hs Ht. by apply created_job_of_row.
Qed.

(** The jobs of a created test are what closing it needs: distinct subtasks with rows that
    wait, and none of the test left out. *)
Lemma created_ready {J : SerdeJson} env config body w w1 test jobs :
  reliable env → database_honest env w → creatable config body w.(db) →
  (∀ k s, w.(db).(subtasks) !! k = Some s → s.(Subtask.test_id) ≠ new_id env w 0) →
  dedupe body.(groups) ≠ [] → dedupe body.(sig_algs) ≠ [] →
  run (create_test env config body) w = (Ok (Ok test), w1) →
  w1.(streams) = w.(streams) ++ map (λ job, (STREAM_PROBE, Probe_job job)) jobs →
  queued jobs w1.(db) ∧ covered test.(Test.id) jobs w1.(db) ∧
  (∀ id s, w1.(db).(subtasks) !! id = Some s → s.(Subtask.test_id) = test.(Test.id) →
     ∃ job, job ∈ jobs ∧ job.(ProbeJob.subtask_id) = id) ∧
  ∀ job, job ∈ jobs → job.(ProbeJob.test_id) = test.(Test.id).
Proof.
  intros Hr Hh Hc Hfk Hg Hs Hrun Hjobs.
  rewrite run_create_test in Hrun by done. injection Hrun as <- <-.
  assert (jobs = created_jobs env config body w) as ->.
  { cbn in Hjobs. rewrite map_map in Hjobs. apply app_inv_head in Hjobs.
    symmetry. revert Hjobs. apply (list_fmap_eq_inj (λ job, (STREAM_PROBE, Probe_job job))).
    by intros ? ? [= ->]. }
  split_and!; [by apply created_queued|..].
  - split.
    + destruct (dedupe body.(groups)) as [|g gs] eqn:Eg; [done|].
      destruct (dedupe body.(sig_algs)) as [|a sigs] eqn:Ea; [done|].
      assert (Hp : (g, a) ∈ pairs_of (dedupe body.(groups)) (dedupe body.(sig_algs))).
      { apply elem_of_pairs. rewrite Eg, Ea. split; by left. }
      apply list_elem_of_lookup in Hp as [i Hp].
      pose proof (created_row_stored env config body w i (g, a) Hh Hc Hp) as Hrow.
      destruct (created_job_of_row env config body w Hh Hc Hfk _ _ Hrow eq_refl)
        as (job & Hj & _ & Ht & _). by exists job.
    + intros id s Hid Ht _.
      destruct (created_job_of_row env config body w Hh Hc Hfk id s Hid Ht) as (job & Hj & <- & _).
      apply list_elem_of_fmap. by exists job.
  - intros id s Hid Ht.
    destruct (created_job_of_row env config body w Hh Hc Hfk id s Hid Ht)
      as (job & Hj & <- & _). by exists job.
  - intros job Hjob. apply elem_of_created_jobs in Hjob as (r & Hr' & ->); [|done].
    apply elem_of_new_rows in Hr' as (i & p & Hp & ->); [|apply Hc]. done.
Qed.

(** From the request to the verdict: once a test is created, handling its queued jobs
    concurrently, by any worker whose statements work and in any interleaving, ends with
    the test closed and announced. *)
Lemma created_test_closes {J : SerdeJson} {RJ : ReportJson} {U : UuidDisplay} env config body w
    (worker : Env) bases w1 test w2 jobs :
  reliable env → database_honest env w → creatable config body w.(db) →
  (∀ k s, w.(db).(subtasks) !! k = Some s → s.(Subtask.test_id) ≠ new_id env w 0) →
  dedupe body.(groups) ≠ [] → dedupe body.(sig_algs) ≠ [] →
  run (create_test env config body) w = (Ok (Ok test), w1) →
  w1.(streams) = w.(streams) ++ map (λ job, (STREAM_PROBE, Probe_job job)) jobs →
  reliable worker → w2.(db) = w1.(db) →
  closes worker bases jobs w2 test.(Test.id).
Proof.
  intros Hr Hh Hc Hfk Hg Hs Hrun Hjobs Hworker Hdb.
  destruct (created_ready env config body w w1 test jobs) as (He & Hj & _); [done..|].
  apply handlers_close; rewrite ?Hdb; [done|by apply queued_enqueued|done].
Qed.

(** The matrix of a new test has the cleaned selection as its axes, in the order it was
    selected, and one pending cell per pair, row by row. *)
Theorem created_matrix `{SerdeJson} env config body w test w1 :
  reliable env → database_honest env w → creatable config body w.(db) →
  (∀ k s, w.(db).(subtasks) !! k = Some s → s.(Subtask.test_id) ≠ new_id env w 0) →
  dedupe body.(groups) ≠ [] → dedupe body.(sig_algs) ≠ [] →
  run (create_test env config body) w = (Ok (Ok test), w1) →
  ∃ m w2, run (get_matrix env test.(Test.id)) w1 = (Ok (Ok m), w2) ∧
    m.(Matrix.groups) = dedupe body.(groups) ∧ m.(Matrix.sig_algs) = dedupe body.(sig_algs) ∧
    map (λ c, (c.(MatrixCell.group_name), c.(MatrixCell.sig_alg))) m.(Matrix.cells)
      = pairs_of (dedupe body.(groups)) (dedupe body.(sig_algs)) ∧
    Forall (λ c, c.(MatrixCell.result_status) = ResultStatus.Pending ∧
                 c.(MatrixCell.exec_status) = ExecStatus.Queued) m.(Matrix.cells).
Proof.
  intros Hr Hh Hc Hfk Hg Hs Hrun. rewrite run_create_test in Hrun by done.
  injection Hrun as <- <-. set (w1 := created_world env config body w).
  assert (Hrows : subtasks_in_order (new_id env w 0) w1.(db) = created_subtasks env body w).
  { apply (created_subtasks_sorted env config body w Hh Hc).
    by apply (created_subtasks_Permutation env config body w Hh Hc). }
  exists (matrix_of (created_subtasks env body w)), (tick (tick w1)).
  pose proof (created_rows_pairs env config body w Hc) as Hpairs.
  split_and!.
  - unfold get_matrix, fetch_test. rewrite !run_api_bind, run_api_op, sql_works by done.
    cbn [fst snd map_err run].
    change (tests (db w1) !! Test.id (created_test env body w))
      with ((created_world env config body w).(db).(tests) !! new_id env w 0).
    rewrite created_test_stored. cbn [ok_or]. unfold fetch_subtasks.
    rewrite run_api_bind, run_api_op, sql_works by done. cbn [fst snd map_err].
    change (db (set_db (db w1) w1)) with (db w1).
    change (Test.id (created_test env body w)) with (new_id env w 0). by rewrite Hrows.
  - cbn. unfold created_subtasks. rewrite map_map.
    etrans; [|apply (axis_groups (dedupe body.(groups)) (dedupe body.(sig_algs)));
      [apply dedupe_from_NoDup|done]]. by rewrite <-Hpairs, map_map.
  - cbn. unfold created_subtasks. rewrite map_map.
    etrans; [|apply (axis_sig_algs (dedupe body.(groups)) (dedupe body.(sig_algs)));
      [apply dedupe_from_NoDup|done]]. by rewrite <-Hpairs, map_map.
  - cbn. unfold created_subtasks. rewrite !map_map. exact Hpairs.
  - cbn. unfold created_subtasks. rewrite map_map. apply Forall_map, Forall_forall.
    intros r Hr'. by apply elem_of_new_rows in Hr' as (i & p & _ & ->); [|apply Hc].
Qed.

(** A selection of nothing but blank names gets through: the emptiness check looks at
    the list before it is cleaned. The test has no subtask and no job, so no handler will
    ever close it. *)
Lemma blank_selection_accepted `{SerdeJson} env config body w :
  reliable env → database_honest env w →
  check_body body = Ok tt → Forall (λ g, is_blank g = true) body.(groups) →
  (∀ n, n ∈ dedupe body.(sig_algs) →
     in_catalog "sig_alg" n w.(db)) →
  ∃ test w',
    run (create_test env config body) w = (Ok (Ok test), w') ∧
    test.(Test.subtask_count) = 0%Z ∧ w'.(db).(tests) !! test.(Test.id) = Some test ∧
    w'.(streams) = w.(streams).
Proof.
  intros Hr Hh Hbody Hblank Hs.
  assert (Hempty : dedupe body.(groups) = []).
  { destruct (dedupe body.(groups)) as [|g gs] eqn:Hd; [done|]. exfalso.
    assert (Hin : g ∈ dedupe body.(groups)) by (rewrite Hd; by left).
    apply dedupe_from_elem in Hin as (Hne & _ & (v & -> & Hv)%list_elem_of_fmap).
    rewrite Forall_forall in Hblank. by apply Hne, trim_empty, Hblank. }
  assert (Hc : creatable config body w.(db)).
  { split; rewrite ?Hempty; cbn; [done|lia|lia|by intros n ?%elem_of_nil|done]. }
  exists (created_test env body w), (created_world env config body w). split_and!.
  - by apply run_create_test.
  - cbn. by rewrite Hempty.
  - apply created_test_stored.
  - assert (Hj : created_jobs env config body w = []).
    { pose proof (created_jobs_pairs env config body w Hh Hc) as Hp.
      rewrite Hempty in Hp. apply Permutation_nil_r in Hp. by apply map_eq_nil in Hp. }
    cbn. rewrite Hj. apply app_nil_r.
Qed.

Module ApiWitness.
Import Fixtures.Lab.

Definition algorithm (id : Z) (kind name : string) : Algorithm.t := {|
  Algorithm.id := id; Algorithm.kind := kind; Algorithm.name := name;
  Algorithm.display_name := name; Algorithm.family := None; Algorithm.enabled := true;
  Algorithm.sort_order := id |}.

Definition lab_config : ApiConfig := {|
  max_subtasks_per_test := 512; probe_timeout_ms := 15000; default_adapter := "openssl" |}.

Definition lab : World := {|
  db := {|
    endpoints := ∅;
    algorithms := {[ 1%Z := algorithm 1 "kem_group" "mlkem768"; 2%Z := algorithm 2 "kem_group" "x25519";
                     3%Z := algorithm 3 "sig_alg" "mldsa65" ]};
    tests := ∅; subtasks := ∅; subtask_reports := ∅; kem_runs := ∅; kem_run_logs := ∅;
    kem_matrix_cells := ∅;
    cavp_packs := ∅; cavp_sessions := ∅ |};
  streams := []; published := []; acked := []; cache := ∅; steps := 0 |}.

Definition body (selected : list string) : NewTest := {|
  host := " lab.example "; port := 443; http_path := "/"; tool := "pq-dsa"; plugin := "bq2606";
  groups := selected; sig_algs := ["mldsa65"] |}.

Definition selection : NewTest := body [" x25519 "; "mlkem768"; "x25519"].

Lemma lab_honest : database_honest env lab.
Proof.
  split; [|done|done|done]. intros i j. unfold new_id. cbn. lia.
Qed.

Lemma lab_creatable : creatable lab_config selection lab.(db).
Proof.
  assert (Hg : dedupe selection.(groups) = ["x25519"; "mlkem768"]) by (vm_compute; reflexivity).
  assert (Hs : dedupe selection.(sig_algs) = ["mldsa65"]) by (vm_compute; reflexivity).
  split; rewrite ?Hg, ?Hs; [reflexivity|cbn; lia|cbn; lia|..]; intros n Hn;
    rewrite !elem_of_cons, elem_of_nil in Hn.
  - destruct Hn as [->|[->|[]]].
    + by exists 2%Z, (algorithm 2 "kem_group" "x25519").
    + by exists 1%Z, (algorithm 1 "kem_group" "mlkem768").
  - destruct Hn as [->|[]]. by exists 3%Z, (algorithm 3 "sig_alg" "mldsa65").
Qed.

Lemma lab_reliable : reliable env.
Proof. intros n. reflexivity. Qed.

Lemma lab_fresh k s :
  lab.(db).(subtasks) !! k = Some s → s.(Subtask.test_id) ≠ new_id env lab 0.
Proof. cbn [lab db subtasks]. rewrite lookup_empty. congruence. Qed.

Lemma create_test_refused_witness :
  let w' := (run (create_test env lab_config (body [])) lab).2 in
  w'.(db) = lab.(db) ∧ w'.(streams) = lab.(streams).
Proof.
  apply (create_test_refused env lab_config (body []) lab
           "select at least one group and one signature algorithm").
  reflexivity.
Defined.

Lemma create_test_expands_witness :
  ∃ test jobs w',
    run (create_test env lab_config selection) lab = (Ok (Ok test), w') ∧
    map (λ job, (job.(ProbeJob.group_name), job.(ProbeJob.sig_alg))) jobs
      ≡ₚ [("x25519", "mldsa65"); ("mlkem768", "mldsa65")] ∧
    queued jobs w'.(db).
Proof.
  destruct (create_test_expands env lab_config selection lab)
    as (test & jobs & w' & H1 & _ & _ & _ & H2 & H3 & _);
    [apply lab_reliable|apply lab_honest|apply lab_creatable|apply lab_fresh|].
  exists test, jobs, w'. split; [exact H1|]. split; [|exact H3]. exact H2.
Defined.

Lemma created_test_closes_witness :
  let r := run (create_test env lab_config selection) lab in
  ∃ test jobs, r.1 = Ok (Ok test) ∧ closes env bases jobs r.2 test.(Test.id).
Proof.
  cbv zeta. pose proof (run_create_test env lab_config lab_reliable selection lab
                          lab_honest lab_creatable) as Hrun.
  exists (created_test env selection lab), (created_jobs env lab_config selection lab).
  rewrite Hrun. split; [reflexivity|].
  apply (created_test_closes env lab_config selection lab env bases
           (created_world env lab_config selection lab) (created_test env selection lab)).
  - apply lab_reliable.
  - apply lab_honest.
  - apply lab_creatable.
  - apply lab_fresh.
  - by vm_compute.
  - by vm_compute.
  - exact Hrun.
  - cbn [streams created_world set_streams]. by rewrite map_map.
  - apply lab_reliable.
  - reflexivity.
Defined.

Lemma created_matrix_witness :
  ∃ m w2, run (get_matrix env (new_id env lab 0))
            (run (create_test env lab_config selection) lab).2 = (Ok (Ok m), w2) ∧
    m.(Matrix.groups) = ["x25519"; "mlkem768"].
Proof.
  pose proof (run_create_test env lab_config lab_reliable selection lab
                lab_honest lab_creatable) as Hrun.
  destruct (created_matrix env lab_config selection lab (created_test env selection lab)
    (created_world env lab_config selection lab)) as (m & w2 & H1 & H2 & _);
    [apply lab_reliable|apply lab_honest|apply lab_creatable|apply lab_fresh|by vm_compute|by vm_compute|exact Hrun|].
  exists m, w2. rewrite Hrun. split; [exact H1|]. rewrite H2. by vm_compute.
Defined.

Lemma blank_selection_accepted_witness :
  ∃ test w',
    run (create_test env lab_config (body ["  "])) lab = (Ok (Ok test), w') ∧
    test.(Test.subtask_count) = 0%Z ∧ w'.(db).(tests) !! test.(Test.id) = Some test ∧
    w'.(streams) = [].
Proof.
  apply (blank_selection_accepted env lab_config (body ["  "]) lab);
    [apply lab_reliable|apply lab_honest|reflexivity|by repeat constructor|apply (cr_sig_algs _ _ _ lab_creatable)].
Defined.

End ApiWitness.
