(* ===== verification/WorkerStory.v ===== *)
(** * From the request to the verdict

    The API, the streams and the worker together: what a student posts ends as a closed
    test. *)

From S2P Require Import Prelude RustStr Json Proto Status Domain KemOrder Effects World Stream.
From S2P Require Import Store Registry Probe Kem Protocol Concurrency Api ApiFacts Walk Worker.
From S2P Require Import WorkerFacts Recovery Fixtures.

(** ** One schedule *)

Section schedule.
Context {J : SerdeJson} {RJ : ReportJson} {U : UuidDisplay} {C : Chrono}.
Context {V : RedisValue} {JJ : JobJson}.
Context (env : Env) (bases : gmap string string) (concurrency : nat).

(** The deliveries of a round handled one after the other. *)
Definition one_by_one (w : World) (ds : list Delivery.t) : World :=
  foldl (λ w d, (run (spawned env bases d) w).2) w ds.

Lemma held_halted (ts : list (prog World unit)) : Forall halted ts → held ts = 0.
Proof.
  induction 1 as [|p ts Hp Hts IH]; [done|]. rewrite held_cons.
  by rewrite (proj2 (is_halted_spec p)), IH.
Qed.

Lemma tasks_steps w w' ph ib st ts ts' :
  ph ≠ Exited → rtc step (w, ts) (w', ts') →
  rtc (worker_step env bases concurrency) (Build_Process w ph ib st ts)
                                          (Build_Process w' ph ib st ts').
Proof.
  intros Hph Hs. remember (w, ts) as c eqn:Hc. remember (w', ts') as c' eqn:Hc'.
  revert w ts Hc. induction Hs as [c|c1 [w1 ts1] c3 H12 _ IH]; intros w ts ->.
  - by injection Hc' as -> ->.
  - eapply rtc_l; [by apply worker_task|by apply IH].
Qed.

Lemma spawning_steps w ds st ts :
  0 < concurrency → Forall halted ts →
  ∃ ts', Forall halted ts' ∧
    rtc (worker_step env bases concurrency) (Build_Process w Spawning ds st ts)
      (Build_Process (one_by_one w ds) Spawning [] (st ++ ds) ts').
Proof.
  intros Hc. revert w st ts. induction ds as [|d ds IH]; intros w st ts Hts.
  { exists ts. by rewrite app_nil_r. }
  destruct (run_steps (spawned env bases d) ts [] w) as (q & Hq & Hs & _).
  destruct (IH (run (spawned env bases d) w).2 (st ++ [d]) (ts ++ [q])) as (ts' & Hts' & Hr).
  { apply Forall_app. by rewrite Forall_singleton. }
  exists ts'. split; [done|]. rewrite <-app_assoc in Hr. etrans; [|exact Hr].
  eapply rtc_l; [apply worker_spawn; by rewrite held_halted|]. by apply tasks_steps.
Qed.

(** The process can handle a round. *)
Lemma worker_can_run w ds replies :
  0 < concurrency → tick_deliveries replies = Ok ds →
  ∃ ts, Forall halted ts ∧
    rtc (worker_step env bases concurrency) (starts w)
      (Build_Process (one_by_one w ds) Spawning [] ds ts).
Proof.
  intros Hc Hd. destruct (spawning_steps w ds [] [] Hc) as (ts & Hts & Hs); [constructor|].
  exists ts. split; [done|]. eapply rtc_l; [by apply (worker_read _ _ _ _ _ _ replies)|exact Hs].
Qed.

(** The process can die with its first handler under way and the others not begun. *)
Lemma worker_can_die w d ds replies p w' :
  0 < concurrency → tick_deliveries replies = Ok (d :: ds) →
  advance (spawned env bases d) w = Some (p, w') →
  rtc (worker_step env bases concurrency) (starts w) (Build_Process w' Spawning ds [d] [p]).
Proof.
  intros Hc Hd Ha. eapply rtc_l; [by apply (worker_read _ _ _ _ _ _ replies)|].
  eapply rtc_l; [apply worker_spawn; cbn; lia|]. apply rtc_once, worker_task; [done|].
  destruct (spawned env bases d) as [| |X o k]; [done..|]. injection Ha as <- <-.
  apply (step_at w [] X o k []).
Qed.

End schedule.

Section story.
Context {J : SerdeJson} {RJ : ReportJson} {U : UuidDisplay} {C : Chrono}.
Context {V : RedisValue} {JJ : JobJson}.
Context (worker : Env) (bases : gmap string string) (concurrency : nat).


End story.

Module WorkerWitness.
Import Fixtures.Lab.

(** Redis values as far as the streams need them. *)
Inductive rvalue := RString (s : string) | RArray (l : list rvalue).

Definition text_of (v : rvalue) : result string string :=
  match v with
  | RString s => Ok s
  | RArray _ => Err "not a string"
  end.

Fixpoint texts_of (l : list rvalue) : result string (list string) :=
  match l with
  | [] => Ok []
  | v :: r =>
      match text_of v, texts_of r with
      | Ok s, Ok ss => Ok (s :: ss)
      | Err e, _ | _, Err e => Err e
      end
  end.

#[export] Instance redis : RedisValue := {|
  RValue := rvalue;
  as_array_value := λ v, match v with RArray l => Some l | RString _ => None end;
  from_redis_string := text_of;
  from_redis_strings := λ v, match v with RArray l => texts_of l | RString _ => Err "not an array" end;
|}.

#[export] Instance redis_laws : RedisValueLaws.
Proof.
  refine {| v_array := RArray : list RValue → RValue; v_string := RString : string → RValue |};
    [done|done|]. intros l. cbn. induction l as [|s l IH]; [done|]. cbn in *. by rewrite IH.
Defined.

(** The two jobs of the laboratory's test, by number. *)
#[export] Instance job_json : JobJson := {|
  probe_job_from_str := λ s,
    if String.eqb s "job 10" then Ok (job 10 "MLKEM768" "openssl")
    else if String.eqb s "job 11" then Ok (job 11 "X25519" "nss")
    else Err "not a job";
  kem_job_from_str := λ s, if String.eqb s "kem" then Ok kem_job else Err "not a job";
|}.

(** One round: nothing new, and four entries a dead worker left pending. *)
Definition pending (id payload : string) : string * list (string * string) :=
  (id, [("job", payload)]).

Definition replies : Replies := {|
  on_read := Ok None;
  on_claim := λ stream,
    if String.eqb stream STREAM_PROBE then
      Ok (autoclaim_reply "0-0" [pending "1-0" "job 11"; pending "2-0" "garbage";
                                 ("3-0", [("other", "job")]); pending "4-0" "job 10"] [])
    else Ok (autoclaim_reply "0-0" [pending "5-0" "kem"] []);
|}.

Definition deliveries : list Delivery.t := [
  {| Delivery.stream := STREAM_PROBE; Delivery.id := "1-0"; Delivery.payload := "job 11" |};
  {| Delivery.stream := STREAM_PROBE; Delivery.id := "2-0"; Delivery.payload := "garbage" |};
  {| Delivery.stream := STREAM_PROBE; Delivery.id := "4-0"; Delivery.payload := "job 10" |};
  {| Delivery.stream := STREAM_KEM; Delivery.id := "5-0"; Delivery.payload := "kem" |}].

Example round_delivers : tick_deliveries replies = Ok deliveries.
Proof. reflexivity. Qed.

Definition after : World := one_by_one env bases world deliveries.

Lemma after_steps :
  ∃ ts, Forall halted ts ∧
    rtc (worker_step env bases 2) (starts world) (Build_Process after Spawning [] deliveries ts).
Proof. apply (worker_can_run env bases 2 world deliveries replies); [lia|reflexivity]. Qed.

Lemma autoclaim_reads_back_witness :
  autoclaim "s" (Ok (autoclaim_reply "0-0" [pending "1-0" "x"; ("2-0", [("a", "job")])] []))
  = Ok [{| Delivery.stream := "s"; Delivery.id := "1-0"; Delivery.payload := "x" |}].
Proof. apply (autoclaim_reads_back "s" "0-0" [pending "1-0" "x"; ("2-0", [("a", "job")])] []). Defined.

Lemma worker_bounded_witness : ∃ s, s.(started) = deliveries ∧ held s.(tasks) ≤ 2.
Proof.
  destruct after_steps as (ts & Hts & Hs). eexists. split; [|exact (proj1 (worker_bounded env bases 2 world _ Hs))].
  reflexivity.
Defined.

Lemma worker_acknowledges_witness :
  ∃ l, after.(acked) = [] ++ l ∧ l ≡ₚ map ack_key deliveries.
Proof.
  destruct after_steps as (ts & Hts & Hs).
  destruct (worker_acknowledges env bases 2 world _ Hs) as (l & Hl & _ & _ & Hall).
  exists l. split; [exact Hl|]. apply Hall; [intros n; reflexivity|exact Hts].
Defined.

Lemma probe_jobs_delivered :
  omap probe_job_of deliveries = [job 11 "X25519" "nss"; job 10 "MLKEM768" "openssl"].
Proof. reflexivity. Qed.

Lemma delivered_enqueued : enqueued bases (omap probe_job_of deliveries) world.(db).
Proof.
  rewrite probe_jobs_delivered.
  apply (enqueued_incl bases ConcurrencyWitness.jobs); [|apply ConcurrencyWitness.jobs_enqueued].
  intros j. unfold ConcurrencyWitness.jobs. rewrite !elem_of_cons. tauto.
Qed.

Lemma delivered_covered : covered 1 (omap probe_job_of deliveries) world.(db).
Proof.
  rewrite probe_jobs_delivered. split; [exists (job 11 "X25519" "nss"); split; [by left|done]|].
  intros id r Hr Ht Ho. pose proof (proj2 ConcurrencyWitness.jobs_covered id r Hr Ht Ho) as Hin.
  unfold ConcurrencyWitness.jobs in Hin. cbn [map] in *. rewrite !elem_of_cons in *. tauto.
Qed.

Lemma worker_closes_test_witness :
  test_over bases 1 (omap probe_job_of deliveries) after.
Proof.
  destruct after_steps as (ts & Hts & Hs).
  apply (worker_closes_test env bases 2 world _ 1 (λ n, eq_refl) Hs Hts).
  - apply delivered_enqueued.
  - apply delivered_covered.
Defined.

Lemma worker_comes_to_rest_witness :
  ∃ s, s.(started) = deliveries ∧ Acc (flip (busy env bases 2)) s.
Proof.
  destruct after_steps as (ts & Hts & Hs). eexists. split.
  2: { apply (proj1 (worker_comes_to_rest env bases 2 world _ ltac:(lia) ltac:(reflexivity) Hs)). }
  reflexivity.
Defined.

(** The jobs of a test created in the laboratory, delivered in the other order. *)
Import ApiFacts.ApiWitness.

Definition queued : list ProbeJob.t := created_jobs env lab_config selection lab.

#[local] Instance queued_json : JobJson := {|
  probe_job_from_str := λ s,
    ok_or "not a job" (if String.eqb s "first" then queued !! 0%nat
                       else if String.eqb s "second" then queued !! 1%nat else None);
  kem_job_from_str := λ _, Err "not a job";
|}.

Definition entry (id payload : string) : Delivery.t := {|
  Delivery.stream := STREAM_PROBE; Delivery.id := id; Delivery.payload := payload |}.

Definition claims : Replies := {|
  on_read := Ok None;
  on_claim := λ stream,
    if String.eqb stream STREAM_PROBE then
      Ok (autoclaim_reply "0-0" [pending "2-0" "second"; pending "1-0" "first"] [])
    else Ok (autoclaim_reply "0-0" [] []);
|}.

Definition entries : list Delivery.t := [entry "2-0" "second"; entry "1-0" "first"].
Definition created : World := created_world env lab_config selection lab.

(** The deployment has the adapter the test asks for. *)
Definition stacks : gmap string string := {[ "boringssl" := "http://adapter-boringssl:9100" ]}.

(** The worker dies when its first handler has marked the test running. *)
Definition dying : prog World unit * World :=
  match advance (spawned env stacks (entry "2-0" "second")) created with
  | Some c => c
  | None => (Ret tt, created)
  end.

Lemma first_life : life stacks entries created dying.2.
Proof.
  apply (life_until stacks entries created env 2 created
           (Build_Process dying.2 Spawning [entry "1-0" "first"] [entry "2-0" "second"] [dying.1]));
    [apply lab_reliable|reflexivity| | |].
  - apply (worker_can_die env stacks 2 created _ _ claims); [lia|reflexivity|reflexivity].
  - apply NoDup_singleton.
  - intros d ->%list_elem_of_singleton. apply list_elem_of_filter.
    split; [by intros ?%elem_of_nil|by left].
Qed.

Lemma all_left d : d ∈ entries ↔ d ∈ unacked entries dying.2.
Proof.
  unfold unacked. rewrite list_elem_of_filter. split; [|by intros []].
  intros Hd. split; [|done]. change (dying.2.(acked)) with (@nil (string * string)). by intros ?%elem_of_nil.
Qed.

Lemma entries_NoDup : NoDup (map ack_key entries).
Proof. by apply (bool_decide_unpack (NoDup _)); vm_compute. Qed.

Lemma entries_jobs : omap probe_job_of entries ≡ₚ queued ++ [].
Proof.
  rewrite app_nil_r. assert (Hq : queued = [nth 0 queued (job 0 "" ""); nth 1 queued (job 0 "" "")])
    by (vm_compute; reflexivity).
  rewrite Hq. vm_compute. apply Permutation_swap.
Qed.


Lemma deaths_recovered_witness :
  test_over stacks (new_id env lab 0) (omap probe_job_of entries)
    (one_by_one env stacks dying.2 entries) ∧
  ∀ d, d ∈ entries → ack_key d ∈ (one_by_one env stacks dying.2 entries).(acked).
Proof.
  destruct (worker_can_run env stacks 2 dying.2 entries claims) as (ts & Hts & Hs);
    [lia|reflexivity|].
  destruct (created_ready env lab_config selection lab created
    (created_test env selection lab) queued) as (He & [Hj Hcov] & _);
    [apply lab_reliable|apply lab_honest|apply lab_creatable|apply lab_fresh|by vm_compute..
    |apply (run_create_test env lab_config lab_reliable selection lab lab_honest lab_creatable)
    |cbn [streams created created_world set_streams]; by rewrite map_map|].
  apply (queued_enqueued stacks) in He.
  assert (Hin : ∀ j, j ∈ omap probe_job_of entries ↔ j ∈ queued).
  { intros j. by rewrite entries_jobs, app_nil_r. }
  apply (deaths_recovered stacks env 2 (new_id env lab 0) entries created dying.2 dying.2
    (Build_Process (one_by_one env stacks dying.2 entries) Spawning [] entries ts)).
  - apply entries_NoDup.
  - intros d _. by intros ?%elem_of_nil.
  - apply (enqueued_incl stacks queued); [intros j; by rewrite Hin|exact He].
  - split; [destruct Hj as (j & Hjq & Ht); exists j; by rewrite Hin|].
    intros id r Hid Ht Ho. rewrite entries_jobs, app_nil_r. eauto.
  - apply rtc_once, first_life.
  - apply lab_reliable.
  - reflexivity.
  - exact Hs.
  - apply all_left.
  - exact Hts.
Defined.

End WorkerWitness.
