(* ===== verification/ApiKem.v ===== *)
(** * The API's KEM DEMO runs ([services/api/src/routes/kem.rs])

    Creating a run stores its row and queues its job; reading a run back joins its
    endpoint, its console and its matrix. *)

From S2P Require Import Prelude RustStr Json Proto Status Domain Effects World Api.

Record NewKemRun := {
  mode : KemRunMode.t;
  endpoint : string;
  run_groups : list string;
}.

Record KemRunDetail := {
  detail_run : KemRun.t;
  detail_endpoint : Endpoint.t;
  detail_logs : list KemRunLog.t;
  detail_cells : list KemMatrixCell.t;
}.

Section kem.
Context {J : SerdeJson} (env : Env).

Local Open Scope api_scope.

(** ** Creating *)

(** [... FROM endpoints WHERE slug = $1], at most one row. *)
Definition endpoint_by_slug (slug : string) (d : Db) : option Endpoint.t :=
  first (filter (λ e, e.(Endpoint.slug) = slug) (map snd (map_to_list d.(endpoints)))).

(** The row of the [INSERT INTO kem_runs], the column defaults included. *)
Definition new_run_row (id : Uuid) (at_ : DateTime) (body : NewKemRun) (e : Endpoint.t)
    : KemRun.t := {|
  KemRun.id := id; KemRun.mode := body.(mode); KemRun.endpoint_id := e.(Endpoint.id);
  KemRun.status := TaskStatus.Pending; KemRun.kem_groups := body.(run_groups);
  KemRun.created_at := at_; KemRun.finished_at := None;
|}.

(** The statement: a new key, and the endpoint must still be there. *)
Definition insert_run (n : nat) (body : NewKemRun) (e : Endpoint.t) (at_ : DateTime) (d : Db)
    : result string (KemRun.t * Db) :=
  let id := env.(fresh_uuid) n 0 in
  let row := new_run_row id at_ body e in
  match d.(kem_runs) !! id, d.(endpoints) !! e.(Endpoint.id) with
  | Some _, _ => Err "duplicate key value violates unique constraint"
  | None, None => Err "violates foreign key constraint"
  | None, Some _ => Ok (row, with_kem_runs <[id := row]> d)
  end.

Definition insert_run_op (body : NewKemRun) (e : Endpoint.t) : op World KemRun.t := λ w,
  sql env (insert_run w.(steps) body e) w.

Definition kem_job (run : KemRun.t) (e : Endpoint.t) (groups : list string) : KemJob.t := {|
  KemJob.run_id := run.(KemRun.id); KemJob.mode := run.(KemRun.mode);
  KemJob.host := e.(Endpoint.host); KemJob.port := as_u16 e.(Endpoint.port);
  KemJob.kem_groups := groups;
|}.

Definition create_run (body : NewKemRun) : api KemRun.t :=
  do found := api_op Database (sql env (λ _ d, Ok (endpoint_by_slug body.(endpoint) d, d))) in
  do e := Ret (ok_or (NotFound "endpoint") found) in
  if negb e.(Endpoint.enabled) then
    api_err (Conflict ("endpoint " +:+ e.(Endpoint.slug) +:+ " is disabled"))
  else if bool_decide (body.(mode) = KemRunMode.GroupCompat) && (length body.(run_groups) =? 0) then
    api_err (BadRequest "select at least one key_share group")
  else
    do run := api_op Database (insert_run_op body e) in
    enqueue_kem env (kem_job run e body.(run_groups)) >>
    api_ret run.

(** ** Reading *)

Definition run_created_ge (a b : KemRun.t) : Prop :=
  (b.(KemRun.created_at) ≤ a.(KemRun.created_at))%Z.

#[local] Instance run_created_ge_dec : RelDecision run_created_ge.
Proof. intros a b. unfold run_created_ge. apply _. Defined.

(** [list_runs]: at least 1 and at most 100 rows, latest first. *)
Definition list_runs (limit : Z) : api (list KemRun.t) :=
  api_op Database (sql env (λ _ d,
    Ok (take (Z.to_nat (clamp 1 100 limit))
          (merge_sort run_created_ge (map snd (map_to_list d.(kem_runs)))), d))).

Definition seq_le (a b : KemRunLog.t) : Prop := (a.(KemRunLog.seq) ≤ b.(KemRunLog.seq))%Z.

#[local] Instance seq_le_dec : RelDecision seq_le.
Proof. intros a b. unfold seq_le. apply _. Defined.

(** [... FROM kem_run_logs WHERE run_id = $1 ORDER BY seq]. *)
Definition logs_in_order (id : Uuid) (d : Db) : list KemRunLog.t :=
  merge_sort seq_le
    (filter (λ l, l.(KemRunLog.run_id) = id) (map snd (map_to_list d.(kem_run_logs)))).

(** The order of [text] belongs to the collation of the database. *)
Context (collate : string → string → bool).

Definition cell_le (a b : KemMatrixCell.t) : Prop :=
  (collate a.(KemMatrixCell.kem) b.(KemMatrixCell.kem)
   && (negb (collate b.(KemMatrixCell.kem) a.(KemMatrixCell.kem))
       || collate a.(KemMatrixCell.adapter) b.(KemMatrixCell.adapter))) = true.

#[local] Instance cell_le_dec : RelDecision cell_le.
Proof. intros a b. unfold cell_le. apply _. Defined.

(** [... FROM kem_matrix_cells WHERE run_id = $1 ORDER BY kem, adapter]. *)
Definition cells_in_order (id : Uuid) (d : Db) : list KemMatrixCell.t :=
  merge_sort cell_le
    (filter (λ c, c.(KemMatrixCell.run_id) = id) (map snd (map_to_list d.(kem_matrix_cells)))).

Definition get_run (id : Uuid) : api KemRunDetail :=
  do found := api_op Database (sql env (λ _ d, Ok (d.(kem_runs) !! id, d))) in
  do run := Ret (ok_or (NotFound "kem run") found) in
  do row := api_op Database (sql env (λ _ d, Ok (d.(endpoints) !! run.(KemRun.endpoint_id), d))) in
  do e := Ret (ok_or RowNotFound row) in
  do logs := api_op Database (sql env (λ _ d, Ok (logs_in_order id d, d))) in
  do cells := api_op Database (sql env (λ _ d, Ok (cells_in_order id d, d))) in
  api_ret {| detail_run := run; detail_endpoint := e; detail_logs := logs;
             detail_cells := cells |}.

End kem.
