(* ===== verification/ApiKemFacts.v ===== *)
(** * From the request to the console: the life of a KEM DEMO run

    What [create_run] stores and queues, what the worker makes of it, and what [get_run]
    then shows are the same run. *)

From S2P Require Import Prelude RustStr Json Proto Status Domain KemOrder Effects Rely World Registry.
From S2P Require Import Store Stream Kem KemFacts Api Walk Footprint Worker WorkerFacts KemCompany.
From S2P Require Import WorkerStory ApiKem Fixtures.

(** ** What the handler of a run keeps *)

Lemma handle_kept {J : SerdeJson} {RJ : ReportJson} {U : UuidDisplay} {C : Chrono} env bases job :
  preserves kept (handle env bases job).
Proof.
  assert (Hsql : ∀ X (q : DateTime → Db → result string (X * Db)),
    (∀ at_ d x d', q at_ d = Ok (x, d') → d'.(endpoints) = d.(endpoints) ∧
       (console_keyed d → console_keyed d')) → leaves kept (sql env q)).
  { intros X q Hq. apply leaves_sql; [done|]. intros w at_ x d Hd. by apply Hq in Hd. }
  apply kem_handle_leaves.
  - apply quiet_asking. intros w w' [Hd _]. unfold kept. by rewrite Hd.
  - split; intros; try (apply Hsql; intros at' d x d').
    + done.
    + intros [= _ <-]. split; [done|]. by apply console_keyed_same.
    + destruct (kem_runs d !! _); [|done]. destruct (kem_run_logs d !! _); [done|].
      intros [= _ <-]. split; [done|]. by apply console_keyed_log.
    + destruct (kem_runs d !! _); [|done]. intros [= _ <-]. split; [done|].
      by apply console_keyed_cell.
    + by apply leaves_redis_publish.
    + intros [= _ <-]. split; [done|]. by apply console_keyed_same.
Qed.

(** ** Reading the console back *)

Section read.
Context {J : SerdeJson} {U : UuidDisplay} {C : Chrono}.

#[local] Instance seq_le_trans : Transitive seq_le.
Proof. intros a b c. unfold seq_le. lia. Qed.

#[local] Instance seq_le_total : Total seq_le.
Proof. intros a b. unfold seq_le. lia. Qed.

(** The lines of a run, numbered. *)
Definition numbered (run_id : Uuid) (lines : list line) : list KemRunLog.t :=
  imap (λ i, log_row run_id (Z.of_nat (S i))) lines.

Definition stored (run_id : Uuid) (lines : list line) (d : Db) : Prop :=
  ∀ seq, d.(kem_run_logs) !! (run_id, seq)
    = if decide (0 < seq)%Z then log_row run_id seq <$> lines !! Z.to_nat (seq - 1) else None.

Lemma elem_of_numbered run_id lines d l :
  console_keyed d → stored run_id lines d →
  l ∈ filter (λ l, l.(KemRunLog.run_id) = run_id) (map snd (map_to_list d.(kem_run_logs))) ↔
  l ∈ numbered run_id lines.
Proof.
  intros Hk Hst. rewrite list_elem_of_filter, list_elem_of_fmap. split.
  - intros [Hid ([k l'] & -> & Hin%elem_of_map_to_list)]. cbn [snd] in *.
    pose proof (ck_logs _ Hk _ _ Hin) as ->. rewrite Hid in Hin. rewrite Hst in Hin.
    case_decide as Hpos; [|done].
    apply fmap_Some in Hin as (ln & Hln & ->). apply elem_of_lookup_imap.
    exists (Z.to_nat (KemRunLog.seq l' - 1)), ln. split; [|done].
    f_equal. rewrite Nat2Z.inj_succ, Z2Nat.id by lia. lia.
  - intros (i & ln & -> & Hln)%elem_of_lookup_imap. split; [done|].
    exists ((run_id, Z.of_nat (S i)), log_row run_id (Z.of_nat (S i)) ln). split; [done|].
    apply elem_of_map_to_list. rewrite Hst, decide_True by lia.
    replace (Z.to_nat (Z.of_nat (S i) - 1)) with i by lia. by rewrite Hln.
Qed.

Lemma logs_in_order_numbered run_id lines d :
  console_keyed d → stored run_id lines d → logs_in_order run_id d = numbered run_id lines.
Proof.
  intros Hk Hst. apply (merge_sort_unique seq_le).
  - intros a b (i & x & -> & Hx)%elem_of_lookup_imap (j & y & -> & Hy)%elem_of_lookup_imap.
    unfold seq_le. cbn [KemRunLog.seq log_row]. intros H1 H2. assert (i = j) as <- by lia. congruence.
  - apply imap_sorted. intros i j x y Hij. unfold seq_le. cbn [KemRunLog.seq log_row]. lia.
  - apply NoDup_Permutation.
    + apply NoDup_filter, (NoDup_rows (λ l, (l.(KemRunLog.run_id), l.(KemRunLog.seq)))).
      intros k l Hl. symmetry. by apply (ck_logs _ Hk).
    + apply imap_NoDup. intros i j x y Heq. apply (f_equal KemRunLog.seq) in Heq.
      cbn [KemRunLog.seq log_row] in Heq. lia.
    + intros l. by apply elem_of_numbered.
Qed.

(** The cells of a run, each once. *)
Lemma cells_in_order_spec collate run_id d :
  console_keyed d →
  NoDup (map cell_key (cells_in_order collate run_id d)) ∧
  ∀ c, c ∈ cells_in_order collate run_id d ↔
       c.(KemMatrixCell.run_id) = run_id ∧ d.(kem_matrix_cells) !! cell_key c = Some c.
Proof.
  intros Hk. unfold cells_in_order. rewrite merge_sort_Permutation. split.
  - apply NoDup_fmap_2_strong.
    + intros c c'. rewrite !list_elem_of_filter, !list_elem_of_fmap.
      intros [_ ([k c1] & -> & H1%elem_of_map_to_list)] [_ ([k' c2] & -> & H2%elem_of_map_to_list)].
      cbn [snd] in *. rewrite <-(ck_cells _ Hk _ _ H1), <-(ck_cells _ Hk _ _ H2). intros ->. congruence.
    + apply NoDup_filter, (NoDup_rows cell_key). intros k c Hc. symmetry. by apply (ck_cells _ Hk).
  - intros c. rewrite merge_sort_Permutation, list_elem_of_filter, list_elem_of_fmap. split.
    + intros [Hid ([k c'] & -> & Hc%elem_of_map_to_list)]. cbn [snd] in *. split; [done|].
      by rewrite <-(ck_cells _ Hk _ _ Hc).
    + intros [Hid Hc]. split; [done|]. exists (cell_key c, c). split; [done|].
      by apply elem_of_map_to_list.
Qed.

End read.

(** ** Creating a run *)

Section create.
Context {J : SerdeJson} (env : Env) (Hr : reliable env).

Definition new_run_id (w : World) : Uuid := env.(fresh_uuid) (S w.(steps)) 0.

(** The endpoint the request names: the one row with that slug, switched on. *)
Record names_endpoint (body : NewKemRun) (e : Endpoint.t) (d : Db) : Prop := {
  ep_row : d.(endpoints) !! e.(Endpoint.id) = Some e;
  ep_slug : e.(Endpoint.slug) = body.(endpoint);
  ep_unique : ∀ k e', d.(endpoints) !! k = Some e' → e'.(Endpoint.slug) = body.(endpoint) → e' = e;
  ep_enabled : e.(Endpoint.enabled) = true;
  ep_port : (1 ≤ e.(Endpoint.port) ≤ 65535)%Z;
}.

Lemma endpoint_by_slug_named body e d :
  names_endpoint body e d → endpoint_by_slug body.(endpoint) d = Some e.
Proof.
  intros [Hrow Hslug Huniq _ _]. unfold endpoint_by_slug.
  set (l := filter _ _). assert (Hin : ∀ e', e' ∈ l ↔ e' = e).
  { intros e'. unfold l. rewrite list_elem_of_filter, list_elem_of_fmap. split.
    - intros [Hs ([k e0] & -> & Hk%elem_of_map_to_list)]. by eapply Huniq.
    - intros ->. split; [done|]. exists (Endpoint.id e, e). split; [done|].
      by apply elem_of_map_to_list. }
  clearbody l. destruct l as [|e' l]; [by destruct (not_elem_of_nil e (proj2 (Hin e) eq_refl))|].
  cbn [first]. f_equal. apply Hin. by left.
Qed.

Definition created_run (body : NewKemRun) (e : Endpoint.t) (w : World) : KemRun.t :=
  new_run_row (new_run_id w) (env.(clock) (S w.(steps))) body e.

Lemma run_create_run body e w :
  names_endpoint body e w.(db) →
  (body.(mode) = KemRunMode.GroupCompat → body.(run_groups) ≠ []) →
  w.(db).(kem_runs) !! new_run_id w = None →
  ∃ w1, run (create_run env body) w = (Ok (Ok (created_run body e w)), w1) ∧
    w1.(db) = with_kem_runs <[new_run_id w := created_run body e w]> w.(db) ∧
    w1.(streams) = w.(streams) ++
      [(STREAM_KEM, Kem_job (kem_job (created_run body e w) e body.(run_groups)))].
Proof.
  intros He Hg Hfree. unfold create_run.
  rewrite run_api_bind, run_api_op, sql_works by done. cbn [fst snd map_err].
  rewrite (endpoint_by_slug_named body e) by done. rewrite run_api_bind. cbn [ok_or run].
  rewrite (ep_enabled _ _ _ He). cbn [negb].
  replace (bool_decide _ && _) with false.
  2:{ symmetry. apply andb_false_iff. destruct (decide (body.(mode) = KemRunMode.GroupCompat)) as [Hm|Hm].
      - right. specialize (Hg Hm). by destruct (run_groups body).
      - left. by apply bool_decide_eq_false. }
  rewrite run_api_bind, run_api_op. unfold insert_run_op. rewrite sql_works by done.
  unfold insert_run. change (steps (set_db (db w) w)) with (S (steps w)).
  fold (new_run_id w). change (db (set_db (db w) w)) with (db w).
  rewrite Hfree, (ep_row _ _ _ He). cbn [fst snd map_err]. unfold enqueue_kem.
  rewrite run_api_bind, run_api_op, xadd_works by done. cbn [fst snd map_err].
  eexists. split; [reflexivity|]. done.
Qed.

Lemma run_get_run collate id d r e w :
  w.(db) = d → d.(kem_runs) !! id = Some r →
  d.(endpoints) !! r.(KemRun.endpoint_id) = Some e →
  ∃ w', run (get_run env collate id) w = (Ok (Ok {|
    detail_run := r; detail_endpoint := e; detail_logs := logs_in_order id d;
    detail_cells := cells_in_order collate id d |}), w').
Proof.
  intros <- Hrun He. unfold get_run.
  rewrite run_api_bind, run_api_op, sql_works by done. cbn [fst snd map_err].
  rewrite Hrun, run_api_bind. cbn [ok_or run].
  rewrite run_api_bind, run_api_op, sql_works by done. cbn [fst snd map_err].
  change (db (set_db (db w) w)) with (db w). rewrite He, run_api_bind. cbn [ok_or run].
  rewrite run_api_bind, run_api_op, sql_works by done. cbn [fst snd map_err].
  rewrite run_api_bind, run_api_op, sql_works by done. by eexists.
Qed.

End create.

(** ** From the request to the end *)

(** The cells the events [evs] of a run amount to. *)
Definition cell_of (run_id : Uuid) (evs : list (string * Event)) (kem adapter : string)
    : option KemMatrixCell.t := foldl (cell_told run_id kem adapter) None evs.

(** The console of a run, whoever asks for it, from [w] on: the lines [lines] in order, the
    cells of [evs], the endpoint asked for, and that the run is over. *)
Definition console_shows {J : SerdeJson} {U : UuidDisplay} {C : Chrono} (env : Env) (bases : gmap string string)
    (run_id : Uuid) (e : Endpoint.t) (lines : list line) (evs : list (string * Event)) (w : World)
    : Prop :=
  ∀ env' collate w', reliable env' → company env bases run_id w w' →
  ∃ detail w'', run (get_run env' collate run_id) w' = (Ok (Ok detail), w'') ∧
    detail.(detail_logs) = numbered run_id lines ∧
    NoDup (map cell_key detail.(detail_cells)) ∧
    (∀ c, c ∈ detail.(detail_cells) ↔ ∃ kem adapter, cell_of run_id evs kem adapter = Some c) ∧
    detail.(detail_endpoint) = e ∧
    detail.(detail_run).(KemRun.status) ∈ [TaskStatus.Finished; TaskStatus.Failed] ∧
    is_Some detail.(detail_run).(KemRun.finished_at).

Lemma cell_told_key run_id kem adapter c evs :
  (∀ x, c = Some x → cell_key x = (run_id, kem, adapter)) →
  ∀ x, foldl (cell_told run_id kem adapter) c evs = Some x → cell_key x = (run_id, kem, adapter).
Proof.
  revert c. induction evs as [|e evs IH]; intros c Hc; [done|]. cbn [foldl]. apply IH.
  unfold cell_told. intros x. repeat case_match; try apply Hc. intros [= <-].
  match goal with H : (kem, adapter) = _ |- _ => by injection H as -> -> end.
Qed.

Lemma ended_console {J : SerdeJson} {U : UuidDisplay} {C : Chrono} env bases (job : KemJob.t) row w0 status lines e w :
  status ∈ [TaskStatus.Finished; TaskStatus.Failed] →
  ended_with job row (seen job.(KemJob.run_id) w0) status lines w →
  (∀ kem adapter, w0.(db).(kem_matrix_cells) !! (job.(KemJob.run_id), kem, adapter) = None) →
  console_keyed w.(db) → w.(db).(endpoints) !! row.(KemRun.endpoint_id) = Some e →
  ∃ evs, told job.(KemJob.run_id) w = told job.(KemJob.run_id) w0 ++ evs
      ++ [(kem_channel job.(KemJob.run_id), Kem_event (KemEvent.Finished job.(KemJob.run_id)))] ∧
    log_events evs = imap (λ i, log_event job.(KemJob.run_id) (Z.of_nat (S i))) lines ∧
    Forall progress_event evs ∧
    console_shows env bases job.(KemJob.run_id) e lines evs w.
Proof.
  intros Hst (evs & at_ & Hrow & Htold & [Hlogs Hlog Hcells Honly]) H0 Hk He. exists evs.
  split_and!; [done..|]. intros env' collate w' Hr' [Hsp [Hep Hk']].
  edestruct (run_get_run env' Hr' collate job.(KemJob.run_id) w'.(db)) as [w'' Hget]; [done|..].
  - by rewrite (sp_run _ _ _ _ _ Hsp).
  - by rewrite Hep.
  - eexists _, w''. split; [exact Hget|]. cbn [detail_logs detail_endpoint detail_run detail_cells].
    destruct (cells_in_order_spec collate job.(KemJob.run_id) w'.(db) (Hk' Hk)) as [Hnd Hin].
    split_and!; [|done| |done|done|by eexists].
    + apply logs_in_order_numbered; [by apply Hk'|].
      intros seq. by rewrite (sp_logs _ _ _ _ _ Hsp).
    + assert (Hrows : ∀ kem adapter, cell_of job.(KemJob.run_id) evs kem adapter
        = w'.(db).(kem_matrix_cells) !! (job.(KemJob.run_id), kem, adapter)).
      { intros kem adapter. rewrite (sp_cells _ _ _ _ _ Hsp), Hcells. unfold seen. cbn. by rewrite H0. }
      intros c. rewrite Hin. split.
      * intros [Hid Hc]. eexists _, _. rewrite Hrows, <-Hid. exact Hc.
      * intros (kem & adapter & Hc). rewrite Hrows in Hc. pose proof Hc as Hkey.
        apply (ck_cells _ (Hk' Hk)) in Hkey. rewrite <-Hkey. split; [by injection Hkey|done].
Qed.

(** What becomes of a request: it stores a pending run and queues its job, for the host and
    port of the endpoint; a worker that is given the job once, whatever else it is given,
    ends the run; and what [GET /kem/runs/{id}] shows from then on is what was published. *)
Lemma created_run_over {J : SerdeJson} {RJ : ReportJson} {U : UuidDisplay} {UL : UuidDisplayLaws}
    {C : Chrono} {V : RedisValue} {JJ : JobJson} env body e w :
  reliable env → names_endpoint body e w.(db) →
  (body.(mode) = KemRunMode.GroupCompat → body.(run_groups) ≠ []) →
  w.(db).(kem_runs) !! new_run_id env w = None →
  (∀ seq, w.(db).(kem_run_logs) !! (new_run_id env w, seq) = None) →
  (∀ kem adapter, w.(db).(kem_matrix_cells) !! (new_run_id env w, kem, adapter) = None) →
  console_keyed w.(db) →
  ∃ r job w1,
    run (create_run env body) w = (Ok (Ok r), w1) ∧
    r.(KemRun.status) = TaskStatus.Pending ∧
    job = {| KemJob.run_id := r.(KemRun.id); KemJob.mode := body.(mode);
             KemJob.host := e.(Endpoint.host); KemJob.port := e.(Endpoint.port);
             KemJob.kem_groups := body.(run_groups) |} ∧
    w1.(streams) = w.(streams) ++ [(STREAM_KEM, Kem_job job)] ∧
    ∀ worker bases concurrency w2 s l1 d l2,
    reliable worker → company worker bases r.(KemRun.id) w1 w2 →
    rtc (worker_step worker bases concurrency) (starts w2) s → Forall halted s.(tasks) →
    s.(started) = l1 ++ d :: l2 → Forall (not_of_run r.(KemRun.id)) (l1 ++ l2) →
    kem_job_of d = Some job →
    ∃ lines l evs,
      l.(line_level) = "result" ∧
      told r.(KemRun.id) s.(world) = told r.(KemRun.id) w2 ++ evs
        ++ [(kem_channel r.(KemRun.id), Kem_event (KemEvent.Finished r.(KemRun.id)))] ∧
      log_events evs
        = imap (λ i, log_event r.(KemRun.id) (Z.of_nat (S i))) (lines ++ [l]) ∧
      Forall progress_event evs ∧
      console_shows worker bases r.(KemRun.id) e (lines ++ [l]) evs s.(world).
Proof.
  intros Hr He Hg Hfree Hnolog Hnocell Hkeyed. set (r := created_run env body e w).
  destruct (run_create_run env Hr body e w He Hg Hfree) as (w1 & Hrun & Hd1 & Hs1). fold r in Hrun, Hd1, Hs1.
  set (job := kem_job r e body.(run_groups)).
  exists r, job, w1. split; [done|]. split; [done|]. split.
  { unfold job, kem_job. f_equal. apply as_u16_small. pose proof (ep_port _ _ _ He). lia. }
  split; [done|]. intros worker bases concurrency w2 s l1 d l2 Hrw [Hsp [Hep Hk]] Hs Hh Hst Hl Hd.
  set (row := run_with_status TaskStatus.Running r.(KemRun.finished_at) r).
  set (R := company worker bases r.(KemRun.id)).
  set (I := λ w, console_keyed w.(db) ∧ w.(db).(endpoints) !! e.(Endpoint.id) = Some e).
  set (Q := λ w, (∃ status lines l, status ∈ [TaskStatus.Finished; TaskStatus.Failed] ∧
    l.(line_level) = "result" ∧
    ended_with job row (seen r.(KemRun.id) w2) status (lines ++ [l]) w) ∧ I w).
  assert (HRI : stable R I) by (intros w3 w4 [_ [Hep' Hk']] [Hk3 He3]; split; [auto|by rewrite Hep']).
  assert (Hend : Q s.(world)).
  { eapply (run_in_process worker bases r.(KemRun.id) concurrency w2 s l1 d l2); [done..| |].
    - intros w3 w4 Hw [(status & lines & l & ? & ? & He3) HI]. split; [|by eapply HRI].
      exists status, lines, l. split_and!; [done..|].
      refine (ended_with_stable worker bases job R _ _ _ _ _ w3 w4 Hw He3). by intros ? ? [].
    - rewrite (dispatch_kem worker bases d job Hd).
      refine (wp_mono R _ _ _ _ _ (wp_and_invariant R kept _ _ I _ HRI _
        (handle_kept worker bases job) _
        (handle_transcript worker bases Hrw job R _ w2 r _ _))).
      + by intros res w3 [[_ ?] ?].
      + intros w3 w4 [Hep' Hk'] [Hk3 He3]. split; [auto|by rewrite Hep'].
      + split; [apply Hk; rewrite Hd1; by apply (console_keyed_same w.(db))|]. rewrite Hep, Hd1. apply (ep_row _ _ _ He).
      + by intros w3 w4 [].
      + change (KemJob.run_id job) with (KemRun.id r).
        rewrite (sp_run _ _ _ _ _ Hsp), Hd1. apply lookup_insert_eq.
      + intros seq. change (KemJob.run_id job) with (KemRun.id r).
        rewrite (sp_logs _ _ _ _ _ Hsp), Hd1. apply Hnolog. }
  destruct Hend as [(status & lines & l & Hstat & Hlev & Hend) [Hk3 He3]].
  destruct (ended_console worker bases job row w2 _ _ e _ Hstat Hend) as (evs & H); [|done..|].
  - intros kem adapter. change (KemJob.run_id job) with (KemRun.id r).
    rewrite (sp_cells _ _ _ _ _ Hsp), Hd1. apply Hnocell.
  - by exists lines, l, evs.
Qed.

Module ApiKemWitness.
Import Fixtures.Lab WorkerStory.WorkerWitness.

Definition lab_endpoint : Endpoint.t := {|
  Endpoint.id := 3; Endpoint.slug := "lab"; Endpoint.label := "Lab"; Endpoint.label_zh := "Lab";
  Endpoint.host := "lab.example"; Endpoint.port := 8443; Endpoint.notes := None;
  Endpoint.enabled := true |}.

Definition lab : World := {|
  db := {|
    endpoints := {[ 3%N := lab_endpoint ]}; algorithms := ∅; tests := ∅; subtasks := ∅;
    subtask_reports := ∅; kem_runs := ∅; kem_run_logs := ∅; kem_matrix_cells := ∅;
    cavp_packs := ∅; cavp_sessions := ∅ |};
  streams := []; published := []; acked := []; cache := ∅; steps := 0 |}.

Definition request : NewKemRun := {|
  mode := KemRunMode.GroupCompat; endpoint := "lab"; run_groups := ["MLKEM768"] |}.

Lemma request_endpoint : names_endpoint request lab_endpoint lab.(db).
Proof.
  split; [reflexivity..| |reflexivity|cbn; lia].
  intros k e' Hk _. cbn in Hk. by apply lookup_singleton_Some in Hk as [_ <-].
Qed.

(** A run among the subtasks of a test: the round of [WorkerStory], with a row for its KEM job. *)
Definition mixed : World := set_db (with_kem_runs (λ _, {[ 7%N := kem_run ]}) world.(db)) world.

Lemma worker_completes_runs_witness :
  ∃ status lines l, status ∈ [TaskStatus.Finished; TaskStatus.Failed] ∧
    l.(line_level) = "result" ∧
    ended_with kem_job (run_with_status TaskStatus.Running None kem_run) (seen 7 mixed) status (lines ++ [l])
      (one_by_one env bases mixed deliveries).
Proof.
  destruct (worker_can_run env bases 2 mixed deliveries replies) as (ts & Hts & Hs);
    [lia|reflexivity|].
  apply (worker_completes_runs env bases kem_job 2 mixed _ (take 3 deliveries)
    (Delivery.Build_t STREAM_KEM "5-0" "kem") [] kem_run (λ n, eq_refl) Hs Hts);
    [reflexivity| |reflexivity..].
  repeat constructor; intros j [=].
Defined.

End ApiKemWitness.
