(* ===== verification/ApiCavp.v ===== *)
(** * The API's CAVP sessions ([services/api/src/routes/cavp.rs])

    Question packs are handed out, a session remembers the prompt it was started with, and
    a submission is graded by the validator of [Cavp] against the key of the pack. *)

From S2P Require Import Prelude RustStr Json Cavp Status Domain Effects World Api.

(** What [serde] derives for the key and the report. *)
Class CavpJson `{SerdeJson} := {
  answer_key_from_value : Value → result string AnswerKey;
  report_value : ValidationReport → Value;
}.

Section cavp.
Context {J : SerdeJson} {X : Hex} {CJ : CavpJson} (env : Env).

Local Open Scope api_scope.

Record PackSummary := {
  sum_slug : string;
  sum_capability : Capability.t;
  sum_parameter_set : string;
  sum_vs_id : Z;
}.

Record PackDetail := {
  pack_slug : string;
  pack_capability : Capability.t;
  pack_parameter_set : string;
  pack_vs_id : Z;
  pack_registration : Value;
  pack_prompt : Value;
  pack_example : Value;
}.

Record SessionDetail := {
  ses_id : Uuid;
  ses_slug : string;
  ses_capability : Capability.t;
  ses_parameter_set : string;
  ses_vs_id : Z;
  ses_prompt : Value;
  ses_submitted : option Value;
  ses_validation : option Value;
}.

(** ** Packs *)

Definition vs_id_le (a b : CavpPackRow.t) : Prop :=
  (a.(CavpPackRow.vs_id) ≤ b.(CavpPackRow.vs_id))%Z.

#[local] Instance vs_id_le_dec : RelDecision vs_id_le.
Proof. intros a b. unfold vs_id_le. apply _. Defined.

Definition pack_summary (p : CavpPackRow.t) : PackSummary := {|
  sum_slug := p.(CavpPackRow.slug); sum_capability := p.(CavpPackRow.capability);
  sum_parameter_set := p.(CavpPackRow.parameter_set); sum_vs_id := p.(CavpPackRow.vs_id);
|}.

Definition list_packs : api (list PackSummary) :=
  api_op Database (sql env (λ _ d,
    Ok (map pack_summary (merge_sort vs_id_le (map snd (map_to_list d.(cavp_packs)))), d))).

(** [... FROM cavp_packs WHERE slug = $1], at most one row. *)
Definition pack_by_slug (slug : string) (d : Db) : option CavpPackRow.t :=
  first (filter (λ p, p.(CavpPackRow.slug) = slug) (map snd (map_to_list d.(cavp_packs)))).

(** [SELECT id FROM cavp_packs WHERE slug = $1]. *)
Definition pack_id_of (slug : string) (d : Db) : option Uuid :=
  CavpPackRow.id <$> pack_by_slug slug d.

Definition fetch_pack (slug : string) : api CavpPackRow.t :=
  do found := api_op Database (sql env (λ _ d, Ok (pack_by_slug slug d, d))) in
  Ret (ok_or (NotFound "cavp pack") found).

Definition is_example (c : Value) : bool :=
  bool_decide ((value_get "tcId" c ≫= as_i64_val) = Some 1%Z).

(** The case of the key with [tcId] 1. *)
Definition example_answer (answer_key : Value) : Value :=
  unwrap_or json_null
    (c ← value_get "cases" answer_key; cases ← as_array c; find_first is_example cases).

Definition get_pack (slug : string) : api PackDetail :=
  do p := fetch_pack slug in
  api_ret {|
    pack_slug := slug; pack_capability := p.(CavpPackRow.capability);
    pack_parameter_set := p.(CavpPackRow.parameter_set); pack_vs_id := p.(CavpPackRow.vs_id);
    pack_registration := p.(CavpPackRow.registration); pack_prompt := p.(CavpPackRow.prompt);
    pack_example := example_answer p.(CavpPackRow.answer_key);
  |}.

(** ** Sessions *)

(** The row of the [INSERT INTO cavp_sessions], the column defaults included. *)
Definition new_session_row (id pack_id : Uuid) (at_ : DateTime) (p : CavpPackRow.t)
    : CavpSessionRow.t := {|
  CavpSessionRow.id := id; CavpSessionRow.pack_id := pack_id;
  CavpSessionRow.capability := p.(CavpPackRow.capability);
  CavpSessionRow.parameter_set := p.(CavpPackRow.parameter_set);
  CavpSessionRow.vs_id := p.(CavpPackRow.vs_id); CavpSessionRow.prompt := p.(CavpPackRow.prompt);
  CavpSessionRow.submitted := None; CavpSessionRow.validation := None;
  CavpSessionRow.created_at := at_;
|}.

(** The statement: a new key, and the pack must still be there. *)
Definition insert_session (n : nat) (pack_id : Uuid) (p : CavpPackRow.t) (at_ : DateTime) (d : Db)
    : result string (Uuid * Db) :=
  let id := env.(fresh_uuid) n 0 in
  match d.(cavp_sessions) !! id, d.(cavp_packs) !! pack_id with
  | Some _, _ => Err "duplicate key value violates unique constraint"
  | None, None => Err "violates foreign key constraint"
  | None, Some _ =>
      Ok (id, with_cavp_sessions <[id := new_session_row id pack_id at_ p]> d)
  end.

Definition insert_session_op (pack_id : Uuid) (p : CavpPackRow.t) : op World Uuid := λ w,
  sql env (insert_session w.(steps) pack_id p) w.

Definition create_session (slug : string) : api SessionDetail :=
  do p := fetch_pack slug in
  do row := api_op Database (sql env (λ _ d, Ok (pack_id_of slug d, d))) in
  do pack_id := Ret (ok_or RowNotFound row) in
  do id := api_op Database (insert_session_op pack_id p) in
  api_ret {|
    ses_id := id; ses_slug := slug; ses_capability := p.(CavpPackRow.capability);
    ses_parameter_set := p.(CavpPackRow.parameter_set); ses_vs_id := p.(CavpPackRow.vs_id);
    ses_prompt := p.(CavpPackRow.prompt); ses_submitted := None; ses_validation := None;
  |}.

(** The join of a session with its pack: the session and the slug. *)
Definition session_with_slug (id : Uuid) (d : Db) : option (CavpSessionRow.t * string) :=
  s ← d.(cavp_sessions) !! id;
  p ← d.(cavp_packs) !! s.(CavpSessionRow.pack_id);
  Some (s, p.(CavpPackRow.slug)).

Definition session_detail (s : CavpSessionRow.t) (slug : string) : SessionDetail := {|
  ses_id := s.(CavpSessionRow.id); ses_slug := slug;
  ses_capability := s.(CavpSessionRow.capability);
  ses_parameter_set := s.(CavpSessionRow.parameter_set); ses_vs_id := s.(CavpSessionRow.vs_id);
  ses_prompt := s.(CavpSessionRow.prompt); ses_submitted := s.(CavpSessionRow.submitted);
  ses_validation := s.(CavpSessionRow.validation);
|}.

Definition get_session (id : Uuid) : api SessionDetail :=
  do found := api_op Database (sql env (λ _ d, Ok (session_with_slug id d, d))) in
  do row := Ret (ok_or (NotFound "cavp session") found) in
  api_ret (session_detail row.1 row.2).

(** The row after [UPDATE cavp_sessions SET submitted = $2, validation = $3]. *)
Definition graded (doc report : Value) (s : CavpSessionRow.t) : CavpSessionRow.t := {|
  CavpSessionRow.id := s.(CavpSessionRow.id); CavpSessionRow.pack_id := s.(CavpSessionRow.pack_id);
  CavpSessionRow.capability := s.(CavpSessionRow.capability);
  CavpSessionRow.parameter_set := s.(CavpSessionRow.parameter_set);
  CavpSessionRow.vs_id := s.(CavpSessionRow.vs_id); CavpSessionRow.prompt := s.(CavpSessionRow.prompt);
  CavpSessionRow.submitted := Some doc; CavpSessionRow.validation := Some report;
  CavpSessionRow.created_at := s.(CavpSessionRow.created_at);
|}.

Definition pack_of_session (id : Uuid) (d : Db) : option Uuid :=
  CavpSessionRow.pack_id <$> d.(cavp_sessions) !! id.

Definition key_of_pack (id : Uuid) (d : Db) : option Value :=
  CavpPackRow.answer_key <$> d.(cavp_packs) !! id.

Definition validate_session (id : Uuid) (results : string) : api ValidationReport :=
  do row := api_op Database (sql env (λ _ d, Ok (pack_of_session id d, d))) in
  do pack_id := Ret (ok_or (NotFound "cavp session") row) in
  do key_row := api_op Database (sql env (λ _ d, Ok (key_of_pack pack_id d, d))) in
  do key_json := Ret (ok_or RowNotFound key_row) in
  do key := Ret (map_err Api.JsonError (answer_key_from_value key_json)) in
  do report := Ret (map_err (λ e, BadRequest (error_display e)) (validate results key)) in
  let submitted := match json_from_str results with
                   | Ok v => v
                   | Err _ => json_null
                   end in
  api_op Database (sql env (λ _ d,
    Ok (tt, with_cavp_sessions (alter (graded submitted (report_value report)) id) d))) >>
  api_ret report.

End cavp.
