(* ===== verification/ApiCavpFacts.v ===== *)
(** * What a CAVP session promises

    A submission is graded by the validator and remembered; the answer key stays on the
    server, the worked example apart. *)

From S2P Require Import Prelude RustStr Json Cavp Status Domain Effects World Api ApiCavp.

(** ** Looking a pack up *)

Section packs.
Context {J : SerdeJson}.

(** The [UNIQUE] constraint, and the primary key. *)
Record packs_wf (d : Db) : Prop := {
  packs_keyed : ∀ k p, d.(cavp_packs) !! k = Some p → p.(CavpPackRow.id) = k;
  slugs_unique : ∀ k1 k2 p1 p2, d.(cavp_packs) !! k1 = Some p1 → d.(cavp_packs) !! k2 = Some p2 →
    p1.(CavpPackRow.slug) = p2.(CavpPackRow.slug) → k1 = k2;
}.

Lemma pack_by_slug_Some slug d p :
  packs_wf d →
  pack_by_slug slug d = Some p ↔
  p.(CavpPackRow.slug) = slug ∧ d.(cavp_packs) !! p.(CavpPackRow.id) = Some p.
Proof.
  intros [Hk Hu]. unfold pack_by_slug. set (l := filter _ _).
  assert (Hl : ∀ q, q ∈ l ↔ q.(CavpPackRow.slug) = slug ∧ d.(cavp_packs) !! q.(CavpPackRow.id) = Some q).
  { intros q. unfold l. rewrite list_elem_of_filter, list_elem_of_fmap. split.
    - intros [Hs ([k q'] & -> & Hin%elem_of_map_to_list)]. split; [done|]. cbn [snd].
      by rewrite (Hk _ _ Hin).
    - intros [Hs Hq]. split; [done|]. exists (CavpPackRow.id q, q). split; [done|].
      by apply elem_of_map_to_list. }
  rewrite <-Hl. clearbody l. destruct l as [|q l]; cbn [first].
  - split; [done|]. by intros ?%not_elem_of_nil.
  - split; [intros [= ->]; by left|]. intros Hp. f_equal.
    apply Hl in Hp as [Hp1 Hp2]. destruct (proj1 (Hl q) ltac:(by left)) as [Hq1 Hq2].
    assert (CavpPackRow.id q = CavpPackRow.id p) as Hid by (eapply Hu; [done..|congruence]).
    rewrite Hid in Hq2. congruence.
Qed.

End packs.

(** ** A session, from start to grade *)

Section session.
Context {J : SerdeJson} {X : Hex} {CJ : CavpJson} (env : Env) (Hr : reliable env).

Lemma run_fetch_pack slug p w :
  packs_wf w.(db) → p.(CavpPackRow.slug) = slug →
  w.(db).(cavp_packs) !! p.(CavpPackRow.id) = Some p →
  run (fetch_pack env slug) w = (Ok (Ok p), set_db w.(db) w).
Proof.
  intros Hwf Hs Hp. unfold fetch_pack. rewrite run_api_bind, run_api_op, sql_works by done.
  cbn [fst snd map_err]. by rewrite (proj2 (pack_by_slug_Some slug w.(db) p Hwf)).
Qed.

(** [create_session] is four statements; the insert is the third. *)
Definition new_session_id (w : World) : Uuid := env.(fresh_uuid) (2 + w.(steps)) 0.

Lemma run_create_session slug p w :
  packs_wf w.(db) → p.(CavpPackRow.slug) = slug →
  w.(db).(cavp_packs) !! p.(CavpPackRow.id) = Some p →
  w.(db).(cavp_sessions) !! new_session_id w = None →
  ∃ w' at_,
    run (create_session env slug) w = (Ok (Ok (session_detail
      (new_session_row (new_session_id w) p.(CavpPackRow.id) at_ p) slug)), w') ∧
    w'.(db) = with_cavp_sessions
      <[new_session_id w := new_session_row (new_session_id w) p.(CavpPackRow.id) at_ p]> w.(db).
Proof.
  intros Hwf Hs Hp Hfree. unfold create_session.
  rewrite run_api_bind, (run_fetch_pack slug p) by done.
  rewrite run_api_bind, run_api_op, sql_works by done. cbn [fst snd map_err].
  unfold pack_id_of. change (db (set_db (db w) w)) with (db w).
  rewrite (proj2 (pack_by_slug_Some slug w.(db) p Hwf)) by done.
  rewrite run_api_bind. cbn [fmap option_fmap option_map ok_or run].
  rewrite run_api_bind, run_api_op. unfold insert_session_op. rewrite sql_works by done.
  unfold insert_session. cbn [steps db set_db].
  change (fresh_uuid env (S (S (steps w))) 0) with (new_session_id w).
  rewrite Hfree, Hp. cbn [fst snd map_err]. by eexists _, _.
Qed.

Lemma run_get_session id s p w :
  w.(db).(cavp_sessions) !! id = Some s →
  w.(db).(cavp_packs) !! s.(CavpSessionRow.pack_id) = Some p →
  run (get_session env id) w
  = (Ok (Ok (session_detail s p.(CavpPackRow.slug))), set_db w.(db) w).
Proof.
  intros Hs Hp. unfold get_session. rewrite run_api_bind, run_api_op, sql_works by done.
  cbn [fst snd map_err]. unfold session_with_slug. rewrite Hs. cbn [mbind option_bind].
  rewrite Hp. done.
Qed.

Lemma run_validate_session id results s p key w :
  w.(db).(cavp_sessions) !! id = Some s →
  w.(db).(cavp_packs) !! s.(CavpSessionRow.pack_id) = Some p →
  answer_key_from_value p.(CavpPackRow.answer_key) = Ok key →
  match validate results key with
  | Err e => ∃ w', run (validate_session env id results) w
                   = (Ok (Err (BadRequest (error_display e))), w') ∧ w'.(db) = w.(db)
  | Ok report => ∃ w' doc, run (validate_session env id results) w = (Ok (Ok report), w') ∧
      json_from_str results = Ok doc ∧
      w'.(db) = with_cavp_sessions (alter (graded doc (report_value report)) id) w.(db)
  end.
Proof.
  intros Hs Hp Hkey.
  assert (Hrun : run (validate_session env id results) w
    = run (do report := Ret (map_err (λ e, BadRequest (error_display e)) (validate results key)) in
           api_op Database (sql env (λ _ d, Ok (tt, with_cavp_sessions (alter (graded
             (match json_from_str results with Ok v => v | Err _ => json_null end)
             (report_value report)) id) d))) >>
           api_ret report)%api (set_db w.(db) (set_db w.(db) w))).
  { unfold validate_session. rewrite run_api_bind, run_api_op, sql_works by done.
    cbn [fst snd map_err]. unfold pack_of_session. rewrite Hs.
    rewrite run_api_bind. cbn [fmap option_fmap option_map ok_or run].
    rewrite run_api_bind, run_api_op, sql_works by done. cbn [fst snd map_err].
    unfold key_of_pack. change (db (set_db (db w) w)) with (db w). rewrite Hp.
    rewrite run_api_bind. cbn [fmap option_fmap option_map ok_or run].
    by rewrite run_api_bind, Hkey. }
  rewrite Hrun. clear Hrun.
  destruct (validate results key) as [report|e] eqn:Hv; rewrite run_api_bind; cbn [map_err run].
  - rewrite run_api_bind, run_api_op, sql_works by done. cbn [fst snd map_err].
    unfold validate in Hv. destruct (json_from_str results) as [doc|e] eqn:Hj; [|done].
    by eexists _, _.
  - by eexists.
Qed.

End session.

(** ** Two servers that differ in their answer keys *)

Section rekeyed.
Context {J : SerdeJson} {X : Hex} {CJ : CavpJson} (env : Env).
Context (key : CavpPackRow.t → Value).

(** The same pack with another key, and the same tables with the keys of all packs changed. *)
Definition rekey (p : CavpPackRow.t) : CavpPackRow.t := {|
  CavpPackRow.id := p.(CavpPackRow.id); CavpPackRow.slug := p.(CavpPackRow.slug);
  CavpPackRow.capability := p.(CavpPackRow.capability);
  CavpPackRow.parameter_set := p.(CavpPackRow.parameter_set);
  CavpPackRow.vs_id := p.(CavpPackRow.vs_id); CavpPackRow.prompt := p.(CavpPackRow.prompt);
  CavpPackRow.answer_key := key p; CavpPackRow.registration := p.(CavpPackRow.registration);
|}.

Definition rekeyed_db (d : Db) : Db := {|
  endpoints := d.(endpoints); algorithms := d.(algorithms);
  tests := d.(tests); subtasks := d.(subtasks); subtask_reports := d.(subtask_reports);
  kem_runs := d.(kem_runs); kem_run_logs := d.(kem_run_logs);
  kem_matrix_cells := d.(kem_matrix_cells);
  cavp_packs := rekey <$> d.(cavp_packs); cavp_sessions := d.(cavp_sessions) |}.

Definition rekeyed (w : World) : World := {|
  db := rekeyed_db w.(db); streams := w.(streams); published := w.(published);
  acked := w.(acked); cache := w.(cache); steps := w.(steps) |}.

(** The outcome on the other server, when the values differ by [g]. *)
Definition carried {A B} (g : A → B) (r : result string A * World) : result string B * World :=
  (match r.1 with
   | Ok a => Ok (g a)
   | Err e => Err e
   end, rekeyed r.2).

Lemma sql_carried {A B} (g : A → B) (q : DateTime → Db → result string (A * Db))
    (q' : DateTime → Db → result string (B * Db)) w :
  (∀ at_, q' at_ (rekeyed_db w.(db)) =
    match q at_ w.(db) with
    | Ok (a, d) => Ok (g a, rekeyed_db d)
    | Err e => Err e
    end) →
  sql env q' (rekeyed w) = carried g (sql env q w).
Proof.
  intros Hq. unfold sql, carried. cbn [db rekeyed steps]. rewrite Hq.
  by destruct (fault env (steps w)), (q (clock env (steps w)) (db w)) as [[a d]|e].
Qed.

Lemma pack_by_slug_rekeyed slug d :
  packs_wf d → pack_by_slug slug (rekeyed_db d) = rekey <$> pack_by_slug slug d.
Proof.
  intros Hwf. assert (Hwf' : packs_wf (rekeyed_db d)).
  { destruct Hwf as [Hk Hu]. split; cbn [cavp_packs rekeyed_db].
    - intros k p. rewrite lookup_fmap. intros (q & Hq & ->)%fmap_Some. exact (Hk _ _ Hq).
    - intros k1 k2 p1 p2. rewrite !lookup_fmap.
      intros (q1 & Hq1 & ->)%fmap_Some (q2 & Hq2 & ->)%fmap_Some. exact (Hu _ _ _ _ Hq1 Hq2). }
  apply option_eq. intros p. rewrite (pack_by_slug_Some _ _ _ Hwf'), fmap_Some.
  cbn [cavp_packs rekeyed_db]. rewrite lookup_fmap, fmap_Some. split.
  - intros [Hs (q & Hq & Hpq)]. exists q. split; [|done].
    apply (pack_by_slug_Some _ _ _ Hwf). rewrite Hpq in Hs, Hq. done.
  - intros (q & Hq & ->). apply (pack_by_slug_Some _ _ _ Hwf) in Hq as [Hs Hq].
    split; [done|]. by exists q.
Qed.

Lemma fetch_pack_carried slug w :
  packs_wf w.(db) →
  run (fetch_pack env slug) (rekeyed w)
  = carried (λ r, match r with Ok p => Ok (rekey p) | Err e => Err e end)
      (run (fetch_pack env slug) w).
Proof.
  intros Hwf. unfold fetch_pack. rewrite !run_api_bind, !run_api_op.
  rewrite (sql_carried (fmap rekey) (λ _ d, Ok (pack_by_slug slug d, d))).
  2:{ intros at_. by rewrite pack_by_slug_rekeyed. }
  destruct (sql env _ w) as [[[p|]|e] w'] eqn:Hsql; done.
Qed.

Lemma get_pack_carried slug w :
  packs_wf w.(db) → (∀ p, example_answer (key p) = example_answer p.(CavpPackRow.answer_key)) →
  run (get_pack env slug) (rekeyed w) = carried id (run (get_pack env slug) w).
Proof.
  intros Hwf Hex. unfold get_pack. rewrite !run_api_bind, fetch_pack_carried by done.
  destruct (run (fetch_pack env slug) w) as [[[p|e]|e] w']; [|done..].
  unfold carried. cbn. by rewrite Hex.
Qed.

Lemma sql_read_db {A} (q : Db → A) w : (sql env (λ _ d, Ok (q d, d)) w).2.(db) = w.(db).
Proof. unfold sql. by destruct (fault env (steps w)). Qed.

Lemma create_session_carried slug w :
  packs_wf w.(db) →
  run (create_session env slug) (rekeyed w) = carried id (run (create_session env slug) w).
Proof.
  intros Hwf. unfold create_session. rewrite !run_api_bind, fetch_pack_carried by done.
  assert (Hdb : (run (fetch_pack env slug) w).2.(db) = w.(db)).
  { unfold fetch_pack. rewrite run_api_bind, run_api_op.
    pose proof (sql_read_db (pack_by_slug slug) w) as Hd.
    destruct (sql env _ w) as [[p|e] w']; exact Hd. }
  destruct (run (fetch_pack env slug) w) as [[[p|e]|e] w1]; [|done..]. cbn [snd] in Hdb.
  unfold carried at 1. cbn [fst snd]. rewrite !run_api_bind, !run_api_op.
  rewrite (sql_carried id (λ _ d, Ok (pack_id_of slug d, d))).
  2:{ intros at_. unfold pack_id_of. rewrite Hdb, pack_by_slug_rekeyed by done.
      by destruct (pack_by_slug slug (db w)). }
  destruct (sql env _ w1) as [[[pid|]|e] w2]; [|done..]. cbn.
  unfold insert_session_op. cbn [steps rekeyed].
  rewrite (sql_carried id (insert_session env (steps w2) pid p)).
  2:{ intros at_. unfold insert_session. cbn [cavp_sessions cavp_packs rekeyed_db].
      rewrite lookup_fmap. destruct (cavp_sessions _ !! _); [done|].
      by destruct (cavp_packs _ !! _). }
  by destruct (sql env _ w2) as [[sid|e] w3].
Qed.

Lemma get_session_carried id w :
  run (get_session env id) (rekeyed w) = carried Datatypes.id (run (get_session env id) w).
Proof.
  unfold get_session. rewrite !run_api_bind, !run_api_op.
  rewrite (sql_carried Datatypes.id (λ _ d, Ok (session_with_slug id d, d))).
  2:{ intros at_. unfold session_with_slug. cbn [cavp_sessions cavp_packs rekeyed_db].
      destruct (cavp_sessions _ !! _); [|done]. cbn [mbind option_bind]. rewrite lookup_fmap.
      by destruct (cavp_packs _ !! _). }
  by destruct (sql env _ w) as [[[row|]|e] w'].
Qed.

End rekeyed.

(** ** Theorems *)

(** C13. The life of a session. It starts with the prompt of its pack and no grade. A
    submission the validator refuses is answered with 400 and its message, and changes
    nothing; any other is answered with the validator's report against the key of the
    pack, and from then on the session shows that submission and that report. *)
Theorem cavp_session_story {J : SerdeJson} {X : Hex} {CJ : CavpJson} env p key w :
  reliable env → packs_wf w.(db) → w.(db).(cavp_packs) !! p.(CavpPackRow.id) = Some p →
  w.(db).(cavp_sessions) !! new_session_id env w = None →
  answer_key_from_value p.(CavpPackRow.answer_key) = Ok key →
  ∃ s w1,
    run (create_session env p.(CavpPackRow.slug)) w = (Ok (Ok s), w1) ∧
    s.(ses_prompt) = p.(CavpPackRow.prompt) ∧ s.(ses_submitted) = None ∧
    s.(ses_validation) = None ∧
    ∀ env1 w2 results, reliable env1 → w2.(db) = w1.(db) →
    match validate results key with
    | Err e => ∃ w3,
        run (validate_session env1 s.(ses_id) results) w2
          = (Ok (Err (BadRequest (error_display e))), w3) ∧ w3.(db) = w2.(db)
    | Ok report => ∃ doc w3,
        run (validate_session env1 s.(ses_id) results) w2 = (Ok (Ok report), w3) ∧
        json_from_str results = Ok doc ∧
        ∀ env2 w4, reliable env2 → w4.(db) = w3.(db) →
        ∃ w5, run (get_session env2 s.(ses_id)) w4 = (Ok (Ok {|
          ses_id := s.(ses_id); ses_slug := s.(ses_slug); ses_capability := s.(ses_capability);
          ses_parameter_set := s.(ses_parameter_set); ses_vs_id := s.(ses_vs_id);
          ses_prompt := s.(ses_prompt); ses_submitted := Some doc;
          ses_validation := Some (report_value report) |}), w5)
    end.
Proof.
  intros Hr Hwf Hp Hfree Hkey.
  destruct (run_create_session env Hr _ p w Hwf eq_refl Hp Hfree) as (w1 & at_ & Hrun & Hd1).
  eexists _, w1. split; [exact Hrun|]. do 3 (split; [done|]). intros env1 w2 results Hr1 Hd2.
  set (row := new_session_row (new_session_id env w) (CavpPackRow.id p) at_ p) in *.
  assert (Hs : w2.(db).(cavp_sessions) !! new_session_id env w = Some row).
  { rewrite Hd2, Hd1. apply lookup_insert_eq. }
  assert (Hp2 : w2.(db).(cavp_packs) !! CavpSessionRow.pack_id row = Some p).
  { rewrite Hd2, Hd1. exact Hp. }
  pose proof (run_validate_session env1 Hr1 _ results row p key w2 Hs Hp2 Hkey) as Hv.
  destruct (validate results key) as [report|e]; [|exact Hv].
  destruct Hv as (w3 & doc & H1 & H2 & H3). exists doc, w3. split; [exact H1|]. split; [done|].
  intros env2 w4 Hr2 Hd4. exists (set_db w4.(db) w4).
  rewrite (run_get_session env2 Hr2 _ (graded doc (report_value report) row) p w4); [done| |].
  - rewrite Hd4, H3. cbn [cavp_sessions with_cavp_sessions]. by rewrite lookup_alter_eq, Hs.
  - rewrite Hd4, H3. exact Hp2.
Qed.

(** C14. The answer key does not leave the server, the worked example apart: change the keys
    of all packs in any way that keeps their [tcId] 1 case, and what [GET] on a pack or a
    session and the start of a session answer is the same, whatever fails underneath. *)
Theorem answer_key_hidden {J : SerdeJson} {CJ : CavpJson} env key w slug id :
  packs_wf w.(db) → (∀ p, example_answer (key p) = example_answer p.(CavpPackRow.answer_key)) →
  (run (get_pack env slug) (rekeyed key w)).1 = (run (get_pack env slug) w).1 ∧
  (run (create_session env slug) (rekeyed key w)).1 = (run (create_session env slug) w).1 ∧
  (run (get_session env id) (rekeyed key w)).1 = (run (get_session env id) w).1.
Proof.
  intros Hwf Hex.
  rewrite get_pack_carried, create_session_carried, get_session_carried by done.
  unfold carried. cbn [fst].
  destruct (run (get_pack env slug) w).1, (run (create_session env slug) w).1,
    (run (get_session env id) w).1; done.
Qed.

Module ApiCavpWitness.
Import JsonModel.
Import CavpWitness HexModel.

#[local] Instance json : SerdeJson :=
  model (λ text, if String.eqb text "ver" then Ok (ver_doc "ML-DSA") else Err "not JSON").

Definition report : ValidationReport :=
  match validate "ver" ver_key with
  | Ok r => r
  | Err _ => report_of ver_key []
  end.

(** The keys of the lab's packs, by name. *)
#[local] Instance cavp_json : CavpJson := {|
  answer_key_from_value := λ v : Value,
    match (v : value) with
    | VString _ => Err "not a key"
    | _ => Ok ver_key
    end;
  report_value := λ r, VInt (Z.of_nat r.(correct)) : Value;
|}.

Definition case_one : value := VObject [("tcId", VInt 1); ("testPassed", VBool true)].

Definition pack : CavpPackRow.t := {|
  CavpPackRow.id := 5; CavpPackRow.slug := "sig-ver"; CavpPackRow.capability := Capability.SigVer;
  CavpPackRow.parameter_set := "ML-DSA-65"; CavpPackRow.vs_id := 91023;
  CavpPackRow.prompt := VString "prompt";
  CavpPackRow.answer_key := VObject [("cases", VArray [VNull; case_one;
    VObject [("tcId", VInt 2); ("testPassed", VBool false)]])];
  CavpPackRow.registration := VNull |}.

Definition env : Env := {|
  clock := λ n, Z.of_nat n; fresh_uuid := λ n k, N.of_nat (100 * n + k);
  next_serial := λ n, Z.of_nat n; row_order := λ _ l, l;
  fault := λ _, Works;
  get_capabilities := λ _ _, Err "none"; post_probe := λ _ _ _, Unreachable "none" |}.

Definition lab : World := {|
  db := {|
    endpoints := ∅; algorithms := ∅; tests := ∅; subtasks := ∅; subtask_reports := ∅;
    kem_runs := ∅; kem_run_logs := ∅; kem_matrix_cells := ∅;
    cavp_packs := {[ 5%N := pack ]}; cavp_sessions := ∅ |};
  streams := []; published := []; acked := []; cache := ∅; steps := 0 |}.

Lemma lab_packs : packs_wf lab.(db).
Proof.
  split; cbn [lab db cavp_packs].
  - by intros k p [<- <-]%lookup_singleton_Some.
  - by intros k1 k2 p1 p2 [<- _]%lookup_singleton_Some [<- _]%lookup_singleton_Some.
Qed.

Lemma cavp_session_story_witness :
  ∃ s w1 w3 doc,
    run (create_session env "sig-ver") lab = (Ok (Ok s), w1) ∧
    run (validate_session env s.(ses_id) "ver") w1 = (Ok (Ok report), w3) ∧
    json_from_str "ver" = Ok doc.
Proof.
  destruct (cavp_session_story env pack ver_key lab) as (s & w1 & H1 & _ & _ & _ & H2);
    [intros n; reflexivity|apply lab_packs|reflexivity..|].
  specialize (H2 env w1 "ver" ltac:(intros n; reflexivity) eq_refl).
  destruct H2 as (doc & w3 & H3 & H4 & _). by exists s, w1, w3, doc.
Defined.

(** A server whose key has the second answer the other way round. *)
Definition other_key (p : CavpPackRow.t) : Value :=
  VObject [("cases", VArray [example_answer p.(CavpPackRow.answer_key);
    VObject [("tcId", VInt 2); ("testPassed", VBool true)]])].

Lemma other_key_example p :
  example_answer (other_key p) = example_answer p.(CavpPackRow.answer_key).
Proof.
  assert (Hcases : example_answer p.(CavpPackRow.answer_key) = VNull ∨
                   is_example (example_answer p.(CavpPackRow.answer_key)) = true).
  { unfold example_answer. destruct (value_get "cases" _) as [c|]; [|left; reflexivity].
    cbn [mbind option_bind]. destruct (as_array c) as [cases|]; [|left; reflexivity].
    cbn [mbind option_bind]. destruct (find_first is_example cases) as [v|] eqn:Hf; [right|left; reflexivity].
    apply find_first_Some in Hf as (l1 & l2 & _ & Hv & _). exact Hv. }
  unfold other_key. destruct Hcases as [-> | Hc]; [reflexivity|].
  revert Hc. generalize (example_answer p.(CavpPackRow.answer_key)) as v. intros v Hv.
  unfold example_answer. cbn. by rewrite Hv.
Qed.

Lemma answer_key_hidden_witness :
  (run (get_pack env "sig-ver") (rekeyed other_key lab)).1 = (run (get_pack env "sig-ver") lab).1 ∧
  (run (get_pack env "sig-ver") lab).1
    = Ok (Ok {| pack_slug := "sig-ver"; pack_capability := Capability.SigVer;
                pack_parameter_set := "ML-DSA-65"; pack_vs_id := 91023;
                pack_registration := VNull : Value; pack_prompt := VString "prompt" : Value;
                pack_example := case_one : Value |}).
Proof.
  split; [|reflexivity].
  apply (answer_key_hidden env other_key lab "sig-ver" 0 lab_packs other_key_example).
Defined.

End ApiCavpWitness.
