(* ===== verification/ApiSubtasks.v ===== *)
(** * The subtask drawer ([services/api/src/routes/subtasks.rs])

    One subtask with its report, its place in the test, and the neighbours the
    Previous and Next buttons jump to: the walk through a test follows the matrix. *)

From S2P Require Import Prelude RustStr Json Proto Status Domain Effects World Api Fixtures.

Section subtasks.
Context {J : SerdeJson} (env : Env).

Local Open Scope api_scope.

Record SubtaskDetail := {
  sub_row : Subtask.t;
  sub_title : string;
  sub_report : option SubtaskReport.t;
  sub_previous : option Uuid;
  sub_next : option Uuid;
  sub_position : Z;
  sub_total : Z;
}.

(** The rows of a test on one side of an ordinal. *)
Definition rows_where (test_id : Uuid) (side : Z → bool) (d : Db) : list Subtask.t :=
  filter (λ s, s.(Subtask.test_id) = test_id ∧ side s.(Subtask.ordinal) = true)
    (map snd (map_to_list d.(subtasks))).

Definition ordinal_ge (a b : Subtask.t) : Prop := (b.(Subtask.ordinal) ≤ a.(Subtask.ordinal))%Z.

#[local] Instance ordinal_ge_dec : RelDecision ordinal_ge.
Proof. intros a b. unfold ordinal_ge. apply _. Defined.

(** [... AND ordinal < $2 ORDER BY ordinal DESC LIMIT 1]. *)
Definition previous_of (s : Subtask.t) (d : Db) : option Uuid :=
  Subtask.id <$> first (merge_sort ordinal_ge
    (rows_where s.(Subtask.test_id) (λ o, o <? s.(Subtask.ordinal))%Z d)).

(** [... AND ordinal > $2 ORDER BY ordinal ASC LIMIT 1]. *)
Definition next_of (s : Subtask.t) (d : Db) : option Uuid :=
  Subtask.id <$> first (merge_sort ordinal_le
    (rows_where s.(Subtask.test_id) (λ o, s.(Subtask.ordinal) <? o)%Z d)).

Definition total_of (s : Subtask.t) (d : Db) : Z :=
  Z.of_nat (length (rows_where s.(Subtask.test_id) (λ _, true) d)).

Definition get_subtask (id : Uuid) : api SubtaskDetail :=
  do found := api_op Database (sql env (λ _ d, Ok (d.(subtasks) !! id, d))) in
  do s := Ret (ok_or (NotFound "subtask") found) in
  do report := api_op Database (sql env (λ _ d, Ok (d.(subtask_reports) !! id, d))) in
  do previous := api_op Database (sql env (λ _ d, Ok (previous_of s d, d))) in
  do next := api_op Database (sql env (λ _ d, Ok (next_of s d, d))) in
  do total := api_op Database (sql env (λ _ d, Ok (total_of s d, d))) in
  api_ret {|
    sub_row := s;
    sub_title := s.(Subtask.group_name) +:+ " × " +:+ s.(Subtask.sig_alg);
    sub_report := report; sub_previous := previous; sub_next := next;
    sub_position := (s.(Subtask.ordinal) + 1)%Z; sub_total := total;
  |}.

(** ** The walk *)

Context (Hr : reliable env).

Lemma run_get_subtask id s w :
  w.(db).(subtasks) !! id = Some s →
  ∃ w', run (get_subtask id) w = (Ok (Ok {|
    sub_row := s; sub_title := s.(Subtask.group_name) +:+ " × " +:+ s.(Subtask.sig_alg);
    sub_report := w.(db).(subtask_reports) !! id;
    sub_previous := previous_of s w.(db); sub_next := next_of s w.(db);
    sub_position := (s.(Subtask.ordinal) + 1)%Z; sub_total := total_of s w.(db) |}), w').
Proof.
  intros Hs. unfold get_subtask.
  rewrite run_api_bind, run_api_op, sql_works by done. cbn [fst snd map_err].
  rewrite Hs, run_api_bind. cbn [ok_or run].
  do 4 (rewrite run_api_bind, run_api_op, sql_works by done; cbn [fst snd map_err]).
  by eexists.
Qed.

#[local] Instance ordinal_ge_trans : Transitive ordinal_ge.
Proof. intros a b c. unfold ordinal_ge. lia. Qed.

#[local] Instance ordinal_ge_total : Total ordinal_ge.
Proof. intros a b. unfold ordinal_ge. lia. Qed.

Definition ordinal_lt (a b : Subtask.t) : Prop := (a.(Subtask.ordinal) < b.(Subtask.ordinal))%Z.

(** The rows of the test, in the order the matrix draws them. *)
Context (test_id : Uuid) (d : Db) (rows : list Subtask.t).
Context (Hrows : rows_where test_id (λ _, true) d ≡ₚ rows).
Context (Hsorted : StronglySorted ordinal_lt rows).

Lemma rows_where_filter side :
  rows_where test_id side d ≡ₚ filter (λ s, side s.(Subtask.ordinal) = true) rows.
Proof.
  rewrite <-Hrows. unfold rows_where. rewrite list_filter_filter.
  apply reflexive_eq, list_filter_iff. naive_solver.
Qed.

Lemma sorted_split l1 s l2 :
  rows = l1 ++ s :: l2 →
  StronglySorted ordinal_lt l1 ∧ StronglySorted ordinal_lt l2 ∧
  Forall (λ x, ordinal_lt x s) l1 ∧ Forall (ordinal_lt s) l2.
Proof.
  intros Hl. pose proof Hsorted as Hs. rewrite Hl in Hs.
  apply StronglySorted_app in Hs as (H1 & H2 & [H3 H4]%StronglySorted_cons).
  split_and!; [done|done| |done]. apply Forall_forall. intros x Hx. apply H1; [done|by left].
Qed.

Lemma sorted_distinct (R : relation Subtask.t) l :
  StronglySorted ordinal_lt l → (∀ x y, R x y → R y x → Subtask.ordinal x = Subtask.ordinal y) →
  ∀ x y, x ∈ l → y ∈ l → R x y → R y x → x = y.
Proof.
  intros Hs HR x y Hx Hy H1 H2. specialize (HR x y H1 H2).
  induction Hs as [|z l Hs IH Hz]; [by apply not_elem_of_nil in Hx|].
  rewrite Forall_forall in Hz. unfold ordinal_lt in Hz.
  apply elem_of_cons in Hx as [->|Hx], Hy as [->|Hy]; [done|..|by apply IH].
  - specialize (Hz _ Hy). lia.
  - specialize (Hz _ Hx). lia.
Qed.

Lemma next_of_split l1 s l2 :
  rows = l1 ++ s :: l2 → s.(Subtask.test_id) = test_id →
  next_of s d = Subtask.id <$> first l2.
Proof.
  intros Hl Ht. unfold next_of. rewrite Ht.
  destruct (sorted_split l1 s l2 Hl) as (_ & H2 & H3 & H4). f_equal. f_equal.
  apply (merge_sort_unique ordinal_le).
  - apply (sorted_distinct _ _ H2). unfold ordinal_le. intros. lia.
  - eapply StronglySorted_impl; [|exact H2]. intros x y. unfold ordinal_lt, ordinal_le. lia.
  - rewrite rows_where_filter, Hl, filter_app, filter_cons_False by (rewrite Z.ltb_lt; lia).
    rewrite filter_none, filter_all; [done|..]; rewrite Forall_forall in *; unfold ordinal_lt in *.
    + intros x Hx%H4. by apply Z.ltb_lt.
    + intros x Hx%H3. rewrite Z.ltb_lt. lia.
Qed.

Lemma previous_of_split l1 s l2 :
  rows = l1 ++ s :: l2 → s.(Subtask.test_id) = test_id →
  previous_of s d = Subtask.id <$> last l1.
Proof.
  intros Hl Ht. unfold previous_of. rewrite Ht.
  destruct (sorted_split l1 s l2 Hl) as (H1 & _ & H3 & H4).
  assert (Hm : merge_sort ordinal_ge (rows_where test_id (λ o, o <? Subtask.ordinal s)%Z d) = reverse l1).
  { apply (merge_sort_unique ordinal_ge).
    - intros x y. rewrite !elem_of_reverse. apply (sorted_distinct _ _ H1).
      unfold ordinal_ge. intros. lia.
    - clear Hl H3. induction H1 as [|x l Hs IH Hx]; [constructor|]. rewrite reverse_cons.
      apply StronglySorted_app_2; [|exact IH|by repeat constructor].
      intros y z. rewrite elem_of_reverse. intros Hy ->%list_elem_of_singleton.
      rewrite Forall_forall in Hx. specialize (Hx _ Hy). unfold ordinal_lt, ordinal_ge in *. lia.
    - rewrite rows_where_filter, Hl, filter_app, filter_cons_False by (rewrite Z.ltb_lt; lia).
      rewrite filter_all, filter_none, app_nil_r, reverse_Permutation; [done|..];
        rewrite Forall_forall in *; unfold ordinal_lt in *.
      + intros x Hx%H4. rewrite Z.ltb_lt. lia.
      + intros x Hx%H3. by apply Z.ltb_lt. }
  rewrite Hm. f_equal. destruct l1 as [|x l1 _] using rev_ind; [done|].
  by rewrite reverse_snoc, last_snoc.
Qed.

Lemma get_subtask_walk i s w :
  w.(db) = d → rows !! i = Some s → s.(Subtask.test_id) = test_id →
  d.(subtasks) !! s.(Subtask.id) = Some s →
  ∃ detail w', run (get_subtask s.(Subtask.id)) w = (Ok (Ok detail), w') ∧
    detail.(sub_row) = s ∧ detail.(sub_report) = d.(subtask_reports) !! s.(Subtask.id) ∧
    detail.(sub_previous) = match i with
                            | O => None
                            | S i => Subtask.id <$> rows !! i
                            end ∧
    detail.(sub_next) = Subtask.id <$> rows !! S i ∧
    detail.(sub_position) = (s.(Subtask.ordinal) + 1)%Z ∧
    detail.(sub_total) = Z.of_nat (length rows).
Proof.
  intros Hd Hi Ht Hs. rewrite <-Hd in Hs. destruct (run_get_subtask _ s w Hs) as [w' Hrun].
  rewrite Hd in Hrun. eexists _, w'. split; [exact Hrun|]. do 2 (split; [done|]). cbn [sub_previous sub_next sub_position sub_total].
  pose proof (take_drop_middle rows i s Hi) as Hl. symmetry in Hl.
  rewrite (previous_of_split _ _ _ Hl Ht), (next_of_split _ _ _ Hl Ht).
  split_and!; [| |done|].
  - destruct i as [|i]; [done|]. pose proof (lookup_lt_Some _ _ _ Hi).
    rewrite last_lookup, length_take_le by lia. by rewrite lookup_take_lt by (simpl; lia).
  - f_equal. replace (S i) with (S i + 0) at 2 by lia. rewrite <-lookup_drop.
    by destruct (drop (S i) rows).
  - unfold total_of. by rewrite Ht, Hrows.
Qed.

End subtasks.

(** ** Theorems *)

(** The rows carry their key, and no two of a test have the same ordinal. *)
Record subtasks_wf `{SerdeJson} (d : Db) : Prop := {
  rows_keyed : ∀ k s, d.(subtasks) !! k = Some s → s.(Subtask.id) = k;
  ordinals_unique : ∀ k1 k2 s1 s2, d.(subtasks) !! k1 = Some s1 → d.(subtasks) !! k2 = Some s2 →
    s1.(Subtask.test_id) = s2.(Subtask.test_id) → s1.(Subtask.ordinal) = s2.(Subtask.ordinal) →
    k1 = k2;
}.

Section wf.
Context {J : SerdeJson} (d : Db) (Hwf : subtasks_wf d) (test_id : Uuid).

Lemma elem_of_in_order s :
  s ∈ subtasks_in_order test_id d ↔
  s.(Subtask.test_id) = test_id ∧ d.(subtasks) !! s.(Subtask.id) = Some s.
Proof.
  unfold subtasks_in_order. rewrite merge_sort_Permutation, list_elem_of_filter, list_elem_of_fmap.
  split.
  - intros [Ht ([k s'] & -> & Hk%elem_of_map_to_list)]. cbn [snd] in *.
    by rewrite (rows_keyed d Hwf _ _ Hk).
  - intros [Ht Hs]. split; [done|]. exists (Subtask.id s, s). by rewrite elem_of_map_to_list.
Qed.

Lemma in_order_sorted : StronglySorted ordinal_lt (subtasks_in_order test_id d).
Proof.
  apply (StronglySorted_strict ordinal_le).
  - intros x y Hx Hy Hne. unfold ordinal_le, ordinal_lt.
    apply elem_of_in_order in Hx as [Hx1 Hx2], Hy as [Hy1 Hy2]. intros Hle.
    enough (Subtask.ordinal x ≠ Subtask.ordinal y) by lia. intros Ho. apply Hne.
    assert (Subtask.id x = Subtask.id y) as Hid by (eapply ordinals_unique; eauto; congruence).
    rewrite Hid in Hx2. congruence.
  - unfold subtasks_in_order. rewrite merge_sort_Permutation.
    apply NoDup_filter, (NoDup_rows Subtask.id), Hwf.
  - apply StronglySorted_merge_sort; apply _.
Qed.

Lemma in_order_rows : rows_where test_id (λ _, true) d ≡ₚ subtasks_in_order test_id d.
Proof.
  unfold subtasks_in_order. rewrite merge_sort_Permutation. unfold rows_where.
  apply reflexive_eq, list_filter_iff. naive_solver.
Qed.

End wf.

(** C35. The drawer walks the matrix: from the cell at some place of the matrix, Previous is
    the cell before it, Next the cell after it, at the edges there is none, and the total
    is the number of cells. *)
Theorem drawer_walks_matrix `{SerdeJson} env test_id test w :
  reliable env → subtasks_wf w.(db) → w.(db).(tests) !! test_id = Some test →
  ∃ m w1, run (get_matrix env test_id) w = (Ok (Ok m), w1) ∧
    let ids := map MatrixCell.subtask_id m.(Matrix.cells) in
    ∀ i id, ids !! i = Some id →
    ∃ detail w2, run (get_subtask env id) w = (Ok (Ok detail), w2) ∧
      detail.(sub_row).(Subtask.id) = id ∧
      detail.(sub_previous) = match i with O => None | S i => ids !! i end ∧
      detail.(sub_next) = ids !! S i ∧
      detail.(sub_total) = Z.of_nat (length ids) ∧
      detail.(sub_position) = (detail.(sub_row).(Subtask.ordinal) + 1)%Z.
Proof.
  intros Hr Hwf Ht. set (rows := subtasks_in_order test_id w.(db)).
  exists (matrix_of rows), (set_db w.(db) (set_db w.(db) w)). split.
  { unfold get_matrix, fetch_test. rewrite !run_api_bind, run_api_op, sql_works by done.
    cbn [fst snd map_err run]. rewrite Ht. cbn [ok_or]. unfold fetch_subtasks.
    by rewrite run_api_bind, run_api_op, sql_works. }
  intros ids i id Hi.
  assert (Hids : ids = map Subtask.id rows) by (unfold ids, matrix_of; cbn; by rewrite map_map).
  rewrite Hids in Hi |- *. apply list_lookup_fmap_Some in Hi as (s & -> & Hi).
  assert (Hs : s ∈ rows) by by eapply list_elem_of_lookup_2.
  apply elem_of_in_order in Hs as [Hst Hs]; [|done].
  destruct (get_subtask_walk env Hr test_id w.(db) rows (in_order_rows w.(db) test_id)
    (in_order_sorted w.(db) Hwf test_id) i s w eq_refl Hi Hst Hs)
    as (detail & w2 & H1 & H2 & _ & H3 & H4 & H5 & H6).
  exists detail, w2. split; [done|]. rewrite H2. split; [done|]. rewrite H3, H4, H6.
  split_and!; [destruct i; [done|]; by rewrite list_lookup_fmap|by rewrite list_lookup_fmap|
    by rewrite length_map|by rewrite H5].
Qed.

Module ApiSubtasksWitness.
Import Fixtures.Lab.

Lemma world_rows k s :
  world.(db).(subtasks) !! k = Some s →
  (k = 10%N ∧ s = subtask 10 0 "MLKEM768") ∨ (k = 11%N ∧ s = subtask 11 1 "X25519").
Proof.
  cbn [world db subtasks]. intros [[<- <-]|[_ Hs]]%lookup_insert_Some; [by left|].
  apply lookup_singleton_Some in Hs as [<- <-]. by right.
Qed.

Lemma world_wf : subtasks_wf world.(db).
Proof.
  split.
  - intros k s [[-> ->]|[-> ->]]%world_rows; done.
  - intros k1 k2 s1 s2 [[-> ->]|[-> ->]]%world_rows [[-> ->]|[-> ->]]%world_rows; done.
Qed.

Lemma drawer_walks_matrix_witness :
  ∃ m w1, run (get_matrix env 1) world = (Ok (Ok m), w1) ∧
    ∃ detail w2, run (get_subtask env 10) world = (Ok (Ok detail), w2) ∧
      detail.(sub_previous) = None ∧ detail.(sub_next) = Some 11%N ∧ detail.(sub_total) = 2%Z.
Proof.
  destruct (drawer_walks_matrix env 1 test world) as (m & w1 & H1 & H2);
    [intros n; reflexivity|apply world_wf|reflexivity|].
  exists m, w1. split; [exact H1|].
  assert (Hm : map MatrixCell.subtask_id m.(Matrix.cells) = [10%N; 11%N]).
  { assert (Hrun : (run (get_matrix env 1) world).1
      = Ok (Ok (matrix_of [subtask 10 0 "MLKEM768"; subtask 11 1 "X25519"]))) by reflexivity.
    rewrite H1 in Hrun. by injection Hrun as ->. }
  rewrite Hm in H2. destruct (H2 0 10%N eq_refl) as (detail & w2 & H3 & _ & H4 & H5 & H6 & _).
  by exists detail, w2.
Defined.

End ApiSubtasksWitness.
