(* ===== verification/ApiCatalog.v ===== *)
(** * The catalog ([services/api/src/routes/catalog.rs])

    The algorithms the students choose from and the lab endpoints. *)

From S2P Require Import Prelude RustStr Json Proto Status Domain Effects World Upsert Api ApiKem.
From S2P Require Import Fixtures.

Module NewEndpoint.
Record t := {
  slug : string;
  label : string;
  label_zh : string;
  host : string;
  port : Z;
  notes : option string;
}.
End NewEndpoint.

Definition port_ok (port : Z) : bool := ((1 <=? port) && (port <=? 65535))%Z.

(** [INSERT INTO endpoints (...) ON CONFLICT (slug) DO UPDATE SET ...]: [enabled] is not
    among the columns, so a new row has the default and an old one keeps its own. *)
#[export] Instance endpoint_upsert : Upsert Uuid NewEndpoint.t Endpoint.t string := {|
  row_id := Endpoint.id;
  row_key := Endpoint.slug;
  entry_key := NewEndpoint.slug;
  row_check := λ r, port_ok r.(Endpoint.port);
  assign := λ e r, {|
    Endpoint.id := r.(Endpoint.id); Endpoint.slug := r.(Endpoint.slug);
    Endpoint.label := e.(NewEndpoint.label); Endpoint.label_zh := e.(NewEndpoint.label_zh);
    Endpoint.host := e.(NewEndpoint.host); Endpoint.port := e.(NewEndpoint.port);
    Endpoint.notes := e.(NewEndpoint.notes); Endpoint.enabled := r.(Endpoint.enabled) |};
  new_row := λ id e, {|
    Endpoint.id := id; Endpoint.slug := e.(NewEndpoint.slug);
    Endpoint.label := e.(NewEndpoint.label); Endpoint.label_zh := e.(NewEndpoint.label_zh);
    Endpoint.host := e.(NewEndpoint.host); Endpoint.port := e.(NewEndpoint.port);
    Endpoint.notes := e.(NewEndpoint.notes); Endpoint.enabled := true |};
|}.

#[export] Instance endpoint_upsert_laws : UpsertLaws Uuid NewEndpoint.t Endpoint.t string.
Proof. split; intros; cbn in *; congruence. Qed.

Section catalog.
Context {J : SerdeJson} (env : Env).

Local Open Scope api_scope.

(** ** Algorithms *)

Record AlgorithmQuery := {
  q_kind : option string;
  q_include_disabled : bool;
}.

(** The default of [include_disabled]. *)
Definition default_true : bool := true.

(** The order of [text] belongs to the collation of the database. *)
Context (collate : string → string → bool).

(** [ORDER BY kind, sort_order, name]. *)
Definition algorithm_le (a b : Algorithm.t) : Prop :=
  (collate a.(Algorithm.kind) b.(Algorithm.kind)
   && (negb (collate b.(Algorithm.kind) a.(Algorithm.kind))
       || (a.(Algorithm.sort_order) <? b.(Algorithm.sort_order))%Z
       || ((a.(Algorithm.sort_order) =? b.(Algorithm.sort_order))%Z
           && collate a.(Algorithm.name) b.(Algorithm.name)))) = true.

#[export] Instance algorithm_le_dec : RelDecision algorithm_le.
Proof. intros a b. unfold algorithm_le. apply _. Defined.

(** The [WHERE] clause. *)
Definition listed (query : AlgorithmQuery) (a : Algorithm.t) : bool :=
  match query.(q_kind) with
  | Some kind => String.eqb a.(Algorithm.kind) kind
  | None => true
  end && (query.(q_include_disabled) || a.(Algorithm.enabled)).

Definition algorithms_in_order (query : AlgorithmQuery) (d : Db) : list Algorithm.t :=
  merge_sort algorithm_le
    (filter (λ a, listed query a = true) (map snd (map_to_list d.(algorithms)))).

Definition check_kind (query : AlgorithmQuery) : result ApiError unit :=
  match query.(q_kind) with
  | Some kind =>
      if negb (String.eqb kind "kem_group") && negb (String.eqb kind "sig_alg")
      then Err (BadRequest ("unknown algorithm kind " +:+ kind))
      else Ok tt
  | None => Ok tt
  end.

Definition list_algorithms (query : AlgorithmQuery) : api (list Algorithm.t) :=
  do _ := Ret (check_kind query) in
  api_op Database (sql env (λ _ d, Ok (algorithms_in_order query d, d))).

(** ** Endpoints *)

Definition slug_le (a b : Endpoint.t) : Prop :=
  collate a.(Endpoint.slug) b.(Endpoint.slug) = true.

#[local] Instance slug_le_dec : RelDecision slug_le.
Proof. intros a b. unfold slug_le. apply _. Defined.

Definition list_endpoints : api (list Endpoint.t) :=
  api_op Database (sql env (λ _ d,
    Ok (merge_sort slug_le (map snd (map_to_list d.(endpoints))), d))).

Definition check_endpoint (body : NewEndpoint.t) : result ApiError unit :=
  if String.eqb (trim body.(NewEndpoint.slug)) "" then Err (BadRequest "slug is required")
  else if negb (port_ok body.(NewEndpoint.port)) then Err (BadRequest "port must be 1-65535")
  else Ok tt.

(** The statement, with the row it returns. *)
Definition upsert_endpoint (n : nat) (body : NewEndpoint.t) (d : Db)
    : result string (option Endpoint.t * Db) :=
  match upsert (env.(fresh_uuid) n 0) body d.(endpoints) with
  | Ok m => Ok (row_for body m, with_endpoints (λ _, m) d)
  | Err e => Err e
  end.

Definition upsert_endpoint_op (body : NewEndpoint.t) : op World (option Endpoint.t) := λ w,
  sql env (λ _, upsert_endpoint w.(steps) body) w.

Definition create_endpoint (body : NewEndpoint.t) : api Endpoint.t :=
  do _ := Ret (check_endpoint body) in
  do row := api_op Database (upsert_endpoint_op body) in
  Ret (ok_or RowNotFound row).

End catalog.

(** ** Theorems *)

(** A deterministic collation orders the texts. *)
Class Collation (collate : string → string → bool) : Prop := {
  collate_trans a b c : collate a b = true → collate b c = true → collate a c = true;
  collate_total a b : collate a b = true ∨ collate b a = true;
  collate_antisym a b : collate a b = true → collate b a = true → a = b;
}.

Section theorems.
Context {J : SerdeJson} (env : Env) (Hr : reliable env).
Context (collate : string → string → bool) {C : Collation collate}.

Lemma algorithm_le_spec a b :
  algorithm_le collate a b ↔
  a.(Algorithm.kind) ≠ b.(Algorithm.kind) ∧ collate a.(Algorithm.kind) b.(Algorithm.kind) = true ∨
  a.(Algorithm.kind) = b.(Algorithm.kind) ∧
    ((a.(Algorithm.sort_order) < b.(Algorithm.sort_order))%Z ∨
     a.(Algorithm.sort_order) = b.(Algorithm.sort_order) ∧
       collate a.(Algorithm.name) b.(Algorithm.name) = true).
Proof.
  assert (Hrefl : ∀ s, collate s s = true) by (intros s; by destruct (collate_total s s)).
  unfold algorithm_le.
  rewrite andb_true_iff, !orb_true_iff, andb_true_iff, negb_true_iff, Z.ltb_lt, Z.eqb_eq.
  destruct (decide (a.(Algorithm.kind) = b.(Algorithm.kind))) as [Hk|Hk].
  - rewrite Hk, Hrefl. intuition congruence.
  - assert (collate a.(Algorithm.kind) b.(Algorithm.kind) = true →
            collate b.(Algorithm.kind) a.(Algorithm.kind) = false).
    { intros H1. apply not_true_iff_false. intros H2. by apply Hk, collate_antisym. }
    intuition congruence.
Qed.

#[local] Instance algorithm_le_total : Total (algorithm_le collate).
Proof.
  intros a b. rewrite !algorithm_le_spec.
  destruct (decide (a.(Algorithm.kind) = b.(Algorithm.kind))) as [Hk|Hk].
  - destruct (Z.lt_trichotomy a.(Algorithm.sort_order) b.(Algorithm.sort_order)) as [?|[?|?]];
      destruct (collate_total a.(Algorithm.name) b.(Algorithm.name)); intuition auto with lia.
  - destruct (collate_total a.(Algorithm.kind) b.(Algorithm.kind)); intuition congruence.
Qed.

#[local] Instance algorithm_le_trans : Transitive (algorithm_le collate).
Proof.
  intros a b c. rewrite !algorithm_le_spec. intros [[H1 H2]|[H1 H2]] [[H3 H4]|[H3 H4]].
  - left. split; [|by eapply collate_trans].
    intros Hac. rewrite <-Hac in H4. by apply H1, collate_antisym.
  - left. by rewrite <-H3.
  - left. by rewrite H1.
  - right. split; [congruence|]. destruct H2 as [?|[? ?]], H4 as [?|[? ?]]; [left; lia..|].
    right. split; [lia|]. by eapply collate_trans.
Qed.

Lemma listed_spec query a :
  listed query a = true ↔
  (∀ kind, query.(q_kind) = Some kind → a.(Algorithm.kind) = kind) ∧
  (query.(q_include_disabled) = true ∨ a.(Algorithm.enabled) = true).
Proof.
  unfold listed. rewrite andb_true_iff, orb_true_iff.
  destruct query.(q_kind) as [kind|]; [rewrite String.eqb_eq|naive_solver].
  split; intros [H1 H2]; (split; [|done]); [by intros k [= <-]|by apply H1].
Qed.

(** Listing the catalog: an unknown kind is a 400; otherwise exactly the rows of the
    kind (and only the enabled ones unless disabled ones are asked for), each once, sorted
    by kind, rank and name. *)
Theorem list_algorithms_spec query w :
  run (list_algorithms env collate query) w
  = match check_kind query with
    | Ok _ => (Ok (Ok (algorithms_in_order collate query w.(db))), tick w)
    | Err e => (Ok (Err e), w)
    end ∧
  (check_kind query = Ok tt ↔ ∀ kind, query.(q_kind) = Some kind → kind ∈ ["kem_group"; "sig_alg"]) ∧
  StronglySorted (algorithm_le collate) (algorithms_in_order collate query w.(db)) ∧
  algorithms_in_order collate query w.(db)
    ≡ₚ filter (λ a, listed query a = true) (map snd (map_to_list w.(db).(algorithms))) ∧
  ∀ a, listed query a = true ↔
    (∀ kind, query.(q_kind) = Some kind → a.(Algorithm.kind) = kind) ∧
    (query.(q_include_disabled) = true ∨ a.(Algorithm.enabled) = true).
Proof.
  split_and!.
  - unfold list_algorithms. rewrite run_api_bind. cbn [run].
    destruct (check_kind query) as [[]|e]; [|done]. by rewrite run_api_op, sql_works.
  - unfold check_kind. destruct query.(q_kind) as [kind|]; [|done].
    destruct (negb _ && negb _) eqn:Hk.
    + apply andb_true_iff in Hk as [H1%negb_true_iff%String.eqb_neq H2%negb_true_iff%String.eqb_neq].
      split; [done|]. intros Hall. specialize (Hall kind eq_refl).
      apply elem_of_cons in Hall as [?|Hall%list_elem_of_singleton]; congruence.
    + apply andb_false_iff in Hk. rewrite !negb_false_iff, !String.eqb_eq in Hk.
      split; [|done]. intros _ k [= <-]. destruct Hk as [->| ->]; [by left|right; by left].
  - apply Sorted_StronglySorted; [apply _|]. apply (Sorted_merge_sort _).
  - apply merge_sort_Permutation.
  - intros a. apply listed_spec.
Qed.

(** ** Endpoints *)

Lemma endpoint_by_slug_row_for (body : NewEndpoint.t) d :
  endpoint_by_slug body.(NewEndpoint.slug) d = row_for body d.(endpoints).
Proof. done. Qed.

Lemma upsert_endpoint_ok n body d :
  check_endpoint body = Ok tt → table_wf (E := NewEndpoint.t) d.(endpoints) →
  d.(endpoints) !! env.(fresh_uuid) n 0 = None →
  let row := posted (env.(fresh_uuid) n 0) body d.(endpoints) in
  let d' := with_endpoints <[row.(Endpoint.id) := row]> d in
  upsert_endpoint env n body d = Ok (Some row, d') ∧ row_for body d'.(endpoints) = Some row.
Proof.
  intros Hb Hwf Hfresh row d'.
  assert (Hp : port_ok body.(NewEndpoint.port) = true).
  { unfold check_endpoint in Hb. destruct (String.eqb _ _); [done|]. by destruct (port_ok _). }
  pose proof (upsert_posted _ body _ Hwf Hp Hfresh) as Hu.
  pose proof (row_for_posted _ body _ _ Hwf Hfresh Hu) as Hrow.
  split; [|done]. unfold upsert_endpoint. by rewrite Hu, Hrow.
Qed.

(** C40. Posting an endpoint: a blank slug or a port out of range is a 400 and changes
    nothing; otherwise the row of that slug, or a new enabled one, has the posted columns,
    and the other rows stay. An endpoint the lab has switched off stays off, so KEM runs
    against it go on being refused with 409. *)
Theorem create_endpoint_spec body w :
  table_wf (E := NewEndpoint.t) w.(db).(endpoints) →
  w.(db).(endpoints) !! env.(fresh_uuid) w.(steps) 0 = None →
  let old := endpoint_by_slug body.(NewEndpoint.slug) w.(db) in
  let row := posted (env.(fresh_uuid) w.(steps) 0) body w.(db).(endpoints) in
  let w' := (run (create_endpoint env body) w).2 in
  match check_endpoint body with
  | Err e => run (create_endpoint env body) w = (Ok (Err e), w) ∧ (into_response e).1 = 400%Z
  | Ok _ =>
      (run (create_endpoint env body) w).1 = Ok (Ok row) ∧
      w'.(db) = with_endpoints <[row.(Endpoint.id) := row]> w.(db) ∧
      endpoint_by_slug body.(NewEndpoint.slug) w'.(db) = Some row ∧
      (row.(Endpoint.slug), row.(Endpoint.host), row.(Endpoint.port))
        = (body.(NewEndpoint.slug), body.(NewEndpoint.host), body.(NewEndpoint.port)) ∧
      (row.(Endpoint.enabled) = false ↔ ∃ r, old = Some r ∧ r.(Endpoint.enabled) = false) ∧
      ∀ kem_body, kem_body.(endpoint) = body.(NewEndpoint.slug) → row.(Endpoint.enabled) = false →
        (run (create_run env kem_body) w').1
        = Ok (Err (Conflict ("endpoint " +:+ row.(Endpoint.slug) +:+ " is disabled")))
  end.
Proof.
  intros Hwf Hfresh old row w'. subst w'. unfold create_endpoint. rewrite run_api_bind. cbn [run].
  destruct (check_endpoint body) as [[]|e] eqn:Hb.
  2:{ split; [done|]. unfold check_endpoint in Hb. destruct (String.eqb _ _); [by injection Hb as <-|].
      destruct (negb _); [by injection Hb as <-|done]. }
  rewrite run_api_bind, run_api_op. unfold upsert_endpoint_op. rewrite sql_works by done.
  destruct (upsert_endpoint_ok w.(steps) body w.(db) Hb Hwf Hfresh) as [-> Hfind].
  fold row in Hfind |- *. cbn [fst snd map_err ok_or run].
  assert (Hslug : row.(Endpoint.slug) = body.(NewEndpoint.slug))
    by exact (posted_key (Key := string) (env.(fresh_uuid) w.(steps) 0) body w.(db).(endpoints)).
  split_and!; [done|done|done|..].
  - rewrite Hslug. subst row. unfold posted. by destruct (row_for body w.(db).(endpoints)).
  - unfold old. rewrite endpoint_by_slug_row_for. subst row. unfold posted.
    destruct (row_for body w.(db).(endpoints)) as [r|]; cbn; naive_solver.
  - intros kem_body Hk Hoff. unfold create_run. rewrite run_api_bind, run_api_op, sql_works by done.
    cbn [fst snd map_err db set_db]. rewrite Hk, endpoint_by_slug_row_for, Hfind, run_api_bind.
    cbn [run ok_or]. by rewrite Hoff.
Qed.

End theorems.

Module CatalogWitness.
Import Fixtures.Lab.

(** The order of the encodings. *)
Definition by_code (a b : string) : bool := bool_decide (encode a ≤ encode b)%positive.

#[export] Instance by_code_collation : Collation by_code.
Proof.
  unfold by_code. split; intros *; rewrite ?bool_decide_eq_true.
  - apply Pos.le_trans.
  - lia.
  - intros H1 H2. apply (inj encode). lia.
Qed.

Definition algorithm (id : Z) (name : string) (enabled : bool) : Algorithm.t := {|
  Algorithm.id := id; Algorithm.kind := "kem_group"; Algorithm.name := name;
  Algorithm.display_name := name; Algorithm.family := None; Algorithm.enabled := enabled;
  Algorithm.sort_order := 10 - id |}.

Definition switched_off : Endpoint.t := {|
  Endpoint.id := 3; Endpoint.slug := "lab"; Endpoint.label := "Lab"; Endpoint.label_zh := "Lab";
  Endpoint.host := "old.example"; Endpoint.port := 443; Endpoint.notes := None;
  Endpoint.enabled := false |}.

Definition lab : World := set_db
  (with_endpoints (λ _, {[ 3%N := switched_off ]})
    (with_algorithms (λ _, {[ 1%Z := algorithm 1 "x25519" true; 2%Z := algorithm 2 "mlkem768" true;
                              3%Z := algorithm 3 "frodo" false ]}) world.(db))) world.

Definition query (include_disabled : bool) : AlgorithmQuery := {|
  q_kind := Some "kem_group"; q_include_disabled := include_disabled |}.

Lemma list_algorithms_spec_witness :
  ∃ l, (run (list_algorithms env by_code (query false)) lab).1 = Ok (Ok l) ∧
       map Algorithm.name l = ["mlkem768"; "x25519"] ∧ StronglySorted (algorithm_le by_code) l.
Proof.
  destruct (list_algorithms_spec env (λ _, eq_refl) by_code (query false) lab)
    as (H1 & _ & H2 & _).
  eexists. rewrite H1. split; [reflexivity|]. split; [by vm_compute|exact H2].
Defined.

Definition posting : NewEndpoint.t := {|
  NewEndpoint.slug := "lab"; NewEndpoint.label := "Lab"; NewEndpoint.label_zh := "Lab";
  NewEndpoint.host := "new.example"; NewEndpoint.port := 8443; NewEndpoint.notes := None |}.

Lemma lab_wf : table_wf (E := NewEndpoint.t) lab.(db).(endpoints).
Proof.
  change (lab.(db).(endpoints)) with ({[ 3%N := switched_off ]} : gmap Uuid Endpoint.t). split.
  - intros i r [<- <-]%lookup_singleton_Some. done.
  - by intros i j r s [<- _]%lookup_singleton_Some [<- _]%lookup_singleton_Some.
  - intros i r [<- <-]%lookup_singleton_Some. done.
Qed.

Lemma create_endpoint_spec_witness :
  ∃ row, (run (create_endpoint env posting) lab).1 = Ok (Ok row) ∧
    row.(Endpoint.id) = 3%N ∧ row.(Endpoint.host) = "new.example" ∧
    row.(Endpoint.enabled) = false.
Proof.
  pose proof (create_endpoint_spec env (λ _, eq_refl) posting lab lab_wf eq_refl) as H.
  destruct H as (H1 & _). eexists. split; [exact H1|]. by vm_compute.
Defined.

End CatalogWitness.
