(* ===== verification/ApiSeed.v ===== *)
(** * Seeding ([services/api/src/seed.rs])

    The catalog, the lab endpoints and the question packs are upserted from three files.
    The file says that every statement is an upsert, so that running the seed again after a
    redeploy is a no-op: the theorem at the end. *)

From S2P Require Import Prelude RustStr Json Proto Status Domain Effects World Upsert Api ApiKem.
From S2P Require Import ApiCavp ApiCatalog Fixtures.

(** ** The entries of the files *)

Module AlgorithmSeed.
Record t := {
  kind : string;
  name : string;
  display_name : string;
  family : option string;
  enabled : bool;
  sort_order : Z;
}.
End AlgorithmSeed.

Module EndpointSeed.
Record t := {
  slug : string;
  label : string;
  label_zh : string;
  host : string;
  port : Z;
  notes : option string;
  enabled : bool;
}.
End EndpointSeed.

Module PackSeed.
Record t `{SerdeJson} := {
  slug : string;
  capability : string;
  parameter_set : string;
  vs_id : Z;
  prompt : Value;
  answer_key : Value;
  registration : Value;
}.
End PackSeed.

(** What [serde] derives for a file of entries, on the bytes of the file. *)
Class SeedJson `{SerdeJson} := {
  algorithms_from_slice : string → result string (list AlgorithmSeed.t);
  endpoints_from_slice : string → result string (list EndpointSeed.t);
  packs_from_slice : string → result string (list PackSeed.t);
}.

(** ** The statements *)

(** [kind IN ('kem_group', 'sig_alg')]. *)
Definition kind_ok (kind : string) : bool :=
  String.eqb kind "kem_group" || String.eqb kind "sig_alg".

#[export] Instance algorithm_upsert : Upsert Z AlgorithmSeed.t Algorithm.t (string * string) := {|
  row_id := Algorithm.id;
  row_key := λ r, (r.(Algorithm.kind), r.(Algorithm.name));
  entry_key := λ e, (e.(AlgorithmSeed.kind), e.(AlgorithmSeed.name));
  row_check := λ r, kind_ok r.(Algorithm.kind);
  assign := λ e r, {|
    Algorithm.id := r.(Algorithm.id); Algorithm.kind := r.(Algorithm.kind);
    Algorithm.name := r.(Algorithm.name);
    Algorithm.display_name := e.(AlgorithmSeed.display_name);
    Algorithm.family := e.(AlgorithmSeed.family); Algorithm.enabled := e.(AlgorithmSeed.enabled);
    Algorithm.sort_order := e.(AlgorithmSeed.sort_order) |};
  new_row := λ id e, {|
    Algorithm.id := id; Algorithm.kind := e.(AlgorithmSeed.kind);
    Algorithm.name := e.(AlgorithmSeed.name);
    Algorithm.display_name := e.(AlgorithmSeed.display_name);
    Algorithm.family := e.(AlgorithmSeed.family); Algorithm.enabled := e.(AlgorithmSeed.enabled);
    Algorithm.sort_order := e.(AlgorithmSeed.sort_order) |};
|}.

#[export] Instance algorithm_upsert_laws :
  UpsertLaws Z AlgorithmSeed.t Algorithm.t (string * string).
Proof. split; intros; cbn in *; congruence. Qed.

#[export] Instance endpoint_seed_upsert : Upsert Uuid EndpointSeed.t Endpoint.t string := {|
  row_id := Endpoint.id;
  row_key := Endpoint.slug;
  entry_key := EndpointSeed.slug;
  row_check := λ r, port_ok r.(Endpoint.port);
  assign := λ e r, {|
    Endpoint.id := r.(Endpoint.id); Endpoint.slug := r.(Endpoint.slug);
    Endpoint.label := e.(EndpointSeed.label); Endpoint.label_zh := e.(EndpointSeed.label_zh);
    Endpoint.host := e.(EndpointSeed.host); Endpoint.port := e.(EndpointSeed.port);
    Endpoint.notes := e.(EndpointSeed.notes); Endpoint.enabled := e.(EndpointSeed.enabled) |};
  new_row := λ id e, {|
    Endpoint.id := id; Endpoint.slug := e.(EndpointSeed.slug);
    Endpoint.label := e.(EndpointSeed.label); Endpoint.label_zh := e.(EndpointSeed.label_zh);
    Endpoint.host := e.(EndpointSeed.host); Endpoint.port := e.(EndpointSeed.port);
    Endpoint.notes := e.(EndpointSeed.notes); Endpoint.enabled := e.(EndpointSeed.enabled) |};
|}.

#[export] Instance endpoint_seed_upsert_laws : UpsertLaws Uuid EndpointSeed.t Endpoint.t string.
Proof. split; intros; cbn in *; congruence. Qed.

(** A pack with its capability cast to the enum of the database. *)
Notation CastPack := (Capability.t * PackSeed.t)%type (only parsing).

#[export] Instance pack_upsert `{SerdeJson} : Upsert Uuid CastPack CavpPackRow.t string := {|
  row_id := CavpPackRow.id;
  row_key := CavpPackRow.slug;
  entry_key := λ e, e.2.(PackSeed.slug);
  row_check := λ _, true;
  assign := λ e r, {|
    CavpPackRow.id := r.(CavpPackRow.id); CavpPackRow.slug := r.(CavpPackRow.slug);
    CavpPackRow.capability := e.1; CavpPackRow.parameter_set := e.2.(PackSeed.parameter_set);
    CavpPackRow.vs_id := e.2.(PackSeed.vs_id); CavpPackRow.prompt := e.2.(PackSeed.prompt);
    CavpPackRow.answer_key := e.2.(PackSeed.answer_key);
    CavpPackRow.registration := e.2.(PackSeed.registration) |};
  new_row := λ id e, {|
    CavpPackRow.id := id; CavpPackRow.slug := e.2.(PackSeed.slug);
    CavpPackRow.capability := e.1; CavpPackRow.parameter_set := e.2.(PackSeed.parameter_set);
    CavpPackRow.vs_id := e.2.(PackSeed.vs_id); CavpPackRow.prompt := e.2.(PackSeed.prompt);
    CavpPackRow.answer_key := e.2.(PackSeed.answer_key);
    CavpPackRow.registration := e.2.(PackSeed.registration) |};
|}.

#[export] Instance pack_upsert_laws `{SerdeJson} :
  UpsertLaws Uuid CastPack CavpPackRow.t string.
Proof. split; intros; cbn in *; congruence. Qed.

(** The table a statement is about. *)
Class Table (K R : Type) `{SerdeJson, Countable K} := {
  table : Db → gmap K R;
  set_table : gmap K R → Db → Db;
}.

Class TableLaws (K R : Type) `{Table K R} : Prop := {
  table_set m d : table (set_table m d) = m;
  set_set m m' d : set_table m (set_table m' d) = set_table m d;
  set_same d : set_table (table d) d = d;
}.

Section seed.
Context {J : SerdeJson} {SJ : SeedJson} (env : Env).

Local Open Scope prog_scope.

#[export] Instance algorithms_table : Table Z Algorithm.t := {|
  table := algorithms; set_table := λ m, with_algorithms (λ _, m) |}.

#[export] Instance endpoints_table : Table Uuid Endpoint.t := {|
  table := endpoints; set_table := λ m, with_endpoints (λ _, m) |}.

#[export] Instance cavp_packs_table : Table Uuid CavpPackRow.t := {|
  table := cavp_packs; set_table := λ m, with_cavp_packs (λ _, m) |}.

#[export] Instance algorithms_table_laws : TableLaws Z Algorithm.t.
Proof. split; intros; [done|done|by destruct d]. Qed.
#[export] Instance endpoints_table_laws : TableLaws Uuid Endpoint.t.
Proof. split; intros; [done|done|by destruct d]. Qed.
#[export] Instance cavp_packs_table_laws : TableLaws Uuid CavpPackRow.t.
Proof. split; intros; [done|done|by destruct d]. Qed.

(** One upsert as a statement; a cast of a parameter may fail it. *)
Definition upsert_stmt {K E R Key} `{Countable K, EqDecision Key} `{!Upsert K E R Key}
    `{!Table K R} (key : nat → K) (entry : result string E) : op World unit := λ w,
  sql env (λ _ d,
    match entry with
    | Err e => Err e
    | Ok entry =>
        match upsert (key w.(steps)) entry (table d) with
        | Ok m => Ok (tt, set_table m d)
        | Err e => Err e
        end
    end) w.

Definition seed_algorithm (alg : AlgorithmSeed.t) : op World unit :=
  upsert_stmt env.(next_serial) (Ok alg).

Definition seed_endpoint (endpoint : EndpointSeed.t) : op World unit :=
  upsert_stmt (λ n, env.(fresh_uuid) n 0) (Ok endpoint).

(** [$2::cavp_capability]: the labels of the enum type, all others are an error of the
    statement. *)
Definition cast_pack (pack : PackSeed.t) : result string CastPack :=
  match find_first (λ v, String.eqb (enum_as_str v) pack.(PackSeed.capability)) variants with
  | Some capability => Ok (capability, pack)
  | None => Err "invalid input value for enum cavp_capability"
  end.

Definition seed_pack (pack : PackSeed.t) : op World unit :=
  upsert_stmt (λ n, env.(fresh_uuid) n 0) (cast_pack pack).

(** ** The run *)

(** [std::fs::read] as the bytes of the file or the text of the error. *)
Context (read_file : string → result string string).

(** [Path::join] with a relative component. *)
Definition path_join (dir name : string) : string :=
  if String.eqb dir "" then name
  else if bool_decide (String.get (String.length dir - 1) dir = Some (Ascii.ascii_of_nat 47)) then dir +:+ name
  else dir +:+ "/" +:+ name.

Definition read_json {A} (from_slice : string → result string (list A)) (path : string)
    : result string (list A) :=
  match read_file path with
  | Err err => Err ("cannot read seed file " +:+ path +:+ ": " +:+ err)
  | Ok bytes => from_slice bytes
  end.

Definition seed_run (dir : string) : prog World unit :=
  let! algs := of_result (read_json algorithms_from_slice (path_join dir "algorithms.json")) in
  for_each algs (λ alg, call (seed_algorithm alg));;;
  let! eps := of_result (read_json endpoints_from_slice (path_join dir "endpoints.json")) in
  for_each eps (λ endpoint, call (seed_endpoint endpoint));;;
  let! packs := of_result (read_json packs_from_slice (path_join dir "cavp_packs.json")) in
  for_each packs (λ pack, call (seed_pack pack)).


End seed.

(** ** What a loop of upserts does *)

Section loop.
Context {J : SerdeJson} {K E R Key : Type} `{Countable K, EqDecision Key}.
Context `{!Upsert K E R Key} `{!Table K R} `{!TableLaws K R}.

(** What is not a table of the database. *)
Definition same_rest (w w' : World) : Prop :=
  w'.(streams) = w.(streams) ∧ w'.(published) = w.(published) ∧ w'.(acked) = w.(acked) ∧
  w'.(cache) = w.(cache).

#[export] Instance same_rest_preorder : PreOrder same_rest.
Proof.
  split; [done|]. intros w1 w2 w3 (? & ? & ? & ?) (? & ? & ? & ?). split_and!; congruence.
Qed.

Definition all_cast {A} (cast : A → result string E) (l : list A) (es : list E) : Prop :=
  Forall2 (λ a e, cast a = Ok e) l es.

Lemma upsert_stmt_ok env key entry w w' :
  upsert_stmt env key entry w = (Ok tt, w') →
  ∃ e m, entry = Ok e ∧ upsert (key w.(steps)) e (table w.(db)) = Ok m ∧
         w' = set_db (set_table m w.(db)) w.
Proof.
  unfold upsert_stmt, sql. destruct (env.(fault) _); [|done|].
  - destruct entry as [e|]; [|done]. destruct (upsert _ e _) as [m|] eqn:Hu; [|done].
    intros [= <-]. by exists e, m.
  - destruct entry as [e|]; [|done]. by destruct (upsert _ e _).
Qed.

(** When the loop ends well, whatever the environment, its upserts took effect. *)
Lemma run_upserts_ok {A} env key (cast : A → result string E) l w w' :
  run (for_each l (λ a, call (upsert_stmt env key (cast a)))) w = (Ok tt, w') →
  ∃ kes m, all_cast cast l (map snd kes) ∧ upserts kes (table w.(db)) = Ok m ∧
           w'.(db) = set_table m w.(db) ∧ same_rest w w'.
Proof.
  revert w. induction l as [|a l IH]; intros w; cbn [for_each].
  { intros [= <-]. exists [], (table w.(db)). split_and!; [constructor|done|by rewrite set_same|done]. }
  rewrite run_bind, run_call.
  destruct (upsert_stmt env key (cast a) w) as [[[]|err] w1] eqn:H1; [|done].
  apply upsert_stmt_ok in H1 as (e & m1 & Hc & Hu & ->). intros H2.
  destruct (IH _ H2) as (kes & m & Hcs & Hus & Hd & Hs). cbn [db set_db] in *.
  rewrite table_set in Hus. exists ((key w.(steps), e) :: kes), m. split_and!.
  - by constructor.
  - cbn [upserts]. by rewrite Hu.
  - by rewrite Hd, set_set.
  - done.
Qed.

(** On a working database the loop does its upserts. *)
Lemma run_upserts_works {A} env key (cast : A → result string E) l es m w :
  reliable env → all_cast cast l es →
  (∀ kes, map snd kes = es → upserts kes (table w.(db)) = Ok m) →
  ∃ w', run (for_each l (λ a, call (upsert_stmt env key (cast a)))) w = (Ok tt, w') ∧
        w'.(db) = set_table m w.(db) ∧ same_rest w w'.
Proof.
  intros Hr Hc. revert w. induction Hc as [|a e l es Ha Hc IH]; intros w Hm; cbn [for_each].
  { exists w. specialize (Hm [] eq_refl). injection Hm as <-. by rewrite set_same. }
  rewrite run_bind, run_call. unfold upsert_stmt at 1. rewrite sql_works, Ha by done.
  destruct (upsert (key w.(steps)) e (table w.(db))) as [m1|err] eqn:Hu.
  2:{ specialize (Hm ((key w.(steps), e) :: map (pair (key 0)) es)). cbn [map snd upserts] in Hm.
      rewrite map_map, map_id, Hu in Hm. by specialize (Hm eq_refl). }
  destruct (IH (set_db (set_table m1 w.(db)) w)) as (w' & -> & Hd & Hs).
  - intros kes Hk. cbn [db set_db]. rewrite table_set.
    specialize (Hm ((key w.(steps), e) :: kes)). cbn [map snd upserts] in Hm.
    rewrite Hu in Hm. apply Hm. by rewrite Hk.
  - exists w'. split; [done|]. cbn [db set_db] in Hd. by rewrite Hd, set_set.
Qed.

End loop.

(** ** The run as a whole *)

Section theorems.
Context {J : SerdeJson} {SJ : SeedJson}.
Context (read_file : string → result string string) (dir : string).

(** The three files were read: their entries, the packs with their capability. *)
Record seed_files (algs : list AlgorithmSeed.t) (eps : list EndpointSeed.t)
    (packs : list CastPack) : Prop := {
  sf_algs : read_json read_file algorithms_from_slice (path_join dir "algorithms.json") = Ok algs;
  sf_eps : read_json read_file endpoints_from_slice (path_join dir "endpoints.json") = Ok eps;
  sf_packs : ∃ raw, all_cast cast_pack raw packs ∧
    read_json read_file packs_from_slice (path_join dir "cavp_packs.json") = Ok raw;
}.

(** The tables are those after upserts of the entries, under some generated keys. *)
Record upserted (algs : list AlgorithmSeed.t) (eps : list EndpointSeed.t)
    (packs : list CastPack) (d d' : Db) : Prop := {
  up_algs : ∃ kes, map snd kes = algs ∧ upserts kes d.(algorithms) = Ok d'.(algorithms);
  up_eps : ∃ kes, map snd kes = eps ∧ upserts kes d.(endpoints) = Ok d'.(endpoints);
  up_packs : ∃ kes, map snd kes = packs ∧ upserts kes d.(cavp_packs) = Ok d'.(cavp_packs);
  up_rest : d' = with_cavp_packs (λ _, d'.(cavp_packs)) (with_endpoints (λ _, d'.(endpoints))
              (with_algorithms (λ _, d'.(algorithms)) d));
}.

Lemma all_cast_ok {A} (l es : list A) : all_cast (λ a, Ok a) l es ↔ l = es.
Proof.
  unfold all_cast. split; [|intros <-; by apply Forall_Forall2_diag, Forall_true].
  induction 1; congruence.
Qed.

Lemma all_cast_det {A B} (cast : A → result string B) l es es' :
  all_cast cast l es → all_cast cast l es' → es = es'.
Proof.
  intros H1. revert es'. induction H1 as [|a e l es Ha _ IH]; intros es' H2.
  - by apply Forall2_nil_inv_l in H2.
  - apply Forall2_cons_inv_l in H2 as (e' & es1 & He & H2 & ->). f_equal; [congruence|auto].
Qed.

Lemma run_seed_ok env w w' :
  run (seed_run env read_file dir) w = (Ok tt, w') →
  ∃ algs eps packs, seed_files algs eps packs ∧ upserted algs eps packs w.(db) w'.(db) ∧
    same_rest w w'.
Proof.
  unfold seed_run. rewrite run_bind.
  destruct (read_json read_file algorithms_from_slice _) as [algs|] eqn:Ha; [|done].
  cbn [of_result run]. rewrite run_bind.
  destruct (run (for_each algs _) w) as [[[]|] w1] eqn:H1; [|done]. rewrite run_bind.
  apply (run_upserts_ok env _ Ok) in H1 as (ka & ma & ->%all_cast_ok & Hka & Hd1 & Hs1).
  destruct (read_json read_file endpoints_from_slice _) as [eps|] eqn:He; [|done].
  cbn [of_result run]. rewrite run_bind.
  destruct (run (for_each eps _) w1) as [[[]|] w2] eqn:H2; [|done]. rewrite run_bind.
  apply (run_upserts_ok env _ Ok) in H2 as (ke & me & ->%all_cast_ok & Hke & Hd2 & Hs2).
  destruct (read_json read_file packs_from_slice _) as [raw|] eqn:Hp; [|done].
  cbn [of_result run]. intros H3.
  apply (run_upserts_ok env _ cast_pack) in H3 as (kp & mp & Hcp & Hkp & Hd3 & Hs3).
  rewrite Hd2, Hd1 in *. cbn in Hke, Hkp, Hd3.
  exists (map snd ka), (map snd ke), (map snd kp). split_and!.
  - split; [done|done|]. by exists raw.
  - rewrite Hd3. split; cbn; [by exists ka|by exists ke|by exists kp|done].
  - by do 2 (etrans; [eassumption|]).
Qed.

(** The upserts of the entries change nothing any more. *)
Lemma upserted_again algs eps packs d d' :
  upserted algs eps packs d d' →
  (∀ kes, map snd kes = algs → upserts kes d'.(algorithms) = Ok d'.(algorithms)) ∧
  (∀ kes, map snd kes = eps → upserts kes d'.(endpoints) = Ok d'.(endpoints)) ∧
  (∀ kes, map snd kes = packs → upserts kes d'.(cavp_packs) = Ok d'.(cavp_packs)).
Proof.
  intros [(ka & <- & Ha) (ke & <- & He) (kp & <- & Hp) _].
  split_and!; intros kes Hk; by eapply upserts_again.
Qed.

Lemma run_seed_fixed env algs eps packs w :
  reliable env → seed_files algs eps packs →
  (∀ kes, map snd kes = algs → upserts kes w.(db).(algorithms) = Ok w.(db).(algorithms)) →
  (∀ kes, map snd kes = eps → upserts kes w.(db).(endpoints) = Ok w.(db).(endpoints)) →
  (∀ kes, map snd kes = packs → upserts kes w.(db).(cavp_packs) = Ok w.(db).(cavp_packs)) →
  ∃ w', run (seed_run env read_file dir) w = (Ok tt, w') ∧ w'.(db) = w.(db) ∧ same_rest w w'.
Proof.
  intros Hr [Ha He (raw & Hraw & Hp)] Fa Fe Fp. unfold seed_run.
  rewrite run_bind, Ha. cbn [of_result run]. rewrite run_bind.
  destruct (run_upserts_works env env.(next_serial) Ok algs algs w.(db).(algorithms) w)
    as (w1 & H1 & Hd1 & Hs1); [done|by apply all_cast_ok|done|].
  assert (Hw1 : w1.(db) = w.(db)) by (rewrite Hd1; by destruct w.(db)). unfold seed_algorithm. rewrite H1, run_bind, He.
  cbn [of_result run]. rewrite run_bind.
  destruct (run_upserts_works env (λ n, env.(fresh_uuid) n 0) Ok eps eps w.(db).(endpoints) w1)
    as (w2 & H2 & Hd2 & Hs2); [done|by apply all_cast_ok|by rewrite Hw1|].
  assert (Hw2 : w2.(db) = w.(db))
    by (rewrite Hd2, Hw1; by destruct w.(db)). unfold seed_endpoint. rewrite H2, run_bind, Hp.
  cbn [of_result run].
  destruct (run_upserts_works env (λ n, env.(fresh_uuid) n 0) cast_pack raw packs
              w.(db).(cavp_packs) w2) as (w3 & H3 & Hd3 & Hs3); [done..|by rewrite Hw2|].
  exists w3. split_and!; [done| |].
  { rewrite Hd3, Hw2. by destruct w.(db). }
  by do 2 (etrans; [eassumption|]).
Qed.

(** C15. Running the seed again is a no-op. After a run that succeeded, whatever else the
    world has done since to the other tables, a second run on a working database succeeds
    and changes nothing: no row, no primary key, no message. *)
Theorem seed_idempotent env env' w w1 w2 :
  run (seed_run env read_file dir) w = (Ok tt, w1) → reliable env' →
  w2.(db).(algorithms) = w1.(db).(algorithms) → w2.(db).(endpoints) = w1.(db).(endpoints) →
  w2.(db).(cavp_packs) = w1.(db).(cavp_packs) →
  ∃ w3, run (seed_run env' read_file dir) w2 = (Ok tt, w3) ∧ w3.(db) = w2.(db) ∧
        w3.(published) = w2.(published) ∧ w3.(streams) = w2.(streams).
Proof.
  intros (algs & eps & packs & Hf & Hu & _)%run_seed_ok Hr' Ea Ee Ep.
  destruct (upserted_again _ _ _ _ _ Hu) as (Fa & Fe & Fp).
  destruct (run_seed_fixed env' algs eps packs w2) as (w3 & H3 & Hd & (? & ? & _));
    rewrite ?Ea, ?Ee, ?Ep; try done. by exists w3.
Qed.


End theorems.

Module SeedWitness.
Import Fixtures.Lab JsonModel.

(** A seed directory with one file of each kind; the packs are listed twice. *)
Definition alg : AlgorithmSeed.t := {|
  AlgorithmSeed.kind := "kem_group"; AlgorithmSeed.name := "mlkem768";
  AlgorithmSeed.display_name := "ML-KEM-768"; AlgorithmSeed.family := Some "ML-KEM";
  AlgorithmSeed.enabled := true; AlgorithmSeed.sort_order := 10 |}.

Definition ep : EndpointSeed.t := {|
  EndpointSeed.slug := "lab"; EndpointSeed.label := "Lab"; EndpointSeed.label_zh := "Lab";
  EndpointSeed.host := "lab.example"; EndpointSeed.port := 443; EndpointSeed.notes := None;
  EndpointSeed.enabled := false |}.

Definition pack (vs : Z) : PackSeed.t := {|
  PackSeed.slug := "keygen"; PackSeed.capability := "key_gen";
  PackSeed.parameter_set := "ML-DSA-44"; PackSeed.vs_id := vs; PackSeed.prompt := VNull;
  PackSeed.answer_key := VNull; PackSeed.registration := VNull |}.

#[export] Instance seed_json : SeedJson := {|
  algorithms_from_slice := λ _, Ok [alg];
  endpoints_from_slice := λ _, Ok [ep];
  packs_from_slice := λ _, Ok [pack 1; pack 2];
|}.

Definition files (path : string) : result string string := Ok "bytes of the file".

Definition seeded : World := (run (seed_run env files "/seed") world).2.

Lemma seed_idempotent_witness :
  ∃ w3, run (seed_run env files "/seed") seeded = (Ok tt, w3) ∧ w3.(db) = seeded.(db) ∧
        w3.(published) = seeded.(published) ∧ w3.(streams) = seeded.(streams).
Proof.
  apply (seed_idempotent files "/seed" env env world seeded seeded);
    [reflexivity|intros n; reflexivity|reflexivity..].
Defined.


End SeedWitness.
