(* ===== verification/Derived.v ===== *)
(** * The derived JSON of the services

    The operations that store, queue and read JSON take what [serde] derives as an instance
    of a class ([ReportJson], [JobJson], [CavpJson], [SeedJson]). These are the instances the
    attributes of the structs give, and what follows for the data at rest and in flight. *)

From S2P Require Import Prelude RustStr Json Status Cavp Proto Domain Wire Effects World Store.
From S2P Require Import Backend BackendFacts Exchange Api ApiKem ApiCavp ApiSeed Worker ApiFacts.

(** [serde_json::Error]'s [Display] for a document of the wrong shape. *)
Class SerdeTexts `{SerdeJson} := shape_error : Value → string.

Section derived.
Context {J : SerdeJson} {ST : SerdeTexts}.

(** [from_value], [from_str] and [from_slice] with their error. *)
Definition value_result `{!Wire A} (v : Value) : result string A :=
  match from_value v with
  | Some a => Ok a
  | None => Err (shape_error v)
  end.

Definition str_result `{!Wire A} (text : string) : result string A :=
  match json_from_str text with
  | Ok v => value_result v
  | Err e => Err (json_error_display e)
  end.

(** ** [store.rs]: the columns of a report *)

Definition report_json : ReportJson := {|
  alert_value := json_opt to_value;
  messages_value := to_value;
  cert_chain_value := to_value;
  http_value := json_opt to_value;
  response_value := to_value;
|}.

(** ** [queue.rs] and [stream.rs]: the payload of an entry *)

Definition job_json `{UuidDisplay, UuidParse} : JobJson := {|
  probe_job_from_str := str_result;
  kem_job_from_str := str_result;
|}.

(** ** [cavp-validate]: the key of a pack and the report of a session *)

(** [rename_all = "camelCase"] on the name of a field: every first letter of a word in upper
    case and the underscores away, then the first letter of all in lower case. *)
Definition ascii_upper (c : Ascii.ascii) : Ascii.ascii :=
  let n := byte c in
  if ((97 <=? n) && (n <=? 122))%Z then Ascii.ascii_of_N (Z.to_N (n - 32)) else c.

Fixpoint pascal (up : bool) (s : string) : string :=
  match s with
  | "" => ""
  | String c r =>
      if (byte c =? 95)%Z then pascal true r
      else String (if up then ascii_upper c else c) (pascal false r)
  end.

Definition camel_case (name : string) : string :=
  match pascal true name with
  | "" => ""
  | String c r => String (ascii_lower c) r
  end.

(** The members below are spelled so. *)
Lemma camel_case_fields :
  map camel_case ["tc_id"; "test_passed"; "vs_id"; "parameter_set"; "display_name"; "sort_order";
                  "label_zh"; "answer_key"]
  = ["tcId"; "testPassed"; "vsId"; "parameterSet"; "displayName"; "sortOrder"; "labelZh";
     "answerKey"].
Proof. done. Qed.

#[export] Instance wire_answer_case : Wire AnswerCase := {|
  to_value x := json_object (
    [("tcId", json_int x.(ans_tc_id))]
    ++ skip_none to_value "pk" x.(pk) ++ skip_none to_value "sk" x.(sk)
    ++ skip_none to_value "signature" x.(signature)
    ++ skip_none to_value "testPassed" x.(test_passed));
  from_value := struct (λ m,
    tc_id ← Wire.field i64 "tcId" m;
    pk ← opt_field from_value "pk" m;
    sk ← opt_field from_value "sk" m;
    signature ← opt_field from_value "signature" m;
    test_passed ← opt_field from_value "testPassed" m;
    Some {| ans_tc_id := tc_id; pk := pk; sk := sk; signature := signature;
            test_passed := test_passed |});
  typed x := is_i64 x.(ans_tc_id) |}.

#[export] Instance wire_answer_key : Wire AnswerKey := {|
  to_value x := json_object
    [("vsId", json_int x.(key_vs_id)); ("mode", to_value x.(key_mode));
     ("parameterSet", to_value x.(key_parameter_set));
     ("cases", to_value x.(key_cases))];
  from_value := struct (λ m,
    vs_id ← Wire.field i64 "vsId" m;
    mode ← Wire.field from_value "mode" m;
    parameter_set ← Wire.field from_value "parameterSet" m;
    cases ← Wire.field from_value "cases" m;
    Some {| key_vs_id := vs_id; key_mode := mode; key_parameter_set := parameter_set;
            key_cases := cases |});
  typed x := is_i64 x.(key_vs_id) ∧ typed x.(key_cases) |}.

Definition case_name (x : CaseStatus) : string :=
  match x with
  | Correct => "Correct"
  | Incorrect => "Incorrect"
  | Malformed => "Malformed"
  | Missing => "Missing"
  end.

#[export] Instance wire_case_status : Wire CaseStatus := {|
  to_value x := json_string (snake_case (case_name x));
  from_value := spelled [Correct; Incorrect; Malformed; Missing]
    (λ x, snake_case (case_name x));
  typed _ := True |}.

(** The two options have no attribute: [None] is written as [null]. *)
#[export] Instance wire_case_result : Wire CaseResult := {|
  to_value x := json_object
    [("tcId", json_int x.(tc_id)); ("status", to_value x.(Cavp.status));
     ("field", json_opt to_value x.(Cavp.field)); ("reason", json_opt to_value x.(reason))];
  from_value := struct (λ m,
    tc_id ← Wire.field i64 "tcId" m;
    status ← Wire.field from_value "status" m;
    field ← opt_field from_value "field" m;
    reason ← opt_field from_value "reason" m;
    Some {| tc_id := tc_id; Cavp.status := status; Cavp.field := field; reason := reason |});
  typed x := is_i64 x.(tc_id) |}.

Definition usize_value (n : nat) : Value := json_int (Z.of_nat n).
Definition usize (v : Value) : option nat := Z.to_nat <$> uint u64_max v.
Definition is_usize (n : nat) : Prop := is_uint u64_max (Z.of_nat n).

#[export] Instance wire_report : Wire ValidationReport := {|
  to_value x := json_object
    [("vsId", json_int x.(rep_vs_id)); ("mode", to_value x.(rep_mode));
     ("parameterSet", to_value x.(rep_parameter_set));
     ("total", usize_value x.(total)); ("correct", usize_value x.(correct));
     ("incorrect", usize_value x.(incorrect)); ("malformed", usize_value x.(malformed));
     ("missing", usize_value x.(missing)); ("cases", to_value x.(cases))];
  from_value := struct (λ m,
    vs_id ← Wire.field i64 "vsId" m;
    mode ← Wire.field from_value "mode" m;
    parameter_set ← Wire.field from_value "parameterSet" m;
    total ← Wire.field usize "total" m;
    correct ← Wire.field usize "correct" m;
    incorrect ← Wire.field usize "incorrect" m;
    malformed ← Wire.field usize "malformed" m;
    missing ← Wire.field usize "missing" m;
    cases ← Wire.field from_value "cases" m;
    Some {| rep_vs_id := vs_id; rep_mode := mode; rep_parameter_set := parameter_set;
            total := total; correct := correct; incorrect := incorrect; malformed := malformed;
            missing := missing; cases := cases |});
  typed x := is_i64 x.(rep_vs_id) ∧ is_usize x.(total) ∧ is_usize x.(correct) ∧
    is_usize x.(incorrect) ∧ is_usize x.(malformed) ∧ is_usize x.(missing) ∧ typed x.(cases) |}.

Definition cavp_json : CavpJson := {|
  answer_key_from_value := value_result;
  report_value := to_value;
|}.

(** ** [seed.rs]: the entries of the files *)

(** Only the reading side exists; the option fields may be missing or null. *)
Definition algorithm_seed (v : Value) : option AlgorithmSeed.t :=
  struct (λ m,
    kind ← Wire.field from_value "kind" m;
    name ← Wire.field from_value "name" m;
    display_name ← Wire.field from_value "displayName" m;
    family ← opt_field from_value "family" m;
    enabled ← Wire.field from_value "enabled" m;
    sort_order ← Wire.field i32 "sortOrder" m;
    Some {| AlgorithmSeed.kind := kind; AlgorithmSeed.name := name;
            AlgorithmSeed.display_name := display_name; AlgorithmSeed.family := family;
            AlgorithmSeed.enabled := enabled; AlgorithmSeed.sort_order := sort_order |}) v.

Definition endpoint_seed (v : Value) : option EndpointSeed.t :=
  struct (λ m,
    slug ← Wire.field from_value "slug" m;
    label ← Wire.field from_value "label" m;
    label_zh ← Wire.field from_value "labelZh" m;
    host ← Wire.field from_value "host" m;
    port ← Wire.field i32 "port" m;
    notes ← opt_field from_value "notes" m;
    enabled ← Wire.field from_value "enabled" m;
    Some {| EndpointSeed.slug := slug; EndpointSeed.label := label;
            EndpointSeed.label_zh := label_zh; EndpointSeed.host := host;
            EndpointSeed.port := port; EndpointSeed.notes := notes;
            EndpointSeed.enabled := enabled |}) v.

Definition pack_seed (v : Value) : option PackSeed.t :=
  struct (λ m,
    slug ← Wire.field from_value "slug" m;
    capability ← Wire.field from_value "capability" m;
    parameter_set ← Wire.field from_value "parameterSet" m;
    vs_id ← Wire.field i64 "vsId" m;
    prompt ← Wire.field Some "prompt" m;
    answer_key ← Wire.field Some "answerKey" m;
    registration ← Wire.field Some "registration" m;
    Some {| PackSeed.slug := slug; PackSeed.capability := capability;
            PackSeed.parameter_set := parameter_set; PackSeed.vs_id := vs_id;
            PackSeed.prompt := prompt; PackSeed.answer_key := answer_key;
            PackSeed.registration := registration |}) v.

(** A file of entries: an array, each of whose elements is one. *)
Definition entries {A} (entry : Value → option A) (bytes : string) : result string (list A) :=
  match json_from_str bytes with
  | Ok v =>
      match as_array v ≫= mapM entry with
      | Some l => Ok l
      | None => Err (shape_error v)
      end
  | Err e => Err (json_error_display e)
  end.

Definition seed_json : SeedJson := {|
  algorithms_from_slice := entries algorithm_seed;
  endpoints_from_slice := entries endpoint_seed;
  packs_from_slice := entries pack_seed;
|}.

End derived.

(** ** What is stored can be read again *)

#[global] Arguments usize : simpl never.

Section laws.
Context {J : SerdeJson} {JL : SerdeJsonLaws} {ST : SerdeTexts}.

Lemma value_result_ok `{!Wire A, !WireLaws A} (a : A) : typed a → value_result (to_value a) = Ok a.
Proof. intros Ha. unfold value_result. by rewrite wire_round_trip. Qed.

Lemma str_result_ok `{!Wire A, !WireLaws A} {T : JsonText} {TL : JsonTextLaws} (a : A) :
  typed a → str_result (to_text a) = Ok a.
Proof.
  intros Ha. unfold str_result, to_text. rewrite text_reads_back. by apply value_result_ok.
Qed.

Lemma usize_int n : is_usize n → usize (usize_value n) = Some n.
Proof.
  intros Hn. unfold usize, usize_value. rewrite uint_int by done. cbn. by rewrite Nat2Z.id.
Qed.

#[export] Instance case_status_laws : WireLaws CaseStatus.
Proof. wire_enum case_name. Qed.

#[export] Instance bool_not_null : NotNull bool.
Proof. split. intros b. apply as_null_bool. Qed.

#[export] Instance answer_case_laws : WireLaws AnswerCase.
Proof. split. intros [] Ht. cbn in Ht. wire_record. Qed.

#[export] Instance answer_key_laws : WireLaws AnswerKey.
Proof. split. intros [] [H1 H2]. cbn in *. wire_record. Qed.

#[export] Instance case_result_laws : WireLaws CaseResult.
Proof. split. intros [] Ht. cbn in Ht. wire_record. Qed.

#[export] Instance validation_report_laws : WireLaws ValidationReport.
Proof.
  split. intros [] (H1 & H2 & H3 & H4 & H5 & H6 & H7). cbn in *. wire_record.
  rewrite !usize_int by done. cbn. by repeat wire_step.
Qed.

(** The report on a key in range is in range. *)
Lemma report_typed {X : Hex} text key r :
  validate text key = Ok r → typed key → is_usize (length key.(key_cases)) → typed r.
Proof.
  intros (v & set & subs & _ & _ & _ & _ & _ & ->)%validate_Ok [Hv Hc] Hn. cbn in Hc |- *.
  rewrite length_map. unfold is_usize, is_uint in *.
  pose proof (counts_partition (map (grade subs key.(key_mode) set) key.(key_cases))) as Hp.
  rewrite length_map in Hp. split_and!; try done; try lia.
  apply Forall_map. eapply Forall_impl; [exact Hc|]. intros c Hi. cbn in *. by rewrite grade_id.
Qed.


End laws.

Module DerivedWitness.
Import JsonModel WireModel HexModel.

#[export] Instance serde_texts : SerdeTexts := λ _, "invalid type".

(** A verification pack of two cases and a submission that answers one of them. *)
Definition key : AnswerKey := {|
  key_vs_id := 42; key_mode := "sigVer"; key_parameter_set := "ML-DSA-65";
  key_cases := [
    {| ans_tc_id := 1; pk := None; sk := None; signature := None; test_passed := Some true |};
    {| ans_tc_id := 2; pk := None; sk := None; signature := None; test_passed := Some false |}] |}.

Definition submission : Value :=
  VObject [("vsId", VInt 42);
           ("testGroups", VArray [VObject [("tests",
              VArray [VObject [("tcId", VInt 2); ("testPassed", VBool false)]])]])].

(** Only the field of the mode is written. *)
Example key_document :
  (to_value key : value)
  = VObject [("vsId", VInt 42); ("mode", VString "sigVer"); ("parameterSet", VString "ML-DSA-65");
             ("cases", VArray [VObject [("tcId", VInt 1); ("testPassed", VBool true)];
                               VObject [("tcId", VInt 2); ("testPassed", VBool false)]])].
Proof. reflexivity. Qed.

Definition graded_report : ValidationReport :=
  match validate (json_to_string submission) key with
  | Ok r => r
  | Err _ => report_of key []
  end.

Lemma graded_report_ok : validate (json_to_string submission) key = Ok graded_report.
Proof. vm_cast_no_check (eq_refl (validate (json_to_string submission) key)). Qed.


Definition file (l : list value) : string := json_to_string (VArray l : @Value json).

(** A file of algorithms: a missing family is none, a missing name refuses the file. *)
Example algorithm_files :
  entries algorithm_seed (file [VObject
    [("kind", VString "sig_alg"); ("name", VString "ed25519"); ("displayName", VString "Ed25519");
     ("enabled", VBool true); ("sortOrder", VInt 3)]])
  = Ok [{| AlgorithmSeed.kind := "sig_alg"; AlgorithmSeed.name := "ed25519";
           AlgorithmSeed.display_name := "Ed25519"; AlgorithmSeed.family := None;
           AlgorithmSeed.enabled := true; AlgorithmSeed.sort_order := 3 |}] ∧
  entries algorithm_seed (file [VObject [("kind", VString "sig_alg")]])
  = Err "invalid type" ∧
  entries algorithm_seed (json_to_string (VNull : @Value json)) = Err "invalid type".
Proof. by vm_compute. Qed.

End DerivedWitness.
