(* ===== verification/Deployed.v ===== *)
(** * The services put together

    The parameters the services were modelled with, filled in with the code of the
    repository that stands behind them: the JSON of their structs ([Wire], [Derived]) and the
    adapter image ([Exchange]). What the API queues is what the worker decodes; and a subtask
    ends with the verdict on what the image made of it. *)

From S2P Require Import Prelude RustStr Json Proto Status Domain Wire Backend BackendFacts Verdict.
From S2P Require Import Effects World Stream Store Registry Asking Exchange Probe ProbeFacts Kem.
From S2P Require Import Fixtures Protocol Concurrency Api Walk Worker WorkerFacts SubtaskCompany.
From S2P Require Import ApiFacts WorkerStory ApiKem ApiKemFacts ApiSeed Derived.

Section deployed.
Context {J : SerdeJson} {JL : SerdeJsonLaws} {T : JsonText} {TL : JsonTextLaws}.
Context {HT : HttpTexts} {ST : SerdeTexts}.
Context {U : UuidDisplay} {P : UuidParse} {PL : UuidParseLaws}.

#[local] Existing Instance report_json.
#[local] Existing Instance job_json.

(** The entry of a job on its stream, as the worker gets it. *)
Definition probe_entry (id : string) (job : ProbeJob.t) : Delivery.t := {|
  Delivery.stream := STREAM_PROBE; Delivery.id := id; Delivery.payload := to_text job |}.

Definition kem_entry (id : string) (job : KemJob.t) : Delivery.t := {|
  Delivery.stream := STREAM_KEM; Delivery.id := id; Delivery.payload := to_text job |}.

Lemma probe_entry_decodes id job : typed job → probe_job_of (probe_entry id job) = Some job.
Proof. intros Hj. unfold probe_job_of, probe_entry. cbn. by rewrite str_result_ok. Qed.

Lemma probe_entries_decode ids jobs :
  length ids = length jobs → Forall typed jobs →
  omap probe_job_of (zip_with probe_entry ids jobs) = jobs.
Proof.
  intros Hl Hj. revert ids Hl. induction Hj as [|job jobs Hj _ IH]; intros [|id ids] [=]; [done|].
  cbn [zip_with omap list_omap]. by rewrite probe_entry_decodes, IH.
Qed.

(** ** What the API queues *)

Section queue.
Context (env : Env) (Hr : reliable env).

(** The keys the transaction of [create_test] takes fit a [Uuid]. *)
Definition ids_fit (body : NewTest) (w : World) : Prop :=
  ∀ i, i ≤ length (dedupe body.(groups)) * length (dedupe body.(sig_algs)) →
    is_uuid (new_id env w i).

Lemma created_jobs_typed config body w :
  database_honest env w → creatable config body w.(db) → ids_fit body w →
  is_uint u64_max config.(probe_timeout_ms) → Forall typed (created_jobs env config body w).
Proof.
  intros Hh Hc Hu Ht. apply Forall_forall. intros job Hin.
  apply elem_of_created_jobs in Hin as ([k r] & Hin & ->); [|done..].
  apply elem_of_new_rows in Hin as (i & p & Hp & [= -> ->]); [|apply Hc].
  apply lookup_lt_Some in Hp. rewrite length_pairs in Hp.
  pose proof (as_u16_range body.(port)). cbn. unfold is_uint.
  split_and!; try apply Ht; try (apply Hu; lia); lia.
Qed.

(** C20. The queue loses nothing: every job [POST /tests] appends to the stream is decoded, by
    the decoder of the worker, from the text it was written as, into the job it was, whatever
    ids Redis gives to the entries; and so is the job of [POST /kem/runs]. *)
Theorem queued_jobs_decode :
  (∀ config body w,
     database_honest env w → creatable config body w.(db) → ids_fit body w →
     is_uint u64_max config.(probe_timeout_ms) →
     ∃ test jobs w1, run (create_test env config body) w = (Ok (Ok test), w1) ∧
       w1.(streams) = w.(streams) ++ map (λ job, (STREAM_PROBE, Probe_job job)) jobs ∧
       ∀ ids, length ids = length jobs →
         omap probe_job_of (zip_with probe_entry ids jobs) = jobs) ∧
  (∀ body e w,
     names_endpoint body e w.(db) →
     (body.(mode) = KemRunMode.GroupCompat → body.(run_groups) ≠ []) →
     w.(db).(kem_runs) !! new_run_id env w = None → is_uuid (new_run_id env w) →
     ∃ kem_run job w1, run (create_run env body) w = (Ok (Ok kem_run), w1) ∧
       w1.(streams) = w.(streams) ++ [(STREAM_KEM, Kem_job job)] ∧
       ∀ id, kem_job_from_str (kem_entry id job).(Delivery.payload) = Ok job).
Proof.
  split.
  - intros config body w Hh Hc Hu Ht. eexists _, (created_jobs env config body w), _.
    split; [by apply run_create_test|]. split; [by cbn; rewrite map_map|].
    intros ids Hl. apply probe_entries_decode; [done|]. by apply created_jobs_typed.
  - intros body e w He Hg Hfree Hu.
    destruct (run_create_run env Hr body e w) as (w1 & Hrun & _ & Hst); [done..|].
    eexists _, _, w1. split; [exact Hrun|]. split; [exact Hst|]. intros id. cbn.
    apply str_result_ok. cbn. pose proof (as_u16_range e.(Endpoint.port)). unfold is_uint.
    split; [exact Hu|lia].
Qed.

End queue.

(** ** The verdict of a deployment *)

Section verdict.
Context {C : Chrono} {V : RedisValue}.
Context (env : Env) (bases : gmap string string) (Hr : reliable env) (job : ProbeJob.t).
Notation sub := (job.(ProbeJob.subtask_id)).

Context (base : string) (exec : nat → ClientExec) (base64 : Base64) (elapsed : nat → Z).
Context (config : Config.t) (backend : Backend).

(** The target has a name, and the adapter is the image of [config] and [backend]. *)
Record deployed : Prop := {
  dep_base : bases !! job.(ProbeJob.adapter) = Some base;
  dep_served : served env base exec base64 elapsed config backend;
  dep_host : trim job.(ProbeJob.host) ≠ "";
}.

Definition response_at (n : nat) : ProbeResponse.t :=
  Backend.run (exec n) base64 (elapsed n) config backend (request_of job).

Lemma deployed_answered response :
  deployed → typed job → answered env bases job response → ∃ n, response = response_at n.
Proof.
  intros [Hb [Hp _] Hh] (_ & _ & Hport & Hms) (n & base' & Hb' & ->). rewrite Hb in Hb'.
  injection Hb' as <-. exists n. rewrite Hp, post_served by by apply request_of_typed.
  cbn [request_of ProbeRequest.target Target.host]. by destruct (String.eqb_spec (trim job.(ProbeJob.host)) "").
Qed.

Lemma deployed_judged cached response result :
  deployed → (∀ c, cached !! job.(ProbeJob.adapter) = Some c → c = Backend.capabilities config) →
  judged env bases job cached response result →
  result = classify response (offered_of job) (Backend.capabilities config).
Proof.
  intros [Hb [_ Hg] _] Hc ([c|err] & -> & H).
  - assert (c = Backend.capabilities config) as ->; [|done].
    destruct H as [H|(n & base' & Hb' & H)]; [by apply Hc|]. rewrite Hb in Hb'.
    injection Hb' as <-. rewrite Hg, get_served in H. by injection H.
  - destruct H as (n & base' & Hb' & H). rewrite Hb in Hb'. injection Hb' as <-.
    by rewrite Hg, get_served in H.
Qed.


End verdict.

End deployed.

Module DeployedWitness.
Import ExchangeWitness WireModel Fixtures.Lab ApiFacts.ApiWitness.

#[local] Instance serde_texts : SerdeTexts := λ _, "invalid type".
#[local] Existing Instance job_json.
#[local] Existing Instance Derived.report_json.
#[local] Existing Instance WorkerStory.WorkerWitness.redis.
#[local] Existing Instance WorkerStory.WorkerWitness.redis_laws.

(** The jobs of the laboratory's test are on the stream, the second entry first. *)
Lemma queued_jobs_decode_witness :
  ∃ test jobs w1, run (create_test env lab_config selection) lab = (Ok (Ok test), w1) ∧
    length jobs = 2 ∧ omap probe_job_of (zip_with probe_entry ["1-0"; "2-0"] jobs) = jobs.
Proof.
  destruct (queued_jobs_decode env lab_reliable) as [H _].
  destruct (H lab_config selection lab lab_honest lab_creatable) as (test & jobs & w1 & Hrun & Hst & Hj).
  - intros i Hi. vm_compute in Hi. unfold is_uuid, new_id. cbn. lia.
  - unfold is_uint. cbn. lia.
  - exists test, jobs, w1.
    assert (Hl : length jobs = 2).
    { assert (Hlen : length (run (create_test env lab_config selection) lab).2.(streams) = 2)
        by by vm_compute.
      rewrite Hrun in Hlen. cbn [snd] in Hlen. rewrite Hst, length_app, length_map in Hlen. exact Hlen. }
    split; [exact Hrun|]. split; [exact Hl|]. apply Hj. by rewrite Hl.
Defined.

(** A worker whose [openssl] adapter is an image of the mock stack. *)
Definition image : Config.t := {|
  Config.bind := "0.0.0.0:9100"; Config.backend := "mock"; Config.client_bin := "";
  Config.name := Some "openssl"; Config.version := "1"; Config.kem_groups := "MLKEM768, X25519";
  Config.sig_algs := "mldsa65"; Config.workdir := None |}.

Definition mocked : Env := {|
  clock := λ n, Z.of_nat n; fresh_uuid := λ n k, N.of_nat (100 * n + k);
  next_serial := λ n, Z.of_nat n; row_order := λ _ l, l; fault := λ _, Works;
  get_capabilities := λ _ _, get_reply (Ok (serve_capabilities image));
  post_probe := λ n _ request,
    post_reply (Ok (serve_probe exec base64 (elapsed n) image Mock (to_text request))) |}.

Definition queued_job : ProbeJob.t := job 10 "mlkem768" "openssl".

Definition round : Replies := {|
  on_read := Ok None;
  on_claim stream :=
    if String.eqb stream STREAM_PROBE
    then Ok (autoclaim_reply "0-0" [("1-0", [("job", to_text queued_job)])] [])
    else Ok (autoclaim_reply "0-0" [] []) |}.

Lemma image_deployed :
  deployed mocked bases queued_job "http://adapter-openssl:9100" (λ _, exec) base64 elapsed image
    Mock.
Proof. by split. Qed.


End DeployedWitness.
