(* ===== verification/ApiLive.v ===== *)
(** * Live updates ([services/api/src/routes/sse.rs], the [events] handlers, and the two
    consumers in [apps/web/src/components])

    A browser that opens an event stream is subscribed to one channel from that moment on.
    The two components of the web front end that fold the messages into what they show are
    here too, so that what the student sees can be compared with what the database says. *)

From S2P Require Import Prelude RustStr Json Proto Status Domain Effects World Api ApiKem.

(** The text of a message, from [serde_json::to_string] in the worker through [get_payload]
    of the crate [redis] in the API to [JSON.parse] in the browser. *)
Class EventWire := {
  Text : Type;
  get_payload : Event → result string Text;
  json_parse : Text → option Event;
}.

(** What is written can be read. *)
Class EventWireLaws `{EventWire} : Prop := {
  payload_reads_back e : ∃ t, get_payload e = Ok t ∧ json_parse t = Some e;
}.

Section sse.
Context {J : SerdeJson} {U : UuidDisplay} {E : EventWire} (env : Env).
Context (client : result string unit).

Local Open Scope api_scope.

(** ** [sse.rs] *)

Record Subscription := { sub_channel : string; sub_from : nat }.

Definition connect : op World unit := λ w,
  match env.(fault) w.(steps) with
  | Works => (Ok tt, tick w)
  | FailsBefore err | FailsAfter err => (Err err, tick w)
  end.

(** [pubsub.subscribe(&channel)]: the messages published from now on. *)
Definition subscribe_op (channel : string) : op World Subscription := λ w,
  match env.(fault) w.(steps) with
  | Works => (Ok {| sub_channel := channel; sub_from := length w.(published) |}, tick w)
  | FailsBefore err | FailsAfter err => (Err err, tick w)
  end.

(** [client] is what [redis::Client::open] makes of the configured address. *)
Definition subscribe (channel : string) : api Subscription :=
  do _ := Ret (map_err Other client) in
  do _ := api_op Redis connect in
  api_op Redis (subscribe_op channel).

(** The messages of a subscription once the world is [w], in order. *)
Definition messages (sub : Subscription) (w : World) : list Event :=
  map snd (filter (λ m, m.1 = sub.(sub_channel)) (drop sub.(sub_from) w.(published))).

(** The [while let] loop: a message whose payload cannot be had is skipped. *)
Definition stream_of (sub : Subscription) (w : World) : list Text :=
  omap (λ e, match get_payload e with Ok t => Some t | Err _ => None end) (messages sub w).

(** ** The two handlers *)

(** [tests::events]. *)
Definition test_events (id : Uuid) : api Subscription :=
  fetch_test env id >> subscribe (test_channel id).

(** [kem::events]. *)
Definition kem_events (id : Uuid) : api Subscription :=
  do exists_ := api_op Database (sql env (λ _ d,
    Ok (match d.(kem_runs) !! id with Some _ => Some true | None => None end, d))) in
  match exists_ with
  | None => api_err (NotFound "kem run")
  | Some _ => subscribe (kem_channel id)
  end.

(** ** [test-matrix.tsx]: the live grid *)

Definition updated_cell (id : Uuid) (exec : ExecStatus.t) (result : ResultStatus.t)
    (c : MatrixCell.t) : MatrixCell.t :=
  if decide (c.(MatrixCell.subtask_id) = id) then {|
    MatrixCell.subtask_id := c.(MatrixCell.subtask_id);
    MatrixCell.group_name := c.(MatrixCell.group_name);
    MatrixCell.sig_alg := c.(MatrixCell.sig_alg);
    MatrixCell.result_status := result;
    MatrixCell.exec_status := exec;
  |} else c.

(** [source.onmessage]. *)
Definition on_test_event (m : Matrix.t) (e : Event) : Matrix.t :=
  match e with
  | Test_event (TestEvent.SubtaskUpdated id exec result _ _) => {|
      Matrix.groups := m.(Matrix.groups); Matrix.sig_algs := m.(Matrix.sig_algs);
      Matrix.cells := map (updated_cell id exec result) m.(Matrix.cells) |}
  | _ => m
  end.

(** ** [kem-runner.tsx]: the live console *)

Record RunnerLog := { log_seq : Z; log_at : string; log_level : string; log_message : string }.

Record RunnerCell := {
  cell_kem : string; cell_adapter : string; cell_verdict : ResultStatus.t;
  cell_detail : option string;
}.

Record Runner := {
  runner_logs : list RunnerLog;
  runner_cells : list RunnerCell;
  running : bool;
  listening : bool;
}.

(** The state once the request has been answered and the stream was opened. *)
Definition runner_start : Runner :=
  {| runner_logs := []; runner_cells := []; running := true; listening := true |}.

(** [source.onmessage]; [source.close()] ends the stream. *)
Definition on_kem_event (r : Runner) (e : Event) : Runner :=
  if negb r.(listening) then r else
  match e with
  | Kem_event (KemEvent.Log seq at_ level message) => {|
      runner_logs := r.(runner_logs) ++ [{| log_seq := seq; log_at := at_; log_level := level;
                                            log_message := message |}];
      runner_cells := r.(runner_cells); running := r.(running); listening := true |}
  | Kem_event (KemEvent.Cell kem adapter verdict detail) => {|
      runner_logs := r.(runner_logs);
      runner_cells :=
        filter (λ c, ¬ (c.(cell_kem) = kem ∧ c.(cell_adapter) = adapter)) r.(runner_cells)
          ++ [{| cell_kem := kem; cell_adapter := adapter; cell_verdict := verdict;
                 cell_detail := detail |}];
      running := r.(running); listening := true |}
  | _ => {| runner_logs := r.(runner_logs); runner_cells := r.(runner_cells);
            running := false; listening := false |}
  end.

(** What a component makes of the texts of a stream. *)
Definition shown {S} (step : S → Event → S) (start : S) (texts : list Text) : S :=
  foldl step start (omap json_parse texts).

End sse.
