(* ===== verification/ApiHealth.v ===== *)
(** * Health and metrics ([services/api/src/routes/health.rs])

    What the compose health check, the deployment and a Prometheus scraper read. A scraper
    reads back from the text exactly the counts of the tables. *)

From S2P Require Import Prelude RustStr Json Proto Status Domain Effects World Store Fixtures.

Section health.
Context {J : SerdeJson} (env : Env).
(** The order in which the database lists the rows of a [GROUP BY]. *)
Context (group_order : list (string * Z) → list (string * Z)).
(** [CARGO_PKG_VERSION]. *)
Context (version : string).

Local Open Scope prog_scope.

Definition healthz : prog World Value :=
  Ret (json_object [("status", json_string "ok"); ("version", json_string version)]).

Definition ping : op World unit := λ w,
  match env.(fault) w.(steps) with
  | Works => (Ok tt, tick w)
  | FailsBefore err | FailsAfter err => (Err err, tick w)
  end.

Definition readyz : prog World (Z * Value) :=
  let! answer := attempt (call (sql env (λ _ d, Ok (1%Z, d)))) in
  let db := is_ok answer in
  let! pong := attempt (call ping) in
  let redis := is_ok pong in
  let ready := db && redis in
  let code := if ready then 200%Z else 503%Z in
  Ret (code, json_object [("ready", json_bool ready); ("db", json_bool db);
                          ("redis", json_bool redis)]).

(** ** [metrics] *)

(** [SELECT status::text, count( * ) FROM tests GROUP BY status]. *)
Definition tests_with (status : TaskStatus.t) (d : Db) : Z :=
  Z.of_nat (length (filter (λ t, t.(Test.status) = status) (map snd (map_to_list d.(tests))))).

Definition status_counts (d : Db) : list (string * Z) :=
  filter (λ row, (0 < row.2)%Z)
    (map (λ status, (TaskStatus.as_str status, tests_with status d)) (variants : list TaskStatus.t)).

(** [SELECT count( * ) FROM subtasks WHERE exec_status = 'queued']. *)
Definition queued_count (d : Db) : Z :=
  Z.of_nat (length (filter (λ s, s.(Subtask.exec_status) = ExecStatus.Queued)
                      (map snd (map_to_list d.(subtasks))))).

(** A double quote around a label. *)
Definition label (s : string) : string :=
  String (Ascii.ascii_of_N 34) (s +:+ String (Ascii.ascii_of_N 34) "").

Definition tests_series (status : string) : string :=
  "pqcas_tests_total{status=" +:+ label status +:+ "}".

Definition queued_series : string := "pqcas_subtasks_queued".

Definition tests_line (row : string * Z) : string :=
  tests_series row.1 +:+ " " +:+ show row.2 +:+ newline.

Definition metrics_body (counts : list (string * Z)) (queued : Z) : string :=
  foldl (λ body row, body +:+ tests_line row)
    ("# HELP pqcas_tests_total Tests by status" +:+ newline
     +:+ "# TYPE pqcas_tests_total gauge" +:+ newline) counts
  +:+ ("# HELP pqcas_subtasks_queued Subtasks waiting for a worker" +:+ newline
       +:+ "# TYPE pqcas_subtasks_queued gauge" +:+ newline)
  +:+ (queued_series +:+ " " +:+ show queued +:+ newline).

(** [unwrap_or_default], [unwrap_or(0)]: an error counts as nothing. *)
Definition metrics : prog World (Z * string) :=
  let! rows := attempt (call (sql env (λ _ d, Ok (group_order (status_counts d), d)))) in
  let counts := match rows with Ok counts => counts | Err _ => [] end in
  let! row := attempt (call (sql env (λ _ d, Ok (queued_count d, d)))) in
  let queued := match row with Ok n => n | Err _ => 0%Z end in
  Ret (200%Z, metrics_body counts queued).

End health.

(** ** A scraper *)

(** The value of a series in a text exposition: the first line that is the series, a space
    and a number. *)
Definition sample (series text : string) : option Z :=
  find_map (λ line, rest ← strip_prefix (series +:+ " ") line; parse_uint (2 ^ 63 - 1) rest)
    (lines text).

Definition header_tests : list string :=
  ["# HELP pqcas_tests_total Tests by status"; "# TYPE pqcas_tests_total gauge"].

Definition header_queued : list string :=
  ["# HELP pqcas_subtasks_queued Subtasks waiting for a worker";
   "# TYPE pqcas_subtasks_queued gauge"].

Definition body_lines (counts : list (string * Z)) (queued : Z) : list string :=
  header_tests ++ map (λ row, tests_series row.1 +:+ " " +:+ show row.2) counts
  ++ header_queued ++ [queued_series +:+ " " +:+ show queued].

Lemma unlines_app l1 l2 : unlines (l1 ++ l2) = unlines l1 +:+ unlines l2.
Proof. induction l1 as [|s l1 IH]; [done|]. cbn [app unlines]. by rewrite IH, !str_app_assoc. Qed.

Lemma metrics_body_lines counts queued :
  metrics_body counts queued = unlines (body_lines counts queued).
Proof.
  unfold metrics_body, body_lines. rewrite !unlines_app.
  assert (Hf : ∀ s, foldl (λ body row, body +:+ tests_line row) s counts
    = s +:+ unlines (map (λ row, tests_series row.1 +:+ " " +:+ show row.2) counts)).
  { induction counts as [|row counts IH]; intros s; cbn [foldl map unlines]; [by rewrite app_empty_r|].
    rewrite IH. unfold tests_line. by rewrite !str_app_assoc. }
  rewrite Hf. cbn [unlines header_tests header_queued]. by rewrite !str_app_assoc, !app_empty_r.
Qed.

(** ** What is read back *)

Lemma body_one_line counts queued :
  (∀ row, row ∈ counts → (0 ≤ row.2)%Z ∧ row.1 ∈ map TaskStatus.as_str (variants : list TaskStatus.t)) →
  (0 ≤ queued)%Z →
  lines (metrics_body counts queued) = body_lines counts queued.
Proof.
  intros Hc Hq. rewrite metrics_body_lines. apply lines_unlines. unfold body_lines.
  rewrite !Forall_app. split_and!; [by repeat constructor| |by repeat constructor|].
  - apply Forall_map, Forall_forall. intros [s n] [Hn Hs]%Hc. cbn [fst snd] in *.
    rewrite !one_line_app, (plain_one_line (show n)) by by apply show_plain.
    apply list_elem_of_fmap in Hs as (st & -> & _). by destruct st.
  - repeat constructor. by rewrite !one_line_app, (plain_one_line (show queued)) by by apply show_plain.
Qed.

Lemma every_status (st : TaskStatus.t) : st ∈ (variants : list TaskStatus.t).
Proof. cbn. rewrite !elem_of_cons. destruct st; auto 6. Qed.

(** No line of one series reads as another. *)
Lemma other_series st st' r :
  strip_prefix (tests_series (TaskStatus.as_str st) +:+ " ")
    (tests_series (TaskStatus.as_str st') +:+ " " +:+ r)
  = if decide (st = st') then Some r else None.
Proof. destruct st, st'; reflexivity. Qed.

Lemma elem_of_find_map {A B} (f : A → option B) l x y :
  x ∈ l → f x = Some y → (∀ z y', z ∈ l → f z = Some y' → y' = y) → find_map f l = Some y.
Proof.
  intros Hx Hf Hu. destruct (find_map f l) as [y'|] eqn:Hm.
  - apply find_map_Some in Hm as (l1 & z & l2 & -> & Hz & _).
    rewrite (Hu z y'); [done|set_solver|done].
  - apply find_map_None in Hm. rewrite Forall_forall in Hm. by rewrite (Hm x Hx) in Hf.
Qed.

Section read_back.
Context {J : SerdeJson} (env : Env) (group_order : list (string * Z) → list (string * Z)).

Lemma elem_of_status_counts row d :
  row ∈ status_counts d ↔
  ∃ st, row = (TaskStatus.as_str st, tests_with st d) ∧ (0 < tests_with st d)%Z.
Proof.
  unfold status_counts. rewrite list_elem_of_filter, list_elem_of_fmap. split.
  - intros [Hn (st & -> & _)]. by exists st.
  - intros (st & -> & Hn). split; [done|]. exists st. split; [done|]. apply every_status.
Qed.

Lemma sample_tests st counts queued d :
  counts ≡ₚ status_counts d → (0 ≤ queued)%Z → (tests_with st d < 2 ^ 63)%Z →
  sample (tests_series (TaskStatus.as_str st)) (metrics_body counts queued)
  = if decide (0 < tests_with st d)%Z then Some (tests_with st d) else None.
Proof.
  intros Hc Hq Hb. unfold sample. rewrite body_one_line; [|..|done].
  2: { intros row. rewrite Hc. intros (st' & -> & Hn)%elem_of_status_counts. split; [cbn; lia|].
       apply list_elem_of_fmap. exists st'. split; [done|]. apply every_status. }
  set (f := λ line, _). unfold body_lines.
  assert (Hf : ∀ st', (0 < tests_with st' d)%Z →
    f (tests_series (TaskStatus.as_str st') +:+ " " +:+ show (tests_with st' d))
    = if decide (st = st') then Some (tests_with st d) else None).
  { intros st' Hn. unfold f. rewrite other_series. case_decide as Hst; [subst st'|done].
    cbn [mbind option_bind]. apply parse_show. lia. }
  assert (H1 : find_map f header_tests = None) by by destruct st.
  assert (H2 : find_map f (header_queued ++ [queued_series +:+ " " +:+ show queued]) = None)
    by by destruct st.
  rewrite find_map_app, H1, find_map_app, H2. cbn [or_else].
  assert (Hm : ∀ line, line ∈ map (λ row, tests_series row.1 +:+ " " +:+ show row.2) counts ↔
    ∃ st', line = tests_series (TaskStatus.as_str st') +:+ " " +:+ show (tests_with st' d)
           ∧ (0 < tests_with st' d)%Z).
  { intros line. rewrite list_elem_of_fmap. setoid_rewrite Hc. setoid_rewrite elem_of_status_counts.
    naive_solver. }
  case_decide as Hn.
  - erewrite elem_of_find_map; [done|apply Hm; by exists st|by rewrite Hf, decide_True|].
    intros line y (st' & -> & Hn')%Hm. rewrite Hf by done. case_decide; congruence.
  - rewrite (proj2 (find_map_None _ _)); [done|]. apply Forall_forall.
    intros line (st' & -> & Hn')%Hm. rewrite Hf, decide_False; [done| |done]. by intros ->.
Qed.

Lemma sample_queued counts queued d :
  counts ≡ₚ status_counts d → (0 ≤ queued < 2 ^ 63)%Z →
  sample queued_series (metrics_body counts queued) = Some queued.
Proof.
  intros Hc Hq. unfold sample. rewrite body_one_line; [|..|lia].
  2: { intros row. rewrite Hc. intros (st' & -> & Hn)%elem_of_status_counts. split; [cbn; lia|].
       apply list_elem_of_fmap. exists st'. split; [done|]. apply every_status. }
  set (f := λ line, _). unfold body_lines.
  assert (H1 : find_map f header_tests = None) by done.
  assert (H2 : find_map f header_queued = None) by done.
  assert (H3 : find_map f (map (λ row, tests_series row.1 +:+ " " +:+ show row.2) counts) = None).
  { apply find_map_None, Forall_map, Forall_forall. by intros row _. }
  rewrite !find_map_app, H1, H2, H3. cbn [or_else find_map]. unfold f.
  change (strip_prefix (queued_series +:+ " ") (queued_series +:+ " " +:+ show queued))
    with (Some (show queued)). cbn [mbind option_bind]. rewrite parse_show; [done|lia].
Qed.

(** The counts add up to the tests. *)
Lemma counts_add_up d :
  foldr Z.add 0%Z (map snd (status_counts d)) = Z.of_nat (size d.(tests)).
Proof.
  assert (Hl : size d.(tests) = length (map snd (map_to_list d.(tests)))).
  { by rewrite length_map, length_map_to_list. }
  rewrite Hl. unfold status_counts, tests_with.
  set (rows := map snd (map_to_list d.(tests))). clearbody rows. clear Hl.
  assert (Hs : ∀ l : list (string * Z), (∀ row, row ∈ l → (0 ≤ row.2)%Z) →
    foldr Z.add 0%Z (map snd (filter (λ row, (0 < row.2)%Z) l)) = foldr Z.add 0%Z (map snd l)).
  { induction l as [|[s n] l IH]; intros Hp; [done|]. rewrite filter_cons.
    specialize (Hp (s, n) ltac:(by left)) as Hn. cbn [fst snd] in Hn. case_decide; cbn [map foldr snd] in *.
    - rewrite IH; [done|]. intros row Hr. apply Hp. by right.
    - rewrite IH; [lia|]. intros row Hr. apply Hp. by right. }
  rewrite Hs; [|by intros row (st & -> & _)%list_elem_of_fmap; cbn; lia].
  clear Hs. cbn [map snd foldr variants TaskStatus.pg_enum].
  induction rows as [|t rows IH]; [done|]. cbn [length].
  rewrite !filter_cons. destruct (Test.status t); repeat (case_decide; [|]; try done);
    cbn [length] in *; lia.
Qed.

(** C39. The metrics. Whatever order the database groups in, a scraper reads from the text
    exactly what the tables say: for each status that occurs the number of its tests, and
    no sample for one that does not, so that the samples add up to all tests; and the number
    of subtasks that wait for a worker. *)
Theorem metrics_scraped w :
  reliable env → (∀ l, group_order l ≡ₚ l) →
  (Z.of_nat (size w.(db).(tests)) < 2 ^ 63)%Z → (Z.of_nat (size w.(db).(subtasks)) < 2 ^ 63)%Z →
  ∃ text w', run (metrics env group_order) w = (Ok (200%Z, text), w') ∧ same_tables w w' ∧
    (∀ st, sample (tests_series (TaskStatus.as_str st)) text
       = if decide (0 < tests_with st w.(db))%Z then Some (tests_with st w.(db)) else None) ∧
    foldr Z.add 0%Z (map (λ st, unwrap_or 0%Z (sample (tests_series (TaskStatus.as_str st)) text))
      (variants : list TaskStatus.t)) = Z.of_nat (size w.(db).(tests)) ∧
    sample queued_series text = Some (queued_count w.(db)).
Proof.
  intros Hr Ho Ht Hs.
  assert (Hle : ∀ st, (0 ≤ tests_with st w.(db) < 2 ^ 63)%Z).
  { intros st. unfold tests_with. pose proof (length_filter (λ t, t.(Test.status) = st)
      (map snd (map_to_list w.(db).(tests)))) as Hf.
    rewrite length_map, length_map_to_list in Hf. lia. }
  assert (Hq : (0 ≤ queued_count w.(db) < 2 ^ 63)%Z).
  { unfold queued_count. pose proof (length_filter (λ s, s.(Subtask.exec_status) = ExecStatus.Queued)
      (map snd (map_to_list w.(db).(subtasks)))) as Hf.
    rewrite length_map, length_map_to_list in Hf. lia. }
  set (counts := group_order (status_counts w.(db))).
  assert (Hsample : ∀ st, sample (tests_series (TaskStatus.as_str st))
      (metrics_body counts (queued_count w.(db)))
    = if decide (0 < tests_with st w.(db))%Z then Some (tests_with st w.(db)) else None).
  { intros st. apply sample_tests; [apply Ho|lia|apply Hle]. }
  exists (metrics_body counts (queued_count w.(db))). eexists. split.
  { unfold metrics. rewrite run_bind, run_attempt, run_call, sql_works by done. cbn [fst snd].
    by rewrite run_bind, run_attempt, run_call, sql_works by done. }
  split; [done|]. split; [exact Hsample|]. split.
  - rewrite <-counts_add_up. unfold status_counts. cbn [map foldr variants TaskStatus.pg_enum]. rewrite !Hsample.
    rewrite !filter_cons. cbn [fst snd].
    pose proof (Hle TaskStatus.Pending). pose proof (Hle TaskStatus.Running).
    pose proof (Hle TaskStatus.Finished). pose proof (Hle TaskStatus.Failed).
    pose proof (Hle TaskStatus.Cancelled).
    repeat case_decide; cbn; lia.
  - apply (sample_queued _ _ w.(db)); [apply Ho|lia].
Qed.

(** A database that is down reads as a lab without work. *)
Lemma metrics_hide_outage w err :
  (∀ n, env.(fault) n = FailsBefore err) →
  (run (metrics env group_order) w).1 = Ok (200%Z, metrics_body [] 0).
Proof.
  intros Hf. assert (Hsql : ∀ X (q : DateTime → Db → result string (X * Db)) w1,
    sql env q w1 = (Err err, tick w1)) by (intros X q w1; unfold sql; by rewrite Hf).
  unfold metrics. rewrite run_bind, run_attempt, run_call, Hsql. cbn [fst snd].
  by rewrite run_bind, run_attempt, run_call, Hsql.
Qed.

(** Ready exactly when both answer; both are asked in any case. *)
Lemma readyz_spec w :
  ∃ w', run (readyz env) w
    = (Ok (let db := match env.(fault) w.(steps) with Works => true | _ => false end in
           let redis := match env.(fault) (S w.(steps)) with Works => true | _ => false end in
           (if db && redis then 200%Z else 503%Z,
            json_object [("ready", json_bool (db && redis)); ("db", json_bool db);
                         ("redis", json_bool redis)])), w') ∧ same_tables w w'.
Proof.
  unfold readyz. rewrite run_bind, run_attempt, run_call. unfold sql, ping.
  destruct (env.(fault) w.(steps)); cbn [fst snd is_ok]; rewrite run_bind, run_attempt, run_call;
    cbn [steps tick set_db]; destruct (env.(fault) (S w.(steps))); by eexists.
Qed.

End read_back.

Module HealthWitness.
Import Fixtures.Lab.

Lemma metrics_scraped_witness :
  ∃ text w', run (metrics env reverse) world = (Ok (200%Z, text), w') ∧
    sample (tests_series "pending") text = Some 1%Z ∧
    sample (tests_series "failed") text = None ∧
    sample queued_series text = Some 2%Z.
Proof.
  destruct (metrics_scraped env reverse world) as (text & w' & H1 & _ & H2 & _ & H3);
    [intros n; reflexivity|intros l; apply reverse_Permutation|reflexivity|reflexivity|].
  exists text, w'. split; [exact H1|].
  split; [exact (H2 TaskStatus.Pending)|]. split; [exact (H2 TaskStatus.Failed)|]. exact H3.
Defined.

End HealthWitness.
