(* ===== verification/ApiRoutes.v ===== *)
(** * The routing table of the API ([services/api/src/routes/mod.rs])

    The router is built the way the code builds it, with the operations of [axum] as an
    interface: [Axum] has the operations and [AxumLaws] what its documentation says about the
    routes a router has and the answer of a route that is the only one to match. Which route
    serves a path does not depend on how the library ranks the routes, because no two of
    them match the same path. *)

From S2P Require Import Prelude RustStr.

(** ** Methods, handlers, layers *)

Inductive method := GET | POST | HEAD | OPTIONS | Other_method (name : string).

#[export] Instance method_eq_dec : EqDecision method.
Proof. solve_decision. Defined.

(** The handlers, by their names in [routes]. *)
Inductive handler :=
| list_algorithms | list_endpoints | create_endpoint
| list_tests | create_test | get_test | get_matrix | get_subtask
| list_runs | create_run | get_run
| list_packs | get_pack | create_session | get_session | validate_session
| test_events | kem_events
| healthz | readyz | metrics.

#[export] Instance handler_eq_dec : EqDecision handler.
Proof. solve_decision. Defined.

Inductive layer := Compression | Timeout (status seconds : Z) | Cors | Trace.

#[export] Instance layer_eq_dec : EqDecision layer.
Proof. solve_decision. Defined.

(** [get(h)], [post(h)] and chains of them. *)
Definition method_router : Type := list (method * handler).
Definition get (h : handler) : method_router := [(GET, h)].
Definition post (h : handler) : method_router := [(POST, h)].
Definition get_post (h h' : handler) : method_router := [(GET, h); (POST, h')].

(** A route with the layers a request passes, the outermost first. *)
Record Route := { path : string; methods : method_router; layers : list layer }.

(** ** Matching *)

Inductive segment := Lit (s : string) | Param (name : string).

#[export] Instance segment_eq_dec : EqDecision segment.
Proof. solve_decision. Defined.

(** What stands before a closing brace at the end. *)
Fixpoint before_brace (s : string) : option string :=
  match s with
  | "" => None
  | String c "" => if Ascii.eqb c (Ascii.ascii_of_N 125) then Some "" else None
  | String c r => String c <$> before_brace r
  end.

(** [{name}] matches one segment that is not empty. *)
Definition segment_of (s : string) : segment :=
  match strip_prefix "{" s with
  | Some r => match before_brace r with Some name => Param name | None => Lit s end
  | None => Lit s
  end.

(** The segments after the leading slash. *)
Definition segments (p : string) : list string :=
  match split_char slash p with
  | "" :: r => r
  | l => l
  end.

Definition pattern (p : string) : list segment := map segment_of (segments p).

Fixpoint matches (p : list segment) (l : list string) : option (list (string * string)) :=
  match p, l with
  | [], [] => Some []
  | Lit s :: p, t :: l => if String.eqb s t then matches p l else None
  | Param name :: p, t :: l =>
      if String.eqb t "" then None else cons (name, t) <$> matches p l
  | _, _ => None
  end.

(** What a request is answered with; without a route it goes to the fallback. *)
Inductive Dispatch :=
| Handled (h : handler) (params : list (string * string)) (layers : list layer)
| Preflight
| Method_not_allowed
| Fallback.

(** [get] also answers [HEAD]. *)
Definition serves (m : method) (mr : method_router) : option handler :=
  snd <$> find_first (λ mh, bool_decide (mh.1 = m ∨ m = HEAD ∧ mh.1 = GET)) mr.

(** The layers wrap the methods of a route: [Cors] answers every [OPTIONS] request itself. *)
Definition answer (m : method) (x : Route) (params : list (string * string)) : Dispatch :=
  if decide (m = OPTIONS ∧ Cors ∈ x.(layers)) then Preflight else
  match serves m x.(methods) with
  | Some h => Handled h params x.(layers)
  | None => Method_not_allowed
  end.

(** A layer wraps the routes added so far, a prefix goes before their paths. *)
Definition wrapped (l : layer) (x : Route) : Route :=
  {| path := x.(path); methods := x.(methods); layers := l :: x.(layers) |}.
Definition prefixed (prefix : string) (x : Route) : Route :=
  {| path := prefix +:+ x.(path); methods := x.(methods); layers := x.(layers) |}.

(** The operations of [axum::Router] the code uses, and the service it becomes. *)
Class Axum := {
  Router : Type;
  new : Router;
  route : string → method_router → Router → Router;
  layered : layer → Router → Router;
  merge : Router → Router → Router;
  nest : string → Router → Router → Router;
  dispatch : Router → method → string → Dispatch;
}.

(** What the documentation says: the routes a router has, and that a request for a path that
    one of them alone matches is answered by it. *)
Class AxumLaws `{Axum} := {
  table : Router → list Route;
  table_new : table new = [];
  table_route p m r :
    table (route p m r) = table r ++ [{| path := p; methods := m; layers := [] |}];
  table_layered l r : table (layered l r) = map (wrapped l) (table r);
  table_merge r r' : table (merge r r') = table r ++ table r';
  table_nest prefix inner r :
    table (nest prefix inner r) = table r ++ map (prefixed prefix) (table inner);
  dispatch_route r m url x params :
    x ∈ table r → matches (pattern x.(path)) (segments url) = Some params →
    (∀ y params', y ∈ table r → matches (pattern y.(path)) (segments url) = Some params' → y = x) →
    dispatch r m url = answer m x params;
}.

Notation "r |> f" := (f r) (at level 59, left associativity, only parsing).

(** ** [router] *)

(** [Config::request_timeout], in seconds. *)
Definition request_timeout : Z := 30.

Section router.
Context {A : Axum}.

Definition api : Router :=
  new
  |> route "/algorithms" (get list_algorithms)
  |> route "/endpoints" (get_post list_endpoints create_endpoint)
  |> route "/tests" (get_post list_tests create_test)
  |> route "/tests/{id}" (get get_test)
  |> route "/tests/{id}/matrix" (get get_matrix)
  |> route "/subtasks/{id}" (get get_subtask)
  |> route "/kem/runs" (get_post list_runs create_run)
  |> route "/kem/runs/{id}" (get get_run)
  |> route "/cavp/packs" (get list_packs)
  |> route "/cavp/packs/{slug}" (get get_pack)
  |> route "/cavp/sessions" (post create_session)
  |> route "/cavp/sessions/{id}" (get get_session)
  |> route "/cavp/sessions/{id}/validate" (post validate_session)
  |> layered Compression
  |> layered (Timeout 408 request_timeout).

Definition live : Router :=
  new
  |> route "/tests/{id}/events" (get test_events)
  |> route "/kem/runs/{id}/events" (get kem_events).

Definition router : Router :=
  new
  |> route "/healthz" (get healthz)
  |> route "/readyz" (get readyz)
  |> route "/metrics" (get metrics)
  |> nest "/api/v1" (merge api live)
  |> layered Cors
  |> layered Trace.

End router.

(** ** The table *)

Definition outer : list layer := [Trace; Cors].
Definition guarded : list layer := outer ++ [Timeout 408 request_timeout; Compression].

(** The routes of the API with the layers before each. *)
Definition routes : list Route :=
  [Build_Route "/healthz" (get healthz) outer;
   Build_Route "/readyz" (get readyz) outer;
   Build_Route "/metrics" (get metrics) outer;
   Build_Route "/api/v1/algorithms" (get list_algorithms) guarded;
   Build_Route "/api/v1/endpoints" (get_post list_endpoints create_endpoint) guarded;
   Build_Route "/api/v1/tests" (get_post list_tests create_test) guarded;
   Build_Route "/api/v1/tests/{id}" (get get_test) guarded;
   Build_Route "/api/v1/tests/{id}/matrix" (get get_matrix) guarded;
   Build_Route "/api/v1/subtasks/{id}" (get get_subtask) guarded;
   Build_Route "/api/v1/kem/runs" (get_post list_runs create_run) guarded;
   Build_Route "/api/v1/kem/runs/{id}" (get get_run) guarded;
   Build_Route "/api/v1/cavp/packs" (get list_packs) guarded;
   Build_Route "/api/v1/cavp/packs/{slug}" (get get_pack) guarded;
   Build_Route "/api/v1/cavp/sessions" (post create_session) guarded;
   Build_Route "/api/v1/cavp/sessions/{id}" (get get_session) guarded;
   Build_Route "/api/v1/cavp/sessions/{id}/validate" (post validate_session) guarded;
   Build_Route "/api/v1/tests/{id}/events" (get test_events) outer;
   Build_Route "/api/v1/kem/runs/{id}/events" (get kem_events) outer].

Lemma table_router `{AxumLaws} : table router = routes.
Proof.
  unfold router, api, live.
  repeat (rewrite ?table_layered, ?table_nest, ?table_merge, ?table_route, ?table_new).
  reflexivity.
Qed.

(** ** One route per path *)

(** Some path could match both. *)
Fixpoint compatible (p q : list segment) : bool :=
  match p, q with
  | [], [] => true
  | Lit s :: p, Lit t :: q => String.eqb s t && compatible p q
  | Lit s :: p, Param _ :: q | Param _ :: p, Lit s :: q => negb (String.eqb s "") && compatible p q
  | Param _ :: p, Param _ :: q => compatible p q
  | _, _ => false
  end.

Lemma both_match p q l a b :
  matches p l = Some a → matches q l = Some b → compatible p q = true.
Proof.
  revert q l a b.
  induction p as [|[s|n] p IH]; intros [|[t|n'] q] [|x l] a b; cbn [matches compatible]; try done.
  - destruct (String.eqb_spec s x) as [->|]; [|done]. destruct (String.eqb_spec t x) as [->|]; [|done].
    intros Ha Hb. rewrite String.eqb_refl. by eapply IH.
  - destruct (String.eqb_spec s x) as [->|]; [|done]. destruct (String.eqb_spec x ""); [done|].
    intros Ha (b' & Hb & _)%fmap_Some. by eapply IH.
  - destruct (String.eqb_spec x "") as [|Hx]; [done|]. destruct (String.eqb_spec t x) as [->|]; [|done].
    intros (a' & Ha & _)%fmap_Some Hb. apply String.eqb_neq in Hx. rewrite Hx. by eapply IH.
  - destruct (String.eqb_spec x "") as [|Hx]; [done|].
    intros (a' & Ha & _)%fmap_Some (b' & Hb & _)%fmap_Some. by eapply IH.
Qed.

(** The patterns of the table, each against those after it. *)
Fixpoint all_apart (ps : list (list segment)) : bool :=
  match ps with
  | [] => true
  | p :: r => forallb (λ q, negb (compatible p q)) r && all_apart r
  end.

Lemma router_apart : all_apart (map (λ x, pattern x.(path)) routes) = true.
Proof. vm_compute. reflexivity. Qed.

Lemma one_route (r : list Route) x y l a b :
  all_apart (map (λ x, pattern x.(path)) r) = true → x ∈ r → y ∈ r →
  matches (pattern x.(path)) l = Some a → matches (pattern y.(path)) l = Some b → x = y.
Proof.
  induction r as [|z r IH]; [by intros _ ?%elem_of_nil|]. cbn [map all_apart].
  intros [Hz Hr]%andb_true_iff. rewrite forallb_forall in Hz.
  assert (Hne : ∀ w c d, w ∈ r → matches (pattern z.(path)) l = Some c →
    matches (pattern w.(path)) l = Some d → False).
  { intros w c d Hw Hc Hd. pose proof (both_match _ _ _ _ _ Hc Hd) as Hcomp.
    rewrite <-negb_false_iff in Hcomp. rewrite Hz in Hcomp; [done|].
    apply list_elem_of_In, list_elem_of_fmap. by exists w. }
  rewrite !elem_of_cons. intros [->|Hx] [->|Hy] Ha Hb; [done| | |by apply IH].
  - by destruct (Hne y a b).
  - by destruct (Hne x b a).
Qed.

(** ** URLs *)

(** The URL of a route for some parameters. *)
Fixpoint fill (p : list segment) (values : list string) : list string :=
  match p, values with
  | Lit s :: p, _ => s :: fill p values
  | Param _ :: p, v :: values => v :: fill p values
  | Param _ :: p, [] => "" :: fill p []
  | [], _ => []
  end.

Definition names (p : list segment) : list string :=
  omap (λ s, match s with Param n => Some n | Lit _ => None end) p.

Definition url_of (p : string) (values : list string) : string :=
  String slash (join (String slash "") (fill (pattern p) values)).

(** A value that can stand in a path: one segment. *)
Definition segment_like (v : string) : Prop := v ≠ "" ∧ without slash v = true.

Lemma matches_fill p values :
  length values = length (names p) → Forall segment_like values →
  matches p (fill p values) = Some (zip (names p) values).
Proof.
  revert values. induction p as [|[s|n] p IH]; intros values Hl Hv; cbn [fill matches names omap list_omap].
  - by destruct values.
  - rewrite String.eqb_refl. by apply IH.
  - destruct values as [|v values]; [done|]. cbn [fill matches]. apply Forall_cons in Hv as [[Hv _] Hvs].
    apply String.eqb_neq in Hv. rewrite Hv. fold (names p).
    rewrite IH; [done|by injection Hl|done].
Qed.

Lemma segments_join (l : list string) :
  l ≠ [] → Forall (λ s, without slash s = true) l →
  segments (String slash (join (String slash "") l)) = l.
Proof.
  intros Hne Hl. unfold segments. pose proof (split_char_app slash "" (join (String slash "") l) eq_refl) as Hs.
  rewrite app_empty_l in Hs. rewrite Hs. by rewrite split_char_join.
Qed.

(** The literals of a pattern hold no slash. *)
Definition plain_pattern (p : list segment) : bool :=
  negb (length p =? 0) &&
  forallb (λ s, match s with Lit t => without slash t | Param _ => true end) p.

Lemma fill_slashes p values :
  forallb (λ s, match s with Lit t => without slash t | Param _ => true end) p = true →
  Forall segment_like values → Forall (λ s, without slash s = true) (fill p values).
Proof.
  revert values. induction p as [|[s|n] p IH]; intros values Hp Hv; cbn [fill forallb] in *.
  - constructor.
  - apply andb_true_iff in Hp as [Hs Hp]. constructor; [done|by apply IH].
  - destruct values as [|v values]; [constructor; [done|by apply IH]|].
    apply Forall_cons in Hv as [[_ Hv] Hvs]. constructor; [done|by apply IH].
Qed.

Lemma router_plain : forallb (λ x, plain_pattern (pattern x.(path))) routes = true.
Proof. vm_compute. reflexivity. Qed.

(** ** Layers *)

Definition is_stream (h : handler) : bool :=
  match h with
  | test_events | kem_events => true
  | _ => false
  end.

Definition is_probe (h : handler) : bool :=
  match h with
  | healthz | readyz | metrics => true
  | _ => false
  end.

(** The streams stay open and unbuffered, and so do the health checks; everything else
    passes the timeout and the compression. *)
Definition layers_for (h : handler) : list layer :=
  [Trace; Cors] ++
    (if is_stream h || is_probe h then [] else [Timeout 408 request_timeout; Compression]).

Lemma route_layers x m h :
  x ∈ routes → serves m x.(methods) = Some h → x.(layers) = layers_for h.
Proof.
  intros Hx Hs.
  assert (Hall : forallb (λ x, forallb (λ mh, bool_decide (x.(layers) = layers_for mh.2)) x.(methods))
    routes = true) by (vm_compute; reflexivity).
  rewrite forallb_forall in Hall. specialize (Hall x (proj1 (list_elem_of_In _ _) Hx)).
  rewrite forallb_forall in Hall. unfold serves in Hs. apply fmap_Some in Hs as (mh & Hf & ->).
  apply find_first_Some in Hf as (m1 & m2 & Hm & _ & _).
  specialize (Hall mh). rewrite bool_decide_eq_true in Hall. apply Hall, list_elem_of_In.
  rewrite Hm. set_solver.
Qed.

Lemma router_cors x : x ∈ routes → Cors ∈ x.(layers).
Proof.
  intros Hx. assert (Hall : forallb (λ x, bool_decide (Cors ∈ x.(layers))) routes = true)
    by (vm_compute; reflexivity).
  rewrite forallb_forall in Hall. apply (bool_decide_eq_true_1 _), Hall, list_elem_of_In, Hx.
Qed.

Section served.
Context {A : Axum} {L : AxumLaws}.

(** C38. Every URL finds its handler: the URL of a route, its parameters filled in by anything
    without a slash, is matched by no other route of the table and is served by that route's
    handler for the method, with those parameters; [OPTIONS] is the preflight of the browser
    and any other method is refused. Only the two event streams and the health checks escape
    the request timeout and the compression. *)
Theorem router_serves x m values :
  x ∈ table router → length values = length (names (pattern x.(path))) →
  Forall segment_like values →
  let url := url_of x.(path) values in
  (∀ y params, y ∈ table router → matches (pattern y.(path)) (segments url) = Some params → y = x) ∧
  dispatch router m url
  = if decide (m = OPTIONS) then Preflight else
    match serves m x.(methods) with
    | Some h => Handled h (zip (names (pattern x.(path))) values) (layers_for h)
    | None => Method_not_allowed
    end.
Proof.
  rewrite table_router. intros Hx Hl Hv url.
  pose proof router_plain as Hp. rewrite forallb_forall in Hp.
  specialize (Hp x (proj1 (list_elem_of_In _ _) Hx)). apply andb_true_iff in Hp as [Hne Hp].
  pose proof (matches_fill _ _ Hl Hv) as Hm. pose proof (router_cors x Hx) as Hc.
  assert (Hseg : segments url = fill (pattern x.(path)) values).
  { unfold url, url_of. apply segments_join; [|by apply fill_slashes].
    clear Hl Hm. destruct (pattern x.(path)) as [|[s|n] p]; [done..|]. by destruct values. }
  rewrite <-Hseg in Hm.
  assert (Hone : ∀ y params, y ∈ routes → matches (pattern y.(path)) (segments url) = Some params →
    y = x) by (intros y params Hy Hm'; by eapply one_route; [apply router_apart|..]).
  split; [exact Hone|].
  rewrite (dispatch_route router m url x (zip (names (pattern x.(path))) values));
    [|by rewrite table_router|done|by rewrite table_router].
  unfold answer. repeat case_decide; try done; [tauto..|].
  destruct (serves m x.(methods)) as [h|] eqn:Hs; [|done]. by rewrite (route_layers x m h).
Qed.

End served.

(** ** A router that is its table *)

Module RoutesWitness.

#[export] Instance table_router_ops : Axum := {|
  Router := list Route;
  new := [];
  route p m r := r ++ [{| path := p; methods := m; layers := [] |}];
  layered l r := map (wrapped l) r;
  merge r r' := r ++ r';
  nest prefix inner r := r ++ map (prefixed prefix) inner;
  dispatch r m url :=
    match find_map (λ x, params ← matches (pattern x.(path)) (segments url); Some (x, params)) r with
    | Some (x, params) => answer m x params
    | None => Fallback
    end;
|}.

#[export] Instance table_router_laws : AxumLaws.
Proof.
  refine {| table := λ r : @Router table_router_ops, r |}; try done.
  intros r m url x params Hx Hm Hone. cbn [dispatch table_router_ops].
  destruct (find_map _ r) as [[y b]|] eqn:Hf.
  - apply find_map_Some in Hf as (l1 & z & l2 & -> & Hz & _).
    destruct (matches (pattern (path z)) (segments url)) as [b'|] eqn:Hz'; [|done].
    injection Hz as -> ->. assert (Hy : y = x) by (eapply Hone; [set_solver|done]). subst y. congruence.
  - apply find_map_None in Hf. rewrite Forall_forall in Hf. specialize (Hf x Hx).
    cbn beta in Hf. by rewrite Hm in Hf.
Defined.

Lemma router_serves_witness :
  dispatch router POST (url_of "/api/v1/cavp/sessions/{id}/validate" ["7"])
  = Handled validate_session [("id", "7")] [Trace; Cors; Timeout 408 30; Compression].
Proof.
  apply (router_serves {| path := "/api/v1/cavp/sessions/{id}/validate";
    methods := post validate_session; layers := [Trace; Cors; Timeout 408 30; Compression] |} POST ["7"]);
    [|reflexivity|by repeat constructor].
  vm_compute. repeat (first [by left | right]).
Defined.

End RoutesWitness.
