(* ===== verification/Schema.v ===== *)
(** * The schema and the life of its rows

    What [migrations/0001_init.sql] declares (primary keys, foreign keys, unique columns,
    checks) together with what the code adds to it: which columns go with which status.
    Every statement of the services keeps this invariant, so it holds in every state the
    system reaches, whatever requests arrive, however their operations interleave and
    whichever of them fail. *)

From S2P Require Import Prelude RustStr Json Cavp Proto Status Domain KemOrder Effects World.
From S2P Require Import Store Registry Upsert Api ApiKem ApiCavp ApiSubtasks ApiCatalog ApiSeed ApiFacts.

Section schema.
Context {J : SerdeJson}.

(** ** Rows *)

(** A subtask waits untouched; while it runs and afterwards its times are set; a verdict
    comes with its report, an error of ours with its reason. *)
Definition subtask_ok (reports : gmap Uuid SubtaskReport.t) (s : Subtask.t) : Prop :=
  (s.(Subtask.report_status) ≠ ReportStatus.Missing → is_Some (reports !! s.(Subtask.id))) ∧
  match s.(Subtask.exec_status) with
  | ExecStatus.Queued =>
      s.(Subtask.result_status) = ResultStatus.Pending ∧
      s.(Subtask.report_status) = ReportStatus.Missing ∧
      s.(Subtask.started_at) = None ∧ s.(Subtask.finished_at) = None
  | ExecStatus.Running => is_Some s.(Subtask.started_at)
  | ExecStatus.Finished =>
      s.(Subtask.result_status) ∈ [ResultStatus.Passed; ResultStatus.Failed; ResultStatus.Unsupported] ∧
      s.(Subtask.report_status) ≠ ReportStatus.Missing ∧
      is_Some s.(Subtask.failed_stage) ∧ is_Some s.(Subtask.finished_at)
  | ExecStatus.Error =>
      s.(Subtask.result_status) = ResultStatus.Failed ∧
      s.(Subtask.report_status) = ReportStatus.Missing ∧
      is_Some s.(Subtask.error_summary) ∧ is_Some s.(Subtask.finished_at)
  end.

(** Nothing cancels a test or a run. *)
Definition test_ok (x : Test.t) : Prop :=
  port_ok x.(Test.port) = true ∧
  match x.(Test.status) with
  | TaskStatus.Pending => x.(Test.started_at) = None ∧ x.(Test.finished_at) = None
  | TaskStatus.Running => is_Some x.(Test.started_at)
  | TaskStatus.Finished | TaskStatus.Failed => is_Some x.(Test.finished_at)
  | TaskStatus.Cancelled => False
  end.

Definition run_ok (r : KemRun.t) : Prop :=
  match r.(KemRun.status) with
  | TaskStatus.Pending => r.(KemRun.finished_at) = None
  | TaskStatus.Running => True
  | TaskStatus.Finished | TaskStatus.Failed => is_Some r.(KemRun.finished_at)
  | TaskStatus.Cancelled => False
  end.

Definition session_ok (s : CavpSessionRow.t) : Prop :=
  is_Some s.(CavpSessionRow.submitted) ↔ is_Some s.(CavpSessionRow.validation).

(** ** Tables *)

Record tests_wf (m : gmap Uuid Test.t) (subs : gmap Uuid Subtask.t) : Prop := {
  test_keyed id x : m !! id = Some x → x.(Test.id) = id;
  test_each id x : m !! id = Some x → test_ok x;
  test_counted id x : m !! id = Some x → x.(Test.subtask_count)
    = as_i32 (Z.of_nat (size (filter (λ kv, kv.2.(Subtask.test_id) = id) subs)));
}.

Record subtask_rows_wf (ts : gmap Uuid Test.t) (m : gmap Uuid Subtask.t)
    (reports : gmap Uuid SubtaskReport.t) : Prop := {
  sub_keyed id s : m !! id = Some s → s.(Subtask.id) = id;
  sub_each id s : m !! id = Some s → subtask_ok reports s;
  sub_test id s : m !! id = Some s → is_Some (ts !! s.(Subtask.test_id));
  sub_ordinal id1 id2 s1 s2 : m !! id1 = Some s1 → m !! id2 = Some s2 →
    s1.(Subtask.test_id) = s2.(Subtask.test_id) → s1.(Subtask.ordinal) = s2.(Subtask.ordinal) →
    id1 = id2;
  sub_pair id1 id2 s1 s2 : m !! id1 = Some s1 → m !! id2 = Some s2 →
    s1.(Subtask.test_id) = s2.(Subtask.test_id) →
    s1.(Subtask.group_name) = s2.(Subtask.group_name) →
    s1.(Subtask.sig_alg) = s2.(Subtask.sig_alg) → id1 = id2;
}.

Definition reports_wf (subs : gmap Uuid Subtask.t) (m : gmap Uuid SubtaskReport.t) : Prop :=
  ∀ id r, m !! id = Some r → r.(SubtaskReport.subtask_id) = id ∧ is_Some (subs !! id).

Definition runs_wf (eps : gmap Uuid Endpoint.t) (m : gmap Uuid KemRun.t) : Prop :=
  ∀ id r, m !! id = Some r →
    r.(KemRun.id) = id ∧ is_Some (eps !! r.(KemRun.endpoint_id)) ∧ run_ok r.

Definition logs_wf (runs : gmap Uuid KemRun.t) (m : gmap (Uuid * Z) KemRunLog.t) : Prop :=
  ∀ k l, m !! k = Some l →
    k = (l.(KemRunLog.run_id), l.(KemRunLog.seq)) ∧ is_Some (runs !! k.1).

Definition cells_wf (runs : gmap Uuid KemRun.t)
    (m : gmap (Uuid * string * string) KemMatrixCell.t) : Prop :=
  ∀ k c, m !! k = Some c →
    k = (c.(KemMatrixCell.run_id), c.(KemMatrixCell.kem), c.(KemMatrixCell.adapter)) ∧
    is_Some (runs !! k.1.1).

Definition sessions_wf (packs : gmap Uuid CavpPackRow.t) (m : gmap Uuid CavpSessionRow.t)
    : Prop :=
  ∀ id s, m !! id = Some s →
    s.(CavpSessionRow.id) = id ∧ is_Some (packs !! s.(CavpSessionRow.pack_id)) ∧ session_ok s.

Record db_wf (d : Db) : Prop := {
  wf_endpoints : table_wf (E := EndpointSeed.t) d.(endpoints);
  wf_algorithms : table_wf (E := AlgorithmSeed.t) d.(algorithms);
  wf_packs : table_wf (E := CastPack) d.(cavp_packs);
  wf_tests : tests_wf d.(tests) d.(subtasks);
  wf_subtasks : subtask_rows_wf d.(tests) d.(subtasks) d.(subtask_reports);
  wf_reports : reports_wf d.(subtasks) d.(subtask_reports);
  wf_runs : runs_wf d.(endpoints) d.(kem_runs);
  wf_logs : logs_wf d.(kem_runs) d.(kem_run_logs);
  wf_cells : cells_wf d.(kem_runs) d.(kem_matrix_cells);
  wf_sessions : sessions_wf d.(cavp_packs) d.(cavp_sessions);
}.

(** The tables after the migration. *)
Definition empty_db : Db := {|
  endpoints := ∅; algorithms := ∅; tests := ∅; subtasks := ∅; subtask_reports := ∅;
  kem_runs := ∅; kem_run_logs := ∅; kem_matrix_cells := ∅; cavp_packs := ∅; cavp_sessions := ∅;
|}.

Lemma empty_db_wf : db_wf empty_db.
Proof.
  split; cbn; [apply table_wf_empty..|split|split|unfold reports_wf|unfold runs_wf|unfold logs_wf|
    unfold cells_wf|unfold sessions_wf]; intros *; rewrite lookup_empty; done.
Qed.

(** ** Statements that change one row *)

(** The keys of a subtask stay. *)
Definition same_place (f : Subtask.t → Subtask.t) : Prop :=
  ∀ s, (f s).(Subtask.id) = s.(Subtask.id) ∧ (f s).(Subtask.test_id) = s.(Subtask.test_id) ∧
       (f s).(Subtask.ordinal) = s.(Subtask.ordinal) ∧
       (f s).(Subtask.group_name) = s.(Subtask.group_name) ∧
       (f s).(Subtask.sig_alg) = s.(Subtask.sig_alg).

Lemma size_filter_alter f id test_id (m : gmap Uuid Subtask.t) :
  same_place f →
  size (filter (λ kv, kv.2.(Subtask.test_id) = test_id) (alter f id m))
  = size (filter (λ kv, kv.2.(Subtask.test_id) = test_id) m).
Proof.
  intros Hf. rewrite <-!(size_dom (D := gset Uuid)). f_equal. apply set_eq. intros k.
  rewrite !elem_of_dom. unfold is_Some. setoid_rewrite map_lookup_filter_Some. cbn [snd].
  destruct (decide (k = id)) as [->|Hne]; [|by setoid_rewrite lookup_alter_ne].
  setoid_rewrite lookup_alter_eq. destruct (m !! id) as [s|]; cbn; [|naive_solver].
  destruct (Hf s) as (_ & Ht & _). split.
  - intros (s' & [= <-] & Hs). exists s. split; [done|congruence].
  - intros (s' & [= <-] & Hs). exists (f s). split; [done|congruence].
Qed.

Lemma lookup_alter_inv {K A} `{Countable K} (f : A → A) (m : gmap K A) i j y :
  alter f i m !! j = Some y → ∃ x, m !! j = Some x ∧ (y = f x ∨ y = x).
Proof.
  destruct (decide (i = j)) as [->|Hne].
  - rewrite lookup_alter_eq. destruct (m !! j) as [x|]; [|done]. intros [= <-]. eauto.
  - rewrite lookup_alter_ne by done. eauto.
Qed.

Lemma wf_alter_subtask f id d :
  same_place f → (∀ s, d.(subtasks) !! id = Some s →
    subtask_ok d.(subtask_reports) s → subtask_ok d.(subtask_reports) (f s)) →
  db_wf d → db_wf (with_subtasks (alter f id) d).
Proof.
  intros Hf Hok [? ? ? Wt [Wk We Wf Wo Wp] Wr ? ? ? ?]. split; try done; cbn.
  - destruct Wt as [H1 H2 H3]. split; [done|done|]. intros k x Hx.
    by rewrite size_filter_alter, <-(H3 k x).
  - assert (Hat : ∀ k s, alter f id d.(subtasks) !! k = Some s → ∃ s0,
      d.(subtasks) !! k = Some s0 ∧ s.(Subtask.id) = s0.(Subtask.id) ∧
      s.(Subtask.test_id) = s0.(Subtask.test_id) ∧ s.(Subtask.ordinal) = s0.(Subtask.ordinal) ∧
      s.(Subtask.group_name) = s0.(Subtask.group_name) ∧
      s.(Subtask.sig_alg) = s0.(Subtask.sig_alg)).
    { intros k s (s0 & Hs0 & [->| ->])%lookup_alter_inv; exists s0; [|done].
      destruct (Hf s0) as (? & ? & ? & ? & ?). done. }
    split.
    + intros k s (s0 & Hs0 & -> & _)%Hat. by apply Wk.
    + intros k s Hs. destruct (decide (k = id)) as [->|Hne].
      * rewrite lookup_alter_eq in Hs. destruct (subtasks d !! id) as [s0|] eqn:Hs0; [|done].
        injection Hs as <-. by eapply Hok, We.
      * rewrite lookup_alter_ne in Hs by done. by eapply We.
    + intros k s (s0 & Hs0 & _ & -> & _)%Hat. by eapply Wf.
    + intros k1 k2 s1 s2 (r1 & H1 & _ & -> & -> & _)%Hat (r2 & H2 & _ & -> & -> & _)%Hat.
      by eapply Wo.
    + intros k1 k2 s1 s2 (r1 & H1 & _ & -> & _ & -> & ->)%Hat
        (r2 & H2 & _ & -> & _ & -> & ->)%Hat. by eapply Wp.
  - intros k r Hr. destruct (Wr k r Hr). by rewrite lookup_alter_is_Some.
Qed.

Lemma wf_alter_test f id d :
  (∀ x, (f x).(Test.id) = x.(Test.id) ∧ (f x).(Test.subtask_count) = x.(Test.subtask_count) ∧
        (test_ok x → test_ok (f x))) →
  db_wf d → db_wf (with_tests (alter f id) d).
Proof.
  intros Hf [? ? ? [Wk We Wc] [? ? Wf ? ?] ? ? ? ? ?]. split; try done; cbn.
  - split; intros k x (x0 & Hx0 & [->| ->])%lookup_alter_inv;
      destruct (Hf x0) as (E1 & E2 & E3); rewrite ?E1, ?E2; eauto.
  - split; try done. intros k s Hs. rewrite lookup_alter_is_Some. by eapply Wf.
Qed.

Lemma wf_alter_run f id d :
  (∀ r, (f r).(KemRun.id) = r.(KemRun.id) ∧ (f r).(KemRun.endpoint_id) = r.(KemRun.endpoint_id) ∧
        run_ok (f r)) →
  db_wf d → db_wf (with_kem_runs (alter f id) d).
Proof.
  intros Hf [? ? ? ? ? ? Wr Wl Wc ?]. split; try done; cbn.
  - intros k r (r0 & Hr0 & [->| ->])%lookup_alter_inv; [|by apply Wr].
    destruct (Wr k r0 Hr0) as (? & ? & ?), (Hf r0) as (-> & -> & ?). done.
  - intros k l Hl. rewrite lookup_alter_is_Some. by apply Wl.
  - intros k c Hc. rewrite lookup_alter_is_Some. by apply Wc.
Qed.

(** The report of an existing subtask. *)
Lemma wf_insert_report id r d :
  r.(SubtaskReport.subtask_id) = id → is_Some (d.(subtasks) !! id) →
  db_wf d → db_wf (with_reports <[id := r]> d).
Proof.
  intros Hr Hs [? ? ? ? [Wk We Wf Wo Wp] Wr ? ? ? ?]. split; try done; cbn.
  - split; try done. intros k s Hk. destruct (We k s Hk) as [H1 H2]. split; [|done].
    intros Hm. rewrite lookup_insert_is_Some. destruct (decide (id = s.(Subtask.id))); auto.
  - intros k r'. rewrite lookup_insert_Some. intros [[<- <-]|[_ Hk]]; [done|by apply Wr].
Qed.

Lemma wf_insert_log k l d :
  k = (l.(KemRunLog.run_id), l.(KemRunLog.seq)) → is_Some (d.(kem_runs) !! k.1) →
  db_wf d → db_wf (with_kem_run_logs <[k := l]> d).
Proof.
  intros Hk Hr [? ? ? ? ? ? ? Wl ? ?]. split; try done; cbn. intros k' l'.
  rewrite lookup_insert_Some. intros [[<- <-]|[_ ?]]; [done|by apply Wl].
Qed.

Lemma wf_insert_cell k c d :
  k = (c.(KemMatrixCell.run_id), c.(KemMatrixCell.kem), c.(KemMatrixCell.adapter)) →
  is_Some (d.(kem_runs) !! k.1.1) →
  db_wf d → db_wf (with_kem_matrix_cells <[k := c]> d).
Proof.
  intros Hk Hr [? ? ? ? ? ? ? ? Wc ?]. split; try done; cbn. intros k' c'.
  rewrite lookup_insert_Some. intros [[<- <-]|[_ ?]]; [done|by apply Wc].
Qed.

Lemma wf_insert_run id r d :
  r.(KemRun.id) = id → is_Some (d.(endpoints) !! r.(KemRun.endpoint_id)) → run_ok r →
  db_wf d → db_wf (with_kem_runs <[id := r]> d).
Proof.
  intros Hid He Hok [? ? ? ? ? ? Wr Wl Wc ?]. split; try done; cbn.
  - intros k r'. rewrite lookup_insert_Some. intros [[<- <-]|[_ ?]]; [done|by apply Wr].
  - intros k l Hl. rewrite lookup_insert_is_Some. destruct (Wl k l Hl).
    destruct (decide (id = k.1)); auto.
  - intros k c Hc. rewrite lookup_insert_is_Some. destruct (Wc k c Hc).
    destruct (decide (id = k.1.1)); auto.
Qed.

Lemma wf_insert_session id s d :
  s.(CavpSessionRow.id) = id → is_Some (d.(cavp_packs) !! s.(CavpSessionRow.pack_id)) →
  session_ok s → db_wf d → db_wf (with_cavp_sessions <[id := s]> d).
Proof.
  intros Hid Hp Hok [? ? ? ? ? ? ? ? ? Ws]. split; try done; cbn. intros k s'.
  rewrite lookup_insert_Some. intros [[<- <-]|[_ ?]]; [done|by apply Ws].
Qed.

Lemma wf_grade doc report id d :
  db_wf d → db_wf (with_cavp_sessions (alter (graded doc report) id) d).
Proof.
  intros [? ? ? ? ? ? ? ? ? Ws]. split; try done; cbn.
  intros k s (s0 & Hs0 & [->| ->])%lookup_alter_inv; [|by apply Ws].
  by destruct (Ws k s0 Hs0) as (? & ? & _).
Qed.

(** An upsert keeps the rows the foreign keys point at. *)
Lemma upsert_keeps {K E R Key} `{Countable K, EqDecision Key} `{UpsertLaws K E R Key}
    k e (m m' : gmap K R) i :
  upsert k e m = Ok m' → is_Some (m !! i) → is_Some (m' !! i).
Proof. intros Hu [r Hr]. destruct (upsert_spec _ _ _ _ Hu) as (Ha & _). by eexists; eapply Ha. Qed.

Lemma wf_set_endpoints m d :
  table_wf (E := EndpointSeed.t) m →
  (∀ i, is_Some (d.(endpoints) !! i) → is_Some (m !! i)) →
  db_wf d → db_wf (with_endpoints (λ _, m) d).
Proof.
  intros Hm Hk [? ? ? ? ? ? Wr ? ? ?]. split; try done; cbn.
  intros id r Hr. destruct (Wr id r Hr) as (? & ? & ?). auto.
Qed.

Lemma wf_set_packs m d :
  table_wf (E := CastPack) m →
  (∀ i, is_Some (d.(cavp_packs) !! i) → is_Some (m !! i)) →
  db_wf d → db_wf (with_cavp_packs (λ _, m) d).
Proof.
  intros Hm Hk [? ? ? ? ? ? ? ? ? Ws]. split; try done; cbn.
  intros id s Hs. destruct (Ws id s Hs) as (? & ? & ?). auto.
Qed.

Lemma wf_set_algorithms m d :
  table_wf (E := AlgorithmSeed.t) m → db_wf d → db_wf (with_algorithms (λ _, m) d).
Proof. intros Hm [? ? ? ? ? ? ? ? ? ?]. by split. Qed.

(** Both statements about endpoints share their constraints. *)
Lemma endpoint_tables_wf (m : gmap Uuid Endpoint.t) :
  table_wf (E := EndpointSeed.t) m ↔ table_wf (E := NewEndpoint.t) m.
Proof. split; intros [H1 H2 H3]; by split. Qed.

(** ** A new test with its subtasks *)

Lemma length_imap {A B} (f : nat → A → B) l : length (imap f l) = length l.
Proof. revert f. induction l as [|x l IH]; intros f; [done|]. cbn. by rewrite IH. Qed.

Lemma length_expand groups sig_algs :
  length (expand groups sig_algs) = length groups * length sig_algs.
Proof.
  rewrite expand_pairs, length_imap. apply length_pairs.
Qed.

Section new_test.
Context (env : Env) (n : nat) (body : NewTest) (groups sig_algs : list string) (at_ : DateTime).
Context (d : Db) (Hwf : db_wf d).

Let fresh := env.(fresh_uuid) n.
Let test_id := fresh 0.
Let pairs := expand groups sig_algs.
Let rows := new_subtasks fresh test_id pairs.
Let test := new_test_row test_id at_ body groups sig_algs.

Context (Hport : port_ok body.(Api.port) = true).
Context (Hnew : d.(tests) !! test_id = None).
Context (Hrows : Forall (λ r, d.(subtasks) !! r.1 = None) rows) (Hids : NoDup (map fst rows)).
Context (Hpairs : NoDup (map (λ p, (p.1.2, p.2)) pairs)) (Hords : NoDup (map (λ p, p.1.1) pairs)).

Let m := list_to_map rows ∪ d.(subtasks).

Lemma new_row_lookup id s :
  (list_to_map rows : gmap Uuid Subtask.t) !! id = Some s ↔
  ∃ i p, pairs !! i = Some p ∧ id = fresh (S i) ∧ s = new_subtask_row test_id (fresh (S i)) p.
Proof.
  rewrite <-elem_of_list_to_map by done. unfold rows, new_subtasks.
  rewrite elem_of_lookup_imap. split.
  - intros (i & p & [= -> ->] & Hp). eauto.
  - intros (i & p & Hp & -> & ->). eauto.
Qed.

Lemma all_row_lookup id s :
  m !! id = Some s ↔
  (∃ i p, pairs !! i = Some p ∧ id = fresh (S i) ∧ s = new_subtask_row test_id (fresh (S i)) p) ∨
  d.(subtasks) !! id = Some s ∧ s.(Subtask.test_id) ≠ test_id.
Proof.
  unfold m. rewrite lookup_union_Some, new_row_lookup.
  - split; (intros [Hs|Hs]; [by left|right]); [|by destruct Hs]. split; [done|]. intros Ht.
    destruct (sub_test _ _ _ (wf_subtasks _ Hwf) id s Hs) as [x Hx]. congruence.
  - apply map_disjoint_spec. intros k s1 s2 H1%elem_of_list_to_map_2 H2.
    rewrite Forall_forall in Hrows. apply Hrows in H1. cbn in H1. congruence.
Qed.

Lemma new_rows_size :
  size (filter (λ kv, kv.2.(Subtask.test_id) = test_id) m) = length groups * length sig_algs.
Proof.
  assert (filter (λ kv, kv.2.(Subtask.test_id) = test_id) m = list_to_map rows) as ->.
  { apply map_eq. intros id. apply option_eq. intros s.
    rewrite map_lookup_filter_Some, all_row_lookup, new_row_lookup. cbn [snd].
    split; [by intros [[?|[_ ?]] ?]|]. intros (i & p & Hp & -> & ->). split; [left; eauto|done]. }
  rewrite <-length_map_to_list, map_to_list_to_map by done.
  unfold rows, new_subtasks. rewrite length_imap. apply length_expand.
Qed.

Lemma wf_insert_test :
  db_wf (with_subtasks (λ m, list_to_map rows ∪ m) (with_tests <[test_id := test]> d)).
Proof.
  pose proof all_row_lookup as Hat. destruct Hwf as [? ? ? [Wk We Wc] [Sk Se Sf So Sp] Wr ? ? ? ?].
  split; try done; cbn; fold m.
  - split; intros id x [[<- <-]|[Hne Hx]]%lookup_insert_Some.
    + done.
    + by apply Wk.
    + by split.
    + by eapply We.
    + by rewrite new_rows_size.
    + rewrite (Wc id x Hx). do 3 f_equal. apply map_eq. intros k. apply option_eq. intros s.
      rewrite !map_lookup_filter_Some, Hat. cbn [snd]. split.
      * intros [? <-]. split; [|done]. right. split; [done|congruence].
      * intros [[(i & p & _ & _ & ->)|[? _]] Ht]; [done|by split].
  - split.
    + by intros id s [(i & p & _ & -> & ->)|[Hs _]]%Hat; [|apply Sk].
    + intros id s [(i & p & _ & _ & ->)|[Hs _]]%Hat; [by split|by eapply Se].
    + intros id s [(i & p & _ & _ & ->)|[Hs Hne]]%Hat.
      * cbn. rewrite lookup_insert_eq. by eexists.
      * rewrite lookup_insert_ne by done. by eapply Sf.
    + intros id1 id2 s1 s2 [(i & p & Hp & -> & ->)|[H1 N1]]%Hat
        [(j & q & Hq & -> & ->)|[H2 N2]]%Hat; cbn; [|congruence..|by eapply So].
      intros _ Ho. do 2 f_equal.
      eapply (NoDup_lookup (map (λ p, p.1.1) pairs)); [done|..];
        rewrite list_lookup_fmap, ?Hp, ?Hq; cbn; by rewrite ?Ho.
    + intros id1 id2 s1 s2 [(i & p & Hp & -> & ->)|[H1 N1]]%Hat
        [(j & q & Hq & -> & ->)|[H2 N2]]%Hat; cbn; [|congruence..|by eapply Sp].
      intros _ Hg Hs. do 2 f_equal.
      eapply (NoDup_lookup (map (λ p, (p.1.2, p.2)) pairs)); [done|..];
        rewrite list_lookup_fmap, ?Hp, ?Hq; cbn; by rewrite ?Hg, ?Hs.
  - intros id r Hr. destruct (Wr id r Hr) as [? [s Hs]]. split; [done|]. unfold m.
    rewrite lookup_union_is_Some. right. by exists s.
Qed.

End new_test.

End schema.
