(* ===== verification/Reachable.v ===== *)
(** * Every reachable database is well formed

    The services as one system: requests and jobs arrive, each becomes a task, and the
    operations of all tasks interleave. No statement of any of them breaks the invariant
    of [Schema], so the facts about rows that the reading handlers rely on always hold. *)

From S2P Require Import Prelude RustStr Json Cavp Proto Status Domain KemOrder Effects World.
From S2P Require Import Store Registry Probe Kem KemFacts Upsert Api Walk Footprint ApiKem ApiCavp ApiSubtasks.
From S2P Require Import ApiCatalog ApiSeed ApiLive ApiHealth Schema WorkerFacts KemCompany ApiKemFacts ApiCavpFacts Fixtures.

Section sound.
Context {J : SerdeJson}.

Definition keeps_wf (w w' : World) : Prop := db_wf w.(db) → db_wf w'.(db).

#[export] Instance keeps_wf_preorder : PreOrder keeps_wf.
Proof. split; [by intros w Hw|]. intros w1 w2 w3 H1 H2 Hw. auto. Qed.

#[local] Notation sound := (preserves keeps_wf).
#[local] Notation sound_op := (leaves keeps_wf).

Lemma sound_sql {X} env (q : DateTime → Db → result string (X * Db)) :
  (∀ at_ d x d', q at_ d = Ok (x, d') → db_wf d → db_wf d') → sound_op (sql env q).
Proof. intros Hq. apply leaves_sql; [by intros w Hw|]. intros w at_ x d Hd Hw. by eapply Hq. Qed.

Lemma sound_sql_at {X} env (q : nat → DateTime → Db → result string (X * Db)) :
  (∀ n at_ d x d', q n at_ d = Ok (x, d') → db_wf d → db_wf d') →
  sound_op (λ w, sql env (q w.(steps)) w).
Proof. intros Hq w. apply (sound_sql env (q w.(steps))). by apply Hq. Qed.

Lemma sound_read {X} env (f : DateTime → Db → X) : sound_op (sql env (λ at_ d, Ok (f at_ d, d))).
Proof. apply sound_sql. by intros at_ d x d' [= <- <-]. Qed.

Lemma sound_write {X} env (x : X) (f : DateTime → Db → Db) :
  (∀ at_ d, db_wf d → db_wf (f at_ d)) → sound_op (sql env (λ at_ d, Ok (x, f at_ d))).
Proof. intros Hf. apply sound_sql. intros at_ d y d' [= <- <-]. apply Hf. Qed.

Lemma sound_redis_publish env channel event : sound_op (redis_publish env channel event).
Proof. by apply leaves_redis_publish; intros; intros Hw. Qed.

Lemma sound_xadd env stream jobs : sound_op (xadd env stream jobs).
Proof. by apply leaves_xadd; intros; intros Hw. Qed.

Lemma sound_now env : sound_op (now env).
Proof. by intros w Hw. Qed.

Lemma sound_quiet {A} (p : prog World A) `{!Quiet p} : sound p.
Proof. apply walk_quiet; [done|]. intros w w' [Hd _]. unfold keeps_wf. by rewrite Hd. Qed.

End sound.

Notation sound := (preserves keeps_wf).
Notation sound_op := (leaves keeps_wf).

#[export] Hint Resolve sound_redis_publish sound_xadd sound_now sound_read : walk.
#[export] Hint Extern 4 (sound_op (publish_kem _ _ _)) => apply sound_redis_publish : walk.
#[export] Hint Extern 4 (sound_op (sql _ (λ _ d, Ok (_, d)))) => apply sound_read : walk.
#[export] Hint Extern 5 (sound (capabilities _ _ _)) => apply sound_quiet; apply _ : walk.
#[export] Hint Extern 5 (sound (Registry.probe _ _ _ _)) => apply sound_quiet; apply _ : walk.

(** ** The worker *)

Section worker.
Context {J : SerdeJson} {RJ : ReportJson} {U : UuidDisplay} {C : Chrono}.
Context (env : Env) (bases : gmap string string).

Lemma sound_mark_test_running id : sound (mark_test_running env id).
Proof.
  apply walk_call, sound_write. intros at_ d. apply wf_alter_test. intros x.
  unfold test_running. case_decide as Hx; [|done]. split; [done|]. split; [done|].
  intros [Hp _]. split; [done|]. by eexists.
Qed.

Lemma sound_mark_subtask_running id : sound (mark_subtask_running env id).
Proof.
  apply walk_call, sound_write. intros at_ d. apply wf_alter_subtask; [done|].
  intros s _ [Hr _]. split; [done|]. by eexists.
Qed.

Lemma sound_mark_subtask_error id reason : sound (mark_subtask_error env id reason).
Proof.
  apply walk_call, sound_write. intros at_ d. apply wf_alter_subtask; [done|].
  intros s _ _. split; [done|]. split_and!; [done|done|by eexists..].
Qed.

Lemma result_of_verdict job response caps :
  result_of job response caps
    ∈ [ResultStatus.Passed; ResultStatus.Failed; ResultStatus.Unsupported].
Proof.
  unfold result_of, classify, raw_outcome.
  repeat case_match; rewrite !elem_of_cons; auto.
Qed.

Lemma report_status_present response : report_status_of response ≠ ReportStatus.Missing.
Proof. unfold report_status_of. by repeat case_match. Qed.

Lemma sound_save_report id result response :
  result ∈ [ResultStatus.Passed; ResultStatus.Failed; ResultStatus.Unsupported] →
  sound (save_report env id result response).
Proof.
  intros Hres. apply walk_call, sound_sql. intros at_ d x d'.
  destruct (d.(subtasks) !! id) as [s|] eqn:Hs; [|done]. intros [= <- <-] Hwf.
  apply wf_alter_subtask; [done| |].
  - cbn [subtasks with_reports subtask_reports]. intros s' Hs' _.
    assert (s'.(Subtask.id) = id) as Hid by by eapply (sub_keyed _ _ _ (wf_subtasks d Hwf)).
    split; cbn; [|split_and!; [done|apply report_status_present|by eexists..]].
    intros _. rewrite Hid, lookup_insert_eq. by eexists.
  - apply wf_insert_report; [done| |done]. by eexists.
Qed.

Lemma sound_mark_closed id status :
  status = TaskStatus.Finished ∨ status = TaskStatus.Failed → sound_op (mark_closed env id status).
Proof.
  intros Hs. apply sound_write. intros at_ d. apply wf_alter_test. intros x.
  split_and!; [done|done|]. intros [Hp _]. split; [done|]. by destruct Hs as [->| ->]; eexists.
Qed.

Lemma sound_asking : asking_leaves env bases keeps_wf.
Proof. apply quiet_asking. intros w w' [Hd _]. unfold keeps_wf. by rewrite Hd. Qed.

Lemma sound_probe_handle job : sound (Probe.handle env bases job).
Proof.
  apply probe_handle_leaves; [apply sound_asking|]. split; intros.
  - apply sound_mark_test_running.
  - apply sound_mark_subtask_running.
  - apply sound_mark_subtask_error.
  - apply sound_save_report, result_of_verdict.
  - apply sound_redis_publish.
  - auto with walk.
  - apply sound_mark_closed. unfold closing_status. destruct (_ && _); auto.
Qed.

Lemma sound_kem_handle job : sound (Kem.handle env bases job).
Proof.
  apply kem_handle_leaves; [apply sound_asking|]. split; intros.
  - apply sound_now.
  - apply sound_write. intros at_ d. apply wf_alter_run. by intros r.
  - apply sound_sql. intros at' d x d'. destruct (d.(kem_runs) !! _) eqn:Hr; [|done].
    destruct (d.(kem_run_logs) !! _); [done|]. intros [= <- <-].
    apply wf_insert_log; [done|]. by eexists.
  - apply sound_sql. intros at' d x d'. destruct (d.(kem_runs) !! _) eqn:Hr; [|done].
    intros [= <- <-]. apply wf_insert_cell; [done|]. by eexists.
  - apply sound_redis_publish.
  - apply sound_write. intros at_ d. apply wf_alter_run. intros r.
    split_and!; [done|done|]. by destruct H as [->| ->]; eexists.
Qed.

End worker.

(** ** The API *)

Section api.
Context {J : SerdeJson} {X : Hex} {CJ : CavpJson} {SJ : SeedJson}.
Context (env : Env) (config : ApiConfig) (collate : string → string → bool).
Context (read_file : string → result string string).

Lemma checked_body_port body : check_body body = Ok tt → port_ok body.(Api.port) = true.
Proof.
  unfold check_body, port_ok. destruct (String.eqb _ _); [done|].
  destruct (_ && _)%Z; [done|]. by destruct (_ || _).
Qed.

Lemma sound_insert_test_op body groups sig_algs :
  port_ok body.(Api.port) = true → sound_op (insert_test_op env body groups sig_algs).
Proof.
  intros Hp. apply (sound_sql_at env (λ n, insert_test env n body groups sig_algs)).
  intros n at_ d x d'. unfold insert_test. case_bool_decide as Hc; [|done].
  intros [= _ <-] Hwf. destruct Hc as (H1 & H2 & H3 & H4 & H5). by apply wf_insert_test.
Qed.

Lemma sound_create_test body : sound (create_test env config body).
Proof.
  unfold create_test, reject_unknown, enqueue_probes.
  unfold api_bind at 1. cbn [bind]. destruct (check_body body) as [[]|e] eqn:Hb; [|done].
  pose proof (sound_insert_test_op body (dedupe body.(groups)) (dedupe body.(sig_algs))
    (checked_body_port body Hb)). walk.
Qed.

Lemma sound_get_test id : sound (get_test env id).
Proof. unfold get_test, fetch_test, fetch_subtasks. walk. Qed.

Lemma sound_get_matrix id : sound (get_matrix env id).
Proof. unfold get_matrix, fetch_test, fetch_subtasks. walk. Qed.

Lemma sound_list_tests limit : sound (list_tests env limit).
Proof. unfold list_tests. walk. Qed.

Lemma sound_get_subtask id : sound (get_subtask env id).
Proof. unfold get_subtask. walk. Qed.

Lemma sound_insert_run_op body e : sound_op (insert_run_op env body e).
Proof.
  apply (sound_sql_at env (λ n, insert_run env n body e)). intros n at_ d x d'. unfold insert_run.
  destruct (d.(kem_runs) !! _); [done|].
  destruct (d.(endpoints) !! _) as [e'|] eqn:He; [|done]. intros [= _ <-].
  apply wf_insert_run; [done| |done]. by eexists.
Qed.

Lemma sound_create_run body : sound (create_run env body).
Proof.
  pose proof (sound_insert_run_op body). unfold create_run, enqueue_kem. walk.
Qed.

Lemma sound_list_runs limit : sound (list_runs env limit).
Proof. unfold list_runs. walk. Qed.

Lemma sound_get_run id : sound (get_run env collate id).
Proof. unfold get_run. walk. Qed.

Lemma sound_list_packs : sound (list_packs env).
Proof. unfold list_packs. walk. Qed.

Lemma sound_get_pack slug : sound (get_pack env slug).
Proof. unfold get_pack, fetch_pack. walk. Qed.

Lemma sound_insert_session_op pack_id p : sound_op (insert_session_op env pack_id p).
Proof.
  apply (sound_sql_at env (λ n, insert_session env n pack_id p)). intros n at_ d x d'.
  unfold insert_session. destruct (d.(cavp_sessions) !! _); [done|].
  destruct (d.(cavp_packs) !! _) as [q|] eqn:Hq; [|done]. intros [= _ <-].
  apply wf_insert_session; [done| |by split; intros []]. by eexists.
Qed.

Lemma sound_create_session slug : sound (create_session env slug).
Proof.
  pose proof (λ id p, sound_insert_session_op id p).
  unfold create_session, fetch_pack. walk.
Qed.

Lemma sound_get_session id : sound (get_session env id).
Proof. unfold get_session. walk. Qed.

Lemma sound_validate_session id results : sound (validate_session env id results).
Proof.
  assert (∀ doc report, sound_op (sql env (λ _ d,
    Ok (tt, with_cavp_sessions (alter (graded doc report) id) d)))).
  { intros. apply sound_write. intros _ d. apply wf_grade. }
  unfold validate_session. walk.
Qed.

Lemma sound_list_algorithms query : sound (list_algorithms env collate query).
Proof. unfold list_algorithms. walk. Qed.

Lemma sound_list_endpoints : sound (list_endpoints env collate).
Proof. unfold list_endpoints. walk. Qed.

Lemma sound_create_endpoint body : sound (create_endpoint env body).
Proof.
  assert (sound_op (upsert_endpoint_op env body)).
  { apply (sound_sql_at env (λ n _, upsert_endpoint env n body)). intros n at_ d x d'.
    unfold upsert_endpoint. destruct (upsert _ body _) as [m|] eqn:Hu; [|done].
    intros [= _ <-] Hwf. apply wf_set_endpoints; [|intros i Hi; exact (upsert_keeps _ _ _ _ _ Hu Hi)|done].
    apply endpoint_tables_wf. eapply upsert_wf; [done|]. by apply endpoint_tables_wf, Hwf. }
  unfold create_endpoint. walk.
Qed.

Lemma sound_upsert_stmt {K E R Key} `{Countable K, EqDecision Key} `{!Upsert K E R Key}
    `{!Table K R} (key : nat → K) (entry : result string E) :
  (∀ k e m d, upsert k e (table d) = Ok m → db_wf d → db_wf (set_table m d)) →
  sound_op (upsert_stmt env key entry).
Proof.
  intros Hu. apply (sound_sql_at env (λ n (_ : DateTime) d, match entry with
    | Err e => Err e
    | Ok entry => match upsert (key n) entry (table d) with
                  | Ok m => Ok (tt, set_table m d)
                  | Err e => Err e
                  end
    end)).
  intros n at_ d x d'. destruct entry as [e|]; [|done].
  destruct (upsert _ e _) as [m|] eqn:He; [|done]. intros [= _ <-]. by eapply Hu.
Qed.

Lemma sound_seed_run dir : sound (seed_run env read_file dir).
Proof.
  assert (∀ alg, sound_op (seed_algorithm env alg)).
  { intros. apply sound_upsert_stmt. intros k e m d Hu Hwf. apply wf_set_algorithms; [|done].
    eapply upsert_wf; [done|apply Hwf]. }
  assert (∀ ep, sound_op (seed_endpoint env ep)).
  { intros. apply sound_upsert_stmt. intros k e m d Hu Hwf.
    apply wf_set_endpoints; [|intros i Hi; exact (upsert_keeps _ _ _ _ _ Hu Hi)|done].
    eapply upsert_wf; [done|apply Hwf]. }
  assert (∀ pack, sound_op (seed_pack env pack)).
  { intros. apply sound_upsert_stmt. intros k e m d Hu Hwf.
    apply wf_set_packs; [|intros i Hi; exact (upsert_keeps _ _ _ _ _ Hu Hi)|done].
    eapply upsert_wf; [done|apply Hwf]. }
  unfold seed_run. walk.
Qed.

Lemma sound_subscribe `{UuidDisplay} client channel : sound (subscribe env client channel).
Proof.
  assert (sound_op (connect env)) by (intros w Hw; unfold connect; by destruct (fault env _)).
  assert (sound_op (subscribe_op env channel)).
  { intros w Hw. unfold subscribe_op. by destruct (fault env _). }
  unfold subscribe. destruct client; walk.
Qed.

Lemma sound_test_events `{UuidDisplay} client id : sound (test_events env client id).
Proof.
  pose proof (sound_subscribe client (test_channel id)). unfold test_events, fetch_test. walk.
Qed.

Lemma sound_kem_events `{UuidDisplay} client id : sound (kem_events env client id).
Proof.
  pose proof (sound_subscribe client (kem_channel id)). unfold kem_events. walk.
Qed.

Lemma sound_readyz : sound (readyz env).
Proof.
  assert (sound_op (ping env)) by (intros w Hw; unfold ping; by destruct (fault env _)).
  unfold readyz. walk.
Qed.

Lemma sound_metrics order : sound (metrics env order).
Proof.
  apply preserves_bind; [apply preserves_attempt, walk_call, sound_read|]. intros rows. cbv zeta.
  apply preserves_bind; [apply preserves_attempt, walk_call, sound_read|done].
Qed.

End api.

(** ** The system *)

Section system.
Context {J : SerdeJson} {RJ : ReportJson} {U : UuidDisplay} {C : Chrono}.
Context {X : Hex} {CJ : CavpJson} {SJ : SeedJson}.
Context (env : Env) (bases : gmap string string) (config : ApiConfig).
Context (collate : string → string → bool) (read_file : string → result string string).

(** A task of a service; its answer goes to whoever asked. *)
Definition task {A} (p : prog World A) : prog World unit := bind (attempt p) (λ _, Ret tt).

(** The requests to the API, and its seed command. *)
Inductive request : prog World unit → Prop :=
| serve_create_test body : request (task (create_test env config body))
| serve_get_test id : request (task (get_test env id))
| serve_get_matrix id : request (task (get_matrix env id))
| serve_list_tests limit : request (task (list_tests env limit))
| serve_get_subtask id : request (task (get_subtask env id))
| serve_create_run body : request (task (create_run env body))
| serve_list_runs limit : request (task (list_runs env limit))
| serve_get_run id : request (task (get_run env collate id))
| serve_list_packs : request (task (list_packs env))
| serve_get_pack slug : request (task (get_pack env slug))
| serve_create_session slug : request (task (create_session env slug))
| serve_get_session id : request (task (get_session env id))
| serve_validate_session id results : request (task (validate_session env id results))
| serve_list_algorithms query : request (task (list_algorithms env collate query))
| serve_list_endpoints : request (task (list_endpoints env collate))
| serve_create_endpoint body : request (task (create_endpoint env body))
| serve_test_events client id : request (task (test_events env client id))
| serve_kem_events client id : request (task (kem_events env client id))
| serve_readyz : request (task (readyz env))
| serve_metrics order : request (task (metrics env order))
| serve_seed dir : request (task (seed_run env read_file dir)).

(** What the processes do: the handlers of the API and of the worker. *)
Inductive service : prog World unit → Prop :=
| serve_request p : request p → service p
| serve_probe job : service (task (Probe.handle env bases job))
| serve_kem job : service (task (Kem.handle env bases job)).

(** Something arrives, some task performs its next operation, or a task is dropped between
    two operations: the request timed out, the client or the process went away. *)
Inductive sys_step : World * list (prog World unit) → World * list (prog World unit) → Prop :=
| sys_arrive w pool p : service p → sys_step (w, pool) (w, pool ++ [p])
| sys_run c c' : step c c' → sys_step c c'
| sys_drop w l1 p l2 : sys_step (w, l1 ++ p :: l2) (w, l1 ++ l2).

Lemma service_sound p : service p → sound p.
Proof.
  assert (Ht : ∀ A (q : prog World A), sound q → sound (task q)).
  { intros A q Hq. apply preserves_bind; [by apply preserves_attempt|done]. }
  intros [q []|job|job]; apply Ht; auto using sound_create_test, sound_get_test, sound_get_matrix,
    sound_list_tests, sound_get_subtask, sound_create_run, sound_list_runs, sound_get_run,
    sound_list_packs, sound_get_pack, sound_create_session, sound_get_session,
    sound_validate_session, sound_list_algorithms, sound_list_endpoints, sound_create_endpoint,
    sound_test_events, sound_kem_events, sound_readyz, sound_metrics,
    sound_seed_run, sound_probe_handle, sound_kem_handle.
Qed.

Definition sys_inv (c : World * list (prog World unit)) : Prop :=
  db_wf c.1.(db) ∧ Forall sound c.2.

Lemma sys_inv_step c c' : sys_step c c' → sys_inv c → sys_inv c'.
Proof.
  intros [w pool p Hp|c0 c1 Hs|w l1 p l2] [Hw Hpool].
  - split; [done|]. apply Forall_app. split; [done|]. by apply Forall_singleton, service_sound.
  - destruct Hs as [w l1 Y o k l2]. cbn [fst snd] in *.
    apply Forall_app in Hpool as [H1 [Ho H2]%Forall_cons]. destruct (Ho w) as [Hw' Hk].
    split; [by apply Hw'|]. apply Forall_app. by rewrite Forall_cons.
  - split; [done|]. cbn [snd] in *. apply Forall_app in Hpool as [H1 [_ H2]%Forall_cons].
    by apply Forall_app.
Qed.

Lemma sys_inv_steps c c' : rtc sys_step c c' → sys_inv c → sys_inv c'.
Proof. induction 1; eauto using sys_inv_step. Qed.

(** C6. The rows stay well formed. From the empty tables of the migration, whatever
    requests and jobs arrive, however the operations of their handlers interleave,
    whichever of them fail or lose their reply and whichever handler is dropped half-way: keys are unique and every reference has its
    row, the subtasks of a test are as many as it says, a waiting subtask is untouched, a
    finished one has a verdict and a report, one that broke on our side has a reason, and
    nothing is ever cancelled. *)
Theorem reachable_db_wf w0 w pool :
  w0.(db) = empty_db → rtc sys_step (w0, []) (w, pool) → db_wf w.(db).
Proof.
  intros H0 Hs. apply (sys_inv_steps _ _ Hs). split; [|constructor]. cbn.
  rewrite H0. apply empty_db_wf.
Qed.

End system.

(** ** What the invariant gives the readers *)

Section readers.
Context {J : SerdeJson}.

Lemma db_wf_packs d : db_wf d → packs_wf d.
Proof. intros Hwf. destruct (wf_packs d Hwf) as [H1 H2 _]. by split. Qed.

Lemma db_wf_rows d : db_wf d → subtasks_wf d.
Proof. intros Hwf. destruct (wf_subtasks d Hwf) as [H1 _ _ H2 _]. by split. Qed.

Lemma db_wf_consoles d : db_wf d → console_keyed d.
Proof. intros Hwf. split; intros k x Hx; [by apply (wf_logs d Hwf)|by apply (wf_cells d Hwf)]. Qed.

(** What the rows of a new test or run rely on: nothing refers to a key that is not there. *)
Lemma db_wf_no_subtask d test_id k s :
  db_wf d → d.(tests) !! test_id = None → d.(subtasks) !! k = Some s →
  s.(Subtask.test_id) ≠ test_id.
Proof.
  intros Hwf Hn Hs Ht. destruct (sub_test _ _ _ (wf_subtasks d Hwf) k s Hs). congruence.
Qed.

Lemma db_wf_no_log d run_id seq :
  db_wf d → d.(kem_runs) !! run_id = None → d.(kem_run_logs) !! (run_id, seq) = None.
Proof.
  intros Hwf Hn. destruct (d.(kem_run_logs) !! _) as [l|] eqn:Hl; [|done].
  destruct (wf_logs d Hwf _ l Hl) as [_ [r Hr]]. cbn in Hr. congruence.
Qed.

(** Opening a session, reading one, and reading a run when their rows exist. *)
Lemma run_get_session_found env id s w :
  reliable env → db_wf w.(db) → w.(db).(cavp_sessions) !! id = Some s →
  ∃ p, w.(db).(cavp_packs) !! s.(CavpSessionRow.pack_id) = Some p ∧
    run (get_session env id) w = (Ok (Ok (session_detail s p.(CavpPackRow.slug))), tick w).
Proof.
  intros Hr Hwf Hs. destruct (wf_sessions _ Hwf id s Hs) as (_ & [p Hp] & _). exists p.
  split; [done|]. unfold get_session. rewrite run_api_bind, run_api_op, sql_works by done.
  unfold session_with_slug. rewrite Hs. cbn [mbind option_bind]. rewrite Hp.
  cbn [fst snd map_err]. by rewrite run_api_bind.
Qed.

End readers.

Section references.
Context {J : SerdeJson} {RJ : ReportJson} {U : UuidDisplay} {C : Chrono}.
Context {X : Hex} {CJ : CavpJson} {SJ : SeedJson}.
Context (env : Env) (bases : gmap string string) (config : ApiConfig).
Context (collate : string → string → bool) (read_file : string → result string string).

(** C25. In every state the system reaches, a row that exists can be read with everything it
    refers to: a run with its endpoint, a session with its pack, and a submission to an
    existing session finds the key to grade it with. The answers "not found" that the code
    gives for a dangling reference never happen. *)
Theorem references_resolve w0 w pool env' :
  w0.(db) = empty_db → rtc (sys_step env bases config collate read_file) (w0, []) (w, pool) →
  reliable env' →
  (∀ id r, w.(db).(kem_runs) !! id = Some r → ∃ detail,
     (run (get_run env' collate id) w).1 = Ok (Ok detail) ∧ detail.(detail_run) = r ∧
     detail.(detail_endpoint).(Endpoint.id) = r.(KemRun.endpoint_id)) ∧
  (∀ id s, w.(db).(cavp_sessions) !! id = Some s → ∃ detail,
     (run (get_session env' id) w).1 = Ok (Ok detail) ∧ detail.(ses_id) = id) ∧
  (∀ id s results e, w.(db).(cavp_sessions) !! id = Some s →
     (run (validate_session env' id results) w).1 = Ok (Err e) →
     (∃ msg, e = BadRequest msg) ∨ ∃ msg, e = Api.JsonError msg).
Proof.
  intros H0 Hs Hr. assert (Hwf : db_wf w.(db)).
  { apply (sys_inv_steps env bases config collate read_file _ _ Hs). split; [|constructor].
    cbn. rewrite H0. apply empty_db_wf. }
  split_and!.
  - intros id r Hrun. destruct (wf_runs _ Hwf id r Hrun) as (_ & [e He] & _).
    destruct (run_get_run env' Hr collate id w.(db) r e w) as [w' Hget]; try done.
    eexists. rewrite Hget. split_and!; [done|done|]. cbn.
    by apply (tw_id _ (wf_endpoints _ Hwf)) in He.
  - intros id s Hrow. destruct (run_get_session_found env' id s w Hr Hwf Hrow) as (p & Hp & ->).
    eexists. split; [done|]. by apply (wf_sessions _ Hwf id s Hrow).
  - intros id s results e Hrow. destruct (wf_sessions _ Hwf id s Hrow) as (_ & [p Hp] & _).
    unfold validate_session. rewrite run_api_bind, run_api_op, sql_works by done.
    unfold pack_of_session. rewrite Hrow. cbn [fmap option_fmap option_map fst snd map_err].
    rewrite run_api_bind. cbn [run ok_or]. rewrite run_api_bind, run_api_op, sql_works by done.
    cbn [db set_db]. unfold key_of_pack. rewrite Hp.
    cbn [fmap option_fmap option_map fst snd map_err]. rewrite run_api_bind. cbn [run ok_or].
    rewrite run_api_bind. cbn [run].
    destruct (answer_key_from_value _) as [key|err]; cbn [map_err].
    2:{ intros [= <-]. right. by eexists. }
    rewrite run_api_bind. cbn [run]. destruct (validate results key) as [report|err]; cbn [map_err].
    2:{ intros [= <-]. left. by eexists. }
    by rewrite run_api_bind, run_api_op, sql_works.
Qed.

End references.

Module ReachableWitness.
Import Fixtures.Lab JsonModel SeedWitness CavpWitness HexModel.

#[local] Instance cavp_json : CavpJson := {|
  answer_key_from_value := λ _, Err "not a key";
  report_value := λ r, VInt (Z.of_nat r.(correct)) : Value;
|}.

Definition start : World := set_db empty_db world.
Definition config : ApiConfig := ApiFacts.ApiWitness.lab_config.

(** An endpoint is posted, a student starts a run against it, and both are stored. *)
Definition posting : NewEndpoint.t := CatalogWitness.posting.
Definition request : NewKemRun := ApiKemWitness.request.

Definition posted_world : World := (run (task (create_endpoint env posting)) start).2.
Definition reached : World := (run (task (create_run env request)) posted_world).2.

Lemma served p w : service env bases config CatalogWitness.by_code files p →
  ∀ pool, ∃ q, rtc (sys_step env bases config CatalogWitness.by_code files) (w, pool)
                   ((run p w).2, pool ++ [q]).
Proof.
  intros Hp pool. destruct (run_steps p pool [] w) as (q & _ & Hs & _). exists q.
  eapply rtc_l; [by apply sys_arrive|]. clear -Hs.
  induction Hs as [c|c1 c2 c3 H12 _ IH]; [done|]. eapply rtc_l; [by apply sys_run|exact IH].
Qed.

Lemma reached_steps :
  ∃ pool, rtc (sys_step env bases config CatalogWitness.by_code files) (start, []) (reached, pool).
Proof.
  destruct (served _ start (serve_request env bases config CatalogWitness.by_code files _
    (serve_create_endpoint env config CatalogWitness.by_code files posting)) []) as [q1 H1].
  destruct (served _ posted_world (serve_request env bases config CatalogWitness.by_code files _
    (serve_create_run env config CatalogWitness.by_code files request)) ([] ++ [q1])) as [q2 H2].
  eexists. etrans; [exact H1|exact H2].
Qed.

Lemma reachable_db_wf_witness : db_wf reached.(db) ∧ size reached.(db).(kem_runs) = 1.
Proof.
  split; [|reflexivity]. destruct reached_steps as [pool Hs].
  apply (reachable_db_wf env bases config CatalogWitness.by_code files start reached pool);
    [reflexivity|exact Hs].
Defined.

Lemma references_resolve_witness :
  ∃ detail, (run (get_run env CatalogWitness.by_code 300) reached).1 = Ok (Ok detail) ∧
    detail.(detail_endpoint).(Endpoint.id) = 100%N.
Proof.
  destruct reached_steps as [pool Hs].
  destruct (references_resolve env bases config CatalogWitness.by_code files start reached pool env)
    as (H1 & _); [reflexivity|exact Hs|intros n; reflexivity|].
  destruct (H1 300%N (new_run_row 300 3 request
    (new_row 100%N posting))) as (detail & Hd & _ & He); [reflexivity|].
  exists detail. split; [exact Hd|]. rewrite He. reflexivity.
Defined.

End ReachableWitness.
