(* ===== verification/Startup.v ===== *)
(** * The processes: starting and stopping

    The [main]s of [services/api], [services/worker] and [adapters/cli] with their
    configuration. What the rest of the world answers while a process starts (Postgres,
    Redis, the port) is an argument; the database may still be without its tables. *)

From S2P Require Import Prelude RustStr Json Proto Status Domain KemOrder Backend Effects World.
From S2P Require Import Stream Registry Probe Fixtures Upsert Api ApiSeed Walk Worker Schema Reachable.

(** ** Configuration

    [given] is what was given for an argument of the command line, by its flag or in the
    environment variable of that name; [clap] parses it and fills in the defaults. *)

Section config.
Context (given : string → option string).

Definition text_arg (var default : string) : string := unwrap_or default (given var).

Definition required_arg (var : string) : result string string :=
  ok_or ("the following required arguments were not provided: " +:+ var) (given var).

Definition number_arg (max : Z) (var : string) (default : Z) : result string Z :=
  match given var with
  | None => Ok default
  | Some s => ok_or ("invalid value for " +:+ var) (parse_uint max s)
  end.

End config.

(** [services/api/src/config.rs]. *)
Module ApiArgs.
Record t := {
  database_url : string;
  redis_url : string;
  bind : string;
  db_max_connections : Z;
  max_subtasks_per_test : Z;
  probe_timeout_ms : Z;
  default_adapter : string;
  cors_allow_origin : string;
  seed_dir : string;
}.
End ApiArgs.

Local Open Scope rust_scope.

Definition api_args (given : string → option string) : result string ApiArgs.t :=
  let? database_url := required_arg given "DATABASE_URL" in
  let? db_max_connections := number_arg given 4294967295 "DB_MAX_CONNECTIONS" 16 in
  let? max_subtasks_per_test :=
    number_arg given 18446744073709551615 "MAX_SUBTASKS_PER_TEST" 512 in
  let? probe_timeout_ms := number_arg given 18446744073709551615 "PROBE_TIMEOUT_MS" 15000 in
  Ok {| ApiArgs.database_url := database_url;
        ApiArgs.redis_url := text_arg given "REDIS_URL" "redis://redis:6379";
        ApiArgs.bind := text_arg given "API_BIND" "0.0.0.0:8080";
        ApiArgs.db_max_connections := db_max_connections;
        ApiArgs.max_subtasks_per_test := max_subtasks_per_test;
        ApiArgs.probe_timeout_ms := probe_timeout_ms;
        ApiArgs.default_adapter := text_arg given "DEFAULT_ADAPTER" "openssl";
        ApiArgs.cors_allow_origin := text_arg given "CORS_ALLOW_ORIGIN" "*";
        ApiArgs.seed_dir := text_arg given "SEED_DIR" "/app/seeds" |}.

(** The fields the handlers read. *)
Definition api_config (args : ApiArgs.t) : ApiConfig := {|
  max_subtasks_per_test := Z.to_nat args.(ApiArgs.max_subtasks_per_test);
  Api.probe_timeout_ms := args.(ApiArgs.probe_timeout_ms);
  Api.default_adapter := args.(ApiArgs.default_adapter) |}.

(** [services/worker/src/config.rs]. *)
Module WorkerArgs.
Record t := {
  database_url : string;
  redis_url : string;
  adapters : string;
  concurrency : Z;
  name : string;
  probe_timeout_ms : Z;
  claim_stale_ms : Z;
}.
End WorkerArgs.

Definition default_adapters : string :=
  "openssl=http://adapter-openssl:9100,boringssl=http://adapter-boringssl:9100,"
  +:+ "wolfssl=http://adapter-wolfssl:9100,go=http://adapter-go:9100".

Definition worker_args (given : string → option string) : result string WorkerArgs.t :=
  let? database_url := required_arg given "DATABASE_URL" in
  let? concurrency := number_arg given 18446744073709551615 "WORKER_CONCURRENCY" 8 in
  let? probe_timeout_ms := number_arg given 18446744073709551615 "PROBE_TIMEOUT_MS" 15000 in
  let? claim_stale_ms := number_arg given 18446744073709551615 "CLAIM_STALE_MS" 120000 in
  Ok {| WorkerArgs.database_url := database_url;
        WorkerArgs.redis_url := text_arg given "REDIS_URL" "redis://redis:6379";
        WorkerArgs.adapters := text_arg given "ADAPTERS" default_adapters;
        WorkerArgs.concurrency := concurrency;
        WorkerArgs.name := text_arg given "WORKER_NAME" "worker-1";
        WorkerArgs.probe_timeout_ms := probe_timeout_ms;
        WorkerArgs.claim_stale_ms := claim_stale_ms |}.

(** [adapters/cli/src/main.rs]; nothing is required. *)
Definition adapter_args (given : string → option string) : Config.t := {|
  Config.backend := text_arg given "ADAPTER_BACKEND" "mock";
  Config.name := given "ADAPTER_NAME";
  Config.bind := text_arg given "ADAPTER_BIND" "0.0.0.0:9100";
  Config.client_bin := text_arg given "ADAPTER_CLIENT_BIN" "openssl";
  Config.kem_groups := text_arg given "ADAPTER_KEM_GROUPS" "";
  Config.sig_algs := text_arg given "ADAPTER_SIG_ALGS" "";
  Config.version := text_arg given "ADAPTER_VERSION" "unknown";
  Config.workdir := given "ADAPTER_WORKDIR" |}.

(** ** [services/api/src/main.rs] *)

Inductive Command := Serve | Migrate | Seed.

(** How a process that was started gets on: it ends, or it serves. *)
Inductive Outcome :=
| Failed (err : string)
| Done
| Listening.

Section api.
Context {J : SerdeJson} {SJ : SeedJson}.
Context (env : Env) (read_file : string → result string string).

(** What the process meets: Postgres, the URL of Redis, Redis, the pending migration, the
    port. *)
Record Outside := {
  connect_postgres : result string unit;
  open_redis : result string unit;
  connect_redis : result string unit;
  run_migrations : result string unit;
  bind_port : result string unit;
}.

(** The tables are there after the first migration. *)
Record Site := {
  migrated : bool;
  site : World;
}.

(** A statement about a table that does not exist is an error. *)
Definition site_env (s : Site) : Env :=
  if s.(migrated) then env
  else {|
    clock := env.(clock); fresh_uuid := env.(fresh_uuid); next_serial := env.(next_serial);
    row_order := env.(row_order); fault := λ _, FailsBefore "relation does not exist";
    get_capabilities := env.(get_capabilities); post_probe := env.(post_probe) |}.

(** [sqlx::migrate!().run(...)]: the one migration of the directory, unless it was applied. *)
Definition migrate (o : Outside) (s : Site) : result string unit * Site :=
  match o.(run_migrations) with
  | Err err => (Err err, s)
  | Ok _ =>
      (Ok tt,
       if s.(migrated) then s else {| migrated := true; site := set_db empty_db s.(site) |})
  end.

(** [AppState::connect]. *)
Definition state_connect (o : Outside) : result string unit :=
  let? _ := o.(connect_postgres) in
  let? _ := o.(open_redis) in
  o.(connect_redis).

Definition serve (o : Outside) (s : Site) : Outcome * Site :=
  match state_connect o with
  | Err err => (Failed err, s)
  | Ok _ =>
      match migrate o s with
      | (Err err, s) => (Failed err, s)
      | (Ok _, s) =>
          match o.(bind_port) with
          | Err err => (Failed err, s)
          | Ok _ => (Listening, s)
          end
      end
  end.

Definition api_main (command : option Command) (args : ApiArgs.t) (o : Outside) (s : Site)
    : Outcome * Site :=
  match unwrap_or Serve command with
  | Migrate =>
      match o.(connect_postgres) with
      | Err err => (Failed err, s)
      | Ok _ =>
          match migrate o s with
          | (Err err, s) => (Failed err, s)
          | (Ok _, s) => (Done, s)
          end
      end
  | Seed =>
      match o.(connect_postgres) with
      | Err err => (Failed err, s)
      | Ok _ =>
          match run (seed_run (site_env s) read_file args.(ApiArgs.seed_dir)) s.(site) with
          | (Ok _, w) => (Done, {| migrated := s.(migrated); site := w |})
          | (Err err, w) => (Failed err, {| migrated := s.(migrated); site := w |})
          end
      end
  | Serve => serve o s
  end.

(** Nothing is wrong outside. *)
Definition all_up : Outside := {|
  connect_postgres := Ok tt; open_redis := Ok tt; connect_redis := Ok tt;
  run_migrations := Ok tt; bind_port := Ok tt |}.

(** The jobs of [deploy/compose.yml], each after the one before it has ended well. *)
Definition deploy (args : ApiArgs.t) (s : Site) : Outcome * Site :=
  match api_main (Some Migrate) args all_up s with
  | (Done, s) =>
      match api_main (Some Seed) args all_up s with
      | (Done, s) => api_main None args all_up s
      | r => r
      end
  | r => r
  end.

End api.

(** ** [services/worker/src/main.rs] *)

Section worker.
Context {J : SerdeJson}.

(** [max_connections(config.concurrency as u32 + 2)], as it wraps in a release build. *)
Definition worker_connections (args : WorkerArgs.t) : Z :=
  as_u32 (as_u32 args.(WorkerArgs.concurrency) + 2).

(** [tokio]'s [Semaphore::new] panics above it: [usize::MAX >> 3]. *)
Definition MAX_PERMITS : Z := 2305843009213693951.

(** What the first lines of [main] meet, and the process they start: its adapters, its
    permits and the loop. *)
Definition worker_main (args : WorkerArgs.t) (postgres redis_url redis : result string unit)
    (probe_group kem_group : result string string) (http_client : result string unit) (w : World)
    : result string (gmap string string * nat * Process) :=
  let? _ := postgres in
  let? _ := redis_url in
  let? _ := redis in
  let? _ := ensure_groups probe_group kem_group in
  let? _ := http_client in
  if (args.(WorkerArgs.concurrency) <=? MAX_PERMITS)%Z
  then Ok (adapter_map args.(WorkerArgs.adapters), Z.to_nat args.(WorkerArgs.concurrency), starts w)
  else Err "a semaphore may not have more than MAX_PERMITS permits".

End worker.

(** ** [adapters/cli/src/server.rs]: [serve] *)

Definition adapter_main (config : Config.t) (bind_port : result string unit) : Outcome :=
  match parse_backend config.(Config.backend) with
  | Err err => Failed err
  | Ok _ =>
      match bind_port with
      | Err err => Failed err
      | Ok _ => Listening
      end
  end.

(** ** Stopping the API *)

Inductive Signal := Interrupt | Terminate.

(** [shutdown_signal] waits for either of them, the loop of the worker for one. *)
Definition api_stops (s : Signal) : bool := true.

Definition worker_stops (s : Signal) : bool :=
  match s with
  | Interrupt => true
  | Terminate => false
  end.

(** [with_graceful_shutdown]: a connection carries a request whose handler is under way, or
    an event stream, which ends only from outside. After the signal nothing is accepted, and
    the process ends when every connection has. *)
Section stopping.
Context {J : SerdeJson}.

Inductive Connection :=
| Working (handler : prog World unit)
| Streaming
| Closed.

Inductive api_phase := Accepting | Closing | Stopped.

Record Server := {
  server_world : World;
  server_phase : api_phase;
  connections : list Connection;
}.

Inductive server_step : Server → Server → Prop :=
| server_accept w l c :
    c ≠ Closed → server_step (Build_Server w Accepting l) (Build_Server w Accepting (l ++ [c]))
| server_work w w' ph l1 p p' l2 :
    ph ≠ Stopped → step (w, [p]) (w', [p']) →
    server_step (Build_Server w ph (l1 ++ Working p :: l2))
                (Build_Server w' ph (l1 ++ Working p' :: l2))
| server_reply w ph l1 p l2 :
    ph ≠ Stopped → halted p →
    server_step (Build_Server w ph (l1 ++ Working p :: l2)) (Build_Server w ph (l1 ++ Closed :: l2))
(** The time limit of the router, or a client that leaves, drops the handler. *)
| server_cut w ph l1 p l2 :
    ph ≠ Stopped →
    server_step (Build_Server w ph (l1 ++ Working p :: l2)) (Build_Server w ph (l1 ++ Closed :: l2))
(** The browser closes the stream, or the connection to Redis behind it breaks. *)
| server_hang_up w ph l1 l2 :
    ph ≠ Stopped →
    server_step (Build_Server w ph (l1 ++ Streaming :: l2)) (Build_Server w ph (l1 ++ Closed :: l2))
| server_signal w l sig :
    api_stops sig = true → server_step (Build_Server w Accepting l) (Build_Server w Closing l)
| server_stop w l :
    Forall (λ c, c = Closed) l → server_step (Build_Server w Closing l) (Build_Server w Stopped l).

Definition listening (w : World) : Server := Build_Server w Accepting [].

End stopping.

Arguments Server {J}.
Arguments Connection {J}.

(** ** Lemmas *)

Section lemmas.
Context {J : SerdeJson} {SJ : SeedJson} (env : Env).
Context (read_file : string → result string string).

(** A loop of statements none of which works stops at the first. *)
Lemma run_loop_failing {K E R Key} `{Countable K, EqDecision Key} `{!Upsert K E R Key}
    `{!Table K R} {A} env' key (cast : A → result string E) e l w :
  (∀ n, env'.(fault) n = FailsBefore e) →
  run (for_each l (λ a, call (upsert_stmt env' key (cast a)))) w
  = match l with [] => (Ok tt, w) | _ => (Err e, tick w) end.
Proof.
  intros Hf. destruct l as [|a l]; [done|]. cbn [for_each]. rewrite run_bind, run_call.
  unfold upsert_stmt, sql. by rewrite Hf.
Qed.

(** The three files are there and list nothing. *)
Definition nothing_to_seed (dir : string) : Prop :=
  read_json read_file algorithms_from_slice (path_join dir "algorithms.json") = Ok [] ∧
  read_json read_file endpoints_from_slice (path_join dir "endpoints.json") = Ok [] ∧
  read_json read_file packs_from_slice (path_join dir "cavp_packs.json") = Ok [].

Lemma run_seed_failing env' e dir w :
  (∀ n, env'.(fault) n = FailsBefore e) →
  let r := run (seed_run env' read_file dir) w in
  r.2.(db) = w.(db) ∧
  (r.1 = Ok tt → nothing_to_seed dir).
Proof.
  intros Hf. unfold nothing_to_seed, seed_run, seed_algorithm, seed_endpoint, seed_pack. cbv zeta. rewrite run_bind.
  destruct (read_json read_file algorithms_from_slice _) as [algs|]; [|done].
  cbn [of_result run]. rewrite run_bind, (run_loop_failing env' _ Ok e) by done.
  destruct algs; [|done]. rewrite run_bind.
  destruct (read_json read_file endpoints_from_slice _) as [eps|]; [|done].
  cbn [of_result run]. rewrite run_bind, (run_loop_failing env' _ Ok e) by done.
  destruct eps; [|done]. rewrite run_bind.
  destruct (read_json read_file packs_from_slice _) as [packs|]; [|done].
  cbn [of_result run]. rewrite (run_loop_failing env' _ cast_pack e) by done.
  by destruct packs.
Qed.

Lemma deploy_eq args s :
  deploy env read_file args s
  = match run (seed_run env read_file args.(ApiArgs.seed_dir))
            (migrate all_up s).2.(site) with
    | (Ok _, w) => (Listening, {| migrated := true; site := w |})
    | (Err err, w) => (Failed err, {| migrated := true; site := w |})
    end.
Proof.
  unfold deploy, api_main, migrate. cbn. destruct s as [[] w]; cbn; by destruct (run _ _) as [[[]|] w1].
Qed.

Lemma serve_listens o s s' :
  serve o s = (Listening, s') →
  s'.(migrated) = true ∧ s' = (migrate o s).2 ∧ state_connect o = Ok tt.
Proof.
  unfold serve, migrate. destruct (state_connect o) as [[]|]; [|done].
  destruct (run_migrations o); [|done]. destruct (bind_port o); [|done].
  destruct s as [[] w]; cbn; by intros [= <-].
Qed.

(** ** Theorems *)

(** C31. A process never serves a database without its tables, and no start loses data: the
    API listens only when Postgres and Redis were reached and the migration is applied, and
    it starts on the rows that were there, or on empty tables the first time; [migrate] and
    [serve] leave a migrated database as it is, whatever fails; and [seed] before the
    migration changes nothing and ends well only if there is nothing to seed. *)
Theorem startup_safe args o s :
  (∀ command s', api_main env read_file command args o s = (Listening, s') →
     unwrap_or Serve command = Serve ∧ state_connect o = Ok tt ∧ s'.(migrated) = true ∧
     s'.(site) = if s.(migrated) then s.(site) else set_db empty_db s.(site)) ∧
  (s.(migrated) = true → ∀ command, unwrap_or Serve command ≠ Seed →
     (api_main env read_file command args o s).2 = s) ∧
  (s.(migrated) = false →
     let r := api_main env read_file (Some Seed) args o s in
     r.2.(migrated) = false ∧ r.2.(site).(db) = s.(site).(db) ∧
     (r.1 = Done → nothing_to_seed args.(ApiArgs.seed_dir))).
Proof.
  split_and!.
  - intros command s'. unfold api_main. destruct (unwrap_or Serve command).
    + intros (Hm & -> & Hc)%serve_listens. split_and!; [done..|].
      unfold migrate in *. destruct (run_migrations o); destruct s as [[] w]; done.
    + destruct (connect_postgres o); [|done]. by destruct (migrate o s) as [[] ?].
    + destruct (connect_postgres o); [|done]. by destruct (run _ _) as [[] ?].
  - intros Hm command Hne. unfold api_main, serve, migrate. rewrite Hm.
    destruct (unwrap_or Serve command); [| |done]; repeat case_match; simplify_eq/=; done.
  - intros Hm. unfold api_main. cbn [unwrap_or].
    destruct (connect_postgres o); [|by split_and!].
    pose proof (run_seed_failing (site_env env s) "relation does not exist"
                  args.(ApiArgs.seed_dir) s.(site)) as Hf.
    unfold site_env in *. rewrite Hm in *. cbv zeta in Hf.
    destruct Hf as [Hd Hok]; [done|].
    destruct (run _ _) as [[[]|err] w] eqn:Hrun; cbn in *; split_and!; try done.
    by intros _; apply Hok.
Qed.


End lemmas.

(** ** Stopping *)

Section shutdown.
Context {J : SerdeJson}.

Definition closed (c : Connection) : Prop := c = Closed.

(** The event streams that are open. *)
Definition is_streaming (c : Connection) : bool :=
  match c with
  | Streaming => true
  | _ => false
  end.

Definition streams_open (s : Server) : nat := length (List.filter is_streaming s.(connections)).

Lemma server_step_inv s s' :
  server_step s s' →
  (s.(server_phase) = Stopped → Forall closed s.(connections)) →
  s'.(server_phase) = Stopped → Forall closed s'.(connections).
Proof. by destruct 1. Qed.

Lemma server_closing_step s s' :
  server_step s s' → s.(server_phase) ≠ Accepting →
  s'.(server_phase) ≠ Accepting ∧ length s'.(connections) = length s.(connections).
Proof.
  destruct 1; cbn; intros Hp; try done; rewrite ?length_app; cbn; split; done.
Qed.

Lemma server_closing s s' :
  rtc server_step s s' → s.(server_phase) ≠ Accepting →
  s'.(server_phase) ≠ Accepting ∧ length s'.(connections) = length s.(connections).
Proof.
  induction 1 as [s|s s1 s2 H1 _ IH]; intros Hp; [done|].
  destruct (server_closing_step _ _ H1 Hp) as [Hp1 Hl]. destruct (IH Hp1). split; [done|congruence].
Qed.

Lemma server_stopped s s' :
  rtc server_step s s' → (s.(server_phase) = Stopped → Forall closed s.(connections)) →
  s'.(server_phase) = Stopped → Forall closed s'.(connections).
Proof. induction 1 as [s|s s1 s2 H1 _ IH]; [done|]. intros Hs. by apply IH, (server_step_inv s). Qed.

(** A handler under way can be run to its end, and its connection closed. *)
Lemma server_finish w ph l1 p l2 :
  ph ≠ Stopped →
  rtc server_step (Build_Server w ph (l1 ++ Working p :: l2))
    (Build_Server (run p w).2 ph (l1 ++ Closed :: l2)).
Proof.
  intros Hph. revert w. induction p as [a|e|X o k IH]; intros w.
  - by apply rtc_once, server_reply.
  - by apply rtc_once, server_reply.
  - eapply rtc_l; [|apply IH]. apply server_work; [done|]. apply (step_at w [] X o k []).
Qed.

(** Handlers one after the other. *)
Fixpoint run_open (l : list Connection) (w : World) : World :=
  match l with
  | [] => w
  | Working p :: l => run_open l (run p w).2
  | _ :: l => run_open l w
  end.

Lemma server_finish_all w ph l1 l2 :
  ph ≠ Stopped → Forall closed l1 → Forall (λ c, c ≠ Streaming) l2 →
  ∃ l, Forall closed l ∧
    rtc server_step (Build_Server w ph (l1 ++ l2)) (Build_Server (run_open l2 w) ph l).
Proof.
  intros Hph. revert w l1. induction l2 as [|c l2 IH]; intros w l1 H1 H2.
  { exists l1. split; [done|]. by rewrite app_nil_r. }
  apply Forall_cons in H2 as [Hc H2].
  assert (H1' : Forall closed (l1 ++ [Closed])) by (apply Forall_app; by split; [|constructor]).
  destruct c as [p| |]; [|done|].
  - destruct (IH (run p w).2 (l1 ++ [Closed]) H1' H2) as (l & Hl & Hs). exists l. split; [done|].
    etrans; [by apply server_finish|]. by rewrite <-app_assoc in Hs.
  - destruct (IH w (l1 ++ [Closed]) H1' H2) as (l & Hl & Hs). exists l. split; [done|].
    by rewrite <-app_assoc in Hs.
Qed.

(** Stopping the API: from the signal on no connection is accepted; the process is over only when every one has ended; requests that are under way
    can all be answered first, however many; but a live event stream ends only from outside,
    and as long as one browser keeps its page open the process does not stop. *)
Theorem server_drains w l :
  (∀ s, rtc server_step (Build_Server w Closing l) s →
     length s.(connections) = length l ∧
     (s.(server_phase) = Stopped → Forall closed s.(connections))) ∧
  (Streaming ∉ l → ∃ l', rtc server_step (Build_Server w Closing l)
                            (Build_Server (run_open l w) Stopped l')) ∧
  (∀ s, rtc server_step (Build_Server w Closing l) s → 0 < streams_open s →
     s.(server_phase) ≠ Stopped).
Proof.
  split_and!.
  - intros s Hs. split; [by apply (server_closing _ _ Hs)|]. by apply (server_stopped _ _ Hs).
  - intros Hn. destruct (server_finish_all w Closing [] l) as (l' & Hl' & Hs); [done|constructor| |].
    { apply Forall_forall. by intros c Hc ->. }
    exists l'. eapply rtc_r; [exact Hs|]. by apply server_stop.
  - intros s Hs Ho Hp. apply (server_stopped _ _ Hs) in Hp; [|done].
    unfold streams_open in Ho.
    assert (List.filter is_streaming s.(connections) = []) as He; [|rewrite He in Ho; cbn in Ho; lia].
    clear Ho Hs. induction Hp as [|c cs -> _ IH]; [done|exact IH].
Qed.

End shutdown.

(** ** Examples and witnesses *)

Module StartupWitness.
Import Fixtures.Lab SeedWitness.

(** With nothing but the database given, the services agree: the worker has an adapter for
    the first four columns of the matrix and for the default of the API, at the port the images listen
    on, and gives a probe the same time. *)
Definition only_database (var : string) : option string :=
  if String.eqb var "DATABASE_URL" then Some "postgres://db" else None.

Example defaults_agree :
  match api_args only_database, worker_args only_database with
  | Ok api, Ok worker =>
      let bases := adapter_map worker.(WorkerArgs.adapters) in
      is_configured bases api.(ApiArgs.default_adapter)
      && bool_decide (filter (is_configured bases) MATRIX_ADAPTERS = take 4 MATRIX_ADAPTERS)
      && forallb (λ kv, contains ":9100" kv.2) (map_to_list bases)
      && String.eqb (adapter_args only_database).(Config.bind) "0.0.0.0:9100"
      && (api.(ApiArgs.probe_timeout_ms) =? worker.(WorkerArgs.probe_timeout_ms))%Z
  | _, _ => false
  end = true.
Proof. by vm_compute. Qed.

(** Without a database there is no process, and a number that does not fit is refused. *)
Example bad_arguments :
  api_args (λ _, None) = Err "the following required arguments were not provided: DATABASE_URL" ∧
  api_args (λ var, if String.eqb var "DB_MAX_CONNECTIONS" then Some "4294967296" else Some "x")
  = Err "invalid value for DB_MAX_CONNECTIONS".
Proof. by vm_compute. Qed.

(** An unknown backend ends the adapter before it listens. *)
Example unknown_backend :
  adapter_main (adapter_args (λ _, Some "gnutls")) (Ok tt)
  = match parse_backend "gnutls" with Err err => Failed err | Ok _ => Listening end ∧
  adapter_main (adapter_args (λ _, None)) (Ok tt) = Listening.
Proof. by vm_compute. Qed.

Definition fresh_site : Site := {| migrated := false; site := world |}.

Definition args : ApiArgs.t := {|
  ApiArgs.database_url := "postgres://db"; ApiArgs.redis_url := "redis://redis:6379";
  ApiArgs.bind := "0.0.0.0:8080"; ApiArgs.db_max_connections := 16;
  ApiArgs.max_subtasks_per_test := 512; ApiArgs.probe_timeout_ms := 15000;
  ApiArgs.default_adapter := "openssl"; ApiArgs.cors_allow_origin := "*";
  ApiArgs.seed_dir := "/seed" |}.

(** Seeding first fails, the order of the compose file does not. *)
Example seed_first :
  (api_main env files (Some Seed) args all_up fresh_site).1
  = Failed "relation does not exist".
Proof. reflexivity. Qed.

Definition first_deployed : World := (run (seed_run env files "/seed") (set_db empty_db world)).2.


End StartupWitness.
