(* ===== verification/Settled.v ===== *)
(** * No test is closed early

    [Reachable] lets any job arrive. Here a probe job arrives when it is on its stream, as
    often as it likes; and then, whatever fails, is dropped or interleaves, a test is closed
    and announced as finished only when each of its subtasks has been given a verdict. The
    statement that closes a test is sound only after the count that found nothing
    outstanding, so the argument is about what a handler has seen ([assures] of [Rely]). *)

From S2P Require Import Prelude RustStr Json Cavp Proto Status Domain KemOrder Effects Rely World.
From S2P Require Import Store Registry Asking Probe Kem Upsert Api Walk Footprint ApiKem ApiCavp.
From S2P Require Import ApiSubtasks ApiCatalog ApiSeed ApiLive ApiHealth Schema Reachable Fixtures ApiFacts.

(** ** The invariant *)

Section settled.
Context {J : SerdeJson}.

(** A subtask that was given a verdict, even if it is being probed again. *)
Definition judged_row (s : Subtask.t) : Prop :=
  is_Some s.(Subtask.finished_at) ∧ s.(Subtask.result_status) ≠ ResultStatus.Pending.

Definition settled (test_id : Uuid) (d : Db) : Prop :=
  ∀ k s, d.(subtasks) !! k = Some s → s.(Subtask.test_id) = test_id → judged_row s.

Definition closed (x : Test.t) : Prop :=
  x.(Test.status) = TaskStatus.Finished ∨ x.(Test.status) = TaskStatus.Failed.

Definition posted (test_id : Uuid) (w : World) : Prop := is_Some (w.(db).(tests) !! test_id).

Record none_early (w : World) : Prop := {
  ne_wf : db_wf w.(db);
  ne_closed id x : w.(db).(tests) !! id = Some x → closed x → settled id w.(db);
  ne_queued job : (STREAM_PROBE, Probe_job job) ∈ w.(streams) → posted job.(ProbeJob.test_id) w;
  ne_told channel id p f :
    (channel, Test_event (TestEvent.TestFinished id p f)) ∈ w.(published) →
    posted id w ∧ settled id w.(db);
}.

(** What every operation of the system respects. *)
Record grows (w w' : World) : Prop := {
  gr_posted id : posted id w → posted id w';
  gr_settled id : posted id w → settled id w.(db) → settled id w'.(db);
}.

Definition onward (w w' : World) : Prop := none_early w → none_early w' ∧ grows w w'.

#[export] Instance onward_preorder : PreOrder onward.
Proof.
  split; [by intros w Hw|]. intros w1 w2 w3 H12 H23 H1. destruct (H12 H1) as [H2 [P2 S2]].
  destruct (H23 H2) as [H3 [P3 S3]]. split; [done|]. split; auto.
Qed.

(** ** Operations that concern no test *)

(** Neither tests nor subtasks change, no probe job is queued, no test is announced. *)
Record elsewhere (w w' : World) : Prop := {
  el_tests : w'.(db).(tests) = w.(db).(tests);
  el_subtasks : w'.(db).(subtasks) = w.(db).(subtasks);
  el_streams job : (STREAM_PROBE, Probe_job job) ∈ w'.(streams) →
    (STREAM_PROBE, Probe_job job) ∈ w.(streams);
  el_published channel id p f :
    (channel, Test_event (TestEvent.TestFinished id p f)) ∈ w'.(published) →
    (channel, Test_event (TestEvent.TestFinished id p f)) ∈ w.(published);
}.

Lemma elsewhere_tick w : elsewhere w (tick w).
Proof. done. Qed.

Lemma elsewhere_db w d :
  d.(tests) = w.(db).(tests) → d.(subtasks) = w.(db).(subtasks) → elsewhere w (set_db d w).
Proof. by split. Qed.

Lemma elsewhere_onward w w' : keeps_wf w w' ∧ elsewhere w w' → onward w w'.
Proof.
  intros [Hwf [Ht Hs Hq Hp]] [H1 H2 H3 H4]. unfold keeps_wf in Hwf.
  assert (Hset : ∀ id, settled id w.(db) → settled id w'.(db)) by (unfold settled; by rewrite Hs).
  split; [split|split]; unfold posted in *; rewrite ?Ht; eauto.
  intros c id p f Hin%Hp. destruct (H4 c id p f Hin). auto.
Qed.

End settled.

Notation elsewhere_op := (leaves elsewhere).

Section elsewhere.
Context {J : SerdeJson}.

Lemma elsewhere_sql {X} env (q : DateTime → Db → result string (X * Db)) :
  (∀ at_ d x d', q at_ d = Ok (x, d') → d'.(tests) = d.(tests) ∧ d'.(subtasks) = d.(subtasks)) →
  elsewhere_op (sql env q).
Proof.
  intros Hq. apply leaves_sql; [apply elsewhere_tick|]. intros w at_ x d Hd.
  apply Hq in Hd as [??]. by apply elsewhere_db.
Qed.

Lemma elsewhere_sql_at {X} env (q : nat → DateTime → Db → result string (X * Db)) :
  (∀ n at_ d x d', q n at_ d = Ok (x, d') → d'.(tests) = d.(tests) ∧ d'.(subtasks) = d.(subtasks)) →
  elsewhere_op (λ w, sql env (q w.(steps)) w).
Proof. intros Hq w. apply (elsewhere_sql env (q w.(steps))), Hq. Qed.

Lemma elsewhere_read {X} env (f : DateTime → Db → X) :
  elsewhere_op (sql env (λ at_ d, Ok (f at_ d, d))).
Proof. apply elsewhere_sql. by intros at_ d x d' [= <- <-]. Qed.

Lemma elsewhere_publish env channel event :
  (∀ id p f, event ≠ Test_event (TestEvent.TestFinished id p f)) →
  elsewhere_op (redis_publish env channel event).
Proof.
  intros He w.
  assert (elsewhere w (set_published (published w ++ [(channel, event)]) w)).
  { split; try done. intros c id p f [?|[= <- Hx]%list_elem_of_singleton]%elem_of_app; [done|].
    by destruct (He id p f). }
  unfold redis_publish. by destruct (fault env _).
Qed.

Lemma elsewhere_xadd env jobs : elsewhere_op (xadd env STREAM_KEM jobs).
Proof.
  intros w. assert (elsewhere w (set_streams (streams w ++ map (pair STREAM_KEM) jobs) w)).
  { split; try done. by intros job [?|(j & [=] & _)%list_elem_of_fmap]%elem_of_app. }
  unfold xadd. by destruct (fault env _).
Qed.

Lemma elsewhere_asking env bases : asking_leaves env bases elsewhere.
Proof.
  split; intros; unfold Registry.capabilities, Registry.probe;
    repeat first [walk_step | solve [intros w; by split]].
Qed.

End elsewhere.

(** ** The handlers that concern no test *)

#[export] Hint Resolve elsewhere_read elsewhere_xadd : walk.
#[export] Hint Extern 4 (elsewhere_op (sql _ (λ _ d, Ok (_, d)))) => apply elsewhere_read : walk.

Section others.
Context {J : SerdeJson} {RJ : ReportJson} {U : UuidDisplay} {C : Chrono}.
Context {X : Hex} {CJ : CavpJson} {SJ : SeedJson}.
Context (env : Env) (bases : gmap string string) (config : ApiConfig).
Context (collate : string → string → bool) (read_file : string → result string string).

Lemma elsewhere_kem job : preserves elsewhere (Kem.handle env bases job).
Proof.
  apply kem_handle_leaves; [apply elsewhere_asking|]. split; intros.
  - intros w. by split.
  - apply elsewhere_sql. by intros at_ d x d' [= <- <-].
  - apply elsewhere_sql. intros at' d x d'. by repeat case_match; intros [= <- <-].
  - apply elsewhere_sql. intros at' d x d'. by repeat case_match; intros [= <- <-].
  - by apply elsewhere_publish.
  - apply elsewhere_sql. by intros at_ d x d' [= <- <-].
Qed.

Lemma elsewhere_upsert_stmt {K E R Key} `{Countable K, EqDecision Key} `{!Upsert K E R Key}
    `{!Table K R} (key : nat → K) (entry : result string E) :
  (∀ m d, (set_table m d).(tests) = d.(tests) ∧ (set_table m d).(subtasks) = d.(subtasks)) →
  elsewhere_op (upsert_stmt env key entry).
Proof.
  intros Hu. apply (elsewhere_sql_at env (λ n (_ : DateTime) d, match entry with
    | Err e => Err e
    | Ok entry => match upsert (key n) entry (table d) with
                  | Ok m => Ok (tt, set_table m d)
                  | Err e => Err e
                  end
    end)).
  intros n at_ d x d'. repeat case_match; intros [= _ <-]. apply Hu.
Qed.

Lemma elsewhere_seed dir : preserves elsewhere (seed_run env read_file dir).
Proof.
  assert (∀ alg, elsewhere_op (seed_algorithm env alg)) by (intros; by apply elsewhere_upsert_stmt).
  assert (∀ ep, elsewhere_op (seed_endpoint env ep)) by (intros; by apply elsewhere_upsert_stmt).
  assert (∀ pack, elsewhere_op (seed_pack env pack)) by (intros; by apply elsewhere_upsert_stmt).
  unfold seed_run. walk.
Qed.

Lemma elsewhere_subscribe client channel : preserves elsewhere (subscribe env client channel).
Proof.
  assert (elsewhere_op (connect env)) by (intros w; unfold connect; by destruct (fault env _)).
  assert (elsewhere_op (subscribe_op env channel)).
  { intros w. unfold subscribe_op. by destruct (fault env _). }
  unfold subscribe. destruct client; walk.
Qed.

Lemma elsewhere_create_run body : preserves elsewhere (create_run env body).
Proof.
  assert (∀ e, elsewhere_op (insert_run_op env body e)).
  { intros e. apply (elsewhere_sql_at env (λ n, insert_run env n body e)). intros n at_ d x d'.
    unfold insert_run. by repeat case_match; intros [= _ <-]. }
  unfold create_run, enqueue_kem. walk.
Qed.

Lemma elsewhere_create_session slug : preserves elsewhere (create_session env slug).
Proof.
  assert (∀ pack_id p, elsewhere_op (insert_session_op env pack_id p)).
  { intros pack_id p. apply (elsewhere_sql_at env (λ n, insert_session env n pack_id p)).
    intros n at_ d x d'. unfold insert_session. by repeat case_match; intros [= _ <-]. }
  unfold create_session, fetch_pack. walk.
Qed.

Lemma elsewhere_validate id results : preserves elsewhere (validate_session env id results).
Proof.
  assert (∀ doc report, elsewhere_op (sql env (λ _ d,
    Ok (tt, with_cavp_sessions (alter (graded doc report) id) d)))).
  { intros. apply elsewhere_sql. by intros at_ d x d' [= _ <-]. }
  unfold validate_session. walk.
Qed.

Lemma elsewhere_create_endpoint body : preserves elsewhere (create_endpoint env body).
Proof.
  assert (elsewhere_op (upsert_endpoint_op env body)).
  { apply (elsewhere_sql_at env (λ n _, upsert_endpoint env n body)). intros n at_ d x d'.
    unfold upsert_endpoint. by repeat case_match; intros [= _ <-]. }
  unfold create_endpoint. walk.
Qed.

Lemma elsewhere_readyz : preserves elsewhere (readyz env).
Proof.
  assert (elsewhere_op (ping env)) by (intros w; unfold ping; by destruct (fault env _)).
  unfold readyz. walk.
Qed.

Lemma elsewhere_metrics order : preserves elsewhere (metrics env order).
Proof.
  apply preserves_bind; [apply preserves_attempt, walk_call, elsewhere_read|]. intros rows. cbv zeta.
  apply preserves_bind; [apply preserves_attempt, walk_call, elsewhere_read|done].
Qed.

Lemma elsewhere_task {A} (p : prog World A) : preserves elsewhere p → preserves elsewhere (task p).
Proof. intros Hp. apply preserves_bind; [by apply preserves_attempt|done]. Qed.

(** Every request but the one that creates a test. *)
Lemma request_elsewhere p :
  request env config collate read_file p →
  (∃ body, p = task (create_test env config body)) ∨ preserves elsewhere p.
Proof.
  intros []; [left; by eexists|right; apply elsewhere_task..].
  all: first
    [ apply elsewhere_create_run | apply elsewhere_create_endpoint | apply elsewhere_seed
    | apply elsewhere_create_session | apply elsewhere_validate
    | apply elsewhere_readyz | apply elsewhere_metrics
    | unfold get_test, get_matrix, list_tests, get_subtask, list_runs, get_run, list_packs,
        get_pack, get_session, list_algorithms, list_endpoints, fetch_pack, test_events,
        kem_events, fetch_test, fetch_subtasks; solve [walk]
    | pose proof elsewhere_subscribe; unfold test_events, kem_events, fetch_test; solve [walk]].
Qed.

End others.

(** ** Statements on tests and subtasks *)

Section statements.
Context {J : SerdeJson}.

Lemma none_early_onward : stable onward none_early.
Proof. intros w1 w2 Hw H1. by apply Hw. Qed.

Lemma onward_tick (w : World) : onward w (tick w).
Proof. intros [H1 H2 H3 H4]. by split. Qed.

(** A statement, from what it makes of the tables. *)
Lemma onward_sql {X} env (q : DateTime → Db → result string (X * Db)) w :
  keeps_wf w (sql env q w).2 →
  (∀ at_ x d, q at_ w.(db) = Ok (x, d) → none_early w →
     (∀ id y, d.(tests) !! id = Some y → closed y → settled id d) ∧ grows w (set_db d w)) →
  onward w (sql env q w).2.
Proof.
  intros Hwf Hq Hw. specialize (Hwf (ne_wf _ Hw)). revert Hwf.
  assert (Hd : ∀ at_ x d, q at_ w.(db) = Ok (x, d) → db_wf d →
    none_early (set_db d w) ∧ grows w (set_db d w)).
  { intros at_ x d He Hd. destruct (Hq _ _ _ He Hw) as [Hc Hg]. split; [|done].
    destruct Hg as [Hp Hs], Hw as [_ _ Hn Ht]. split; [done|exact Hc|intros j Hj; by apply Hp, Hn|].
    intros c id p f Hin. destruct (Ht c id p f Hin). split; [by apply Hp|by apply Hs]. }
  unfold sql. destruct (fault env _); [| |]; try destruct (q _ _) as [[x d]|e] eqn:He;
    cbn [snd]; intros Hwf; first [by eapply Hd | by apply onward_tick].
Qed.

(** A row is rewritten and keeps its verdict. *)
Definition keeps_verdict (f : Subtask.t → Subtask.t) : Prop :=
  ∀ s, (f s).(Subtask.test_id) = s.(Subtask.test_id) ∧ (judged_row s → judged_row (f s)).

Lemma verdicts_alter f id test_id d :
  keeps_verdict f → settled test_id d → settled test_id (with_subtasks (alter f id) d).
Proof.
  intros Hf Hs k s (s0 & Hs0 & [->| ->])%lookup_alter_inv Ht; [|by eapply Hs].
  destruct (Hf s0) as [Hid Hj]. apply Hj, (Hs k); [done|congruence].
Qed.

Lemma onward_subtask env (f : DateTime → Subtask.t → Subtask.t) id w :
  (∀ at_, keeps_verdict (f at_)) →
  let o := sql env (λ at_ d, Ok (tt, with_subtasks (alter (f at_) id) d)) in
  keeps_wf w (o w).2 → onward w (o w).2.
Proof.
  intros Hf o Hwf. apply onward_sql; [done|]. intros at_ x d [= _ <-] Hw. split.
  - intros k y Hy Hc. apply verdicts_alter; [done|]. by eapply ne_closed.
  - split; [done|]. intros k _. by apply verdicts_alter.
Qed.

Lemma onward_test env (f : DateTime → Test.t → Test.t) id w :
  (∀ at_ x, closed (f at_ x) → closed x ∨ settled id w.(db)) →
  let o := sql env (λ at_ d, Ok (tt, with_tests (alter (f at_) id) d)) in
  keeps_wf w (o w).2 → onward w (o w).2.
Proof.
  intros Hf o Hwf. apply onward_sql; [done|]. intros at_ x d [= _ <-] Hw. split.
  - intros k y. cbn. intros Hy Hc. destruct (decide (k = id)) as [->|Hne].
    + rewrite lookup_alter_eq in Hy. destruct (tests w.(db) !! id) as [y0|] eqn:Hy0; [|done].
      injection Hy as <-. apply Hf in Hc as [Hc|Hc]; [|done]. by eapply ne_closed.
    + rewrite lookup_alter_ne in Hy by done. by eapply (ne_closed w).
  - split; [|done]. intros k. unfold posted. cbn. by rewrite lookup_alter_is_Some.
Qed.

(** Nothing outstanding: every row has its verdict. *)
Lemma all_done_judged id d : db_wf d → all_done id d = true → settled id d.
Proof.
  rewrite all_done_spec. intros Hwf Hall k s Hs Ht.
  pose proof (sub_each _ _ _ (wf_subtasks d Hwf) k s Hs) as [_ Hok].
  specialize (Hall k s Hs Ht). unfold outstanding in Hall. unfold judged_row.
  destruct (Subtask.exec_status s); [done..| |].
  - destruct Hok as (Hr & _ & _ & Hf). split; [done|]. intros Hp. rewrite Hp in Hr. set_solver.
  - destruct Hok as (-> & _ & _ & Hf). by split.
Qed.

Lemma onward_told env channel id p f w :
  posted id w → settled id w.(db) →
  onward w (redis_publish env channel (Test_event (TestEvent.TestFinished id p f)) w).2.
Proof.
  intros Hp Hs. assert (Ho : onward w (set_published (published w ++
    [(channel, Test_event (TestEvent.TestFinished id p f))]) w)).
  { intros [H1 H2 H3 H4]. split; [|done]. split; try done.
    intros c k p' f' [Hin|[= _ -> _ _]%list_elem_of_singleton]%elem_of_app; [|done].
    by eapply H4. }
  unfold redis_publish. destruct (fault env _); [exact Ho|apply onward_tick|exact Ho].
Qed.

Lemma onward_queue env jobs w :
  (∀ job, job ∈ jobs → posted job.(ProbeJob.test_id) w) →
  onward w (xadd env STREAM_PROBE (map Probe_job jobs) w).2.
Proof.
  intros Hj. assert (Ho : onward w (set_streams (streams w ++
    map (pair STREAM_PROBE) (map Probe_job jobs)) w)).
  { intros [H1 H2 H3 H4]. split; [|done]. split; try done.
    intros job [Hin|Hin]%elem_of_app; [by apply H3|].
    apply list_elem_of_fmap in Hin as (j & [= <-] & (job' & [= ->] & Hin)%list_elem_of_fmap).
    by apply Hj. }
  unfold xadd. destruct (fault env _); [exact Ho|apply onward_tick|exact Ho].
Qed.

End statements.

(** ** The handler of a subtask *)

Section probe.
Context {J : SerdeJson} {RJ : ReportJson} {U : UuidDisplay}.
Context (env : Env) (bases : gmap string string) (job : ProbeJob.t).
Notation id := (job.(ProbeJob.test_id)).

(** What the handler knows from the start, and after a count that found nothing. *)
Definition known (w : World) : Prop := none_early w ∧ posted id w.
Definition done_known (w : World) : Prop := known w ∧ settled id w.(db).

Lemma known_onward : stable onward known.
Proof. intros w w' Hw [Hn Hp]. destruct (Hw Hn) as [? [? _]]. split; auto. Qed.

Lemma done_known_onward : stable onward done_known.
Proof.
  intros w w' Hw [[Hn Hp] Hs]. destruct (Hw Hn) as [? []]. split; [split|]; auto.
Qed.

Lemma elsewhere_preserves {A} (p : prog World A) :
  sound p → preserves elsewhere p → preserves onward p.
Proof. intros Hs He. eapply preserves_impl; [apply elsewhere_onward|by apply preserves_and]. Qed.

Lemma onward_read {X} (f : DateTime → Db → X) w :
  onward w (sql env (λ at_ d, Ok (f at_ d, d)) w).2.
Proof. apply elsewhere_onward. split; [apply sound_read|apply elsewhere_read]. Qed.

Lemma read_answer {X} (f : Db → X) w :
  let r := sql env (λ _ d, Ok (f d, d)) w in
  (r.1 = Ok (f w.(db)) ∨ ∃ e, r.1 = Err e) ∧ r.2.(db) = w.(db).
Proof. cbv zeta. unfold sql. destruct (fault env _); cbn; eauto. Qed.

(** The count is true when it is made, and stays true. *)
Lemma assures_finish_test w :
  known w → assures onward (finish_test_if_done env id)
    (λ r w', known w' ∧ ∀ p, r = Ok (Some p) → done_known w') w.
Proof.
  intros Hw. unfold finish_test_if_done. apply assures_bind, assures_call. intros w1 Hw1.
  apply (known_onward _ _ Hw1) in Hw.
  pose proof (onward_read (λ _ d, progress id d) w1) as Hr. split; [exact Hr|].
  pose proof (known_onward _ _ Hr Hw) as Hw'.
  destruct (read_answer (progress id) w1) as [[-> |[e ->]] Hdb]; [|by split].
  unfold progress. destruct (0 <? _)%Z eqn:Ho; [by split|].
  assert (Hs : done_known (sql env (λ _ d, Ok (progress id d, d)) w1).2).
  { split; [done|]. rewrite Hdb. apply all_done_judged; [apply Hw|]. unfold all_done. by rewrite Ho. }
  apply assures_bind, assures_call. intros w2 Hw2. pose proof (done_known_onward _ _ Hw2 Hs) as Hs2.
  match goal with |- onward w2 (?o w2).2 ∧ _ => assert (Hc : onward w2 (o w2).2) end.
  { apply (onward_test env (test_closed _)); [by right; apply Hs2|].
    apply (sound_mark_closed env id). unfold closing_status. destruct (_ && _); auto. }
  split; [exact Hc|]. pose proof (done_known_onward _ _ Hc Hs2) as Hs3.
  cbn beta. destruct (sql env _ w2).1; (split; [apply Hs3|done]).
Qed.

(** A step that keeps everything, then the rest. *)
Lemma assures_then {A} (p : prog World A) (q : A → prog World unit) w :
  preserves onward p → known w →
  (∀ a w', known w' → assures onward (q a) (λ _ _, True) w') →
  assures onward (bind p q) (λ _ _, True) w.
Proof.
  intros Hp Hw Hq. apply assures_bind.
  eapply assures_mono; [|by apply (preserves_assures _ p known); [apply known_onward|..]].
  cbn. intros [a|e] w1 Hw1; [by apply Hq|done].
Qed.

Lemma onward_publish exec result : preserves onward (Probe.publish env job exec result).
Proof.
  apply elsewhere_preserves; [apply walk_call, sound_redis_publish|].
  by apply walk_call, elsewhere_publish.
Qed.

Lemma onward_asking : asking_leaves env bases onward.
Proof.
  split; intros; (apply elsewhere_preserves; [apply sound_quiet; apply _|apply elsewhere_asking]).
Qed.

Lemma onward_mark_test k : preserves onward (mark_test_running env k).
Proof.
  apply walk_call. intros w. apply (onward_test env test_running).
  - intros at_ x. unfold test_running. case_decide; [by intros [|]|auto].
  - by apply (sound_mark_test_running env k w).
Qed.

Lemma onward_mark_running k : preserves onward (mark_subtask_running env k).
Proof.
  apply walk_call. intros w. apply (onward_subtask env subtask_running); [by intros at_ s|].
  by apply (sound_mark_subtask_running env k w).
Qed.

Lemma onward_mark_error k reason : preserves onward (mark_subtask_error env k reason).
Proof.
  apply walk_call. intros w. apply (onward_subtask env (subtask_errored reason)).
  - intros at_ s. split; [done|]. by split; [eexists|].
  - by apply (sound_mark_subtask_error env k reason w).
Qed.

Lemma onward_save_report response caps :
  preserves onward (save_report env job.(ProbeJob.subtask_id) (result_of job response caps) response).
Proof.
  pose proof (result_of_verdict job response caps) as Hv. apply walk_call. intros w.
  apply onward_sql; [by apply (sound_save_report env job.(ProbeJob.subtask_id) _ response Hv w)|].
  intros at_ x d. destruct (subtasks w.(db) !! _); [|done]. intros [= _ <-] Hn.
  assert (Hf : keeps_verdict (reported (result_of job response caps) response at_)).
  { intros s. split; [done|]. split; [by eexists|]. cbn. intros Hp. rewrite Hp in Hv. set_solver. }
  split; [|split; [done|]].
  - intros k y Hy Hc. apply verdicts_alter; [exact Hf|]. by apply (ne_closed w Hn k y).
  - intros k _ Hs. by apply verdicts_alter.
Qed.

(** [TestFinished] is published after the count. *)
Lemma assures_finish w : known w → assures onward (Probe.finish env job) (λ _ _, True) w.
Proof.
  intros Hw. apply assures_bind. eapply assures_mono; [|by apply assures_finish_test].
  cbn. intros [[p|]|e] w1 [Hk Hd]; [|done..]. apply assures_call. intros w2 Hw2.
  destruct (done_known_onward _ _ Hw2 (Hd p eq_refl)) as [[_ Hp] Hs].
  split; [by apply onward_told|done].
Qed.

Lemma assures_probe w :
  known w → assures onward (Probe.handle env bases job) (λ _ _, True) w.
Proof.
  intros Hw. unfold Probe.handle.
  apply assures_then; [apply onward_mark_test|done|intros _ w1 Hw1].
  apply assures_then; [apply onward_mark_running|done|intros _ w2 Hw2].
  destruct (negb _).
  - apply assures_then; [apply onward_mark_error|done|intros _ w3 Hw3].
    apply assures_then; [apply onward_publish|done|intros _; apply assures_finish].
  - apply assures_then; [apply onward_asking|done|intros response w3 Hw3].
    apply assures_then; [apply preserves_attempt, onward_asking|done|intros caps w4 Hw4].
    apply assures_then; [apply onward_save_report|done|intros _ w5 Hw5].
    apply assures_then; [apply onward_publish|done|intros _; apply assures_finish].
Qed.

End probe.

(** ** The handler that creates a test *)

Section create.
Context {J : SerdeJson} (env : Env) (config : ApiConfig) (body : NewTest).

Lemma assures_api_bind {A B} (m : api A) (k : A → api B) Q w :
  assures onward m (λ r w', match r with
    | Ok (Ok a) => assures onward (k a) Q w'
    | Ok (Err e) => Q (Ok (Err e)) w'
    | Err e => Q (Err e) w'
    end) w → assures onward (api_bind m k) Q w.
Proof.
  intros Hm. apply assures_bind. eapply assures_mono; [|exact Hm]. by intros [[a|e]|e] w'.
Qed.

Lemma assures_api_read {X} from (f : DateTime → Db → X) (I : World → Prop) w :
  stable onward I → I w →
  assures onward (api_op from (sql env (λ at_ d, Ok (f at_ d, d)))) (λ _, I) w.
Proof.
  intros HI Hw w1 Hw1. pose proof (onward_read env f w1) as Ho. split; [exact Ho|].
  cbn. eapply HI; [exact Ho|]. by eapply HI.
Qed.

(** The new rows belong to the new test alone. *)
Lemma onward_insert groups sig_algs w :
  port_ok body.(Api.port) = true → onward w (insert_test_op env body groups sig_algs w).2.
Proof.
  intros Hp. unfold insert_test_op. apply onward_sql.
  { by apply (sound_insert_test_op env body groups sig_algs Hp w). }
  intros at_ x d. unfold insert_test. case_bool_decide as Hc; [|done].
  intros [= _ <-] Hn. destruct Hc as (H1 & H2 & H3 & H4 & H5).
  assert (Hset : ∀ k, k ≠ fresh_uuid env (steps w) 0 → settled k w.(db) →
    settled k (with_subtasks (λ m, list_to_map (new_subtasks (fresh_uuid env (steps w))
      (fresh_uuid env (steps w) 0) (expand groups sig_algs)) ∪ m)
      (with_tests <[fresh_uuid env (steps w) 0 := new_test_row (fresh_uuid env (steps w) 0) at_ body
                     groups sig_algs]> w.(db)))).
  { intros k Hne Hs i s Hi Ht. cbn in Hi.
    eapply all_row_lookup in Hi as [(j & p & _ & _ & ->)|[Hi _]]; [|by eapply Hs|apply Hn|done..].
    by destruct Hne. }
  split.
  - intros k y. cbn. intros [[<- <-]|[Hne Hy]]%lookup_insert_Some Hcl; [by destruct Hcl|].
    apply Hset; [done|]. by eapply (ne_closed w Hn).
  - split.
    + intros k [y Hy]. unfold posted. cbn. destruct (decide (fresh_uuid env (steps w) 0 = k)) as [->|Hne].
      * rewrite lookup_insert_eq. by eexists.
      * rewrite lookup_insert_ne by done. by eexists.
    + intros k [y Hy]. apply Hset. intros ->. congruence.
Qed.

Lemma inserted_posted groups sig_algs test rows w :
  (insert_test_op env body groups sig_algs w).1 = Ok (test, rows) →
  posted test.(Test.id) (insert_test_op env body groups sig_algs w).2.
Proof.
  unfold insert_test_op, sql. destruct (fault env _); [|done|by case_match; [case_match|]].
  unfold insert_test. case_bool_decide; [|done]. cbn. intros [= <- <-]. cbn.
  unfold posted. cbn. rewrite lookup_insert_eq. by eexists.
Qed.

Lemma assures_create w :
  none_early w → assures onward (create_test env config body) (λ _ _, True) w.
Proof.
  intros Hw. unfold create_test. apply assures_api_bind. cbn [assures].
  destruct (check_body body) as [[]|e] eqn:Hb; [|done]. apply checked_body_port in Hb.
  destruct (_ <? _); [done|]. unfold reject_unknown.
  do 2 (apply assures_api_bind, assures_api_bind;
    eapply assures_mono; [|by apply (assures_api_read _ _ none_early); [apply none_early_onward|]];
    clear w Hw; intros [[?|?]|?] w Hw; [|done..]; destruct (filter _ _); [|done]; cbn [assures]).
  apply assures_api_bind. intros w1 Hw1. pose proof (onward_insert (dedupe body.(groups))
    (dedupe body.(sig_algs)) w1 Hb) as Ho. split; [exact Ho|].
  destruct (insert_test_op _ _ _ _ w1).1 as [[test rows]|e] eqn:Hi; [|done].
  apply inserted_posted in Hi. cbn [map_err assures fst snd].
  apply assures_api_bind. intros w2 Hw2. split; [|by destruct (xadd _ _ _ w2).1].
  apply onward_queue. intros job (row & -> & _)%list_elem_of_fmap. cbn.
  assert (Hn : none_early (insert_test_op env body (dedupe body.(groups)) (dedupe body.(sig_algs)) w1).2)
    by by apply Ho, Hw1.
  by apply (Hw2 Hn).
Qed.

End create.

(** ** The system *)

Section system.
Context {J : SerdeJson} {RJ : ReportJson} {U : UuidDisplay} {C : Chrono}.
Context {X : Hex} {CJ : CavpJson} {SJ : SeedJson}.
Context (env : Env) (bases : gmap string string) (config : ApiConfig).
Context (collate : string → string → bool) (read_file : string → result string string).

(** A probe job is delivered from its stream, any number of times. *)
Inductive arrives (w : World) : prog World unit → Prop :=
| arrive_request p : request env config collate read_file p → arrives w p
| arrive_probe job :
    (STREAM_PROBE, Probe_job job) ∈ w.(streams) → arrives w (task (Probe.handle env bases job))
| arrive_kem job : arrives w (task (Kem.handle env bases job)).

(** The steps of [sys_step], with jobs from the streams. *)
Inductive open_step : World * list (prog World unit) → World * list (prog World unit) → Prop :=
| open_arrive w pool p : arrives w p → open_step (w, pool) (w, pool ++ [p])
| open_run c c' : step c c' → open_step c c'
| open_drop w l1 p l2 : open_step (w, l1 ++ p :: l2) (w, l1 ++ l2).

Lemma assures_task {A} (p : prog World A) w :
  assures onward p (λ _ _, True) w → assures onward (task p) (λ _ _, True) w.
Proof. intros Hp. apply assures_bind, assures_attempt. eapply assures_mono; [|exact Hp]. done. Qed.

Lemma arrives_assures w p :
  none_early w → arrives w p → assures onward p (λ _ _, True) w.
Proof.
  intros Hw Hp.
  assert (Hs : sound p → preserves elsewhere p → assures onward p (λ _ _, True) w).
  { intros. by apply (preserves_assures _ p (λ _, True)); [|by apply elsewhere_preserves|]. }
  destruct Hp as [p Hp|job Hj|job].
  - destruct (request_elsewhere env config collate read_file p Hp) as [[body ->]|He].
    + by apply assures_task, assures_create.
    + apply Hs; [|done]. apply (service_sound env ∅ config collate read_file). by constructor.
  - apply assures_task, assures_probe. split; [done|]. by apply ne_queued.
  - apply Hs; [|by apply elsewhere_task, elsewhere_kem].
    apply (service_sound env bases config collate read_file). by constructor.
Qed.

Definition open_inv (c : World * list (prog World unit)) : Prop :=
  none_early c.1 ∧ Forall (λ p, assures onward p (λ _ _, True) c.1) c.2.

Lemma open_inv_step c c' : open_step c c' → open_inv c → open_inv c'.
Proof.
  intros [w pool p Hp|[w pool] [w' pool'] Hs|w l1 p l2] [Hw Hpool]; cbn [fst snd] in *.
  - split; [done|]. apply Forall_app. split; [done|]. by apply Forall_singleton, arrives_assures.
  - destruct (assures_step onward w pool w' pool' Hpool Hs) as [HR Hpool'].
    split; [by apply HR|done].
  - split; [done|]. apply Forall_app in Hpool as [H1 [_ H2]%Forall_cons]. by apply Forall_app.
Qed.

Lemma none_early_start w :
  w.(db) = empty_db → w.(streams) = [] → w.(published) = [] → none_early w.
Proof.
  intros Hd Hs Hp. split; rewrite ?Hd, ?Hs, ?Hp.
  - apply empty_db_wf.
  - intros id x. cbn. by rewrite lookup_empty.
  - by intros job ?%elem_of_nil.
  - by intros c id p f ?%elem_of_nil.
Qed.

(** C7. No test is closed early. From empty stores, whatever is asked, however often a job is
    delivered, whichever statements fail or lose their reply, whichever handlers are
    dropped half-way and however the rest interleave: when the row of a test says finished
    or failed, or the browsers have been told that it is over, each of its subtasks has
    been given a verdict. *)
Theorem never_closed_early w0 w pool id :
  w0.(db) = empty_db → w0.(streams) = [] → w0.(published) = [] →
  rtc open_step (w0, []) (w, pool) →
  (∃ x, w.(db).(tests) !! id = Some x ∧ closed x) ∨
  (∃ channel p f, (channel, Test_event (TestEvent.TestFinished id p f)) ∈ w.(published)) →
  ∀ k s, w.(db).(subtasks) !! k = Some s → s.(Subtask.test_id) = id → judged_row s.
Proof.
  intros Hd Hq Hp Hs Hover.
  assert (Hinv : open_inv (w, pool)).
  { assert (H0 : open_inv (w0, [])) by (split; [by apply none_early_start|constructor]).
    revert H0. induction Hs; eauto using open_inv_step. }
  destruct Hinv as [Hw _]. destruct Hover as [(x & Hx & Hc)|(c & p & f & Hin)].
  - by apply (ne_closed w Hw id x).
  - by apply (ne_told w Hw c id p f).
Qed.

End system.

Module SettledWitness.
Import Fixtures.Lab JsonModel HexModel ReachableWitness.
#[local] Existing Instance cavp_json.

Definition algorithm (kind name : string) : AlgorithmSeed.t := {|
  AlgorithmSeed.kind := kind; AlgorithmSeed.name := name;
  AlgorithmSeed.display_name := name; AlgorithmSeed.family := None;
  AlgorithmSeed.enabled := true; AlgorithmSeed.sort_order := 10 |}.

#[local] Instance catalog_json : SeedJson := {|
  algorithms_from_slice := λ _, Ok [algorithm "kem_group" "mlkem768"; algorithm "sig_alg" "mldsa65"];
  endpoints_from_slice := λ _, Ok []; packs_from_slice := λ _, Ok [];
|}.

Definition files (path : string) : result string string := Ok "bytes of the file".
Definition selection : NewTest := ApiWitness.body ["mlkem768"].

(** The catalog is seeded and a test is posted; the reply of the statement that stores the
    report is lost, so the handler fails, and the job is delivered once more. *)
Definition faulty : Env := env_with (λ n, if n =? 13 then FailsAfter "connection reset" else Works).
Definition adapters : gmap string string := {[ "boringssl" := "http://adapter-boringssl:9100" ]}.

Definition probe_of_500 : ProbeJob.t := {|
  ProbeJob.test_id := 500; ProbeJob.subtask_id := 501; ProbeJob.host := "lab.example";
  ProbeJob.port := 443; ProbeJob.http_path := "/"; ProbeJob.adapter := "boringssl";
  ProbeJob.group_name := "mlkem768"; ProbeJob.sig_alg := "mldsa65"; ProbeJob.timeout_ms := 15000 |}.

Definition seeded : World := (run (task (seed_run faulty files "/seed")) start).2.
Definition ordered : World := (run (task (create_test faulty config selection)) seeded).2.
Definition tried : World := (run (task (Probe.handle faulty adapters probe_of_500)) ordered).2.
Definition tried_again : World := (run (task (Probe.handle faulty adapters probe_of_500)) tried).2.

Notation lab_step := (open_step faulty adapters config CatalogWitness.by_code files).

Lemma serves_one p w pool :
  arrives faulty adapters config CatalogWitness.by_code files w p →
  ∃ pool', rtc lab_step (w, pool) ((run p w).2, pool').
Proof.
  intros Hp. destruct (run_steps p pool [] w) as (q & _ & Hs & _). exists (pool ++ [q]).
  eapply rtc_l; [by apply open_arrive|]. clear -Hs.
  induction Hs as [c|c1 c2 c3 H12 _ IH]; [done|]. eapply rtc_l; [by apply open_run|exact IH].
Qed.

Lemma tried_again_steps : ∃ pool, rtc lab_step (start, []) (tried_again, pool).
Proof.
  destruct (serves_one (task (seed_run faulty files "/seed")) start []) as [p1 H1].
  { by apply arrive_request, serve_seed. }
  destruct (serves_one (task (create_test faulty config selection)) seeded p1) as [p2 H2].
  { by apply arrive_request, serve_create_test. }
  destruct (serves_one (task (Probe.handle faulty adapters probe_of_500)) ordered p2) as [p3 H3].
  { apply arrive_probe. vm_compute. by left. }
  destruct (serves_one (task (Probe.handle faulty adapters probe_of_500)) tried p3) as [p4 H4].
  { apply arrive_probe. vm_compute. by left. }
  exists p4. etrans; [exact H1|]. etrans; [exact H2|]. etrans; [exact H3|exact H4].
Qed.

Lemma never_closed_early_witness :
  (∃ x, tried.(db).(tests) !! 500%N = Some x ∧ x.(Test.status) = TaskStatus.Running) ∧
  ∃ s, tried_again.(db).(subtasks) !! 501%N = Some s ∧ judged_row s.
Proof.
  split; [eexists; split; [vm_compute; reflexivity|reflexivity]|].
  destruct tried_again_steps as [pool Hs].
  pose proof (never_closed_early faulty adapters config CatalogWitness.by_code files
    start tried_again pool 500 eq_refl eq_refl eq_refl Hs) as H.
  eexists. split; [vm_compute; reflexivity|].
  eapply (H (or_introl _) 501%N); [vm_compute; reflexivity|reflexivity].
  Unshelve. eexists. split; [vm_compute; reflexivity|by left].
Defined.

End SettledWitness.
