(* ===== verification/ApiLiveFacts.v ===== *)
(** * What the student sees live

    A browser that was subscribed before the worker took up the work ends up showing what
    the API answers when the page is loaded again: the console of a KEM DEMO run, the matrix
    of a test. A browser that subscribes after the end waits for ever. *)

From S2P Require Import Prelude RustStr Json Proto Status Domain KemOrder Effects Rely World.
From S2P Require Import Stream Store Registry Probe ProbeFacts Kem KemFacts Api ApiFacts Walk Footprint.
From S2P Require Import Worker WorkerFacts KemCompany SubtaskCompany WorkerStory ApiKem ApiKemFacts.
From S2P Require Import ApiLive Fixtures.

(** ** Streams *)

Section streams.
Context {J : SerdeJson} {U : UuidDisplay} {E : EventWire} {EL : EventWireLaws}.

Lemma shown_messages {S} (step : S → Event → S) start sub w :
  shown step start (stream_of sub w) = foldl step start (messages sub w).
Proof.
  unfold shown, stream_of. f_equal. induction (messages sub w) as [|e es IH]; [done|].
  destruct (payload_reads_back e) as (t & Ht & Hp). cbn [omap list_omap].
  rewrite Ht. cbn [omap list_omap]. by rewrite Hp, IH.
Qed.

(** A subscription taken at [w] gets what is published later, no more and no less. *)
Lemma messages_since sub w w' l :
  sub.(sub_from) = length w.(published) → w'.(published) = w.(published) ++ l →
  messages sub w' = map snd (filter (λ m, m.1 = sub.(sub_channel)) l).
Proof. intros Hf Hl. unfold messages. by rewrite Hf, Hl, drop_app_length. Qed.

Lemma messages_told run_id sub w w' evs :
  sub = {| sub_channel := kem_channel run_id; sub_from := length w.(published) |} →
  appends w w' → told run_id w' = told run_id w ++ evs → messages sub w' = map snd evs.
Proof.
  intros -> [l Hl] Ht. rewrite (messages_since _ w w' l) by done. cbn [sub_channel].
  unfold told in Ht. rewrite Hl, filter_app in Ht. by apply app_inv_head in Ht as ->.
Qed.

Lemma connect_works env w : reliable env → connect env w = (Ok tt, tick w).
Proof. intros Hr. unfold connect. by rewrite Hr. Qed.

Lemma subscribe_op_works env channel w :
  reliable env →
  subscribe_op env channel w
  = (Ok {| sub_channel := channel; sub_from := length w.(published) |}, tick w).
Proof. intros Hr. unfold subscribe_op. by rewrite Hr. Qed.

Lemma run_subscribe env client channel w :
  reliable env → client = Ok tt →
  run (subscribe env client channel) w
  = (Ok (Ok {| sub_channel := channel; sub_from := length w.(published) |}), tick (tick w)).
Proof.
  intros Hr ->. unfold subscribe. rewrite run_api_bind. cbn [map_err run].
  by rewrite run_api_bind, run_api_op, connect_works, run_api_op, subscribe_op_works by done.
Qed.

(** The events handler of a run: its subscription starts at the moment of the request. *)
Lemma run_kem_events env client id w r :
  reliable env → client = Ok tt → w.(db).(kem_runs) !! id = Some r →
  ∃ w', run (kem_events env client id) w
    = (Ok (Ok {| sub_channel := kem_channel id; sub_from := length w.(published) |}), w') ∧
    same_tables w w' ∧ w'.(cache) = w.(cache).
Proof.
  intros Hr Hc Hrow. unfold kem_events. rewrite run_api_bind, run_api_op, sql_works by done.
  cbn [fst snd map_err]. rewrite Hrow, run_subscribe by done. by eexists.
Qed.

(** ... and it is refused for a run that does not exist. *)
Lemma run_kem_events_missing env client id w :
  reliable env → w.(db).(kem_runs) !! id = None →
  ∃ w', run (kem_events env client id) w = (Ok (Err (NotFound "kem run")), w').
Proof.
  intros Hr Hrow. unfold kem_events. rewrite run_api_bind, run_api_op, sql_works by done.
  cbn [fst snd map_err]. rewrite Hrow. by eexists.
Qed.

End streams.

(** ** The console *)

Section console.
Context {J : SerdeJson} {U : UuidDisplay} {C : Chrono} {E : EventWire} {EL : EventWireLaws}.

(** A line and a cell as the component keeps them. *)
Definition runner_log (l : KemRunLog.t) : RunnerLog := {|
  log_seq := l.(KemRunLog.seq); log_at := to_rfc3339 l.(KemRunLog.at_);
  log_level := l.(KemRunLog.level); log_message := l.(KemRunLog.message) |}.

Definition runner_cell (c : KemMatrixCell.t) : RunnerCell := {|
  cell_kem := c.(KemMatrixCell.kem); cell_adapter := c.(KemMatrixCell.adapter);
  cell_verdict := c.(KemMatrixCell.verdict); cell_detail := c.(KemMatrixCell.detail) |}.

Definition runner_key (c : RunnerCell) : string * string := (c.(cell_kem), c.(cell_adapter)).

(** The component after the events [evs] of a run: their lines, and one cell per pair, the
    last one told. *)
Record follows_events (run_id : Uuid) (evs : list (string * Event)) (r : Runner) : Prop := {
  fe_logs : r.(runner_logs) = omap (λ e,
    match e.2 with
    | Kem_event (KemEvent.Log seq at_ level message) =>
        Some {| log_seq := seq; log_at := at_; log_level := level; log_message := message |}
    | _ => None
    end) evs;
  fe_keys : NoDup (map runner_key r.(runner_cells));
  fe_cells c : c ∈ r.(runner_cells) ↔
    runner_cell <$> cell_of run_id evs c.(cell_kem) c.(cell_adapter) = Some c;
  fe_state : r.(running) = true ∧ r.(listening) = true;
}.

Lemma follows_snoc run_id evs r e :
  progress_event e → follows_events run_id evs r →
  follows_events run_id (evs ++ [e]) (on_kem_event r e.2).
Proof.
  destruct e as [channel [e|e]]; [done|]. intros He [H1 H2 H3 [H4 H5]].
  unfold on_kem_event. rewrite H5. cbn [negb snd]. destruct e as [seq at_ level message|kem adapter verdict detail|id]; [..|done].
  - split; cbn [runner_logs runner_cells running listening]; [by rewrite omap_app, H1|done| |done].
    intros c. rewrite H3. unfold cell_of. by rewrite foldl_snoc.
  - split; cbn [runner_logs runner_cells running listening];
      [by rewrite omap_app, H1; cbn; rewrite app_nil_r| | |done].
    + rewrite map_app. apply NoDup_app. split_and!; [| |apply NoDup_singleton].
      * eapply sublist_NoDup; [exact H2|]. apply fmap_sublist, sublist_filter.
      * intros k (c & -> & [Hne _]%list_elem_of_filter)%list_elem_of_fmap.
        cbn [map runner_key cell_kem cell_adapter]. intros [= ?]%list_elem_of_singleton. by destruct Hne.
    + intros c. rewrite elem_of_app, list_elem_of_filter, list_elem_of_singleton, H3.
      unfold cell_of. rewrite foldl_snoc. fold (cell_of run_id evs (cell_kem c) (cell_adapter c)).
      generalize (cell_of run_id evs (cell_kem c) (cell_adapter c)). intros o.
      unfold cell_told. cbn [snd]. case_decide as Hk.
      * injection Hk as Hk1 Hk2. cbn. split.
        -- intros [[Hne _]|Hc]; [by destruct Hne|]. subst c. cbn in *. done.
        -- intros [= <-]. by right.
      * split; [|intros Hc; left; split; [|done]; intros [? ?]; apply Hk; congruence].
        intros [[_ Hc]|Hc]; [done|]. subst c. by destruct Hk.
Qed.

Lemma follows_all run_id evs :
  Forall progress_event evs →
  follows_events run_id evs (foldl on_kem_event runner_start (map snd evs)).
Proof.
  induction evs as [|e evs IH] using rev_ind; intros Hall.
  - split; [done|constructor| |done]. intros c. cbn. by rewrite elem_of_nil.
  - apply Forall_app in Hall as [Hall He]. rewrite Forall_singleton in He.
    rewrite map_app, foldl_app. cbn [map foldl]. apply follows_snoc; auto.
Qed.

(** The lines of the events are the lines of the log. *)
Lemma runner_logs_numbered run_id evs (lines : list line) :
  log_events evs = imap (λ i, log_event run_id (Z.of_nat (S i))) lines →
  omap (λ e,
    match e.2 with
    | Kem_event (KemEvent.Log seq at_ level message) =>
        Some {| log_seq := seq; log_at := at_; log_level := level; log_message := message |}
    | _ => None
    end) evs = map runner_log (numbered run_id lines).
Proof.
  set (f := λ e : string * Event, _). intros Hl.
  assert (Hf : omap f evs = omap f (log_events evs)).
  { clear Hl. unfold log_events. induction evs as [|[c e] evs IH]; [done|].
    rewrite filter_cons. case_decide as Hd; cbn [omap list_omap]; rewrite IH; [done|].
    by destruct e as [e|[]]. }
  rewrite Hf, Hl. unfold numbered. rewrite fmap_imap. clear.
  assert (Hg : ∀ (g : nat → Z), omap f (imap (λ i, log_event run_id (g i)) lines)
    = imap (λ i, runner_log ∘ log_row run_id (g i)) lines).
  { induction lines as [|l lines IH]; intros g; [done|]. cbn [imap omap list_omap]. f_equal.
    apply (IH (g ∘ S)). }
  apply Hg.
Qed.

(** What the component shows when the run is over is what the API answers. *)
Lemma runner_over env bases run_id e (lines : list line) evs sub w w' :
  sub = {| sub_channel := kem_channel run_id; sub_from := length w.(published) |} →
  appends w w' →
  told run_id w' = told run_id w ++ evs
    ++ [(kem_channel run_id, Kem_event (KemEvent.Finished run_id))] →
  log_events evs = imap (λ i, log_event run_id (Z.of_nat (S i))) lines →
  Forall progress_event evs → console_shows env bases run_id e lines evs w' →
  let r := shown on_kem_event runner_start (stream_of sub w') in
  r.(running) = false ∧ r.(listening) = false ∧
  ∀ env' collate w1, reliable env' → company env bases run_id w' w1 →
  ∃ detail w2, run (get_run env' collate run_id) w1 = (Ok (Ok detail), w2) ∧
    r.(runner_logs) = map runner_log detail.(detail_logs) ∧
    r.(runner_cells) ≡ₚ map runner_cell detail.(detail_cells) ∧
    detail.(detail_logs) = numbered run_id lines ∧
    detail.(detail_endpoint) = e ∧
    detail.(detail_run).(KemRun.status) ∈ [TaskStatus.Finished; TaskStatus.Failed].
Proof.
  intros Hsub Happ Htold Hlog Hall Hshow r. unfold r.
  rewrite shown_messages, (messages_told run_id sub w w' _ Hsub Happ Htold), map_app, foldl_app.
  destruct (follows_all run_id evs Hall) as [H1 H2 H3 [_ H5]]. clear r.
  set (r := foldl on_kem_event runner_start (map snd evs)) in *. cbn [map foldl snd].
  unfold on_kem_event. rewrite H5. cbn [negb running listening runner_logs runner_cells].
  split; [done|]. split; [done|]. intros env' collate w1 Hr' Hw1.
  destruct (Hshow env' collate w1 Hr' Hw1) as (detail & w2 & Hget & Hl & Hnd & Hc & He & Hst & _).
  exists detail, w2. split; [done|]. split_and!; [|..|done|done|done].
  - by rewrite H1, Hl, (runner_logs_numbered run_id evs lines Hlog).
  - assert (Hkey : ∀ c kem adapter, cell_of run_id evs kem adapter = Some c →
      cell_key c = (run_id, kem, adapter)) by (intros c kem adapter; by apply cell_told_key).
    apply NoDup_Permutation; [by eapply NoDup_fmap_1| |].
    + apply NoDup_fmap_2_strong; [|by eapply NoDup_fmap_1]. intros c c'.
      rewrite !Hc. intros (k & a & [= <- <- <-]%Hkey) (k' & a' & [= Hid _ _]%Hkey) [= Hk Ha Hv Hd].
      destruct c, c'. cbn in *. congruence.
    + intros x. rewrite H3, list_elem_of_fmap. split.
      * intros (c & Hx & ->)%fmap_Some. exists c. split; [done|]. apply Hc. by eexists _, _.
      * intros (c & -> & (k & a & Hx)%Hc). pose proof Hx as [= Hid Hk Ha]%Hkey.
        cbn [runner_cell cell_kem cell_adapter]. by rewrite Hk, Ha, Hx.
Qed.

End console.

(** ** Theorems on runs *)

Section runs.
Context {J : SerdeJson} {RJ : ReportJson} {U : UuidDisplay} {UL : UuidDisplayLaws} {C : Chrono}.
Context {V : RedisValue} {JJ : JobJson} {E : EventWire} {EL : EventWireLaws}.

(** C5. The life of a run. A request for an endpoint that is switched on stores a pending run
    and queues exactly one job, for the host and port of the endpoint. The browser opens the
    event stream of the run; then a worker is given the job once, whatever other entries it
    is given and however its tasks interleave. When they have ended the run is over and the
    console in the browser has stopped; it shows the lines and the cells that
    [GET /kem/runs/{id}] answers, then and later: the lines numbered from 1, a [result] line
    last, and the run marked finished or failed. *)
Theorem kem_run_story env body e w :
  reliable env → names_endpoint body e w.(db) →
  (body.(mode) = KemRunMode.GroupCompat → body.(run_groups) ≠ []) →
  w.(db).(kem_runs) !! new_run_id env w = None →
  (∀ seq, w.(db).(kem_run_logs) !! (new_run_id env w, seq) = None) →
  (∀ kem adapter, w.(db).(kem_matrix_cells) !! (new_run_id env w, kem, adapter) = None) →
  console_keyed w.(db) →
  ∃ r job w1,
    run (create_run env body) w = (Ok (Ok r), w1) ∧
    r.(KemRun.status) = TaskStatus.Pending ∧
    job = {| KemJob.run_id := r.(KemRun.id); KemJob.mode := body.(mode);
             KemJob.host := e.(Endpoint.host); KemJob.port := e.(Endpoint.port);
             KemJob.kem_groups := body.(run_groups) |} ∧
    w1.(streams) = w.(streams) ++ [(STREAM_KEM, Kem_job job)] ∧
    ∀ api client worker bases concurrency w2 sub w3 s l1 d l2,
    reliable api → client = Ok tt → reliable worker →
    company worker bases r.(KemRun.id) w1 w2 →
    run (kem_events api client r.(KemRun.id)) w2 = (Ok (Ok sub), w3) →
    rtc (worker_step worker bases concurrency) (starts w3) s → Forall halted s.(tasks) →
    s.(started) = l1 ++ d :: l2 → Forall (not_of_run r.(KemRun.id)) (l1 ++ l2) →
    kem_job_of d = Some job →
    let browser := shown on_kem_event runner_start (stream_of sub s.(world)) in
    browser.(running) = false ∧
    ∃ lines l, l.(line_level) = "result" ∧
    ∀ env' collate w4, reliable env' → company worker bases r.(KemRun.id) s.(world) w4 →
    ∃ detail w5, run (get_run env' collate r.(KemRun.id)) w4 = (Ok (Ok detail), w5) ∧
      browser.(runner_logs) = map runner_log detail.(detail_logs) ∧
      browser.(runner_cells) ≡ₚ map runner_cell detail.(detail_cells) ∧
      detail.(detail_logs) = numbered r.(KemRun.id) (lines ++ [l]) ∧
      detail.(detail_endpoint) = e ∧
      detail.(detail_run).(KemRun.status) ∈ [TaskStatus.Finished; TaskStatus.Failed].
Proof.
  intros Hr He Hg Hfree Hnolog Hnocell Hkeyed.
  destruct (created_run_over env body e w) as (r & job & w1 & H1 & H2 & H3 & H4 & Hover); [done..|].
  exists r, job, w1. do 4 (split; [done|]).
  intros api client worker bases concurrency w2 sub w3 s l1 d l2 Ha Hc Hw Hco Hsub Hs Hh Hst Hl Hd browser.
  assert (Hrun : is_Some (w2.(db).(kem_runs) !! r.(KemRun.id))).
  { destruct (w2.(db).(kem_runs) !! r.(KemRun.id)) as [r2|] eqn:Hr2; [by eexists|].
    destruct (run_kem_events_missing api client _ w2 Ha Hr2) as [w' Hrun]. congruence. }
  destruct Hrun as [r2 Hr2].
  destruct (run_kem_events api client _ w2 r2 Ha Hc Hr2) as (w' & Hev & Hsame & Hcache).
  rewrite Hsub in Hev. injection Hev as -> ->.
  pose proof Hsame as (Hdb & Hpub & _).
  assert (Hco' : company worker bases r.(KemRun.id) w1 w').
  { etrans; [exact Hco|]. apply company_same; rewrite ?Hdb; try done. unfold told. by rewrite Hpub. }
  destruct (Hover worker bases concurrency w' s l1 d l2)
    as (lines & l & evs & Hlev & Ht & Hlog & Hall & Hshow); [done..|].
  destruct (runner_over worker bases r.(KemRun.id) e (lines ++ [l]) evs
    {| sub_channel := kem_channel r.(KemRun.id); sub_from := length w2.(published) |} w' s.(world))
    as (Hrunning & _ & Hget); [by rewrite Hpub|by eapply process_appends|done..|].
  split; [exact Hrunning|]. exists lines, l. split; [done|exact Hget].
Qed.

(** A browser that opens the event stream when the run is over waits in vain: nothing is
    told of the run any more, the component stays empty and says it is running, as long as
    the connection holds. The request has queued the job before it is answered, so nothing
    keeps the worker from being done before the browser subscribes. *)
Theorem late_browser_waits api client run_id r w sub w1 w2 :
  reliable api → client = Ok tt → w.(db).(kem_runs) !! run_id = Some r →
  run (kem_events api client run_id) w = (Ok (Ok sub), w1) →
  appends w1 w2 → told run_id w2 = told run_id w1 →
  shown on_kem_event runner_start (stream_of sub w2) = runner_start.
Proof.
  intros Ha Hc Hrow Hsub Happ Ht.
  destruct (run_kem_events api client run_id w r Ha Hc Hrow) as (w' & Hev & (_ & Hpub & _) & _).
  rewrite Hsub in Hev. injection Hev as -> ->. rewrite shown_messages.
  rewrite (messages_told run_id _ w' w2 []); [done|by rewrite Hpub|done|by rewrite app_nil_r].
Qed.

End runs.

Module LiveWitness.
Import Fixtures.Lab WorkerStory.WorkerWitness ApiKemFacts.ApiKemWitness.

(** A message is its own text. *)
#[export] Instance wire : EventWire := {| Text := Event; get_payload := Ok; json_parse := Some |}.

#[export] Instance wire_laws : EventWireLaws.
Proof. split. intros e. by exists e. Qed.

(** The job the laboratory's request queues, and its delivery. *)
Definition requested_run : KemRun.t := created_run env request lab_endpoint lab.
Definition requested : KemJob.t := ApiKem.kem_job requested_run lab_endpoint request.(run_groups).

#[local] Instance requested_json : JobJson := {|
  probe_job_from_str := λ _, Err "not a job"; kem_job_from_str := λ _, Ok requested |}.

Definition only : Delivery.t := Delivery.Build_t STREAM_KEM "1-0" "run".

Definition one_read : Replies := {|
  on_read := Ok None;
  on_claim := λ stream,
    if String.eqb stream STREAM_KEM then Ok (autoclaim_reply "0-0" [pending "1-0" "run"] [])
    else Ok (autoclaim_reply "0-0" [] []);
|}.

Lemma create_requested :
  run (create_run env request) lab = (Ok (Ok requested_run), (run (create_run env request) lab).2).
Proof. apply run_pair. vm_compute. reflexivity. Qed.

Definition requested_world : World := (run (create_run env request) lab).2.

(** Subscribed, then handled. *)
Definition subscribed : World := (run (kem_events env (Ok tt) requested_run.(KemRun.id)) requested_world).2.
Definition subscription : Subscription :=
  {| sub_channel := kem_channel requested_run.(KemRun.id); sub_from := 0 |}.

Lemma kem_run_story_witness :
  let browser := shown on_kem_event runner_start
    (stream_of subscription (one_by_one env bases subscribed [only])) in
  browser.(running) = false ∧
  ∃ detail w', run (get_run env (λ _ _, true) requested_run.(KemRun.id))
      (one_by_one env bases subscribed [only]) = (Ok (Ok detail), w') ∧
    browser.(runner_logs) = map runner_log detail.(detail_logs).
Proof.
  destruct (kem_run_story env request lab_endpoint lab)
    as (r & job & w1 & H1 & _ & Hj & _ & H3);
    [intros n; reflexivity|apply request_endpoint|done|reflexivity|reflexivity|reflexivity| |].
  { split; intros k l Hl; cbn [lab db kem_run_logs kem_matrix_cells] in Hl;
      by rewrite lookup_empty in Hl. }
  assert (Hr : r = requested_run ∧ w1 = requested_world).
  { pose proof create_requested as Hc. rewrite H1 in Hc. unfold requested_world. rewrite H1.
    by injection Hc as ->. }
  destruct Hr as [-> ->].
  destruct (worker_can_run env bases 2 subscribed [only] one_read) as (ts & Hts & Hs);
    [lia|reflexivity|].
  destruct (H3 env (Ok tt) env bases 2 requested_world subscription subscribed _ [] only []
    (λ n, eq_refl) eq_refl (λ n, eq_refl) ltac:(reflexivity)
    ltac:(apply run_pair; vm_compute; reflexivity) Hs Hts eq_refl)
    as (Hrun & lines & l & _ & Hget).
  - constructor.
  - rewrite Hj. reflexivity.
  - split; [exact Hrun|].
    destruct (Hget env (λ _ _, true) _ (λ n, eq_refl) ltac:(reflexivity)) as (detail & w5 & H6 & H7 & _).
    exists detail, w5. split; [exact H6|exact H7].
Defined.

(** Handled, then subscribed: the run is finished, the console says it is running. *)
Definition handled_first : World := one_by_one env bases requested_world [only].

Lemma late_browser_waits_witness :
  (KemRun.status <$> handled_first.(db).(kem_runs) !! requested_run.(KemRun.id))
    = Some TaskStatus.Finished ∧
  let r := run (kem_events env (Ok tt) requested_run.(KemRun.id)) handled_first in
  ∃ sub, r.1 = Ok (Ok sub) ∧
    (shown on_kem_event runner_start (stream_of sub r.2)).(running) = true.
Proof.
  split; [vm_compute; reflexivity|]. intros r.
  set (sub := {| sub_channel := kem_channel requested_run.(KemRun.id);
                 sub_from := length handled_first.(published) |}).
  assert (Hsub : r.1 = Ok (Ok sub)) by (vm_compute; reflexivity).
  exists sub. split; [exact Hsub|].
  destruct (handled_first.(db).(kem_runs) !! requested_run.(KemRun.id)) as [row|] eqn:Hrow;
    [|vm_compute in Hrow; discriminate].
  rewrite (late_browser_waits env (Ok tt) requested_run.(KemRun.id) row handled_first sub r.2 r.2
    (λ n, eq_refl) eq_refl Hrow (run_pair _ _ _ Hsub)); [reflexivity..].
Defined.

End LiveWitness.
