(* ===== verification/LiveMatrix.v ===== *)
(** * The live matrix of a test

    The grid a student watches is the matrix as it was when the page was loaded, patched by
    the events since. When the worker is done it is the matrix the API would answer. *)

From S2P Require Import Prelude RustStr Json Proto Status Domain KemOrder Effects Rely World.
From S2P Require Import Stream Store Registry Probe ProbeFacts Kem Api ApiFacts Walk Footprint Protocol.
From S2P Require Import Concurrency Worker WorkerFacts KemCompany SubtaskCompany WorkerStory ApiKem.
From S2P Require Import ApiSubtasks ApiLive ApiLiveFacts Fixtures.

(** ** What the worker never changes *)

(** Which subtask a row is, and where it stands. *)
Definition ident (s : Subtask.t) : Uuid * Uuid * Z * string * string :=
  (s.(Subtask.id), s.(Subtask.test_id), s.(Subtask.ordinal), s.(Subtask.group_name),
   s.(Subtask.sig_alg)).

Lemma fmap_alter_same `{Countable K} {A B} (g : A → B) (f : A → A) (k : K) (m : gmap K A) :
  (∀ x, g (f x) = g x) → g <$> alter f k m = g <$> m.
Proof.
  intros Hf. apply map_eq. intros k'. rewrite !lookup_fmap. destruct (decide (k' = k)) as [->|Hne].
  - rewrite lookup_alter_eq. destruct (m !! k) as [x|]; [|done]. cbn. by rewrite Hf.
  - by rewrite lookup_alter_ne.
Qed.

Section named.
Context {J : SerdeJson} {RJ : ReportJson} {U : UuidDisplay} {C : Chrono}.
Context {V : RedisValue} {JJ : JobJson}.
Context (env : Env) (bases : gmap string string).

Record named (w w' : World) : Prop := {
  nm_subtasks : ident <$> w'.(db).(subtasks) = ident <$> w.(db).(subtasks);
  nm_tests : Test.id <$> w'.(db).(tests) = Test.id <$> w.(db).(tests);
}.

#[export] Instance named_preorder : PreOrder named.
Proof. split; [by split|]. intros w1 w2 w3 [H1 H2] [H3 H4]. split; congruence. Qed.

Lemma named_same w w' :
  w'.(db).(subtasks) = w.(db).(subtasks) → w'.(db).(tests) = w.(db).(tests) → named w w'.
Proof. intros H1 H2. split; congruence. Qed.

Lemma named_sql {X} (q : DateTime → Db → result string (X * Db)) :
  (∀ at_ d x d', q at_ d = Ok (x, d') → ident <$> d'.(subtasks) = ident <$> d.(subtasks) ∧
     Test.id <$> d'.(tests) = Test.id <$> d.(tests)) →
  leaves named (sql env q).
Proof.
  intros Hq. apply leaves_sql; [by intros w; apply named_same|]. intros w at_ x d Hd.
  apply Hq in Hd as [? ?]. by split.
Qed.

Lemma named_publish channel event : leaves named (redis_publish env channel event).
Proof. apply leaves_redis_publish; by intros; apply named_same. Qed.

Lemma named_asking : asking_leaves env bases named.
Proof. apply quiet_asking. intros w w' (Hd & _). by apply named_same; rewrite Hd. Qed.

Lemma probe_handle_named job : preserves named (Probe.handle env bases job).
Proof.
  apply probe_handle_leaves; [apply named_asking|].
  split; intros; try apply walk_call; try apply named_publish; apply named_sql;
    intros at_ d x d'; try case_match; try done; intros [= _ <-]; (split; [|try done]);
    try done; apply fmap_alter_same; try done.
  intros y. unfold test_running. by case_decide.
Qed.

Lemma kem_handle_named job : preserves named (Kem.handle env bases job).
Proof.
  apply kem_handle_leaves; [apply named_asking|].
  split; intros; try apply named_publish; try (apply named_sql; intros at' d x d'; repeat case_match;
    try done; by intros [= _ <-]).
  intros w. by apply named_same.
Qed.

Lemma spawned_named d : preserves named (spawned env bases d).
Proof.
  apply preserves_bind.
  - apply preserves_attempt. unfold dispatch. destruct (String.eqb _ STREAM_PROBE).
    { destruct (probe_job_from_str _); [apply probe_handle_named|done]. }
    destruct (String.eqb _ STREAM_KEM); [|done].
    destruct (kem_job_from_str _); [apply kem_handle_named|done].
  - intros _. apply preserves_bind; [|done]. apply preserves_attempt, preserves_bind; [|done].
    apply walk_call. intros w. unfold xack. by destruct (env.(fault) _); apply named_same.
Qed.

Lemma process_named concurrency w s :
  rtc (worker_step env bases concurrency) (starts w) s → named w s.(world).
Proof.
  intros Hs. apply (process_preserves env bases concurrency named w s Hs). apply Forall_forall.
  intros d _. apply spawned_named.
Qed.

End named.

(** ** The rows of a test, before and after *)

Section rows.
Context {J : SerdeJson}.

(** The row that became of a row. *)
Definition now_row (d : Db) (s : Subtask.t) : Subtask.t :=
  default s (d.(subtasks) !! s.(Subtask.id)).

Lemma in_order_NoDup id d : subtasks_wf d → NoDup (subtasks_in_order id d).
Proof.
  intros [Hk _]. unfold subtasks_in_order. rewrite merge_sort_Permutation.
  apply NoDup_filter, (NoDup_rows Subtask.id). exact Hk.
Qed.

Lemma StronglySorted_map_on {A} (R : relation A) (g : A → A) l :
  (∀ x y, x ∈ l → y ∈ l → R x y → R (g x) (g y)) → StronglySorted R l →
  StronglySorted R (map g l).
Proof.
  intros Hg Hs. induction Hs as [|x l Hs IH Hx]; [constructor|]. cbn [map]. constructor.
  - apply IH. intros y z Hy Hz. apply Hg; by right.
  - apply Forall_map, Forall_forall. intros y Hy. rewrite Forall_forall in Hx.
    apply Hg; [by left|by right|auto].
Qed.

Section between.
Context (d d' : Db) (Hp : subtasks_wf d).
Context (Hn : ident <$> d'.(subtasks) = ident <$> d.(subtasks)).

Lemma ident_lookup k :
  ident <$> d'.(subtasks) !! k = ident <$> d.(subtasks) !! k.
Proof. by rewrite <-!lookup_fmap, Hn. Qed.

Lemma placed_later : subtasks_wf d'.
Proof.
  destruct Hp as [Hk Ho]. split.
  - intros k s Hs. pose proof (ident_lookup k) as Hi. rewrite Hs in Hi.
    destruct (subtasks d !! k) as [s0|] eqn:Hs0; [|done]. injection Hi as -> _ _ _ _. by apply Hk.
  - intros k1 k2 s1 s2 H1 H2 Ht Hord. pose proof (ident_lookup k1) as Hi1.
    pose proof (ident_lookup k2) as Hi2. rewrite H1 in Hi1. rewrite H2 in Hi2.
    destruct (subtasks d !! k1) as [r1|] eqn:Hr1; [|done].
    destruct (subtasks d !! k2) as [r2|] eqn:Hr2; [|done].
    injection Hi1 as _ Ht1 Ho1 _ _. injection Hi2 as _ Ht2 Ho2 _ _.
    eapply Ho; [exact Hr1|exact Hr2|congruence|congruence].
Qed.

Lemma now_row_ident s : d.(subtasks) !! s.(Subtask.id) = Some s → ident (now_row d' s) = ident s.
Proof.
  intros Hs. unfold now_row. pose proof (ident_lookup s.(Subtask.id)) as Hi. rewrite Hs in Hi.
  destruct (subtasks d' !! _) as [s'|]; [|done]. by apply (inj Some) in Hi.
Qed.

Lemma now_row_lookup s :
  d.(subtasks) !! s.(Subtask.id) = Some s →
  d'.(subtasks) !! s.(Subtask.id) = Some (now_row d' s).
Proof.
  intros Hs. unfold now_row. pose proof (ident_lookup s.(Subtask.id)) as Hi. rewrite Hs in Hi.
  by destruct (subtasks d' !! _).
Qed.

Lemma in_order_later id :
  subtasks_in_order id d' = map (now_row d') (subtasks_in_order id d).
Proof.
  pose proof (elem_of_in_order d Hp id) as Hin. destruct Hp as [Hk Ho].
  assert (Hid : ∀ s, s ∈ subtasks_in_order id d → ident (now_row d' s) = ident s).
  { intros s [_ Hs]%Hin. by apply now_row_ident. }
  apply (merge_sort_unique ordinal_le).
  - intros x y (a & -> & Ha)%list_elem_of_fmap (b & -> & Hb)%list_elem_of_fmap H1 H2.
    pose proof (Hid a Ha) as [= _ _ Hoa _ _]. pose proof (Hid b Hb) as [= _ _ Hob _ _].
    apply Hin in Ha as [Hta Ha], Hb as [Htb Hb]. unfold ordinal_le in *.
    assert (Hab : a.(Subtask.id) = b.(Subtask.id)) by (eapply Ho; [exact Ha|exact Hb|congruence|lia]).
    rewrite Hab in Ha. congruence.
  - apply StronglySorted_map_on.
    + intros x y Hx Hy. pose proof (Hid x Hx) as [= _ _ Hox _ _]. pose proof (Hid y Hy) as [= _ _ Hoy _ _].
      unfold ordinal_le. lia.
    + apply StronglySorted_merge_sort; apply _.
  - apply NoDup_Permutation.
    + apply NoDup_filter, (NoDup_rows Subtask.id). apply placed_later.
    + apply NoDup_fmap_2_strong; [|by apply in_order_NoDup]. intros a b Ha Hb Heq.
      pose proof (Hid a Ha) as [= Hia _ _ _ _]. pose proof (Hid b Hb) as [= Hib _ _ _ _].
      apply Hin in Ha as [_ Ha], Hb as [_ Hb]. rewrite Heq, Hib in Hia. rewrite <-Hia in Ha. congruence.
    + intros s'. rewrite <-(merge_sort_Permutation ordinal_le). fold (subtasks_in_order id d').
      rewrite (elem_of_in_order d' placed_later id s'), list_elem_of_fmap. split.
      * intros [Ht Hs']. pose proof (ident_lookup s'.(Subtask.id)) as Hi. rewrite Hs' in Hi.
        destruct (subtasks d !! Subtask.id s') as [s|] eqn:Hs; [|done]. injection Hi as Hi1 Hi2 _ _ _.
        exists s. rewrite Hi1 in Hs, Hs'. split; [|apply Hin; split; [congruence|done]].
        rewrite (now_row_lookup s) in Hs' by done. congruence.
      * intros (s & -> & Hs). pose proof (Hid s Hs) as [= Hi1 Hi2 _ _ _]. apply Hin in Hs as [Ht Hs].
        rewrite Hi1, Hi2. split; [done|]. by apply now_row_lookup.
Qed.

End between.
End rows.

(** ** The grid *)

Section grid.
Context {J : SerdeJson}.

(** What the messages say of a subtask. *)
Definition news (id : Uuid) (es : list Event) : list (ExecStatus.t * ResultStatus.t) :=
  omap (λ e, snd <$> update_of id ("", e)) es.

(** A cell after the news of its subtask: the last word counts. *)
Definition cell_after (c : MatrixCell.t) (l : list (ExecStatus.t * ResultStatus.t)) : MatrixCell.t :=
  match last l with
  | Some (exec, result) => updated_cell c.(MatrixCell.subtask_id) exec result c
  | None => c
  end.

Lemma updated_cell_id id exec result c :
  (updated_cell id exec result c).(MatrixCell.subtask_id) = c.(MatrixCell.subtask_id).
Proof. unfold updated_cell. by case_decide. Qed.

Lemma updated_cell_twice exec exec' result result' c :
  let id := c.(MatrixCell.subtask_id) in
  updated_cell id exec result (updated_cell id exec' result' c) = updated_cell id exec result c.
Proof. destruct c. unfold updated_cell. cbn. by repeat (case_decide; cbn in *). Qed.

Lemma cell_after_id c l : (cell_after c l).(MatrixCell.subtask_id) = c.(MatrixCell.subtask_id).
Proof. unfold cell_after. destruct (last l) as [[]|]; [apply updated_cell_id|done]. Qed.

Lemma news_snoc id es sub exec result g a :
  news id (es ++ [Test_event (TestEvent.SubtaskUpdated sub exec result g a)])
  = news id es ++ (if decide (sub = id) then [(exec, result)] else []).
Proof. unfold news. rewrite omap_app. f_equal. cbn. by case_decide. Qed.

(** The component: each cell follows the news of its subtask. *)
Lemma grid_after es m :
  foldl on_test_event m es = {|
    Matrix.groups := m.(Matrix.groups); Matrix.sig_algs := m.(Matrix.sig_algs);
    Matrix.cells := map (λ c, cell_after c (news c.(MatrixCell.subtask_id) es)) m.(Matrix.cells) |}.
Proof.
  induction es as [|e es IH] using rev_ind.
  - cbn. destruct m. f_equal. by rewrite map_id.
  - rewrite foldl_app, IH. cbn [foldl]. unfold on_test_event.
    assert (Hnone : (∀ c, news c.(MatrixCell.subtask_id) (es ++ [e]) = news c.(MatrixCell.subtask_id) es) →
      map (λ c, cell_after c (news c.(MatrixCell.subtask_id) es)) m.(Matrix.cells)
      = map (λ c, cell_after c (news c.(MatrixCell.subtask_id) (es ++ [e]))) m.(Matrix.cells)).
    { intros H. apply map_ext. intros c. by rewrite H. }
    destruct e as [[id exec result g a|id p f]|e].
    2-3: f_equal; apply Hnone; intros c; unfold news; rewrite omap_app; cbn; by rewrite app_nil_r.
    cbn [Matrix.groups Matrix.sig_algs Matrix.cells]. f_equal. rewrite map_map. apply map_ext. intros c.
    rewrite news_snoc. case_decide as Hid.
    + subst id. unfold cell_after at 2. rewrite last_snoc. unfold cell_after.
      destruct (last _) as [[exec' result']|]; [apply updated_cell_twice|done].
    + rewrite app_nil_r. unfold updated_cell at 1. rewrite decide_False; [done|].
      rewrite cell_after_id. congruence.
Qed.

(** The messages of a channel that are about a subtask are the updates on that channel. *)
Lemma news_channel id channel (l : list (string * Event)) us :
  omap (update_of id) l = map (pair channel) us →
  news id (map snd (filter (λ m, m.1 = channel) l)) = us.
Proof.
  intros Hl. assert (Hu : ∀ m, match update_of id m with
    | Some u => snd <$> update_of id ("", m.2) = Some u.2 ∧ u.1 = m.1
    | None => snd <$> update_of id ("", m.2) = None end).
  { intros [ch [[]|]]; cbn; try done. by case_decide. }
  revert us Hl. induction l as [|m l IH]; intros us Hl.
  { by destruct us. }
  cbn [omap list_omap] in Hl. specialize (Hu m). destruct (update_of id m) as [[ch v]|].
  - destruct us as [|u us]; [done|]. cbn [map] in Hl. injection Hl as -> -> Hl. destruct Hu as [Hu Hch].
    cbn [fst snd] in *. rewrite filter_cons_True by done. unfold news. cbn [map omap list_omap].
    rewrite Hu. f_equal. by apply IH.
  - rewrite filter_cons. case_decide; [|by apply IH]. unfold news. cbn [map omap list_omap].
    rewrite Hu. by apply IH.
Qed.

End grid.

(** ** The theorem *)

Section live.
Context {J : SerdeJson} {RJ : ReportJson} {U : UuidDisplay} {C : Chrono}.
Context {V : RedisValue} {JJ : JobJson} {E : EventWire} {EL : EventWireLaws}.

(** The deliveries of a worker as far as a test is concerned: each subtask that is
    outstanding once, for an adapter there is, and no other. *)
Definition delivered_once (bases : gmap string string) (id : Uuid) (ds : list Delivery.t) (d : Db)
    : Prop :=
  ∀ k r, d.(subtasks) !! k = Some r → r.(Subtask.test_id) = id →
  if outstanding r then
    ∃ l1 dl l2 job, ds = l1 ++ dl :: l2 ∧ Forall (not_of_subtask k) (l1 ++ l2) ∧
      probe_job_of dl = Some job ∧ job.(ProbeJob.subtask_id) = k ∧ job.(ProbeJob.test_id) = id ∧
      is_configured bases job.(ProbeJob.adapter) = true
  else Forall (not_of_subtask k) ds.

Definition cell_of_row (row : Subtask.t) : MatrixCell.t := {|
  MatrixCell.subtask_id := row.(Subtask.id);
  MatrixCell.group_name := row.(Subtask.group_name);
  MatrixCell.sig_alg := row.(Subtask.sig_alg);
  MatrixCell.result_status := row.(Subtask.result_status);
  MatrixCell.exec_status := row.(Subtask.exec_status) |}.

(** One cell: what was told of its subtask is what became of its row. *)
Lemma live_cell env bases concurrency w s id r l :
  reliable env → rtc (worker_step env bases concurrency) (starts w) s → Forall halted s.(tasks) →
  delivered_once bases id s.(started) w.(db) →
  s.(world).(published) = w.(published) ++ l →
  r.(Subtask.test_id) = id → w.(db).(subtasks) !! r.(Subtask.id) = Some r →
  cell_after (cell_of_row r)
    (news r.(Subtask.id) (map snd (filter (λ m, m.1 = test_channel id) l)))
  = cell_of_row (now_row s.(world).(db) r).
Proof.
  intros Hr Hs Hh Hd Hl Ht Hrow. specialize (Hd _ r Hrow Ht).
  assert (Hu : ∀ us, updates r.(Subtask.id) s.(world) = updates r.(Subtask.id) w ++ us →
    omap (update_of r.(Subtask.id)) l = us).
  { intros us. unfold updates. rewrite Hl, omap_app. apply app_inv_head. }
  destruct (outstanding r) eqn:Ho.
  - destruct Hd as (l1 & dl & l2 & job & Hst & Hno & Hj & Hid & Hjt & Hc).
    destruct (handled_in_process env bases Hr job concurrency w s l1 dl l2 r) as (t1 & t2 & Hover);
      [done|done|done|by rewrite Hid|done|by rewrite Hid|].
    rewrite Hc, Hid, Hjt in Hover. destruct Hover as (response & result & _ & _ & Hnow & _ & Hup).
    rewrite (news_channel _ _ l [(ExecStatus.Finished, result)]) by by apply Hu.
    unfold now_row. rewrite Hnow. cbn. unfold cell_after. cbn. unfold updated_cell. by rewrite decide_True.
  - assert (Hsp : spares_row env bases r.(Subtask.id) w s.(world)).
    { apply (process_preserves env bases concurrency _ w s Hs).
      eapply Forall_impl; [exact Hd|]. apply spawned_spares_row. }
    destruct Hsp as [H1 _ H3 _]. rewrite (news_channel _ _ l []) by by apply Hu; rewrite app_nil_r.
    unfold now_row. rewrite H1, Hrow. done.
Qed.

Lemma run_get_matrix env id w t :
  reliable env → w.(db).(tests) !! id = Some t →
  ∃ w', run (get_matrix env id) w = (Ok (Ok (matrix_of (subtasks_in_order id w.(db)))), w') ∧
    same_tables w w'.
Proof.
  intros Hr Ht. unfold get_matrix, fetch_test, fetch_subtasks.
  rewrite !run_api_bind, run_api_op, sql_works by done. cbn [fst snd map_err run]. rewrite Ht.
  cbn [ok_or]. rewrite run_api_bind, run_api_op, sql_works by done. by eexists.
Qed.

Lemma run_test_events env client id w t :
  reliable env → client = Ok tt → w.(db).(tests) !! id = Some t →
  ∃ w', run (test_events env client id) w
    = (Ok (Ok {| sub_channel := test_channel id; sub_from := length w.(published) |}), w') ∧
    same_tables w w'.
Proof.
  intros Hr Hc Ht. unfold test_events, fetch_test.
  rewrite !run_api_bind, run_api_op, sql_works by done. cbn [fst snd map_err run]. rewrite Ht.
  cbn [ok_or]. rewrite run_subscribe by done. by eexists.
Qed.


End live.

(** ** The drawer *)

Section drawer.
Context {J : SerdeJson} {RJ : ReportJson} {U : UuidDisplay} {C : Chrono}.
Context {V : RedisValue} {JJ : JobJson}.
Context (env : Env) (bases : gmap string string) (Hr : reliable env) (job : ProbeJob.t).
Notation id := (job.(ProbeJob.subtask_id)).

(** C9. A subtask from its job to the drawer. The job is delivered once, among any other
    entries; however the rounds, the permits and the handlers interleave, once every task
    has ended [GET /subtasks/{id}] answers the row with the verdict of [classify] on what
    the adapter answered (the raw outcome if its capabilities cannot be had) and the report
    made of that answer, and the browsers were told that verdict, once. Without an adapter
    the row has errored, the report is what it was and the browsers were told [disabled]. *)
Theorem worker_settles_subtask concurrency w s l1 d l2 r api :
  rtc (worker_step env bases concurrency) (starts w) s → Forall halted s.(tasks) →
  s.(started) = l1 ++ d :: l2 → Forall (not_of_subtask id) (l1 ++ l2) →
  probe_job_of d = Some job → w.(db).(subtasks) !! id = Some r → reliable api →
  ∃ detail w', run (get_subtask api id) s.(world) = (Ok (Ok detail), w') ∧
    detail.(sub_title) = r.(Subtask.group_name) +:+ " × " +:+ r.(Subtask.sig_alg) ∧
    ∃ t1 t2 shown,
      updates id s.(world) = updates id w ++ [(test_channel job.(ProbeJob.test_id), shown)] ∧
      if is_configured bases job.(ProbeJob.adapter) then
        ∃ response result, answered env bases job response ∧
          judged env bases job w.(cache) response result ∧
          detail.(sub_row) = finished_row result response t1 t2 r ∧
          detail.(sub_report) = Some (report_row id response) ∧
          shown = (ExecStatus.Finished, result)
      else
        detail.(sub_row) = errored_row (not_enabled job) t1 t2 r ∧
        detail.(sub_report) = w.(db).(subtask_reports) !! id ∧
        shown = (ExecStatus.Error, ResultStatus.Disabled).
Proof.
  intros Hs Hh Hst Hl Hd Hrow Ha.
  destruct (handled_in_process env bases Hr job concurrency w s l1 d l2 r) as (t1 & t2 & H); [done..|].
  destruct (is_configured _ _).
  - destruct H as (response & result & H1 & H2 & Hnow & Hrep & Hup).
    destruct (run_get_subtask api Ha id _ s.(world) Hnow) as [w' Hget].
    eexists _, w'. split; [exact Hget|]. split; [done|]. exists t1, t2. eexists. split; [exact Hup|].
    exists response, result. split_and!; done.
  - destruct H as (Hnow & Hrep & Hup).
    destruct (run_get_subtask api Ha id _ s.(world) Hnow) as [w' Hget].
    eexists _, w'. split; [exact Hget|]. split; [done|]. exists t1, t2. eexists. split; [exact Hup|].
    split_and!; done.
Qed.

End drawer.

Module LiveMatrixWitness.
Import Fixtures.Lab WorkerStory.WorkerWitness ApiLiveFacts.LiveWitness.

(** Both subtasks of the laboratory's test have an adapter. *)
#[local] Instance both_jobs : JobJson := {|
  probe_job_from_str := λ s,
    if String.eqb s "job 10" then Ok (job 10 "MLKEM768" "openssl")
    else if String.eqb s "job 11" then Ok (job 11 "X25519" "openssl")
    else Err "not a job";
  kem_job_from_str := λ s, if String.eqb s "kem" then Ok kem_job else Err "not a job";
|}.

Lemma lab_delivered_once : delivered_once bases 1 deliveries world.(db).
Proof.
  intros k r [[-> ->]|[-> ->]]%ApiSubtasksWitness.world_rows _; cbn [outstanding subtask Subtask.exec_status].
  - exists (take 2 deliveries), (Delivery.Build_t STREAM_PROBE "4-0" "job 10"), (drop 3 deliveries), (job 10 "MLKEM768" "openssl").
    split_and!; try reflexivity. repeat constructor; intros j Hj; vm_compute in Hj; by simplify_eq.
  - exists [], (Delivery.Build_t STREAM_PROBE "1-0" "job 11"), (drop 1 deliveries), (job 11 "X25519" "openssl").
    split_and!; try reflexivity. repeat constructor; intros j Hj; vm_compute in Hj; by simplify_eq.
Qed.

Definition opened : World := (run (get_matrix env 1) world).2.
Definition watching : World := (run (test_events env (Ok tt) 1) opened).2.
Definition page : Matrix.t := matrix_of (subtasks_in_order 1 world.(db)).
Definition watch : Subscription := {| sub_channel := test_channel 1; sub_from := 0 |}.


Lemma worker_settles_subtask_witness :
  ∃ detail w', run (get_subtask env 10) after = (Ok (Ok detail), w') ∧
    detail.(sub_title) = "MLKEM768 × mldsa65".
Proof.
  destruct after_steps as (ts & Hts & Hs).
  destruct (worker_settles_subtask env bases (λ n, eq_refl) (job 10 "MLKEM768" "openssl") 2 world _
           (take 2 deliveries) (Delivery.Build_t STREAM_PROBE "4-0" "job 10") (drop 3 deliveries)
           (subtask 10 0 "MLKEM768") env Hs Hts) as (detail & w' & Hget & Htitle & _);
    [reflexivity| |reflexivity|reflexivity|intros n; reflexivity|].
  - repeat constructor; intros j Hj; vm_compute in Hj; by simplify_eq.
  - exists detail, w'. split; [exact Hget|exact Htitle].
Defined.

End LiveMatrixWitness.
