(* ===== verification/UnitTests.v ===== *)
(** * The unit tests of the repository, on the model

    The [#[cfg(test)]] modules, one definition per test with its inputs and its assertions;
    a test holds when its definition is [true], and at the end of each module all of them do.
    A document that a test writes as JSON text goes through the text of [WireModel]. *)

From S2P Require Import Prelude RustStr Json Cavp Proto Status Domain Wire Backend KemOrder Stream.
From S2P Require Import Registry Api ApiSeed ApiFacts Exchange Worker Derived.
Import JsonModel WireModel.

(** [assert_eq!]. *)
Notation "a =? b" := (bool_decide (a = b)) (only parsing) : test_scope.
Local Open Scope test_scope.

Definition unwrap {E A} (r : result E A) (test : A → bool) : bool :=
  match r with
  | Ok a => test a
  | Err _ => false
  end.

(** ** [crates/cavp-validate/src/lib.rs] and [params.rs] *)

Module CavpTests.
Import HexModel.

Notation str_repeat := CavpWitness.str_repeat (only parsing).

Definition key : AnswerKey := {|
  key_vs_id := 91021; key_mode := "keyGen"; key_parameter_set := "ML-DSA-65";
  key_cases :=
    [{| ans_tc_id := 1; pk := Some (str_repeat 1952 "aa"); sk := Some (str_repeat 4032 "bb");
        signature := None; test_passed := None |}] |}.

Definition key_sk : string := str_repeat 4032 "bb".

Definition text_of (doc : value) : string := json_to_string (doc : Value).

Definition results_with (pk sk : string) : string := text_of (
  VObject [("vsId", VInt 91021); ("algorithm", VString "ML-DSA"); ("mode", VString "keyGen");
           ("testGroups", VArray [VObject [("tgId", VInt 1); ("tests", VArray
             [VObject [("tcId", VInt 1); ("pk", VString pk); ("sk", VString sk)]])]])]).

Definition first_status (report : ValidationReport) : option CaseStatus :=
  Cavp.status <$> first report.(cases).

Definition matching_answers_pass : bool :=
  unwrap (validate (results_with (str_repeat 1952 "aa") key_sk) key) all_correct.

Definition wrong_length_is_malformed_not_incorrect : bool :=
  unwrap (validate (results_with "aabb" key_sk) key) (λ report,
    (first_status report =? Some Malformed)
    && ((Cavp.field <$> first report.(cases)) =? Some (Some "pk"))).

Definition right_length_wrong_bytes_is_incorrect : bool :=
  unwrap (validate (results_with (str_repeat 1952 "cc") key_sk) key) (λ report,
    first_status report =? Some Incorrect).

Definition absent_case_is_missing : bool :=
  unwrap (validate (text_of (VObject [("vsId", VInt 91021); ("mode", VString "keyGen");
            ("testGroups", VArray [VObject [("tgId", VInt 1); ("tests", VArray [])]])])) key)
    (λ report, (first_status report =? Some Missing) && (report.(missing) =? 1)).

Definition results_for_another_capability_are_rejected_outright : bool :=
  match validate (text_of (VObject [("vsId", VInt 91021); ("mode", VString "sigGen");
                                    ("testGroups", VArray [])])) key with
  | Err (ModeMismatch _ _) => true
  | _ => false
  end.

Definition answer_keys_use_the_acvp_field_spellings : bool :=
  match @from_value json AnswerKey _ (VObject [("vsId", VInt 91021); ("mode", VString "keyGen");
          ("parameterSet", VString "ML-DSA-65");
          ("cases", VArray [VObject [("tcId", VInt 1); ("pk", VString "AA"); ("sk", VString "BB")];
                            VObject [("tcId", VInt 2); ("testPassed", VBool true)]])]) with
  | Some key =>
      ((ans_tc_id <$> key.(key_cases) !! 0) =? Some 1%Z)
      && ((test_passed <$> key.(key_cases) !! 1) =? Some (Some true))
  | None => false
  end.

Definition sig_ver_compares_the_boolean : bool :=
  unwrap (validate
    (text_of (VObject [("vsId", VInt 91023); ("mode", VString "sigVer");
       ("testGroups", VArray [VObject [("tgId", VInt 1); ("tests", VArray
         [VObject [("tcId", VInt 1); ("testPassed", VBool true)]])]])]))
    {| key_vs_id := 91023; key_mode := "sigVer"; key_parameter_set := "ML-DSA-65";
       key_cases := [{| ans_tc_id := 1; pk := None; sk := None; signature := None;
                        test_passed := Some false |}] |})
    (λ report, first_status report =? Some Incorrect).

Definition sizes_match_fips204 : bool :=
  ((Params.pk_len <$> Params.lookup "ML-DSA-65") =? Some 1952)
  && ((Params.sig_len <$> Params.lookup "ml-dsa-87") =? Some 4627)
  && bool_decide (Params.pk_len <$> Params.lookup "ML-KEM-768" = None).

Example cavp_tests_pass :
  [matching_answers_pass; wrong_length_is_malformed_not_incorrect;
   right_length_wrong_bytes_is_incorrect; absent_case_is_missing;
   results_for_another_capability_are_rejected_outright;
   answer_keys_use_the_acvp_field_spellings; sig_ver_compares_the_boolean; sizes_match_fips204]
  = replicate 8 true.
Proof. vm_compute. reflexivity. Qed.

End CavpTests.

(** ** [crates/pqcas-domain/src] and [crates/adapter-proto/src] *)

Module DomainTests.

Definition caps : Capabilities.t := {|
  Capabilities.adapter := "openssl"; Capabilities.version := "3.5.0";
  Capabilities.kem_groups := ["X25519MLKEM768"]; Capabilities.sig_algs := ["mldsa65"];
  Capabilities.tls_versions := ["TLSv1.3"] |}.

Definition algorithms_the_adapter_never_heard_of_are_unsupported : bool :=
  classify (ProbeResponse.failure "openssl" Stage.TlsHandshake "no shared group")
    ["mceliece460896"] caps =? ResultStatus.Unsupported.

Definition known_algorithm_that_fails_is_a_real_failure : bool :=
  classify (ProbeResponse.failure "openssl" Stage.TlsHandshake "handshake_failure")
    ["X25519MLKEM768"] caps =? ResultStatus.Failed.

Definition capability_maps_to_acvp_spelling : bool :=
  (Capability.acvp_mode Capability.SigGen =? "sigGen")
  && (Capability.from_acvp_mode "sigVer" =? Some Capability.SigVer)
  && (Capability.from_acvp_mode "nope" =? None).

Definition statuses_round_trip_through_strings : bool :=
  forallb (λ status, match from_str (A := ResultStatus.t) (ResultStatus.as_str status) with
                     | Ok status' => status' =? status
                     | Err _ => false
                     end)
    [ResultStatus.Passed; ResultStatus.Unsupported; ResultStatus.Disabled].

Definition probe_request_defaults_are_applied : bool :=
  match @from_text json ProbeRequest.t _ (json_to_string (VObject
          [("target", VObject [("host", VString "example.test"); ("port", VInt 443)])] : Value)) with
  | Some req =>
      (req.(ProbeRequest.timeout_ms) =? 15000%Z)
      && (req.(ProbeRequest.tls_versions) =? ["TLSv1.3"; "TLSv1.2"])
      && negb req.(ProbeRequest.capture).(CaptureOptions.raw_records)
  | None => false
  end.

Definition stage_round_trips_as_snake_case : bool :=
  match to_value Stage.TlsHandshake : value with
  | VString s => s =? "tls_handshake"
  | _ => false
  end
  && (Stage.as_str Stage.TlsHandshake =? "tls_handshake").

Example domain_tests_pass :
  [algorithms_the_adapter_never_heard_of_are_unsupported;
   known_algorithm_that_fails_is_a_real_failure; capability_maps_to_acvp_spelling;
   statuses_round_trip_through_strings; probe_request_defaults_are_applied;
   stage_round_trips_as_snake_case]
  = replicate 6 true.
Proof. vm_compute. reflexivity. Qed.

End DomainTests.

(** ** [services/worker/src] *)

Module WorkerTests.

Definition adapter_list_parses_and_trims : bool :=
  let map := adapter_map "openssl=http://a:9100/, go = http://b:9100 ,broken" in
  (map !! "openssl" =? Some "http://a:9100") && (map !! "go" =? Some "http://b:9100")
  && (size map =? 2).

Definition field_lookup_walks_flat_pairs : bool :=
  let fields := ["other"; "x"; "job"; "{}"] in
  (field_value fields "job" =? Some "{}") && (field_value fields "missing" =? None).

Definition pq_first_descending_order_is_clean : bool :=
  evaluate_order ["MLKEM1024"; "MLKEM768"; "x25519MLKEM768"; "x25519"; "secp256r1"; "secp384r1"]
  =? [].

Definition pq_after_classical_is_flagged : bool :=
  evaluate_order ["x25519"; "secp256r1"; "secp384r1"; "MLKEM512"; "MLKEM768"; "MLKEM1024"]
  =? ["MLKEM512"; "MLKEM768"; "MLKEM1024"].

Definition stronger_pq_behind_weaker_pq_is_flagged : bool :=
  evaluate_order ["MLKEM768"; "MLKEM1024"] =? ["MLKEM1024"].

Definition openssl_curve_spellings_are_recognised_as_classical : bool :=
  evaluate_order ["MLKEM1024"; "MLKEM768"; "X25519MLKEM768"; "X25519"; "prime256v1"] =? [].

Definition classical_groups_are_not_ranked_against_each_other : bool :=
  evaluate_order ["secp256r1"; "secp384r1"; "x25519"] =? [].

Example worker_tests_pass :
  [adapter_list_parses_and_trims; field_lookup_walks_flat_pairs;
   pq_first_descending_order_is_clean; pq_after_classical_is_flagged;
   stronger_pq_behind_weaker_pq_is_flagged;
   openssl_curve_spellings_are_recognised_as_classical;
   classical_groups_are_not_ranked_against_each_other]
  = replicate 7 true.
Proof. vm_compute. reflexivity. Qed.

End WorkerTests.

(** ** [services/api/src/routes/tests.rs] *)

Module ApiTests.

Definition plugin_prefixes_pick_the_stack : bool :=
  (adapter_for "pq-dsa" "bq2606" "openssl" =? "boringssl")
  && (adapter_for "pq-dsa" "open3x" "openssl" =? "openssl")
  && (adapter_for "pq-dsa" "mystery" "openssl" =? "openssl").

Definition duplicate_selections_collapse : bool :=
  dedupe ["mldsa65"; " mldsa65 "; "mldsa44"; ""] =? ["mldsa65"; "mldsa44"].

Example api_tests_pass :
  [plugin_prefixes_pick_the_stack; duplicate_selections_collapse] = replicate 2 true.
Proof. vm_compute. reflexivity. Qed.

End ApiTests.

(** ** [adapters/cli/src] *)

Module AdapterTests.
Import BackendTests.

Definition openssl_args_pin_groups_and_sigalgs : bool :=
  let joined := join " " (openssl_args (request ["X25519MLKEM768"] ["mldsa65"])) in
  contains "-groups X25519MLKEM768" joined && contains "-sigalgs mldsa65" joined
  && contains "-connect tls-good:11000" joined.

Definition catalog_names_are_translated_per_stack : bool :=
  (stack_group OpenSsl "mlkem768" =? "MLKEM768")
  && (stack_group WolfSsl "mlkem768" =? "ML_KEM_768")
  && (stack_group WolfSsl "SecP256r1MLKEM768" =? "SecP256r1MLKEM768")
  && (stack_group OpenSsl "secp256r1" =? "P-256")
  && (stack_group OpenSsl "frodo640aes" =? "frodo640aes").

Definition openssl_success_output_is_parsed : bool :=
  let response := parse_openssl "openssl" (request ["X25519MLKEM768"] ["mldsa65"]) success_output "" in
  response.(ProbeResponse.handshake_success)
  && (response.(ProbeResponse.negotiated).(Negotiated.group) =? Some "X25519MLKEM768")
  && (response.(ProbeResponse.negotiated).(Negotiated.cipher_suite)
      =? Some "TLS_AES_256_GCM_SHA384")
  && (response.(ProbeResponse.failed_stage) =? Stage.Complete)
  && ((HttpOutcome.status <$> response.(ProbeResponse.http)) =? Some 200%Z)
  && (response.(ProbeResponse.evidence).(Evidence.bytes_sent) =? 1234%Z)
  && (response.(ProbeResponse.evidence).(Evidence.bytes_received) =? 4567%Z)
  && (length response.(ProbeResponse.cert_chain) =? 1).

Definition openssl_alert_number_becomes_a_name : bool :=
  let response := parse_openssl "openssl" (request ["P-256"] ["mldsa44"]) (text ["CONNECTED(3)"; ""])
    ("40D0F3:error:0A000410:SSL routines:ssl3_read_bytes:sslv3 alert handshake failure:"
     +:+ "ssl/record/rec_layer_s3.c:907:SSL alert number 40") in
  negb response.(ProbeResponse.handshake_success)
  && ((Alert.description <$> response.(ProbeResponse.alert)) =? Some "handshake_failure")
  && (response.(ProbeResponse.failed_stage) =? Stage.TlsHandshake)
  && ((HandshakeMessage.kind <$> response.(ProbeResponse.messages) !! 1) =? Some "Alert").

Definition classical_group_is_read_from_the_temp_key_line : bool :=
  let response := parse_openssl "openssl" (request ["x25519"] [])
    (text ["CONNECTED(00000003)"; "Peer Temp Key: X25519, 253 bits";
           "New, TLSv1.3, Cipher is TLS_AES_256_GCM_SHA384"; "Protocol: TLSv1.3"; ""]) "" in
  response.(ProbeResponse.handshake_success)
  && (response.(ProbeResponse.negotiated).(Negotiated.group) =? Some "X25519").

Definition nist_curves_report_the_curve_not_the_mechanism : bool :=
  let response := parse_openssl "openssl" (request ["P-256"] [])
    (text ["CONNECTED(00000003)"; "Peer Temp Key: ECDH, P-256, 256 bits";
           "New, TLSv1.3, Cipher is TLS_AES_256_GCM_SHA384"; "Protocol: TLSv1.3"; ""]) "" in
  response.(ProbeResponse.negotiated).(Negotiated.group) =? Some "P-256".

Definition placeholder_cipher_and_group_do_not_count_as_a_handshake : bool :=
  let response := parse_openssl "openssl" (request ["X25519MLKEM768"] ["mldsa65"])
    (text ["CONNECTED(00000003)"; "Negotiated TLS1.3 group: <NULL>";
           "SSL handshake has read 7 bytes and written 1388 bytes";
           "New, (NONE), Cipher is (NONE)"; "Protocol: TLSv1.3"; ""])
    ("error:0A000410:SSL routines:ssl3_read_bytes:ssl/tls alert handshake failure:"
     +:+ "SSL alert number 40") in
  negb response.(ProbeResponse.handshake_success)
  && (response.(ProbeResponse.negotiated).(Negotiated.cipher_suite) =? None)
  && (response.(ProbeResponse.negotiated).(Negotiated.group) =? None)
  && ((Alert.description <$> response.(ProbeResponse.alert)) =? Some "handshake_failure").

(** [windows(2)]. *)
Fixpoint has_window (a b : string) (l : list string) : bool :=
  match l with
  | x :: ((y :: _) as r) => (String.eqb x a && String.eqb y b) || has_window a b r
  | _ => false
  end.

Definition wolfssl_classical_probe_omits_the_pqc_flag : bool :=
  negb (existsb (String.eqb "--pqc") (wolfssl_args (request ["P-256"] [])))
  && has_window "--pqc" "ML_KEM_768" (wolfssl_args (request ["mlkem768"] [])).

Definition boringssl_summary_is_read_from_stderr : bool :=
  let response := parse_boringssl "boringssl" (request ["X25519MLKEM768"] [])
    ("HTTP/1.0 200 ok" +:+ crlf +:+ "Content-type: text/html" +:+ crlf +:+ crlf +:+ "<html>")
    (text ["Connecting to 172.20.0.2:11000"; "Connected."; "  Version: TLSv1.3";
           "  Cipher: TLS_AES_128_GCM_SHA256"; "  ECDHE group: X25519MLKEM768";
           "  Signature algorithm: ecdsa_secp256r1_sha256";
           "  Cert subject: CN = tls-good.lab"; "  Cert issuer: CN = tls-good.lab"; ""]) in
  response.(ProbeResponse.handshake_success)
  && (response.(ProbeResponse.negotiated).(Negotiated.group) =? Some "X25519MLKEM768")
  && (length response.(ProbeResponse.cert_chain) =? 1)
  && ((HttpOutcome.status <$> response.(ProbeResponse.http)) =? Some 200%Z)
  && (response.(ProbeResponse.failed_stage) =? Stage.Complete).

Definition wolfssl_prefers_the_post_quantum_group_over_the_curve : bool :=
  let response := parse_wolfssl "wolfssl" (request ["mlkem768"] [])
    (text ["Using Post-Quantum KEM: ML_KEM_768"; "SSL version is TLSv1.3";
           "SSL cipher suite is TLS_AES_256_GCM_SHA384"; "SSL curve name is SECP384R1";
           "SSL connect ok, sending GET..."; "HTTP/1.0 200 ok"; ""; ""]) "" in
  response.(ProbeResponse.handshake_success)
  && (response.(ProbeResponse.negotiated).(Negotiated.group) =? Some "ML_KEM_768").

(** The request with another host and port. *)
Definition aimed (host : string) (port : Z) (r : ProbeRequest.t) : ProbeRequest.t := {|
  ProbeRequest.target := {| Target.host := host; Target.port := port;
    Target.sni := r.(ProbeRequest.target).(Target.sni);
    Target.http_path := r.(ProbeRequest.target).(Target.http_path) |};
  ProbeRequest.kem_groups := r.(ProbeRequest.kem_groups);
  ProbeRequest.sig_algs := r.(ProbeRequest.sig_algs);
  ProbeRequest.tls_versions := r.(ProbeRequest.tls_versions);
  ProbeRequest.cipher_suites := r.(ProbeRequest.cipher_suites);
  ProbeRequest.timeout_ms := r.(ProbeRequest.timeout_ms);
  ProbeRequest.capture := r.(ProbeRequest.capture) |}.

Definition mock_matches_the_lab_targets : bool :=
  let config := config "X25519MLKEM768,MLKEM768" in
  let ok := mock config (request ["X25519MLKEM768"] ["mldsa65"]) in
  let unknown_group := mock config (request ["mceliece460896"] ["mldsa65"]) in
  let broken := mock config (aimed "tls-vuln" 8888 (request ["X25519MLKEM768"] ["mldsa65"])) in
  ok.(ProbeResponse.handshake_success)
  && (ok.(ProbeResponse.evidence).(Evidence.bytes_sent) =? 9240%Z)
  && negb unknown_group.(ProbeResponse.handshake_success)
  && (broken.(ProbeResponse.error_summary) =? Some "InvalidTag:").

Definition http_block_parsing_stops_at_the_blank_line : bool :=
  match parse_http ("HTTP/1.1 404 Not Found" +:+ crlf +:+ "Server: nginx/1.28.1" +:+ crlf +:+ crlf
                    +:+ "body here") with
  | Some http =>
      (http.(HttpOutcome.status) =? 404%Z) && (length http.(HttpOutcome.headers) =? 1)
      && (http.(HttpOutcome.body_excerpt) =? Some "body here")
  | None => false
  end.

(** [main.rs]. *)
Definition capability_lists_tolerate_spacing_and_blanks : bool :=
  (split_list " a, b ,,c " =? ["a"; "b"; "c"]) && (split_list "" =? []).

Example adapter_tests_pass :
  [openssl_args_pin_groups_and_sigalgs; catalog_names_are_translated_per_stack;
   openssl_success_output_is_parsed; openssl_alert_number_becomes_a_name;
   classical_group_is_read_from_the_temp_key_line; nist_curves_report_the_curve_not_the_mechanism;
   placeholder_cipher_and_group_do_not_count_as_a_handshake;
   wolfssl_classical_probe_omits_the_pqc_flag; boringssl_summary_is_read_from_stderr;
   wolfssl_prefers_the_post_quantum_group_over_the_curve; mock_matches_the_lab_targets;
   http_block_parsing_stops_at_the_blank_line; capability_lists_tolerate_spacing_and_blanks]
  = replicate 13 true.
Proof. vm_compute. reflexivity. Qed.

End AdapterTests.
